(** * ghost-userspace: the CFS agent's run queue and the RocksDB dispatch orchestrator

    A shallow embedding of
      - [schedulers/cfs/cfs_scheduler.cc]  (module [Cfs]), and
      - [experiments/rocksdb/ghost_orchestrator.cc]  (module [Orchestrator]),
    with the properties of the specification stated and proved over it.

    Conventions of the embedding.
      - An [absl::Duration] is its count of ticks, a [Z]: Abseil keeps a
        quarter of a nanosecond.  The products, sums and the truncating
        quotient of the source are the ones of [Z] on the counts ([Z.quot]
        truncates toward zero, as the division of a duration by an integer
        does).
      - A [CfsTask*] is its address, a [Z]; the heap of tasks is a total
        function from addresses to task records.
      - A failed [CHECK] aborts the agent: every operation that can reach one
        returns an [option], [None] being the abort.
      - [CfsTaskState::Set] stores the state.  [AssertValidTransition] exists
        only in builds without NDEBUG; the embedding follows the NDEBUG build. *)

From Stdlib Require Import ZArith List Bool Lia.
Import ListNotations.

Local Open Scope Z_scope.

(** ** Ordered sets under a comparator

    [std::set<T, Cmp>] seen as the list of its elements in iteration order.
    [insert] and [erase(key)] search with the comparator only; two keys are
    equivalent when neither is less than the other. *)

Section OrderedSet.
Context {T : Type}.
Variable less : T -> T -> bool.

(** [rq_.insert(x)]: no insertion when an equivalent element is present. *)
Fixpoint set_insert (x : T) (l : list T) : list T :=
  match l with
  | [] => [x]
  | y :: l' =>
      if less x y then x :: l
      else if less y x then y :: set_insert x l'
      else l
  end.

(** [rq_.erase(x)], by key. *)
Fixpoint set_erase (x : T) (l : list T) : list T :=
  match l with
  | [] => []
  | y :: l' =>
      if less y x then y :: set_erase x l'
      else if less x y then l
      else l'
  end.

(** The representation invariant of the container: strictly increasing. *)
Fixpoint set_sorted (l : list T) : bool :=
  match l with
  | [] => true
  | x :: l' =>
      match l' with
      | [] => true
      | y :: _ => less x y && set_sorted l'
      end
  end.

(** [x] is below every element of [l]. *)
Definition set_below (x : T) (l : list T) : Prop :=
  forall y, In y l -> less x y = true.
End OrderedSet.

Module Cfs.

(** ** Data model *)

(** [absl::Duration], of the Abseil library: a count of ticks of a quarter
    of a nanosecond.  The sum, the difference, the product by an integer and
    the comparisons of durations are those of their counts; the quotient by
    an integer is the quotient of the count, truncated toward zero.  The
    durations here stay far from the ends of the range, where
    [absl::Duration] saturates. *)
Definition Duration := Z.

(** [absl::time_internal::kTicksPerNanosecond]. *)
Definition kTicksPerNanosecond : Z := 4.

(** A [CfsTask*]: the address of the task, which is its identity. *)
Definition TaskPtr := Z.

(** Modelled from the spec: [CfsTaskState] is declared in the header, which
    is missing.  Section 4.1: the four states of a task.  The source names
    one more enumerator, the count [kNumStates], which no task ever holds. *)
Inductive State : Type := kBlocked | kRunnable | kRunning | kDone.

Definition State_eqb (a b : State) : bool :=
  match a, b with
  | kBlocked, kBlocked | kRunnable, kRunnable
  | kRunning, kRunning | kDone, kDone => true
  | _, _ => false
  end.

(** Modelled from the spec: [CfsTask] is declared in the header, which is
    missing.  Section 3, and the fields that the source reads and writes.
    [status_word_runtime] is what [status_word.runtime()] returns: the
    kernel's running total, in nanoseconds, an unsigned 64-bit counter. *)
Record CfsTask : Type := mkCfsTask {
  cpu : Z;
  seqnum : Z;
  vruntime : Duration;
  runtime_at_first_pick_ns : Z;
  run_state : State;
  status_word_runtime : Z
}.

Definition Tasks := TaskPtr -> CfsTask.

Definition update (ts : Tasks) (t : TaskPtr) (v : CfsTask) : Tasks :=
  fun x => if Z.eqb x t then v else ts x.

Definition set_cpu (ts : Tasks) (t : TaskPtr) (c : Z) : Tasks :=
  update ts t (mkCfsTask c (seqnum (ts t)) (vruntime (ts t))
                 (runtime_at_first_pick_ns (ts t)) (run_state (ts t))
                 (status_word_runtime (ts t))).

Definition set_seqnum (ts : Tasks) (t : TaskPtr) (n : Z) : Tasks :=
  update ts t (mkCfsTask (cpu (ts t)) n (vruntime (ts t))
                 (runtime_at_first_pick_ns (ts t)) (run_state (ts t))
                 (status_word_runtime (ts t))).

Definition set_vruntime (ts : Tasks) (t : TaskPtr) (v : Duration) : Tasks :=
  update ts t (mkCfsTask (cpu (ts t)) (seqnum (ts t)) v
                 (runtime_at_first_pick_ns (ts t)) (run_state (ts t))
                 (status_word_runtime (ts t))).

Definition set_first_pick (ts : Tasks) (t : TaskPtr) (r : Z) : Tasks :=
  update ts t (mkCfsTask (cpu (ts t)) (seqnum (ts t)) (vruntime (ts t))
                 r (run_state (ts t)) (status_word_runtime (ts t))).

(** [task->run_state.Set(st)]. *)
Definition set_run_state (ts : Tasks) (t : TaskPtr) (st : State) : Tasks :=
  update ts t (mkCfsTask (cpu (ts t)) (seqnum (ts t)) (vruntime (ts t))
                 (runtime_at_first_pick_ns (ts t)) st
                 (status_word_runtime (ts t))).

(** The kernel advancing a task's status word. *)
Definition set_status_word_runtime (ts : Tasks) (t : TaskPtr) (r : Z) : Tasks :=
  update ts t (mkCfsTask (cpu (ts t)) (seqnum (ts t)) (vruntime (ts t))
                 (runtime_at_first_pick_ns (ts t)) (run_state (ts t)) r).

(** Modelled from the spec: [CfsTask::Less] and the declaration of [rq_] are in
    the header, which is missing.  Section 4.2: the queue is ordered by
    vruntime, ascending, ties broken by the task's identity; Enqueue inserts
    into the ordered set. *)
Definition Less (ts : Tasks) (a b : TaskPtr) : bool :=
  if vruntime (ts a) =? vruntime (ts b) then a <? b
  else vruntime (ts a) <? vruntime (ts b).

(** Modelled from the spec: [CfsRq] is declared in the header, which is
    missing.  Section 3, and the members that the source reads and writes;
    [rq_] is the ordered set, leftmost task first. *)
Record CfsRq : Type := mkCfsRq {
  min_vruntime_ : Duration;
  min_preemption_granularity_ : Duration;
  latency_ : Duration;
  rq_ : list TaskPtr
}.

(** Modelled from the spec: [CpuState] is declared in the header, which is
    missing.  Section 3: the current task, the preemption flag and the run
    queue of a CPU. *)
Record CpuState : Type := mkCpuState {
  current : option TaskPtr;
  preempt_curr : bool;
  run_queue : CfsRq
}.

Definition set_min_vruntime (q : CfsRq) (v : Duration) : CfsRq :=
  mkCfsRq v (min_preemption_granularity_ q) (latency_ q) (rq_ q).

Definition set_rq (q : CfsRq) (l : list TaskPtr) : CfsRq :=
  mkCfsRq (min_vruntime_ q) (min_preemption_granularity_ q) (latency_ q) l.

(** [CfsRq::CfsRq()], then [SetMinGranularity] and [SetLatency]. *)
Definition CfsRq_init (min_granularity latency : Duration) : CfsRq :=
  mkCfsRq 0 min_granularity latency [].

(** ** Run-queue operations *)

(** [CfsRq::MinPreemptionGranularity].  [absl::Nanoseconds(tasks - 1)] is
    [tasks - 1] nanoseconds, a count of tasks being far below 2^63; the
    division is that of [absl::Duration] by an integer. *)
Definition MinPreemptionGranularity (q : CfsRq) : Duration :=
  let tasks := Z.of_nat (length (rq_ q)) + 1 in
  if latency_ q <? tasks * min_preemption_granularity_ q
  then min_preemption_granularity_ q
  else Z.quot (latency_ q + kTicksPerNanosecond * (tasks - 1)) tasks.

(** The ceiling of the quotient of [a] by a positive [b], as the spec has it
    in [ceil(latency / n)]: the least [c] with [a <= c * b]. *)
Definition ceil_div (a b : Z) : Z := - ((- a) / b).

(** [CfsRq::InsertTaskIntoRq]: insert, then read the vruntime of [*rq_.begin()]. *)
Definition InsertTaskIntoRq (ts : Tasks) (t : TaskPtr) (q : CfsRq) : CfsRq :=
  let l := set_insert (Less ts) t (rq_ q) in
  match l with
  | leftmost :: _ => set_min_vruntime (set_rq q l) (vruntime (ts leftmost))
  | [] => set_rq q l
  end.

(** [CfsRq::EnqueueTask]. *)
Definition EnqueueTask (t : TaskPtr) (ts : Tasks) (q : CfsRq)
  : option (Tasks * CfsRq) :=
  if cpu (ts t) <? 0 then None
  else
    let ts1 := set_vruntime ts t (Z.max (min_vruntime_ q) (vruntime (ts t))) in
    let ts2 := set_run_state ts1 t kRunnable in
    Some (ts2, InsertTaskIntoRq ts2 t q).

(** [CfsRq::PutPrevTask]. *)
Definition PutPrevTask (t : TaskPtr) (ts : Tasks) (q : CfsRq) : option CfsRq :=
  if cpu (ts t) <? 0 then None
  else Some (InsertTaskIntoRq ts t q).

(** [CfsRq::Erase]: a task that is not in the queue is not an error. *)
Definition Erase (t : TaskPtr) (ts : Tasks) (q : CfsRq) : CfsRq :=
  set_rq q (set_erase (Less ts) t (rq_ q)).

(** [CfsRq::UpdateMinVruntime], on the queue of [cs]. *)
Definition UpdateMinVruntime (ts : Tasks) (cs : CpuState) : CpuState :=
  let q := run_queue cs in
  let leftmost := hd_error (rq_ q) in
  let curr :=
    match current cs with
    | Some c =>
        if State_eqb (run_state (ts c)) kRunnable
           || State_eqb (run_state (ts c)) kRunning
        then Some c else None
    | None => None
    end in
  let v0 := match curr with Some c => vruntime (ts c) | None => min_vruntime_ q end in
  let v :=
    match leftmost with
    | Some l =>
        match curr with
        | None => vruntime (ts l)
        | Some _ => Z.min v0 (vruntime (ts l))
        end
    | None => v0
    end in
  mkCpuState (current cs) (preempt_curr cs)
    (set_min_vruntime q (Z.max (min_vruntime_ q) v)).

(** The invariant of a run queue: the set is ordered, and no task in it has
    a vruntime below [min_vruntime_]. *)
Definition rq_ok (ts : Tasks) (q : CfsRq) : bool :=
  set_sorted (Less ts) (rq_ q)
  && forallb (fun x => min_vruntime_ q <=? vruntime (ts x)) (rq_ q).

(** ** The task allocator *)

(** Modelled from the spec: [TaskAllocator] belongs to the library, which
    is missing.  Sections 3 and 5: the allocator owns the task records and
    frees them; [freed] logs the calls of [FreeTask], oldest first. *)
Record Allocator : Type := mkAllocator {
  tasks : Tasks;
  freed : list TaskPtr
}.

Definition FreeTask (t : TaskPtr) (a : Allocator) : Allocator :=
  mkAllocator (tasks a) (freed a ++ [t]).

Definition with_tasks (a : Allocator) (ts : Tasks) : Allocator :=
  mkAllocator ts (freed a).

Definition with_run_queue (cs : CpuState) (q : CfsRq) : CpuState :=
  mkCpuState (current cs) (preempt_curr cs) q.

Definition with_preempt_curr (cs : CpuState) (b : bool) : CpuState :=
  mkCpuState (current cs) b (run_queue cs).

Definition with_current (cs : CpuState) (c : option TaskPtr) : CpuState :=
  mkCpuState c (preempt_curr cs) (run_queue cs).

(** The [switch (prev->run_state.Get())] that reconciles the run queue with
    what happened to the task that was on the CPU.  The source has it twice,
    with the same cases: in [CfsRq::PickNextTask] and in the [prio_boost]
    branch of [CfsScheduler::CfsSchedule]. *)
Definition reconcile_prev (prev : TaskPtr) (a : Allocator) (q : CfsRq)
  : option (Allocator * CfsRq) :=
  match run_state (tasks a prev) with
  | kBlocked => Some (a, q)
  | kDone => Some (FreeTask prev a, Erase prev (tasks a) q)
  | kRunnable =>
      match PutPrevTask prev (tasks a) q with
      | Some q' => Some (a, q')
      | None => None
      end
  | kRunning =>
      match PutPrevTask prev (tasks a) q with
      | Some q' => Some (with_tasks a (set_run_state (tasks a) prev kRunnable), q')
      | None => None
      end
  end.

(** The test that opens [PickNextTask]: [prev] can just keep running. *)
Definition keeps_running (prev : option TaskPtr) (ts : Tasks) (cs : CpuState) : bool :=
  match prev with
  | Some p => State_eqb (run_state (ts p)) kRunning && negb (preempt_curr cs)
  | None => false
  end.

(** The second half of [PickNextTask], from [if (rq_.empty())] on: nothing
    to run, or the leftmost task, which leaves the queue. *)
Definition pick_leftmost (a : Allocator) (cs : CpuState)
  : Allocator * CpuState * option TaskPtr :=
  match rq_ (run_queue cs) with
  | [] => (a, UpdateMinVruntime (tasks a) cs, None)
  | task :: rest =>
      let ts1 := set_run_state (tasks a) task kRunning in
      let ts2 := set_first_pick ts1 task (status_word_runtime (ts1 task)) in
      (with_tasks a ts2,
       UpdateMinVruntime ts2 (with_run_queue cs (set_rq (run_queue cs) rest)),
       Some task)
  end.

(** [CfsRq::PickNextTask(prev, allocator, cs)], called on [cs->run_queue]. *)
Definition PickNextTask (prev : option TaskPtr) (a : Allocator) (cs : CpuState)
  : option (Allocator * CpuState * option TaskPtr) :=
  if keeps_running prev (tasks a) cs then Some (a, cs, prev)
  else
    let cs0 := with_preempt_curr cs false in
    match prev with
    | Some p =>
        match reconcile_prev p a (run_queue cs0) with
        | Some (a1, q1) => Some (pick_leftmost a1 (with_run_queue cs0 q1))
        | None => None
        end
    | None => Some (pick_leftmost a cs0)
    end.

(** ** The scheduler *)

(** What [Channel::AssociateTask] answers: success, or failure with [errno]
    [ESTALE] (the barrier is stale), or failure with another [errno]. *)
Inductive AssociateResult : Type :=
| AssociateOk
| AssociateStale
| AssociateError (errno : Z).

(** Calls into the kernel, logged oldest first. *)
Inductive KernelCall : Type :=
| CallAssociateTask (cpu : nat) (task : TaskPtr) (barrier : Z)
| CallPing (cpu : nat)
| CallOpen (cpu : nat) (target : TaskPtr) (target_barrier agent_barrier : Z)
| CallCommit (cpu : nat) (ok : bool)
| CallLocalYield (cpu : nat) (agent_barrier : Z) (rtla_on_idle : bool).

(** [CfsScheduler]: the allocator, the per-CPU states, the CpuList, and the
    function-local static iterator [next] of [SelectTaskRq], kept as an index
    into the CpuList ([length cpus] is [end]). *)
Record Sched : Type := mkSched {
  allocator : Allocator;
  cpu_states : nat -> CpuState;
  cpus : list nat;
  select_next : nat;
  calls : list KernelCall
}.

Definition with_allocator (s : Sched) (a : Allocator) : Sched :=
  mkSched a (cpu_states s) (cpus s) (select_next s) (calls s).

Definition with_cpu_state (s : Sched) (c : nat) (cs : CpuState) : Sched :=
  mkSched (allocator s)
    (fun x => if Nat.eqb x c then cs else cpu_states s x)
    (cpus s) (select_next s) (calls s).

Definition with_select_next (s : Sched) (n : nat) : Sched :=
  mkSched (allocator s) (cpu_states s) (cpus s) n (calls s).

Definition call (k : KernelCall) (s : Sched) : Sched :=
  mkSched (allocator s) (cpu_states s) (cpus s) (select_next s) (calls s ++ [k]).

(** [PingCpu]. *)
Definition PingCpu (c : nat) (s : Sched) : Sched := call (CallPing c) s.

(** Modelled from the spec: the constructor of [CfsTask] is in the header,
    which is missing.  Section 3: a task that was not migrated yet has
    [cpu = -1]; section 4.1: the first state is kBlocked. *)
Definition new_task : CfsTask := mkCfsTask (-1) 0 0 0 kBlocked 0.

(** [CfsScheduler::CfsScheduler]: every run queue is empty, with the two
    tuning knobs set. *)
Definition CfsScheduler (cpulist : list nat) (min_granularity latency : Duration)
  : Sched :=
  mkSched (mkAllocator (fun _ => new_task) [])
    (fun _ => mkCpuState None false (CfsRq_init min_granularity latency))
    cpulist (length cpulist) [].

(** Modelled from the spec: [cpu_state_of] is in the header, which is missing.
    Section 3: [cpu] is the owning CPU, or -1; a task without a CPU has no
    CpuState, and asking for it aborts. *)
Definition cpu_state_of (ts : Tasks) (t : TaskPtr) : option nat :=
  if cpu (ts t) <? 0 then None else Some (Z.to_nat (cpu (ts t))).

(** [CfsScheduler::SelectTaskRq]: round robin over the CpuList. *)
Definition SelectTaskRq (s : Sched) : option (nat * Sched) :=
  let i := if Nat.eqb (select_next s) (length (cpus s)) then 0%nat
           else select_next s in
  match nth_error (cpus s) i with
  | Some c => Some (c, with_select_next s (S i))
  | None => None
  end.

(** [CfsScheduler::Migrate].  [answer] is what the kernel answers to the call
    of [AssociateTask]. *)
Definition Migrate (t : TaskPtr) (c : nat) (seq : Z) (answer : AssociateResult)
    (s : Sched) : option Sched :=
  if negb (cpu (tasks (allocator s) t) =? -1) then None
  else
    let s1 := call (CallAssociateTask c t seq) s in
    match answer with
    | AssociateOk =>
        let ts1 := set_cpu (tasks (allocator s1)) t (Z.of_nat c) in
        match EnqueueTask t ts1 (run_queue (cpu_states s1 c)) with
        | Some (ts2, q) =>
            let s2 := with_allocator s1 (with_tasks (allocator s1) ts2) in
            let s3 := with_cpu_state s2 c (with_run_queue (cpu_states s2 c) q) in
            Some (PingCpu c s3)
        | None => None
        end
    | AssociateStale => None
    | AssociateError _ => None
    end.

(** The loop of [CfsScheduler::EnclaveReady] for one agent:
    [while (!AssociateTask(...)) CHECK_EQ(errno, ESTALE);].  [answers] are the
    kernel's answers to the successive calls.  The result is the number of
    calls made when the loop ends, [None] when a [CHECK] fails; a loop that
    the answers given do not end has made them all. *)
Fixpoint associate_agent (answers : list AssociateResult) (made : nat)
  : option nat :=
  match answers with
  | [] => Some made
  | AssociateOk :: _ => Some (S made)
  | AssociateStale :: rest => associate_agent rest (S made)
  | AssociateError _ :: _ => None
  end.

(** [cs->current == task]. *)
Definition is_current (cs : CpuState) (t : TaskPtr) : bool :=
  match current cs with
  | Some x => Z.eqb x t
  | None => false
  end.

Definition set_task_state (t : TaskPtr) (st : State) (s : Sched) : Sched :=
  with_allocator s
    (with_tasks (allocator s) (set_run_state (tasks (allocator s)) t st)).

Definition set_task_seqnum (t : TaskPtr) (seq : Z) (s : Sched) : Sched :=
  with_allocator s
    (with_tasks (allocator s) (set_seqnum (tasks (allocator s)) t seq)).

(** [CfsScheduler::TaskNew]. *)
Definition TaskNew (t : TaskPtr) (seq : Z) (runnable : bool)
    (answer : AssociateResult) (s : Sched) : option Sched :=
  let s1 := set_task_seqnum t seq s in
  let s2 := set_task_state t kBlocked s1 in
  if runnable then
    match SelectTaskRq s2 with
    | Some (c, s3) => Migrate t c seq answer s3
    | None => None
    end
  else Some s2.

(** [CfsScheduler::TaskRunnable]. *)
Definition TaskRunnable (t : TaskPtr) (seq : Z) (answer : AssociateResult)
    (s : Sched) : option Sched :=
  if cpu (tasks (allocator s) t) <? 0 then
    match SelectTaskRq s with
    | Some (c, s1) => Migrate t c seq answer s1
    | None => None
    end
  else
    match cpu_state_of (tasks (allocator s)) t with
    | None => None
    | Some c =>
        let cs := cpu_states s c in
        if is_current cs t then Some (set_task_state t kRunnable s)
        else
          match EnqueueTask t (tasks (allocator s)) (run_queue cs) with
          | Some (ts1, q) =>
              Some (with_cpu_state
                      (with_allocator s (with_tasks (allocator s) ts1))
                      c (with_run_queue cs q))
          | None => None
          end
    end.

(** [CfsScheduler::HandleTaskDone]. *)
Definition HandleTaskDone (t : TaskPtr) (from_switchto : bool) (s : Sched)
  : option Sched :=
  match cpu_state_of (tasks (allocator s)) t with
  | None => None
  | Some c =>
      let cs := cpu_states s c in
      let prev_state := run_state (tasks (allocator s) t) in
      let s1 := set_task_state t kDone s in
      if (State_eqb prev_state kRunning || from_switchto)
         || State_eqb prev_state kRunnable
         || State_eqb prev_state kBlocked
      then
        if is_current cs t then Some s1
        else
          let ts1 := tasks (allocator s1) in
          let q := Erase t ts1 (run_queue cs) in
          let a2 := FreeTask t (allocator s1) in
          Some (with_cpu_state (with_allocator s1 a2) c
                  (UpdateMinVruntime ts1 (with_run_queue cs q)))
      else Some s1
  end.

Definition ping_if (b : bool) (c : nat) (s : Sched) : Sched :=
  if b then PingCpu c s else s.

(** [CfsScheduler::TaskDeparted]. *)
Definition TaskDeparted (t : TaskPtr) (c : nat) (from_switchto : bool)
    (s : Sched) : option Sched :=
  match HandleTaskDone t from_switchto s with
  | Some s1 => Some (ping_if from_switchto c s1)
  | None => None
  end.

(** [CfsScheduler::TaskDead]. *)
Definition TaskDead (t : TaskPtr) (s : Sched) : option Sched :=
  HandleTaskDone t false s.

(** [CfsScheduler::TaskYield]. *)
Definition TaskYield (t : TaskPtr) (c : nat) (from_switchto : bool)
    (s : Sched) : option Sched :=
  if is_current (cpu_states s c) t
  then Some (ping_if from_switchto c (set_task_state t kRunnable s))
  else None.

(** [CfsScheduler::TaskBlocked]. *)
Definition TaskBlocked (t : TaskPtr) (c : nat) (from_switchto : bool)
    (s : Sched) : option Sched :=
  if is_current (cpu_states s c) t
  then Some (ping_if from_switchto c (set_task_state t kBlocked s))
  else None.

(** [CfsScheduler::TaskPreempted]. *)
Definition TaskPreempted (t : TaskPtr) (c : nat) (from_switchto : bool)
    (s : Sched) : option Sched :=
  if is_current (cpu_states s c) t
  then Some (ping_if from_switchto c s)
  else None.

(** [CfsScheduler::TaskSwitchto]. *)
Definition TaskSwitchto (t : TaskPtr) (s : Sched) : option Sched :=
  match cpu_state_of (tasks (allocator s)) t with
  | Some _ => Some (set_task_state t kBlocked s)
  | None => None
  end.

(** Unsigned 64-bit subtraction, and [absl::Nanoseconds] of an unsigned
    64-bit count (which it takes as an [int64_t]). *)
Definition uint64_sub (a b : Z) : Z := (a - b) mod 2 ^ 64.

Definition Nanoseconds (n : Z) : Duration :=
  kTicksPerNanosecond * (if n <? 2 ^ 63 then n else n - 2 ^ 64).

(** [CfsScheduler::CheckPreemptTick]. *)
Definition CheckPreemptTick (c : nat) (s : Sched) : Sched :=
  let cs := cpu_states s c in
  match current cs with
  | Some cur =>
      let ts := tasks (allocator s) in
      if MinPreemptionGranularity (run_queue cs)
         <? Nanoseconds (uint64_sub (status_word_runtime (ts cur))
                                    (runtime_at_first_pick_ns (ts cur)))
      then with_cpu_state s c (with_preempt_curr cs true)
      else s
  | None => s
  end.

(** [CfsScheduler::CpuTick]. *)
Definition CpuTick (c : nat) (s : Sched) : Sched := CheckPreemptTick c s.

(** [CfsScheduler::CfsSchedule].  [commit_ok] is what [req->Commit()] returns,
    and [runtime_after] what the status word of the task shows then. *)
Definition CfsSchedule (c : nat) (agent_barrier : Z) (prio_boost : bool)
    (commit_ok : bool) (runtime_after : Z) (s : Sched) : option Sched :=
  let cs := cpu_states s c in
  let prev := current cs in
  if prio_boost then
    match prev with
    | Some p =>
        match reconcile_prev p (allocator s) (run_queue cs) with
        | Some (a1, q1) =>
            let cs1 := with_current
                         (with_preempt_curr (with_run_queue cs q1) false) None in
            Some (call (CallLocalYield c agent_barrier true)
                    (with_cpu_state (with_allocator s a1) c
                       (UpdateMinVruntime (tasks a1) cs1)))
        | None => None
        end
    | None => Some (call (CallLocalYield c agent_barrier true) s)
    end
  else
    match PickNextTask prev (allocator s) cs with
    | None => None
    | Some (a1, cs1, next) =>
        let s1 := with_cpu_state (with_allocator s a1) c (with_current cs1 next) in
        match next with
        | Some n =>
            let s2 := call (CallOpen c n (seqnum (tasks a1 n)) agent_barrier) s1 in
            let before_runtime := status_word_runtime (tasks a1 n) in
            let s3 := call (CallCommit c commit_ok) s2 in
            if commit_ok then
              let ts := set_status_word_runtime (tasks a1) n runtime_after in
              let delta := uint64_sub (status_word_runtime (ts n)) before_runtime in
              Some (with_allocator s3
                      (with_tasks a1
                         (set_vruntime ts n (vruntime (ts n) + Nanoseconds delta))))
            else Some s3
        | None => Some (call (CallLocalYield c agent_barrier false) s1)
        end
    end.

(** The messages of the kernel, with the fields of their payloads that the
    handlers read. *)
Inductive Message : Type :=
| MSG_TASK_NEW (t : TaskPtr) (seq : Z) (runnable : bool)
| MSG_TASK_WAKEUP (t : TaskPtr) (seq : Z)
| MSG_TASK_BLOCKED (t : TaskPtr) (seq : Z) (c : nat) (from_switchto : bool)
| MSG_TASK_YIELD (t : TaskPtr) (seq : Z) (c : nat) (from_switchto : bool)
| MSG_TASK_PREEMPT (t : TaskPtr) (seq : Z) (c : nat) (from_switchto : bool)
| MSG_TASK_SWITCHTO (t : TaskPtr) (seq : Z)
| MSG_TASK_DEPARTED (t : TaskPtr) (seq : Z) (c : nat) (from_switchto : bool)
| MSG_TASK_DEAD (t : TaskPtr) (seq : Z)
| MSG_CPU_TICK (c : nat).

(** Modelled from the spec: [DispatchMessage] belongs to the base class of
    the scheduler, which is missing.  Section 4.3: the dispatcher assigns the
    seqnum of the message to the task, then routes the message to its
    handler.  [answer] is the kernel's answer to [AssociateTask], should the
    handler migrate the task. *)
Definition DispatchMessage (m : Message) (answer : AssociateResult) (s : Sched)
  : option Sched :=
  match m with
  | MSG_TASK_NEW t seq runnable =>
      TaskNew t seq runnable answer (set_task_seqnum t seq s)
  | MSG_TASK_WAKEUP t seq => TaskRunnable t seq answer (set_task_seqnum t seq s)
  | MSG_TASK_BLOCKED t seq c sw => TaskBlocked t c sw (set_task_seqnum t seq s)
  | MSG_TASK_YIELD t seq c sw => TaskYield t c sw (set_task_seqnum t seq s)
  | MSG_TASK_PREEMPT t seq c sw => TaskPreempted t c sw (set_task_seqnum t seq s)
  | MSG_TASK_SWITCHTO t seq => TaskSwitchto t (set_task_seqnum t seq s)
  | MSG_TASK_DEPARTED t seq c sw => TaskDeparted t c sw (set_task_seqnum t seq s)
  | MSG_TASK_DEAD t seq => TaskDead t (set_task_seqnum t seq s)
  | MSG_CPU_TICK c => Some (CpuTick c s)
  end.

(** What happens to a scheduler, one step at a time: a message is
    dispatched, the kernel advances the status word of a task, or an agent
    reaches [CfsSchedule]. *)
Inductive Event : Type :=
| Deliver (m : Message) (answer : AssociateResult)
| StatusWord (t : TaskPtr) (runtime : Z)
| Decide (c : nat) (agent_barrier : Z) (prio_boost commit_ok : bool)
         (runtime_after : Z).

Definition step (e : Event) (s : Sched) : option Sched :=
  match e with
  | Deliver m answer => DispatchMessage m answer s
  | StatusWord t r =>
      Some (with_allocator s
              (with_tasks (allocator s)
                 (set_status_word_runtime (tasks (allocator s)) t r)))
  | Decide c b boost ok r => CfsSchedule c b boost ok r s
  end.

Fixpoint run (es : list Event) (s : Sched) : option Sched :=
  match es with
  | [] => Some s
  | e :: es' =>
      match step e s with
      | Some s' => run es' s'
      | None => None
      end
  end.

(** [CfsScheduler::Schedule] on the CPU [c]: the messages waiting on the
    channel are dispatched in order, then [CfsSchedule] decides. *)
Definition Schedule (c : nat) (msgs : list (Message * AssociateResult))
    (agent_barrier : Z) (boosted_priority commit_ok : bool) (runtime_after : Z)
    (s : Sched) : option Sched :=
  run (map (fun m => Deliver (fst m) (snd m)) msgs
         ++ [Decide c agent_barrier boosted_priority commit_ok runtime_after]) s.

(** ** The life of a task, as the messages tell it *)

(** What the scheduler shows of a task. *)
Definition state_of (s : Sched) (t : TaskPtr) : State :=
  run_state (tasks (allocator s) t).

Definition cpu_of (s : Sched) (t : TaskPtr) : Z := cpu (tasks (allocator s) t).

Definition rq_of (s : Sched) (c : nat) : list TaskPtr :=
  rq_ (run_queue (cpu_states s c)).

Definition current_of (s : Sched) (c : nat) : option TaskPtr :=
  current (cpu_states s c).

(** How many times [FreeTask] was called on [t]. *)
Definition freed_count (s : Sched) (t : TaskPtr) : nat :=
  count_occ Z.eq_dec (freed (allocator s)) t.

(** Where the messages of one task stand: none yet, TaskNew seen, TaskDead
    seen. *)
Inductive Phase : Type := Unborn | Alive | Dead.

(** The sequences of messages of the task [t] that section 8 speaks of:
    TaskNew, then messages of a task that lives (Runnable and Blocked; Yield,
    Preempted and Switchto are let in too), then TaskDead, and no more.
    Messages of other tasks, ticks, and what the kernel and the agents do in
    between are not constrained. *)
Definition lifecycle_step (t : TaskPtr) (ph : Phase) (e : Event) : option Phase :=
  match e with
  | Deliver (MSG_TASK_NEW u _ _) _ =>
      if Z.eqb u t then match ph with Unborn => Some Alive | _ => None end
      else Some ph
  | Deliver (MSG_TASK_WAKEUP u _) _
  | Deliver (MSG_TASK_BLOCKED u _ _ _) _
  | Deliver (MSG_TASK_YIELD u _ _ _) _
  | Deliver (MSG_TASK_PREEMPT u _ _ _) _
  | Deliver (MSG_TASK_SWITCHTO u _) _ =>
      if Z.eqb u t then match ph with Alive => Some Alive | _ => None end
      else Some ph
  | Deliver (MSG_TASK_DEAD u _) _ =>
      if Z.eqb u t then match ph with Alive => Some Dead | _ => None end
      else Some ph
  | Deliver (MSG_TASK_DEPARTED u _ _ _) _ =>
      if Z.eqb u t then None else Some ph
  | Deliver (MSG_CPU_TICK _) _ => Some ph
  | StatusWord _ _ => Some ph
  | Decide _ _ _ _ _ => Some ph
  end.

Fixpoint lifecycle (t : TaskPtr) (ph : Phase) (es : list Event) : option Phase :=
  match es with
  | [] => Some ph
  | e :: es' =>
      match lifecycle_step t ph e with
      | Some ph' => lifecycle t ph' es'
      | None => None
      end
  end.

(** Wherever [t] is, in a run queue or on a CPU, it is on the CPU it was
    migrated to. *)
Definition placed_ok (t : TaskPtr) (s : Sched) : Prop :=
  forall c, current_of s c = Some t \/ In t (rq_of s c) ->
            cpu_of s t = Z.of_nat c.

(** [t] is done and not freed: it is the current task of its CPU, and the
    next [CfsSchedule] there has to free it. *)
Definition free_pending (t : TaskPtr) (s : Sched) : Prop :=
  freed_count s t = 0%nat /\ state_of s t = kDone /\ placed_ok t s /\
  exists c, cpu_of s t = Z.of_nat c /\ current_of s c = Some t.

(** [t] was freed, once, and no CPU holds it as a current task that is done. *)
Definition freed_once (t : TaskPtr) (s : Sched) : Prop :=
  freed_count s t = 1%nat /\
  forall c, current_of s c = Some t -> state_of s t <> kDone.

(** What a handler of a message of the task [u] leaves as it was: the
    current tasks, and for every other task its state, its CPU, its count of
    frees; no other task enters a run queue. *)
Definition others_kept (u : TaskPtr) (s s' : Sched) : Prop :=
  (forall c, current_of s' c = current_of s c) /\
  (forall x, x <> u ->
     state_of s' x = state_of s x /\
     cpu_of s' x = cpu_of s x /\
     freed_count s' x = freed_count s x /\
     forall c, In x (rq_of s' c) -> In x (rq_of s c)).

(** What a handler of a message of a task that lives does to that task: it
    is not freed, it does not become kDone, it enters no run queue but the
    one of its CPU, and its CPU changes only when it had none. *)
Definition self_alive (u : TaskPtr) (s s' : Sched) : Prop :=
  freed_count s' u = freed_count s u /\
  (state_of s' u = kDone -> state_of s u = kDone) /\
  (forall c, In u (rq_of s' c) -> In u (rq_of s c) \/ cpu_of s' u = Z.of_nat c) /\
  (cpu_of s' u = cpu_of s u \/ cpu_of s u < 0).

(** What holds of [t] in each phase. *)
Definition lifecycle_inv (t : TaskPtr) (ph : Phase) (s : Sched) : Prop :=
  match ph with
  | Unborn =>
      freed_count s t = 0%nat /\
      forall c, current_of s c <> Some t /\ ~ In t (rq_of s c)
  | Alive =>
      freed_count s t = 0%nat /\ state_of s t <> kDone /\ placed_ok t s
  | Dead => freed_once t s \/ free_pending t s
  end.

(** What holds of a scheduler in every state it reaches: every task is
    placed on its CPU, the current task of a CPU is not in its run queue, and
    every run queue satisfies its invariant. *)
Definition sched_ok (s : Sched) : Prop :=
  (forall u, placed_ok u s) /\
  (forall c p, current_of s c = Some p -> ~ In p (rq_of s c)) /\
  (forall c, rq_ok (tasks (allocator s)) (run_queue (cpu_states s c)) = true).

(** The [min_vruntime_] of the run queue of the CPU [c]. *)
Definition min_vruntime_of (c : nat) (s : Sched) : Duration :=
  min_vruntime_ (run_queue (cpu_states s c)).


(** The claim of the spec on a stale barrier, for one call of [Migrate]: it
    is not fatal. *)
Definition stale_barrier_is_retried (t : TaskPtr) (c : nat) (seq : Z) (s : Sched)
  : Prop :=
  cpu (tasks (allocator s) t) = -1 ->
  Migrate t c seq AssociateStale s <> None.

(** ** Further functions and views of the scheduler *)

(** [n] calls of [SelectTaskRq] in a row: the CPUs returned, first call
    first. *)
Fixpoint select_many (n : nat) (s : Sched) : option (list nat * Sched) :=
  match n with
  | O => Some ([], s)
  | S n' =>
      match SelectTaskRq s with
      | Some (c, s1) =>
          match select_many n' s1 with
          | Some (l, s2) => Some (c :: l, s2)
          | None => None
          end
      | None => None
      end
  end.

(** What became of code that waits on the kernel: it returned, a [CHECK]
    failed, or it was still going round its loop when the answers that were
    given ran out. *)
Inductive Outcome (A : Type) : Type :=
| Finished (a : A)
| Aborted
| Waiting (a : A).
Arguments Finished {A} a.
Arguments Aborted {A}.
Arguments Waiting {A} a.

(** The [while] loop of [EnclaveReady] for the agent of the CPU [c]: every
    turn reads the barrier of the agent and calls [AssociateTask] with it.
    [attempts] gives, turn by turn, the barrier read and the kernel's
    answer. *)
Fixpoint EnclaveReady_agent (c : nat) (gtid : Z)
    (attempts : list (Z * AssociateResult)) (s : Sched) : Outcome Sched :=
  match attempts with
  | [] => Waiting s
  | (barrier, answer) :: rest =>
      let s1 := call (CallAssociateTask c gtid barrier) s in
      match answer with
      | AssociateOk => Finished s1
      | AssociateStale => EnclaveReady_agent c gtid rest s1
      | AssociateError _ => Aborted
      end
  end.

(** The [for] loop of [EnclaveReady] over the CPUs [l]. *)
Fixpoint EnclaveReady_cpus (l : list nat) (gtid : nat -> Z)
    (attempts : nat -> list (Z * AssociateResult)) (s : Sched) : Outcome Sched :=
  match l with
  | [] => Finished s
  | c :: l' =>
      match EnclaveReady_agent c (gtid c) (attempts c) s with
      | Finished s1 => EnclaveReady_cpus l' gtid attempts s1
      | Aborted => Aborted
      | Waiting s1 => Waiting s1
      end
  end.

(** [CfsScheduler::EnclaveReady].  [gtid c] is the agent of the CPU [c]. *)
Definition EnclaveReady (gtid : nat -> Z)
    (attempts : nat -> list (Z * AssociateResult)) (s : Sched) : Outcome Sched :=
  EnclaveReady_cpus (cpus s) gtid attempts s.

(** The scheduler after the calls [l] into the kernel. *)
Definition called (l : list KernelCall) (s : Sched) : Sched :=
  mkSched (allocator s) (cpu_states s) (cpus s) (select_next s) (calls s ++ l).

(** The calls of [AssociateTask] that the agent of [c] makes with the
    barriers [barriers], one after the other. *)
Definition associate_calls (gtid : nat -> Z) (c : nat) (barriers : list Z)
  : list KernelCall :=
  map (fun b => CallAssociateTask c (gtid c) b) barriers.

(** Attempts that meet stale barriers, then the answer [final]. *)
Definition stale_then (stale : list Z) (last : Z) (final : AssociateResult)
    (rest : list (Z * AssociateResult)) : list (Z * AssociateResult) :=
  map (fun b => (b, AssociateStale)) stale ++ (last, final) :: rest.

(** The tasks that want the CPU [c]: those of its run queue, and its current
    task when it is runnable or running. *)
Definition contender (s : Sched) (c : nat) (x : TaskPtr) : Prop :=
  In x (rq_of s c) \/
  (current_of s c = Some x /\
   (state_of s x = kRunnable \/ state_of s x = kRunning)).

(** Modelled from the spec: [CfsRq::Empty] is in the header, which is
    missing.  Section 4.6: at shutdown every run queue has to be empty.
    [CfsScheduler::ValidatePreExitState]: the [CHECK] that the run queue of
    every CPU of the list is empty. *)
Definition ValidatePreExitState (s : Sched) : option unit :=
  if forallb (fun c => match rq_ (run_queue (cpu_states s c)) with
                       | [] => true
                       | _ :: _ => false
                       end) (cpus s)
  then Some tt else None.

(** The tasks that wait in the run queues are runnable or blocked: none of
    them runs, none is done. *)
Definition queues_hold_waiting (s : Sched) : Prop :=
  forall c x, In x (rq_of s c) ->
              state_of s x = kRunnable \/ state_of s x = kBlocked.

(** The iterator of [SelectTaskRq] stands inside the CpuList or at its end,
    and a task has a CPU or none yet: its [cpu] is never below -1. *)
Definition placement_ok (s : Sched) : Prop :=
  (select_next s <= length (cpus s))%nat /\
  forall t, cpu_of s t = -1 \/ 0 <= cpu_of s t.

(** The messages that stop the agent, by the [CHECK] that each handler
    makes: a new runnable task that has a CPU already or that the kernel
    does not associate; a wakeup of a task without a CPU that the kernel
    does not associate; a task that blocks, yields or is preempted and is
    not the current task of the CPU named; a task that switches, departs or
    dies and has no CPU, so no CpuState. *)
Definition refused (m : Message) (answer : AssociateResult) (s : Sched) : Prop :=
  match m with
  | MSG_TASK_NEW t _ runnable =>
      runnable = true /\ (cpu_of s t <> -1 \/ answer <> AssociateOk)
  | MSG_TASK_WAKEUP t _ => cpu_of s t < 0 /\ answer <> AssociateOk
  | MSG_TASK_BLOCKED t _ c _
  | MSG_TASK_YIELD t _ c _
  | MSG_TASK_PREEMPT t _ c _ => current_of s c <> Some t
  | MSG_TASK_SWITCHTO t _
  | MSG_TASK_DEPARTED t _ _ _
  | MSG_TASK_DEAD t _ => cpu_of s t < 0
  | MSG_CPU_TICK _ => False
  end.

End Cfs.

Module Orchestrator.

(** ** Data model *)

(** [std::memory_order] of the accesses to [num_requests]. *)
Inductive memory_order : Type :=
| memory_order_relaxed
| memory_order_acquire
| memory_order_release.

(** Modelled from the spec: the options are declared with [Orchestrator],
    which is missing.  Section 6: workers wait on the priority table of
    ghOSt, or on a futex. *)
Inductive GhostWaitType : Type := kPrioTable | kFutex.

(** Modelled from the spec: [Orchestrator::Options] is missing.  Section 6:
    the number of workers, the largest batch, and the way of waiting. *)
Record Options : Type := mkOptions {
  num_workers : nat;
  batch : nat;
  ghost_wait_type : GhostWaitType
}.

(** Modelled from the spec: [Request] is declared in a file that is missing.
    A request and the three time stamps that the source writes; [body]
    stands for the query. *)
Record Request : Type := mkRequest {
  body : Z;
  request_assigned : Z;
  request_start : Z;
  request_finished : Z
}.

(** Modelled from the spec: [WorkerWork] is declared in a file that is
    missing.  Section 3: the atomic [num_requests] and the vector of pending
    requests. *)
Record WorkerWork : Type := mkWorkerWork {
  num_requests : nat;
  requests : list Request
}.

(** Modelled from the spec: [ghost::sched_item] is declared in a header of
    the kernel, which is missing.  Section 6: sid, wcid, gpid, flags with the
    RUNNABLE bit, deadline. *)
Record sched_item : Type := mkSchedItem {
  sid : nat;
  wcid : Z;
  gpid : Z;
  flags : Z;
  deadline : Z
}.

(** Modelled from the spec: the macro is defined in a header of the kernel,
    which is missing.  Section 6: the RUNNABLE bit of the flags; it is taken
    to be bit 0. *)
Definition SCHED_ITEM_RUNNABLE : Z := 1.

(** What a thread does that another thread, or the kernel, can observe, in
    program order. *)
Inductive Effect : Type :=
| Printf (sid : nat)
| NumRequestsLoad (sid : nat) (order : memory_order)
| NumRequestsStore (sid : nat) (n : nat) (order : memory_order)
| RequestHandled (sid : nat) (r : Request)
| LatencyRecorded (sid : nat) (r : Request)
| SchedItemSet (sid : nat) (si : sched_item)
| PrioTableMarkIdle (sid : nat)
| PrioTableWaitUntilRunnable (sid : nat)
| FutexMarkRunnable (sid : nat)
| FutexMarkIdle (sid : nat)
| FutexWaitUntilRunnable (sid : nat)
| SchedSetAffinity (sid : nat)
| ThreadsReadyWait
| NetworkStart.

(** [GhostOrchestrator] and what it inherits from [Orchestrator].
    [clock] counts the readings of the clock: the k-th reading returns k. *)
Record Orch : Type := mkOrch {
  options : Options;
  worker_work : nat -> WorkerWork;
  prio_table : nat -> sched_item;
  thread_wait : nat -> bool;
  idle_sids_ : list nat;
  first_run : nat -> bool;
  ingress : list Request;
  recorded : nat -> list Request;
  clock : Z;
  effects : list Effect
}.

Definition UsesPrioTable (s : Orch) : bool :=
  match ghost_wait_type (options s) with kPrioTable => true | kFutex => false end.

Definition UsesFutex (s : Orch) : bool :=
  match ghost_wait_type (options s) with kPrioTable => false | kFutex => true end.

Definition fupd {A : Type} (f : nat -> A) (i : nat) (v : A) : nat -> A :=
  fun x => if Nat.eqb x i then v else f x.

Definition emit (e : Effect) (s : Orch) : Orch :=
  mkOrch (options s) (worker_work s) (prio_table s) (thread_wait s)
    (idle_sids_ s) (first_run s) (ingress s) (recorded s) (clock s)
    (effects s ++ [e]).

Definition set_worker_work (i : nat) (w : WorkerWork) (s : Orch) : Orch :=
  mkOrch (options s) (fupd (worker_work s) i w) (prio_table s) (thread_wait s)
    (idle_sids_ s) (first_run s) (ingress s) (recorded s) (clock s) (effects s).

Definition set_prio_table (i : nat) (si : sched_item) (s : Orch) : Orch :=
  mkOrch (options s) (worker_work s) (fupd (prio_table s) i si) (thread_wait s)
    (idle_sids_ s) (first_run s) (ingress s) (recorded s) (clock s) (effects s).

Definition set_thread_wait (i : nat) (b : bool) (s : Orch) : Orch :=
  mkOrch (options s) (worker_work s) (prio_table s) (fupd (thread_wait s) i b)
    (idle_sids_ s) (first_run s) (ingress s) (recorded s) (clock s) (effects s).

Definition set_idle_sids (l : list nat) (s : Orch) : Orch :=
  mkOrch (options s) (worker_work s) (prio_table s) (thread_wait s)
    l (first_run s) (ingress s) (recorded s) (clock s) (effects s).

Definition set_first_run (i : nat) (s : Orch) : Orch :=
  mkOrch (options s) (worker_work s) (prio_table s) (thread_wait s)
    (idle_sids_ s) (fupd (first_run s) i true) (ingress s) (recorded s)
    (clock s) (effects s).

Definition set_ingress (l : list Request) (s : Orch) : Orch :=
  mkOrch (options s) (worker_work s) (prio_table s) (thread_wait s)
    (idle_sids_ s) (first_run s) l (recorded s) (clock s) (effects s).

Definition record_request (i : nat) (r : Request) (s : Orch) : Orch :=
  mkOrch (options s) (worker_work s) (prio_table s) (thread_wait s)
    (idle_sids_ s) (first_run s) (ingress s)
    (fupd (recorded s) i (recorded s i ++ [r])) (clock s) (effects s).

(** [num_requests.store(n, order)] of the worker [i]. *)
Definition store_num_requests (i n : nat) (order : memory_order) (s : Orch)
  : Orch :=
  emit (NumRequestsStore i n order)
    (set_worker_work i (mkWorkerWork n (requests (worker_work s i))) s).

(** [v[i] = x]; the index is in range wherever the source writes. *)
Fixpoint replace_nth {A : Type} (i : nat) (x : A) (l : list A) : list A :=
  match l, i with
  | [], _ => []
  | _ :: l', O => x :: l'
  | y :: l', S i' => y :: replace_nth i' x l'
  end.

(** [absl::Now()] and [ghost::MonotonicNow()]. *)
Definition Now (s : Orch) : Z * Orch :=
  (clock s,
   mkOrch (options s) (worker_work s) (prio_table s) (thread_wait s)
     (idle_sids_ s) (first_run s) (ingress s) (recorded s) (clock s + 1)
     (effects s)).

(** ** The priority table and the futexes *)

(** Modelled from the spec: [PrioTableHelper::IsIdle] is missing.  Sections
    4.7 and 6: a worker is idle in the table when the RUNNABLE flag of its
    sched item is not set. *)
Definition IsIdle (s : Orch) (i : nat) : bool :=
  Z.land (flags (prio_table s i)) SCHED_ITEM_RUNNABLE =? 0.

(** Modelled from the spec: [PrioTableHelper::MarkIdle] is missing.  Section
    4.7: the worker marks itself idle in the table; the RUNNABLE flag is
    cleared. *)
Definition PrioTable_MarkIdle (i : nat) (s : Orch) : Orch :=
  let si := prio_table s i in
  emit (PrioTableMarkIdle i)
    (set_prio_table i
       (mkSchedItem (sid si) (wcid si) (gpid si)
          (Z.land (flags si) (Z.lnot SCHED_ITEM_RUNNABLE)) (deadline si)) s).

(** Modelled from the spec: [PrioTableHelper::WaitUntilRunnable] is missing.
    Section 4.7: the worker waits until it is marked runnable. *)
Definition PrioTable_WaitUntilRunnable (i : nat) (s : Orch) : Orch :=
  emit (PrioTableWaitUntilRunnable i) s.

(** Modelled from the spec: [ThreadWait::MarkRunnable] is missing.  Sections
    3 and 4.7: the futex of a worker holds its runnable flag. *)
Definition ThreadWait_MarkRunnable (i : nat) (s : Orch) : Orch :=
  emit (FutexMarkRunnable i) (set_thread_wait i true s).

(** Modelled from the spec: [ThreadWait::MarkIdle] is missing.  Section 4.7:
    marking idle does not wait. *)
Definition ThreadWait_MarkIdle (i : nat) (s : Orch) : Orch :=
  emit (FutexMarkIdle i) (set_thread_wait i false s).

(** Modelled from the spec: [ThreadWait::WaitUntilRunnable] is missing.
    Section 4.7: the worker waits on its futex. *)
Definition ThreadWait_WaitUntilRunnable (i : nat) (s : Orch) : Orch :=
  emit (FutexWaitUntilRunnable i) s.

(** The deadline given to a batch: 100 microseconds from now. *)
Definition deadline_ns : Z := 100000.

(** ** Reading the effects *)

(** The effect marks the worker [w] runnable: its sched item is written with
    the RUNNABLE bit set, or its futex is marked runnable. *)
Definition marks_runnable (w : nat) (e : Effect) : bool :=
  match e with
  | SchedItemSet i si =>
      Nat.eqb i w && negb (Z.land (flags si) SCHED_ITEM_RUNNABLE =? 0)
  | FutexMarkRunnable i => Nat.eqb i w
  | _ => false
  end.

(** The effects of processing the requests [reqs], one after the other, by
    the worker [i]; [recs] are the copies recorded with their time stamps. *)
Definition processing (i : nat) (reqs recs : list Request) : list Effect :=
  flat_map (fun rr => [RequestHandled i (fst rr); LatencyRecorded i (snd rr)])
    (combine reqs recs).

(** The effects of the first lines of [Worker]. *)
Definition first_run_effects (s : Orch) (i : nat) : list Effect :=
  if first_run s i then []
  else Printf i ::
       match ghost_wait_type (options s) with
       | kPrioTable => []
       | kFutex => [FutexWaitUntilRunnable i]
       end.

(** How a worker ends a batch, as section 4.7 orders it for each way of
    waiting. *)
Definition finish_order (wait : GhostWaitType) (i : nat) : list Effect :=
  match wait with
  | kPrioTable =>
      [NumRequestsStore i 0 memory_order_release;
       PrioTableMarkIdle i;
       PrioTableWaitUntilRunnable i]
  | kFutex =>
      [FutexMarkIdle i;
       NumRequestsStore i 0 memory_order_release;
       FutexWaitUntilRunnable i]
  end.

Section Handlers.
(** What [Orchestrator::HandleRequest] makes of a request, and
    [PrioTableHelper::ToRawDeadline]: both are in files that are missing. *)
Variable HandleRequest : Request -> Request.
Variable ToRawDeadline : Z -> Z.

(** ** The load generator *)

(** [GhostOrchestrator::SkipIdleWorker]. *)
Definition SkipIdleWorker (s : Orch) (worker_sid : nat) : bool :=
  if UsesPrioTable s then negb (IsIdle s worker_sid) else false.

(** One turn of the loop of [GetIdleWorkerSIDs], for the worker [i]. *)
Definition collect_idle (s : Orch) (i : nat) : Orch :=
  let worker_sid := S i in
  let s1 := emit (NumRequestsLoad worker_sid memory_order_acquire) s in
  if Nat.eqb (num_requests (worker_work s1 worker_sid)) 0
     && negb (SkipIdleWorker s1 worker_sid)
  then set_idle_sids (idle_sids_ s1 ++ [worker_sid]) s1
  else s1.

(** [GhostOrchestrator::GetIdleWorkerSIDs]. *)
Definition GetIdleWorkerSIDs (s : Orch) : Orch :=
  fold_left collect_idle (seq 0 (num_workers (options s)))
    (set_idle_sids [] s).

(** The loop that polls at most [n] requests from the ingress queue into
    the batch of a worker, stamping each with the time it is assigned. *)
Fixpoint poll_batch (n : nat) (worker_sid : nat) (s : Orch) : Orch :=
  match n with
  | O => s
  | S n' =>
      match ingress s with
      | request :: rest =>
          let s1 := set_ingress rest s in
          let (now, s2) := Now s1 in
          let request' := mkRequest (body request) now
                            (request_start request) (request_finished request) in
          let w := worker_work s2 worker_sid in
          poll_batch n' worker_sid
            (set_worker_work worker_sid
               (mkWorkerWork (num_requests w) (requests w ++ [request'])) s2)
      | [] => s
      end
  end.

(** The end of a turn of the loop of [LoadGenerator]: the worker is marked
    runnable, in the priority table (after the [CHECK] that it is idle
    there) or on its futex. *)
Definition make_runnable (worker_sid : nat) (s : Orch) : option Orch :=
  if UsesPrioTable s then
    if IsIdle s worker_sid then
      let si := prio_table s worker_sid in
      let (now, s1) := Now s in
      let si' := mkSchedItem (sid si) (wcid si) (gpid si)
                   (Z.lor (flags si) SCHED_ITEM_RUNNABLE)
                   (ToRawDeadline (now + deadline_ns)) in
      Some (emit (SchedItemSet worker_sid si') (set_prio_table worker_sid si' s1))
    else None
  else Some (ThreadWait_MarkRunnable worker_sid s).

(** The loop of [LoadGenerator] over the idle workers; [n] turns are left,
    and [idle_sids_] holds [n] workers at least, so that [front()] has a
    worker to return. *)
Fixpoint assign_batches (n : nat) (s : Orch) : option Orch :=
  match n with
  | O => Some s
  | S n' =>
      match idle_sids_ s with
      | [] => None
      | worker_sid :: rest_sids =>
          let s1 := emit (NumRequestsLoad worker_sid memory_order_relaxed) s in
          if negb (Nat.eqb (num_requests (worker_work s1 worker_sid)) 0) then None
          else
            let s2 := set_worker_work worker_sid
                        (mkWorkerWork (num_requests (worker_work s1 worker_sid)) [])
                        s1 in
            let s3 := poll_batch (batch (options s2)) worker_sid s2 in
            let w := worker_work s3 worker_sid in
            match requests w with
            | [] => Some s3
            | _ :: _ =>
                let s4 := set_idle_sids rest_sids s3 in
                if Nat.ltb (batch (options s4)) (length (requests w)) then None
                else
                  let s5 := store_num_requests worker_sid (length (requests w))
                              memory_order_release s4 in
                  match make_runnable worker_sid s5 with
                  | Some s6 => assign_batches n' s6
                  | None => None
                  end
            end
      end
  end.

(** [GhostOrchestrator::LoadGenerator]. *)
Definition LoadGenerator (sid : nat) (s : Orch) : option Orch :=
  let s1 :=
    if first_run s sid then s
    else
      let s' := emit ThreadsReadyWait
                  (emit (Printf sid)
                     (emit (SchedSetAffinity sid) (set_first_run sid s))) in
      let (_, s'') := Now s' in
      emit NetworkStart s'' in
  let s2 := GetIdleWorkerSIDs s1 in
  assign_batches (length (idle_sids_ s2)) s2.

(** ** The workers *)

(** The loop of [Worker] over the requests of its batch: the request at
    index [i] is stamped, handled and stamped again in place, and a copy
    goes to the records of the worker; [turns] turns are left. *)
Fixpoint handle_batch (sid : nat) (turns i : nat) (s : Orch) : Orch :=
  match turns with
  | O => s
  | S turns' =>
      let work := worker_work s sid in
      match nth_error (requests work) i with
      | None => s
      | Some request =>
          let (start, s1) := Now s in
          let handled := HandleRequest
                           (mkRequest (body request) (request_assigned request)
                              start (request_finished request)) in
          let s2 := emit (RequestHandled sid request) s1 in
          let (finished, s3) := Now s2 in
          let request' := mkRequest (body handled) (request_assigned handled)
                            (request_start handled) finished in
          let s4 := set_worker_work sid
                      (mkWorkerWork (num_requests work)
                         (replace_nth i request' (requests work))) s3 in
          handle_batch sid turns' (S i)
            (emit (LatencyRecorded sid request') (record_request sid request' s4))
      end
  end.

(** The first lines of [Worker]: what a worker does the first time only. *)
Definition worker_first_run (sid : nat) (s : Orch) : Orch :=
  if first_run s sid then s
  else
    let s1 := emit (Printf sid) (set_first_run sid s) in
    if UsesFutex s1 then ThreadWait_WaitUntilRunnable sid s1 else s1.

(** [GhostOrchestrator::Worker]. *)
Definition Worker (sid : nat) (s : Orch) : option Orch :=
  let s1 := worker_first_run sid s in
  let s2 := emit (NumRequestsLoad sid memory_order_acquire) s1 in
  let work := worker_work s2 sid in
  let n := num_requests work in
  if Nat.eqb n 0 then Some s2
  else if Nat.ltb (batch (options s2)) n then None
  else if negb (Nat.eqb n (length (requests work))) then None
  else
    let s3 := handle_batch sid n 0 s2 in
    if UsesPrioTable s3 then
      let s4 := store_num_requests sid 0 memory_order_release s3 in
      Some (PrioTable_WaitUntilRunnable sid (PrioTable_MarkIdle sid s4))
    else
      let s4 := ThreadWait_MarkIdle sid s3 in
      let s5 := store_num_requests sid 0 memory_order_release s4 in
      Some (ThreadWait_WaitUntilRunnable sid s5).
End Handlers.

(** The worker [w] was marked runnable and has not marked itself idle since:
    on the priority table the RUNNABLE bit of its sched item is set, on the
    futexes its flag is. *)
Definition awake (s : Orch) (w : nat) : bool :=
  if UsesPrioTable s then negb (IsIdle s w) else thread_wait s w.

(** The workers that a pass of the load generator finds idle in [s]: those
    of the SIDs 1 to [num_workers] whose [num_requests] is 0 and that
    [SkipIdleWorker] does not skip, in the order of their SIDs. *)
Definition idle_workers (s : Orch) : list nat :=
  filter (fun w => Nat.eqb (num_requests (worker_work s w)) 0
                   && negb (SkipIdleWorker s w))
    (seq 1 (num_workers (options s))).

(** ** Setting up the priority table *)

(** Modelled from the spec: [ghost::work_class] is declared in a header of
    the kernel, which is missing.  Section 6: id, flags, qos, exectime,
    period. *)
Record work_class : Type := mkWorkClass {
  wc_id : Z;
  wc_flags : Z;
  wc_qos : Z;
  wc_exectime : Z;
  wc_period : Z
}.

(** [total_threads()]: the constructor of [GhostOrchestrator] passes
    [opts.num_workers + 1] to [Orchestrator], to account for the load
    generator. *)
Definition total_threads (s : Orch) : nat := num_workers (options s) + 1.

Section Init.

(** [kWorkClassIdentifier], [WORK_CLASS_ONESHOT] and [options().ghost_qos]
    are declared in files that are missing. *)
Variable kWorkClassIdentifier : Z.
Variable WORK_CLASS_ONESHOT : Z.
Variable ghost_qos : Z.

(** One turn of the loop of [InitPrioTable], for the sched item [i];
    [gtids] are the GTIDs of the threads of the pool. *)
Definition init_sched_item (gtids : list Z) (s : Orch) (i : nat) : Orch :=
  let si := prio_table s i in
  let si' := mkSchedItem i kWorkClassIdentifier (nth i gtids 0%Z) 0 0 in
  emit (SchedItemSet i si') (set_prio_table i si' s).

(** [GhostOrchestrator::InitPrioTable]; [wc] is the work class that
    [GetWorkClass] reads, and the work class returned is the one that
    [SetWorkClass] writes. *)
Definition InitPrioTable (gtids : list Z) (wc : work_class) (s : Orch)
  : option (work_class * Orch) :=
  if negb (UsesPrioTable s) then None
  else if negb (Nat.eqb (length gtids) (total_threads s)) then None
  else
    let wc' := mkWorkClass kWorkClassIdentifier WORK_CLASS_ONESHOT ghost_qos
                 100 0 in
    Some (wc', fold_left (init_sched_item gtids) (seq 1 (length gtids - 1)) s).

End Init.

End Orchestrator.

(** * Ordered sets: insertion, erasure and the leftmost element *)

Section OrderedSetFacts.
Context {T : Type}.
Variable less : T -> T -> bool.

Lemma In_set_insert (x y : T) (l : list T) :
  In y (set_insert less x l) -> y = x \/ In y l.
Proof.
  induction l as [|z l IH]; simpl.
  - intros [H|[]]; auto.
  - destruct (less x z).
    + simpl. intros [H|[H|H]]; auto.
    + destruct (less z x); simpl; [|tauto].
      intros [H|H]; auto. apply IH in H. tauto.
Qed.

Lemma In_set_insert_old (x y : T) (l : list T) :
  In y l -> In y (set_insert less x l).
Proof.
  induction l as [|z l IH]; simpl; [tauto|].
  intros Hy. destruct (less x z); [simpl; auto|].
  destruct (less z x); simpl; [|assumption].
  destruct Hy; auto.
Qed.

Lemma In_set_erase (x y : T) (l : list T) :
  In y (set_erase less x l) -> In y l.
Proof.
  induction l as [|z l IH]; simpl; [tauto|].
  destruct (less z x); simpl.
  - intros [H|H]; auto.
  - destruct (less x z); simpl; auto.
Qed.

Lemma set_insert_not_empty (x : T) (l : list T) : set_insert less x l <> [].
Proof.
  destruct l as [|z l]; simpl; [discriminate|].
  destruct (less x z); [discriminate|].
  destruct (less z x); discriminate.
Qed.

Lemma set_sorted_tail (x : T) (l : list T) :
  set_sorted less (x :: l) = true -> set_sorted less l = true.
Proof.
  simpl. destruct l; [reflexivity|].
  intros H. apply andb_true_iff in H. tauto.
Qed.

Lemma set_sorted_insert (x : T) (l : list T) :
  set_sorted less l = true -> set_sorted less (set_insert less x l) = true.
Proof.
  induction l as [|z l IH]; [reflexivity|].
  intros Hs. cbn [set_insert].
  destruct (less x z) eqn:Hxz.
  - cbn [set_sorted]. rewrite Hxz. exact Hs.
  - destruct (less z x) eqn:Hzx; [|exact Hs].
    specialize (IH (set_sorted_tail _ _ Hs)).
    cbn [set_sorted].
    destruct (set_insert less x l) as [|w l'] eqn:Hins; [reflexivity|].
    rewrite IH, andb_true_r.
    destruct l as [|v l0].
    + simpl in Hins. injection Hins as <- _. exact Hzx.
    + cbn [set_sorted] in Hs. apply andb_true_iff in Hs. destruct Hs as [Hzv _].
      cbn [set_insert] in Hins.
      destruct (less x v); [injection Hins as <- _; exact Hzx|].
      destruct (less v x); injection Hins as <- _; exact Hzv.
Qed.

Hypothesis less_irrefl : forall a, less a a = false.
Hypothesis less_trans :
  forall a b c, less a b = true -> less b c = true -> less a c = true.
Hypothesis less_total :
  forall a b, less a b = false -> less b a = false -> a = b.

Lemma set_sorted_below (x : T) (l : list T) :
  set_sorted less (x :: l) = true -> set_below less x l.
Proof.
  revert x. induction l as [|z l IH]; intros x Hs y Hy; [destruct Hy|].
  cbn [set_sorted] in Hs. apply andb_true_iff in Hs. destruct Hs as [Hxz Hs].
  destruct Hy as [<-|Hy]; [assumption|].
  apply (less_trans x z y Hxz). exact (IH z Hs y Hy).
Qed.

Lemma set_sorted_head_not_in (x : T) (l : list T) :
  set_sorted less (x :: l) = true -> ~ In x l.
Proof.
  intros Hs Hin. apply set_sorted_below in Hs.
  specialize (Hs x Hin). rewrite less_irrefl in Hs. discriminate.
Qed.

Lemma set_sorted_NoDup (l : list T) : set_sorted less l = true -> NoDup l.
Proof.
  induction l as [|x l IH]; intros Hs; constructor.
  - apply set_sorted_head_not_in; assumption.
  - apply IH. exact (set_sorted_tail _ _ Hs).
Qed.

Lemma In_set_insert_new (x : T) (l : list T) : In x (set_insert less x l).
Proof.
  induction l as [|z l IH]; simpl; [auto|].
  destruct (less x z) eqn:Hxz; [simpl; auto|].
  destruct (less z x) eqn:Hzx; simpl; [auto|].
  left. symmetry. apply less_total; assumption.
Qed.

Lemma set_insert_present (x : T) (l : list T) :
  set_sorted less l = true -> In x l -> set_insert less x l = l.
Proof.
  induction l as [|z l IH]; intros Hs Hin; [destruct Hin|].
  cbn [set_insert].
  destruct Hin as [->|Hin].
  - rewrite less_irrefl. reflexivity.
  - pose proof (set_sorted_below _ _ Hs x Hin) as Hzx.
    destruct (less x z) eqn:Hxz.
    + pose proof (less_trans _ _ _ Hxz Hzx) as Hxx.
      rewrite less_irrefl in Hxx. discriminate.
    + rewrite Hzx. f_equal. apply IH; [|assumption].
      exact (set_sorted_tail _ _ Hs).
Qed.

Lemma set_sorted_erase (x : T) (l : list T) :
  set_sorted less l = true -> set_sorted less (set_erase less x l) = true.
Proof.
  induction l as [|z l IH]; [reflexivity|].
  intros Hs. cbn [set_erase].
  destruct (less z x) eqn:Hzx.
  - specialize (IH (set_sorted_tail _ _ Hs)).
    cbn [set_sorted].
    destruct (set_erase less x l) as [|w l'] eqn:Her; [reflexivity|].
    rewrite IH, andb_true_r.
    apply (set_sorted_below _ _ Hs).
    apply (In_set_erase x). rewrite Her. left. reflexivity.
  - destruct (less x z); [assumption|].
    exact (set_sorted_tail _ _ Hs).
Qed.

Lemma In_set_erase_iff (x y : T) (l : list T) :
  set_sorted less l = true ->
  (In y (set_erase less x l) <-> In y l /\ y <> x).
Proof.
  induction l as [|z l IH]; intros Hs; [simpl; tauto|].
  pose proof (set_sorted_below _ _ Hs) as Hbelow.
  pose proof (set_sorted_head_not_in _ _ Hs) as Hnotin.
  specialize (IH (set_sorted_tail _ _ Hs)).
  cbn [set_erase].
  destruct (less z x) eqn:Hzx.
  - simpl. rewrite IH. split.
    + intros [<-|[H1 H2]]; [|tauto].
      split; [auto|]. intros ->. rewrite less_irrefl in Hzx. discriminate.
    + intros [[H|H] Hne]; auto.
  - destruct (less x z) eqn:Hxz.
    + split; [|tauto]. intros Hy. split; [assumption|].
      intros ->. destruct Hy as [->|Hy].
      * rewrite less_irrefl in Hxz. discriminate.
      * specialize (Hbelow x Hy). congruence.
    + assert (x = z) as -> by (apply less_total; assumption).
      simpl. split.
      * intros Hy. split; [auto|]. intros ->. exact (Hnotin Hy).
      * intros [[H|H] Hne]; [congruence|assumption].
Qed.
End OrderedSetFacts.

Section OrderedSetExt.
Context {T : Type}.
Variables less less' : T -> T -> bool.

Lemma set_sorted_ext (l : list T) :
  (forall a b, In a l -> In b l -> less a b = less' a b) ->
  set_sorted less l = set_sorted less' l.
Proof.
  induction l as [|x l IH]; intros Hext; [reflexivity|].
  cbn [set_sorted]. destruct l as [|y l]; [reflexivity|].
  rewrite IH by (intros; apply Hext; right; assumption).
  rewrite (Hext x y); simpl; auto.
Qed.

Lemma set_insert_ext (x : T) (l : list T) :
  (forall a b, less a b = less' a b) ->
  set_insert less x l = set_insert less' x l.
Proof.
  intros Hext. induction l as [|y l IH]; [reflexivity|].
  cbn [set_insert]. rewrite !Hext, IH. reflexivity.
Qed.

Lemma set_erase_ext (x : T) (l : list T) :
  (forall a b, less a b = less' a b) ->
  set_erase less x l = set_erase less' x l.
Proof.
  intros Hext. induction l as [|y l IH]; [reflexivity|].
  cbn [set_erase]. rewrite !Hext, IH. reflexivity.
Qed.
End OrderedSetExt.

(** * Properties of the CFS run queue and scheduler *)

Module CfsProps.
Import Cfs.

(** ** The preemption granularity *)

Lemma ceil_div_bounds (a b : Z) :
  0 < b -> (ceil_div a b - 1) * b < a <= ceil_div a b * b.
Proof.
  intros Hb. unfold ceil_div.
  pose proof (Z.div_mod (- a) b ltac:(lia)) as Hdm.
  pose proof (Z.mod_pos_bound (- a) b Hb) as Hm.
  nia.
Qed.

Lemma ceil_div_unique (a b c : Z) :
  0 < b -> (c - 1) * b < a <= c * b -> c = ceil_div a b.
Proof.
  intros Hb Hc. pose proof (ceil_div_bounds a b Hb) as Hd. nia.
Qed.

(** When the tasks share the latency, the slice is the quotient of the
    latency by their number, or above it by less than a nanosecond for each
    task but one. *)
Lemma MinPreemptionGranularity_shared (q : CfsRq) :
  let tasks := Z.of_nat (length (rq_ q)) + 1 in
  0 <= latency_ q ->
  tasks * min_preemption_granularity_ q <= latency_ q ->
  latency_ q <= tasks * MinPreemptionGranularity q /\
  tasks * MinPreemptionGranularity q
    <= latency_ q + kTicksPerNanosecond * (tasks - 1).
Proof.
  intros tasks Hlat Hshare. unfold MinPreemptionGranularity. fold tasks.
  assert (Ht : 0 < tasks) by (unfold tasks; lia).
  destruct (Z.ltb_spec (latency_ q) (tasks * min_preemption_granularity_ q));
    [lia|].
  unfold kTicksPerNanosecond.
  rewrite Z.quot_div_nonneg by lia.
  pose proof (Z.div_mod (latency_ q + 4 * (tasks - 1)) tasks ltac:(lia)) as Hdm.
  pose proof (Z.mod_pos_bound (latency_ q + 4 * (tasks - 1)) tasks Ht) as Hm.
  nia.
Qed.

(** For a latency of [L] whole nanoseconds the slice is the ceiling of
    [L / tasks] nanoseconds, or more by less than a nanosecond. *)
Lemma MinPreemptionGranularity_near_ceiling (q : CfsRq) (L : Z) :
  let tasks := Z.of_nat (length (rq_ q)) + 1 in
  0 <= L ->
  latency_ q = kTicksPerNanosecond * L ->
  tasks * min_preemption_granularity_ q <= latency_ q ->
  kTicksPerNanosecond * ceil_div L tasks <= MinPreemptionGranularity q
  /\ MinPreemptionGranularity q < kTicksPerNanosecond * (ceil_div L tasks + 1).
Proof.
  intros tasks HL Hlat Hshare.
  assert (Ht : 0 < tasks) by (unfold tasks; lia).
  destruct (MinPreemptionGranularity_shared q) as [Hlow Hhigh];
    [rewrite Hlat; unfold kTicksPerNanosecond; lia|exact Hshare|].
  fold tasks in Hlow, Hhigh. rewrite Hlat in Hlow, Hhigh.
  pose proof (ceil_div_bounds L tasks Ht) as Hc.
  unfold kTicksPerNanosecond in *.
  unfold MinPreemptionGranularity in *. fold tasks in Hlow, Hhigh |- *.
  rewrite Hlat in *.
  destruct (Z.ltb_spec (4 * L) (tasks * min_preemption_granularity_ q)); [lia|].
  unfold kTicksPerNanosecond in *.
  rewrite Z.quot_div_nonneg in * by lia.
  pose proof (Z.div_mod (4 * L + 4 * (tasks - 1)) tasks ltac:(lia)) as Hdm.
  pose proof (Z.mod_pos_bound (4 * L + 4 * (tasks - 1)) tasks Ht) as Hm.
  set (v := (4 * L + 4 * (tasks - 1)) / tasks) in *.
  set (c := ceil_div L tasks) in *.
  split.
  - apply Z.nlt_ge. intros Hlt. nia.
  - apply Z.nle_gt. intros Hge. nia.
Qed.

(** C3.  A latency of 6 ms and a min_granularity of 1 ms, with two tasks in
    the run queue: three tasks share the latency.  The ceiling of the
    quotient is 2 ms.  [MinPreemptionGranularity] returns two ticks, half a
    nanosecond, more: it adds [tasks - 1] nanoseconds before it divides,
    which rounds up a quotient of whole nanoseconds, and [absl::Duration]
    divides quarters of a nanosecond. *)
Theorem MinPreemptionGranularity_above_ceiling :
  let q := mkCfsRq 0 (Nanoseconds 1000000) (Nanoseconds 6000000) [1; 2] in
  ceil_div 6000000 3 = 2000000 /\
  MinPreemptionGranularity q = Nanoseconds 2000000 + 2 /\
  MinPreemptionGranularity q <> Nanoseconds (ceil_div 6000000 3).
Proof.
  split; [reflexivity|]. split; [reflexivity|]. vm_compute. discriminate.
Qed.

(** C9.  For a min_granularity and a latency that are not negative, whatever
    the size of the run queue, [MinPreemptionGranularity] is at least
    [min_granularity]. *)
Theorem MinPreemptionGranularity_at_least_min (q : CfsRq) :
  0 <= min_preemption_granularity_ q ->
  0 <= latency_ q ->
  min_preemption_granularity_ q <= MinPreemptionGranularity q.
Proof.
  intros Hmin Hlat.
  set (tasks := Z.of_nat (length (rq_ q)) + 1).
  assert (Ht : 0 < tasks) by (unfold tasks; lia).
  destruct (Z.ltb_spec (latency_ q) (tasks * min_preemption_granularity_ q))
    as [Hcmp|Hcmp].
  - unfold MinPreemptionGranularity. fold tasks.
    apply Z.ltb_lt in Hcmp. rewrite Hcmp. lia.
  - destruct (MinPreemptionGranularity_shared q Hlat Hcmp) as [Hlow _].
    fold tasks in Hlow. nia.
Qed.

Lemma MinPreemptionGranularity_at_least_min_witness :
  let q := mkCfsRq 0 1000000 10000000 [1; 2; 3; 4; 5; 6] in
  min_preemption_granularity_ q <= MinPreemptionGranularity q.
Proof.
  apply (MinPreemptionGranularity_at_least_min
           (mkCfsRq 0 1000000 10000000 [1; 2; 3; 4; 5; 6]));
    vm_compute; discriminate.
Defined.

(** ** The order of the run queue *)

Lemma Less_irrefl (ts : Tasks) (a : TaskPtr) : Less ts a a = false.
Proof. unfold Less. rewrite Z.eqb_refl. apply Z.ltb_irrefl. Qed.

Lemma Less_trans (ts : Tasks) (a b c : TaskPtr) :
  Less ts a b = true -> Less ts b c = true -> Less ts a c = true.
Proof.
  unfold Less.
  destruct (Z.eqb_spec (vruntime (ts a)) (vruntime (ts b)));
    destruct (Z.eqb_spec (vruntime (ts b)) (vruntime (ts c)));
    destruct (Z.eqb_spec (vruntime (ts a)) (vruntime (ts c)));
    rewrite ?Z.ltb_lt; lia.
Qed.

Lemma Less_total (ts : Tasks) (a b : TaskPtr) :
  Less ts a b = false -> Less ts b a = false -> a = b.
Proof.
  unfold Less.
  destruct (Z.eqb_spec (vruntime (ts a)) (vruntime (ts b)));
    destruct (Z.eqb_spec (vruntime (ts b)) (vruntime (ts a)));
    rewrite ?Z.ltb_ge; lia.
Qed.

Lemma Less_le (ts : Tasks) (a b : TaskPtr) :
  Less ts a b = true -> vruntime (ts a) <= vruntime (ts b).
Proof.
  unfold Less.
  destruct (Z.eqb_spec (vruntime (ts a)) (vruntime (ts b)));
    rewrite ?Z.ltb_lt; lia.
Qed.

Lemma Less_ext (ts ts' : Tasks) (a b : TaskPtr) :
  vruntime (ts' a) = vruntime (ts a) ->
  vruntime (ts' b) = vruntime (ts b) ->
  Less ts' a b = Less ts a b.
Proof. unfold Less. intros -> ->. reflexivity. Qed.

(** The facts on ordered sets, for the order of the run queue. *)
Lemma rq_insert_new ts t l : In t (set_insert (Less ts) t l).
Proof. exact (In_set_insert_new _ (Less_irrefl ts) (Less_total ts) t l). Qed.

Lemma rq_below ts x l :
  set_sorted (Less ts) (x :: l) = true -> set_below (Less ts) x l.
Proof. exact (set_sorted_below _ (Less_trans ts) x l). Qed.

Lemma rq_head_not_in ts x l :
  set_sorted (Less ts) (x :: l) = true -> ~ In x l.
Proof. exact (set_sorted_head_not_in _ (Less_irrefl ts) (Less_trans ts) x l). Qed.

Lemma rq_insert_present ts x l :
  set_sorted (Less ts) l = true -> In x l -> set_insert (Less ts) x l = l.
Proof. exact (set_insert_present _ (Less_irrefl ts) (Less_trans ts) x l). Qed.

Lemma rq_erase_sorted ts x l :
  set_sorted (Less ts) l = true ->
  set_sorted (Less ts) (set_erase (Less ts) x l) = true.
Proof. exact (set_sorted_erase _ (Less_trans ts) x l). Qed.

Lemma rq_erase_iff ts x y l :
  set_sorted (Less ts) l = true ->
  (In y (set_erase (Less ts) x l) <-> In y l /\ y <> x).
Proof.
  exact (In_set_erase_iff _ (Less_irrefl ts) (Less_trans ts) (Less_total ts) x y l).
Qed.

(** The leftmost task of an ordered queue has the least vruntime. *)
Lemma leftmost_least (ts : Tasks) (x : TaskPtr) (l : list TaskPtr) :
  set_sorted (Less ts) (x :: l) = true ->
  forall y, In y (x :: l) -> vruntime (ts x) <= vruntime (ts y).
Proof.
  intros Hs y [<-|Hy]; [lia|].
  apply Less_le. exact (rq_below _ _ _ Hs y Hy).
Qed.

(** ** Reading the task records after an update *)

Ltac store_cases x t :=
  unfold set_cpu, set_seqnum, set_vruntime, set_first_pick, set_run_state,
    set_status_word_runtime, update;
  destruct (Z.eqb_spec x t); subst; simpl; try reflexivity; try congruence.

Lemma set_run_state_vruntime ts t st x :
  vruntime (set_run_state ts t st x) = vruntime (ts x).
Proof. store_cases x t. Qed.

Lemma set_run_state_cpu ts t st x :
  cpu (set_run_state ts t st x) = cpu (ts x).
Proof. store_cases x t. Qed.

Lemma set_run_state_same ts t st : run_state (set_run_state ts t st t) = st.
Proof. store_cases t t. Qed.

Lemma set_run_state_other ts t st x :
  x <> t -> set_run_state ts t st x = ts x.
Proof. intros H. store_cases x t. Qed.

Lemma set_first_pick_vruntime ts t r x :
  vruntime (set_first_pick ts t r x) = vruntime (ts x).
Proof. store_cases x t. Qed.

Lemma set_first_pick_cpu ts t r x :
  cpu (set_first_pick ts t r x) = cpu (ts x).
Proof. store_cases x t. Qed.

Lemma set_first_pick_run_state ts t r x :
  run_state (set_first_pick ts t r x) = run_state (ts x).
Proof. store_cases x t. Qed.

Lemma set_first_pick_same ts t r :
  runtime_at_first_pick_ns (set_first_pick ts t r t) = r.
Proof. store_cases t t. Qed.

Lemma set_vruntime_same ts t v : vruntime (set_vruntime ts t v t) = v.
Proof. store_cases t t. Qed.

Lemma set_vruntime_other ts t v x : x <> t -> set_vruntime ts t v x = ts x.
Proof. intros H. store_cases x t. Qed.

Lemma set_vruntime_run_state ts t v x :
  run_state (set_vruntime ts t v x) = run_state (ts x).
Proof. store_cases x t. Qed.

Lemma set_vruntime_cpu ts t v x : cpu (set_vruntime ts t v x) = cpu (ts x).
Proof. store_cases x t. Qed.

(** ** Insertion into the run queue *)

Lemma rq_ok_sorted ts q : rq_ok ts q = true -> set_sorted (Less ts) (rq_ q) = true.
Proof. unfold rq_ok. intros H. apply andb_true_iff in H. tauto. Qed.

Lemma rq_ok_min ts q x :
  rq_ok ts q = true -> In x (rq_ q) -> min_vruntime_ q <= vruntime (ts x).
Proof.
  unfold rq_ok. intros H Hin. apply andb_true_iff in H. destruct H as [_ H].
  rewrite forallb_forall in H. apply Z.leb_le. exact (H x Hin).
Qed.

Lemma rq_ok_intro ts q :
  set_sorted (Less ts) (rq_ q) = true ->
  (forall x, In x (rq_ q) -> min_vruntime_ q <= vruntime (ts x)) ->
  rq_ok ts q = true.
Proof.
  intros Hs Hm. unfold rq_ok. rewrite Hs. simpl.
  apply forallb_forall. intros x Hx. apply Z.leb_le. auto.
Qed.

(** What [InsertTaskIntoRq] does to an ordered queue. *)
Lemma InsertTaskIntoRq_spec (ts : Tasks) (t : TaskPtr) (q : CfsRq) :
  set_sorted (Less ts) (rq_ q) = true ->
  let q' := InsertTaskIntoRq ts t q in
  rq_ q' = set_insert (Less ts) t (rq_ q) /\
  (forall x, In x (rq_ q') <-> x = t \/ In x (rq_ q)) /\
  set_sorted (Less ts) (rq_ q') = true /\
  (exists leftmost rest,
      rq_ q' = leftmost :: rest /\ min_vruntime_ q' = vruntime (ts leftmost)) /\
  (forall x, In x (rq_ q') -> min_vruntime_ q' <= vruntime (ts x)) /\
  min_preemption_granularity_ q' = min_preemption_granularity_ q /\
  latency_ q' = latency_ q.
Proof.
  intros Hs q'. subst q'. unfold InsertTaskIntoRq.
  pose proof (set_sorted_insert (Less ts) t _ Hs) as Hs'.
  pose proof (set_insert_not_empty (Less ts) t (rq_ q)) as Hne.
  assert (Hmem : forall x, In x (set_insert (Less ts) t (rq_ q)) <->
                           x = t \/ In x (rq_ q)).
  { intros x. split.
    - apply In_set_insert.
    - intros [->|Hx].
      + apply rq_insert_new.
      + apply In_set_insert_old; assumption. }
  destruct (set_insert (Less ts) t (rq_ q)) as [|m l] eqn:Hins; [congruence|].
  simpl. repeat split; try (apply Hmem); auto.
  - exists m, l. split; reflexivity.
  - intros x Hx. exact (leftmost_least ts m l Hs' x Hx).
Qed.

(** C4.  [EnqueueTask] of a task [t] with [t.cpu >= 0], on a run queue that
    satisfies its invariant: the vruntime of [t] becomes
    [max(min_vruntime, t.vruntime)], its state kRunnable, [t] is in the
    ordered set, which holds nothing else new, [min_vruntime] is the vruntime
    of the new leftmost task, and so [t.vruntime >= min_vruntime]. *)
Theorem EnqueueTask_clamps_and_inserts (t : TaskPtr) (ts : Tasks) (q : CfsRq) :
  0 <= cpu (ts t) ->
  rq_ok ts q = true ->
  exists ts' q',
    EnqueueTask t ts q = Some (ts', q') /\
    vruntime (ts' t) = Z.max (min_vruntime_ q) (vruntime (ts t)) /\
    run_state (ts' t) = kRunnable /\
    (forall x, In x (rq_ q') <-> x = t \/ In x (rq_ q)) /\
    set_sorted (Less ts') (rq_ q') = true /\
    (exists leftmost rest,
        rq_ q' = leftmost :: rest /\ min_vruntime_ q' = vruntime (ts' leftmost)) /\
    min_vruntime_ q' <= vruntime (ts' t).
Proof.
  intros Hcpu Hok. unfold EnqueueTask.
  destruct (cpu (ts t) <? 0) eqn:Hneg; [apply Z.ltb_lt in Hneg; lia|].
  set (ts1 := set_vruntime ts t (Z.max (min_vruntime_ q) (vruntime (ts t)))).
  set (ts2 := set_run_state ts1 t kRunnable).
  assert (Hvr : forall x, In x (rq_ q) -> vruntime (ts2 x) = vruntime (ts x)).
  { intros x Hx. unfold ts2. rewrite set_run_state_vruntime. unfold ts1.
    destruct (Z.eq_dec x t) as [->|Hne].
    - rewrite set_vruntime_same. pose proof (rq_ok_min _ _ _ Hok Hx). lia.
    - rewrite set_vruntime_other by assumption. reflexivity. }
  assert (Hs2 : set_sorted (Less ts2) (rq_ q) = true).
  { rewrite (set_sorted_ext (Less ts2) (Less ts)).
    - apply rq_ok_sorted; assumption.
    - intros a b Ha Hb. apply Less_ext; auto. }
  destruct (InsertTaskIntoRq_spec ts2 t q Hs2)
    as (_ & Hmem & Hsorted & Hleft & Hmin & _).
  exists ts2, (InsertTaskIntoRq ts2 t q).
  repeat split; try (apply Hmem); auto.
  - unfold ts2. rewrite set_run_state_vruntime. unfold ts1.
    apply set_vruntime_same.
  - unfold ts2. apply set_run_state_same.
  - apply Hmin. apply Hmem. left. reflexivity.
Qed.

Lemma EnqueueTask_clamps_and_inserts_witness :
  let ts : Tasks := fun x => mkCfsTask 0 0 (if x =? 7 then 1000 else 600000) 0 kBlocked 0 in
  let q := mkCfsRq 500000 1000000 6000000 [3; 5] in
  exists ts' q',
    EnqueueTask 7 ts q = Some (ts', q') /\
    vruntime (ts' 7) = 500000 /\ rq_ q' = [7; 3; 5] /\ min_vruntime_ q' = 500000.
Proof.
  destruct (EnqueueTask_clamps_and_inserts 7
              (fun x => mkCfsTask 0 0 (if x =? 7 then 1000 else 600000) 0 kBlocked 0)
              (mkCfsRq 500000 1000000 6000000 [3; 5]))
    as (ts' & q' & Heq & _);
    [vm_compute; discriminate | reflexivity |].
  exists ts', q'. split; [exact Heq|].
  vm_compute in Heq. injection Heq as <- <-. vm_compute. auto.
Defined.

(** ** Picking the next task *)

Lemma set_run_state_status_word ts t st x :
  status_word_runtime (set_run_state ts t st x) = status_word_runtime (ts x).
Proof. store_cases x t. Qed.

Lemma UpdateMinVruntime_frame (ts : Tasks) (cs : CpuState) :
  let cs' := UpdateMinVruntime ts cs in
  current cs' = current cs /\
  preempt_curr cs' = preempt_curr cs /\
  rq_ (run_queue cs') = rq_ (run_queue cs) /\
  min_preemption_granularity_ (run_queue cs')
    = min_preemption_granularity_ (run_queue cs) /\
  latency_ (run_queue cs') = latency_ (run_queue cs).
Proof. unfold UpdateMinVruntime. simpl. auto. Qed.

(** Reconciling the queue with the task that was on the CPU, case by case. *)
Lemma reconcile_prev_spec (p : TaskPtr) (a : Allocator) (q : CfsRq) :
  set_sorted (Less (tasks a)) (rq_ q) = true ->
  0 <= cpu (tasks a p) ->
  exists a1 q1,
    reconcile_prev p a q = Some (a1, q1) /\
    (forall x, vruntime (tasks a1 x) = vruntime (tasks a x)) /\
    (forall x, status_word_runtime (tasks a1 x) = status_word_runtime (tasks a x)) /\
    set_sorted (Less (tasks a1)) (rq_ q1) = true /\
    match run_state (tasks a p) with
    | kBlocked => a1 = a /\ q1 = q
    | kDone =>
        tasks a1 = tasks a /\ freed a1 = freed a ++ [p] /\
        (forall x, In x (rq_ q1) <-> In x (rq_ q) /\ x <> p)
    | kRunnable =>
        a1 = a /\ (forall x, In x (rq_ q1) <-> x = p \/ In x (rq_ q))
    | kRunning =>
        tasks a1 = set_run_state (tasks a) p kRunnable /\ freed a1 = freed a /\
        (forall x, In x (rq_ q1) <-> x = p \/ In x (rq_ q))
    end.
Proof.
  intros Hs Hcpu. unfold reconcile_prev, PutPrevTask.
  assert (Hneg : (cpu (tasks a p) <? 0) = false) by (apply Z.ltb_ge; lia).
  rewrite Hneg.
  destruct (InsertTaskIntoRq_spec (tasks a) p q Hs) as (_ & Hmem & Hsorted & _).
  destruct (run_state (tasks a p)); eexists; eexists;
    (split; [reflexivity|]); simpl.
  - auto.
  - repeat split; auto; apply Hmem.
  - repeat split; auto; try (apply Hmem).
    + intros x. apply set_run_state_vruntime.
    + intros x. apply set_run_state_status_word.
    + rewrite (set_sorted_ext _ (Less (tasks a))); [assumption|].
      intros; apply Less_ext; apply set_run_state_vruntime.
  - split; [reflexivity|]. split; [reflexivity|].
    split; [apply rq_erase_sorted; assumption|].
    split; [reflexivity|]. split; [reflexivity|].
    intros x. apply rq_erase_iff; assumption.
Qed.

(** Picking from an ordered queue: none when it is empty; else the leftmost
    task, which is below all others, runs, and is in the queue no more. *)
Lemma pick_leftmost_spec (a : Allocator) (cs : CpuState) :
  set_sorted (Less (tasks a)) (rq_ (run_queue cs)) = true ->
  exists a' cs' next,
    pick_leftmost a cs = (a', cs', next) /\
    preempt_curr cs' = preempt_curr cs /\
    current cs' = current cs /\
    freed a' = freed a /\
    (forall x, next <> Some x -> tasks a' x = tasks a x) /\
    match rq_ (run_queue cs) with
    | [] => next = None /\ rq_ (run_queue cs') = []
    | _ :: _ =>
        exists m,
          next = Some m /\ In m (rq_ (run_queue cs)) /\
          (forall y, In y (rq_ (run_queue cs)) -> y <> m ->
                     Less (tasks a) m y = true) /\
          run_state (tasks a' m) = kRunning /\
          runtime_at_first_pick_ns (tasks a' m) = status_word_runtime (tasks a m) /\
          ~ In m (rq_ (run_queue cs')) /\
          (forall x, In x (rq_ (run_queue cs')) <->
                     In x (rq_ (run_queue cs)) /\ x <> m)
    end.
Proof.
  intros Hs. unfold pick_leftmost.
  destruct (rq_ (run_queue cs)) as [|m rest] eqn:Hrq.
  - eexists; eexists; eexists. split; [reflexivity|].
    destruct (UpdateMinVruntime_frame (tasks a) cs) as (Hc & Hp & Hr & _).
    rewrite Hr, Hrq. repeat split; auto.
  - eexists; eexists; eexists. split; [reflexivity|].
    match goal with |- context [UpdateMinVruntime ?ts ?c] =>
      destruct (UpdateMinVruntime_frame ts c) as (Hc & Hp & Hr & _) end.
    rewrite Hc, Hp, Hr. simpl.
    pose proof (rq_head_not_in _ _ _ Hs) as Hnotin.
    pose proof (rq_below _ _ _ Hs) as Hbelow.
    repeat split; auto.
    + intros x Hx.
      assert (x <> m) by congruence.
      unfold set_first_pick, set_run_state, update.
      destruct (Z.eqb_spec x m); [contradiction|reflexivity].
    + exists m. repeat split; auto.
      * intros y [->|Hy] Hne; [congruence|]. apply Hbelow; assumption.
      * rewrite set_first_pick_run_state. apply set_run_state_same.
      * rewrite set_first_pick_same. apply set_run_state_status_word.
      * intros ->. contradiction.
      * intros [[->|Hx] Hne]; [congruence|assumption].
Qed.

(** C1.  [PickNextTask(prev, cs)] on an ordered run queue.  A [prev] that is
    kRunning with [preempt_curr] false is returned as it is.  Otherwise
    [preempt_curr] is cleared and [prev] is reconciled, giving a queue [mid]:
    kBlocked leaves the queue as it was, kDone erases [prev] and frees it,
    kRunnable puts it back, kRunning puts it back and makes it kRunnable.
    With [mid] empty the result is none.  Else it is the task of [mid] that is
    below all others in the order of (vruntime, identity); this task is set
    kRunning, its [runtime_at_first_pick_ns] is what its status word shows,
    and the run queue is [mid] without it. *)
Theorem PickNextTask_spec (prev : option TaskPtr) (a : Allocator) (cs : CpuState) :
  set_sorted (Less (tasks a)) (rq_ (run_queue cs)) = true ->
  (forall p, prev = Some p -> 0 <= cpu (tasks a p)) ->
  (forall p, prev = Some p -> run_state (tasks a p) = kRunning ->
             preempt_curr cs = false ->
             PickNextTask prev a cs = Some (a, cs, Some p))
  /\
  ((forall p, prev = Some p -> run_state (tasks a p) = kRunning ->
              preempt_curr cs = true) ->
   exists a' cs' next mid,
     PickNextTask prev a cs = Some (a', cs', next) /\
     preempt_curr cs' = false /\
     match prev with
     | None => mid = rq_ (run_queue cs) /\ freed a' = freed a
     | Some p =>
         match run_state (tasks a p) with
         | kBlocked => mid = rq_ (run_queue cs) /\ freed a' = freed a
         | kDone =>
             (forall x, In x mid <-> In x (rq_ (run_queue cs)) /\ x <> p) /\
             freed a' = freed a ++ [p]
         | kRunnable =>
             (forall x, In x mid <-> x = p \/ In x (rq_ (run_queue cs))) /\
             freed a' = freed a
         | kRunning =>
             (forall x, In x mid <-> x = p \/ In x (rq_ (run_queue cs))) /\
             freed a' = freed a /\
             (next <> Some p -> run_state (tasks a' p) = kRunnable)
         end
     end /\
     match mid with
     | [] => next = None /\ rq_ (run_queue cs') = []
     | _ :: _ =>
         exists m,
           next = Some m /\ In m mid /\
           (forall y, In y mid -> y <> m -> Less (tasks a) m y = true) /\
           run_state (tasks a' m) = kRunning /\
           runtime_at_first_pick_ns (tasks a' m) = status_word_runtime (tasks a m) /\
           ~ In m (rq_ (run_queue cs')) /\
           (forall x, In x (rq_ (run_queue cs')) <-> In x mid /\ x <> m)
     end).
Proof.
  intros Hs Hcpu. split.
  - intros p -> Hst Hpre. unfold PickNextTask, keeps_running.
    rewrite Hst, Hpre. reflexivity.
  - intros Hnot. unfold PickNextTask.
    assert (Hkeep : keeps_running prev (tasks a) cs = false).
    { unfold keeps_running. destruct prev as [p|]; [|reflexivity].
      destruct (run_state (tasks a p)) eqn:Hst; try reflexivity.
      rewrite (Hnot p eq_refl Hst). reflexivity. }
    rewrite Hkeep. destruct prev as [p|].
    + destruct (reconcile_prev_spec p a (run_queue (with_preempt_curr cs false)))
        as (a1 & q1 & Hrec & Hvr & Hsw & Hs1 & Hcase);
        [exact Hs | apply Hcpu; reflexivity |].
      rewrite Hrec.
      destruct (pick_leftmost_spec a1 (with_run_queue (with_preempt_curr cs false) q1))
        as (a' & cs' & next & Hpick & Hpre & _ & Hfreed & Hframe & Hmid);
        [exact Hs1|].
      rewrite Hpick. exists a', cs', next, (rq_ q1).
      split; [reflexivity|]. split; [exact Hpre|].
      simpl in Hmid, Hcase. split.
      * destruct (run_state (tasks a p)).
        -- destruct Hcase as [-> ->]. auto.
        -- destruct Hcase as [-> Hmem]. auto.
        -- destruct Hcase as (Hts & Hfr & Hmem). repeat split; try (apply Hmem).
           ++ congruence.
           ++ intros Hne. rewrite (Hframe p Hne), Hts. apply set_run_state_same.
        -- destruct Hcase as (Hts & Hfr & Hmem). split; [exact Hmem|congruence].
      * destruct (rq_ q1) as [|m0 rest]; [exact Hmid|].
        destruct Hmid as (m & Hn & Hin & Hleast & Hrun & Hfirst & Hout & Hrest).
        exists m. split; [exact Hn|]. split; [exact Hin|].
        split; [|split; [exact Hrun|]; split; [rewrite Hfirst; apply Hsw|];
                 split; [exact Hout|exact Hrest]].
        intros y Hy Hne. rewrite <- (Hleast y Hy Hne). symmetry.
        apply Less_ext; apply Hvr.
    + destruct (pick_leftmost_spec a (with_preempt_curr cs false))
        as (a' & cs' & next & Hpick & Hpre & _ & Hfreed & Hframe & Hmid);
        [exact Hs|].
      rewrite Hpick. exists a', cs', next, (rq_ (run_queue cs)).
      split; [reflexivity|]. split; [exact Hpre|].
      split; [auto|]. exact Hmid.
Qed.

Lemma PickNextTask_spec_witness :
  let ts : Tasks := fun x =>
    if x =? 1 then mkCfsTask 0 1 5 0 kRunning 5
    else mkCfsTask 0 1 0 0 kRunnable 0 in
  let a := mkAllocator ts [] in
  let cs := mkCpuState (Some 1) true (mkCfsRq 0 1000000 6000000 [2]) in
  exists a' cs',
    PickNextTask (Some 1) a cs = Some (a', cs', Some 2) /\
    rq_ (run_queue cs') = [1].
Proof.
  intros ts a cs.
  destruct (PickNextTask_spec (Some 1) a cs) as [_ Hpick].
  - reflexivity.
  - intros p Hp. injection Hp as <-. vm_compute. discriminate.
  - destruct Hpick as (a' & cs' & next & mid & Heq & _).
    + intros p Hp _. reflexivity.
    + exists a', cs'. vm_compute in Heq. injection Heq as <- <- <-.
      split; reflexivity.
Defined.

(** ** min_vruntime along a run *)

(** [UpdateMinVruntime] never lowers [min_vruntime_]. *)
Lemma UpdateMinVruntime_monotone (ts : Tasks) (cs : CpuState) :
  min_vruntime_ (run_queue cs)
  <= min_vruntime_ (run_queue (UpdateMinVruntime ts cs)).
Proof. unfold UpdateMinVruntime. simpl. lia. Qed.

(** [InsertTaskIntoRq] does: on a queue whose [min_vruntime_] is 5, putting
    back a task whose vruntime is 1 sets [min_vruntime_] to 1. *)
Lemma PutPrevTask_lowers_min_vruntime :
  let ts : Tasks := fun x => mkCfsTask 0 0 (if x =? 2 then 1 else 5) 0 kRunnable 0 in
  let q := mkCfsRq 5 1000000 6000000 [1] in
  option_map min_vruntime_ (PutPrevTask 2 ts q) = Some 1.
Proof. vm_compute. reflexivity. Qed.

(** C2.  One CPU, two tasks.  Task 1 runs for 5 ns and yields; task 2 is
    picked, and [UpdateMinVruntime], which looks at the task that was on the
    CPU, raises [min_vruntime_] to 5 ns; task 2 runs for 1 ns and yields, and
    the next [CfsSchedule] puts it back: [min_vruntime_] is now 1 ns. *)
Theorem min_vruntime_decreases :
  let s0 := CfsScheduler [0%nat] (Nanoseconds 1000000) (Nanoseconds 6000000) in
  let first :=
    [ Deliver (MSG_TASK_NEW 1 1 true) AssociateOk;
      Deliver (MSG_TASK_NEW 2 1 true) AssociateOk;
      Decide 0 10 false true 5;
      Deliver (MSG_TASK_YIELD 1 2 0%nat false) AssociateOk;
      Decide 0 11 false true 1 ] in
  let then_ :=
    [ Deliver (MSG_TASK_YIELD 2 2 0%nat false) AssociateOk;
      Decide 0 12 false true 2 ] in
  option_map (min_vruntime_of 0) (run first s0) = Some (Nanoseconds 5) /\
  option_map (min_vruntime_of 0) (run (first ++ then_) s0)
  = Some (Nanoseconds 1).
Proof. split; vm_compute; reflexivity. Qed.

(** ** Migration *)

(** The loop of [EnclaveReady] does go on after a stale barrier. *)
Lemma associate_agent_retries :
  associate_agent [AssociateStale; AssociateStale; AssociateOk] 0 = Some 3%nat.
Proof. reflexivity. Qed.

(** [Migrate] does not: a new task, not migrated yet, and a stale barrier. *)
Lemma Migrate_stale_barrier_aborts :
  ~ stale_barrier_is_retried 7 0 1 (CfsScheduler [0%nat] 1000000 6000000).
Proof.
  unfold stale_barrier_is_retried. intros H. apply H; reflexivity.
Qed.

(** C6, amended.  [Migrate] goes through exactly when [task.cpu] is -1 and
    the one call of [AssociateTask], made with [seqnum] as the barrier,
    succeeds: then the task is on the CPU, in its run queue, and the CPU is
    pinged.  Any failure of the call, a stale barrier too, aborts. *)
Theorem Migrate_spec (t : TaskPtr) (c : nat) (seq : Z) (answer : AssociateResult)
    (s : Sched) :
  (cpu (tasks (allocator s) t) = -1 /\ answer = AssociateOk ->
   exists s',
     Migrate t c seq answer s = Some s' /\
     calls s' = calls s ++ [CallAssociateTask c t seq; CallPing c] /\
     cpu (tasks (allocator s') t) = Z.of_nat c /\
     run_state (tasks (allocator s') t) = kRunnable /\
     rq_ (run_queue (cpu_states s' c))
       = set_insert (Less (tasks (allocator s'))) t (rq_ (run_queue (cpu_states s c))))
  /\
  (cpu (tasks (allocator s) t) <> -1 \/ answer <> AssociateOk ->
   Migrate t c seq answer s = None).
Proof.
  split.
  - intros [Hcpu ->]. unfold Migrate. rewrite Hcpu. simpl.
    unfold EnqueueTask.
    assert (Hc : (cpu (set_cpu (tasks (allocator s)) t (Z.of_nat c) t) <? 0) = false).
    { apply Z.ltb_ge. store_cases t t. lia. }
    rewrite Hc. eexists. split; [reflexivity|]. simpl.
    rewrite Nat.eqb_refl.
    split; [rewrite <- app_assoc; reflexivity|].
    split; [rewrite set_run_state_cpu, set_vruntime_cpu; store_cases t t|].
    split; [apply set_run_state_same|].
    unfold InsertTaskIntoRq.
    destruct (set_insert _ t (rq_ (run_queue (cpu_states s c)))); reflexivity.
  - intros [Hcpu|Hans]; unfold Migrate.
    + destruct (Z.eqb_spec (cpu (tasks (allocator s) t)) (-1));
        [contradiction|reflexivity].
    + destruct (negb _); [reflexivity|].
      destruct answer; [contradiction| |]; reflexivity.
Qed.

(** ** The messages of a task and the frees *)

Ltac view :=
  unfold others_kept, self_alive, state_of, cpu_of, rq_of, current_of,
    freed_count in *.

Lemma InsertTaskIntoRq_In (ts : Tasks) (t x : TaskPtr) (q : CfsRq) :
  In x (rq_ (InsertTaskIntoRq ts t q)) -> x = t \/ In x (rq_ q).
Proof.
  unfold InsertTaskIntoRq. intros H.
  apply (In_set_insert (Less ts)).
  destruct (set_insert (Less ts) t (rq_ q)); exact H.
Qed.

Lemma EnqueueTask_view (t : TaskPtr) (ts ts' : Tasks) (q q' : CfsRq) :
  EnqueueTask t ts q = Some (ts', q') ->
  0 <= cpu (ts t) /\
  (forall x, x <> t -> ts' x = ts x) /\
  cpu (ts' t) = cpu (ts t) /\
  run_state (ts' t) = kRunnable /\
  (forall x, In x (rq_ q') -> x = t \/ In x (rq_ q)).
Proof.
  unfold EnqueueTask. destruct (Z.ltb_spec (cpu (ts t)) 0); [discriminate|].
  intros Heq. injection Heq as <- <-.
  split; [assumption|]. split.
  - intros x Hx. rewrite set_run_state_other, set_vruntime_other by assumption.
    reflexivity.
  - split; [rewrite set_run_state_cpu, set_vruntime_cpu; reflexivity|].
    split; [apply set_run_state_same|].
    intros x. apply InsertTaskIntoRq_In.
Qed.

Lemma cpu_states_with_cpu_state (s : Sched) (c c' : nat) (cs : CpuState) :
  cpu_states (with_cpu_state s c cs) c' =
  if Nat.eqb c' c then cs else cpu_states s c'.
Proof. reflexivity. Qed.

Lemma SelectTaskRq_frame (s s' : Sched) (c : nat) :
  SelectTaskRq s = Some (c, s') ->
  allocator s' = allocator s /\ cpu_states s' = cpu_states s.
Proof.
  unfold SelectTaskRq. destruct (nth_error _ _); [|discriminate].
  intros H. injection H as <- <-. auto.
Qed.

Lemma Migrate_view (u : TaskPtr) (c : nat) (seq : Z) (a : AssociateResult)
    (s s' : Sched) :
  Migrate u c seq a s = Some s' ->
  others_kept u s s' /\
  freed (allocator s') = freed (allocator s) /\
  cpu_of s u = -1 /\
  cpu_of s' u = Z.of_nat c /\
  state_of s' u = kRunnable /\
  (forall c', In u (rq_of s' c') -> In u (rq_of s c') \/ c' = c).
Proof.
  unfold Migrate.
  destruct (Z.eqb_spec (cpu (tasks (allocator s) u)) (-1)) as [Hcpu|]; [|discriminate].
  simpl. destruct a; try discriminate.
  destruct (EnqueueTask _ _ _) as [[ts2 q]|] eqn:Henq; [|discriminate].
  intros H. injection H as <-.
  apply EnqueueTask_view in Henq.
  destruct Henq as (_ & Hother & Hcpu2 & Hst & Hin).
  assert (Hrq : forall c' x, In x (rq_of
                 (PingCpu c (with_cpu_state
                    (with_allocator (call (CallAssociateTask c u seq) s)
                       (with_tasks (allocator s) ts2)) c
                    (with_run_queue (cpu_states s c) q))) c') ->
                 In x (rq_of s c') \/ (x = u /\ c' = c)).
  { intros c' x. view. simpl.
    destruct (Nat.eqb_spec c' c) as [->|]; [|auto].
    simpl. intros Hx. apply Hin in Hx. tauto. }
  view. simpl. repeat split; auto.
  - intros c'. destruct (Nat.eqb_spec c' c) as [->|]; reflexivity.
  - rewrite Hother by assumption. store_cases x u.
  - rewrite Hother by assumption. store_cases x u.
  - intros c' Hx. apply Hrq in Hx. tauto.
  - rewrite Hcpu2. store_cases u u.
  - intros c' Hx. apply Hrq in Hx. tauto.
Qed.

Lemma set_seqnum_run_state ts t n x :
  run_state (set_seqnum ts t n x) = run_state (ts x).
Proof. store_cases x t. Qed.

Lemma set_seqnum_cpu ts t n x : cpu (set_seqnum ts t n x) = cpu (ts x).
Proof. store_cases x t. Qed.

Lemma set_seqnum_vruntime ts t n x :
  vruntime (set_seqnum ts t n x) = vruntime (ts x).
Proof. store_cases x t. Qed.

Lemma set_run_state_read ts t st x :
  run_state (set_run_state ts t st x) = if Z.eqb x t then st else run_state (ts x).
Proof. store_cases x t. Qed.

(** Assigning the seqnum of a message changes nothing of what is looked at. *)
Lemma others_kept_seqnum (u : TaskPtr) (seq : Z) (s s' : Sched) :
  others_kept u (set_task_seqnum u seq s) s' -> others_kept u s s'.
Proof.
  view. simpl. intros [Hc Hx]. split; [exact Hc|].
  intros x Hne. specialize (Hx x Hne).
  rewrite set_seqnum_run_state, set_seqnum_cpu in Hx. exact Hx.
Qed.

Lemma self_alive_seqnum (u : TaskPtr) (seq : Z) (s s' : Sched) :
  self_alive u (set_task_seqnum u seq s) s' -> self_alive u s s'.
Proof.
  view. simpl. rewrite set_seqnum_run_state, set_seqnum_cpu. auto.
Qed.

Lemma TaskNew_view (u : TaskPtr) (seq : Z) (runnable : bool)
    (a : AssociateResult) (s s' : Sched) :
  TaskNew u seq runnable a s = Some s' ->
  others_kept u s s' /\ self_alive u s s' /\ state_of s' u <> kDone.
Proof.
  unfold TaskNew. destruct runnable.
  - destruct (SelectTaskRq _) as [[c s3]|] eqn:Hsel; [|discriminate].
    intros Hm. apply SelectTaskRq_frame in Hsel. destruct Hsel as [Ha Hc].
    apply Migrate_view in Hm.
    destruct Hm as ((Hcur & Hoth) & Hf & Hcpu & Hcpu' & Hst & Hin).
    view. rewrite Ha, Hc in *. simpl in *.
    rewrite set_run_state_cpu, set_seqnum_cpu in Hcpu.
    split; [split; [exact Hcur|]|split; [|congruence]].
    + intros x Hne. specialize (Hoth x Hne).
      rewrite set_run_state_other, set_seqnum_run_state, set_seqnum_cpu in Hoth
        by assumption.
      exact Hoth.
    + split; [rewrite Hf; reflexivity|]. split; [congruence|].
      split; [|lia].
      intros c' Hx. destruct (Hin c' Hx) as [H| ->]; auto.
  - intros H. injection H as <-. view. simpl.
    split; [split; [reflexivity|]|split].
    + intros x Hne. rewrite set_run_state_other, set_seqnum_run_state,
        set_seqnum_cpu by assumption. auto.
    + rewrite set_run_state_cpu, set_seqnum_cpu, set_run_state_same.
      split; [reflexivity|]. split; [discriminate|]. auto.
    + rewrite set_run_state_same. discriminate.
Qed.

Lemma cpu_state_of_Some ts t c :
  cpu_state_of ts t = Some c -> cpu (ts t) = Z.of_nat c.
Proof.
  unfold cpu_state_of.
  destruct (Z.ltb_spec (cpu (ts t)) 0) as [Hneg|Hpos]; [discriminate|].
  intros Heq. injection Heq as <-. rewrite Z2Nat.id; lia.
Qed.

Lemma is_current_true cs t : is_current cs t = true <-> current cs = Some t.
Proof.
  unfold is_current. destruct (current cs) as [x|].
  - destruct (Z.eqb_spec x t); split; congruence.
  - split; discriminate.
Qed.

Lemma TaskRunnable_view (u : TaskPtr) (seq : Z) (a : AssociateResult)
    (s s' : Sched) :
  TaskRunnable u seq a s = Some s' ->
  others_kept u s s' /\ self_alive u s s'.
Proof.
  unfold TaskRunnable.
  destruct (Z.ltb_spec (cpu (tasks (allocator s) u)) 0) as [Hneg|Hpos].
  - destruct (SelectTaskRq _) as [[c s3]|] eqn:Hsel; [|discriminate].
    intros Hm. apply SelectTaskRq_frame in Hsel. destruct Hsel as [Ha Hc].
    apply Migrate_view in Hm.
    destruct Hm as ((Hcur & Hoth) & Hf & Hcpu & Hcpu' & Hst & Hin).
    view. rewrite Ha, Hc in *.
    split; [split; assumption|].
    split; [rewrite Hf; reflexivity|]. split; [congruence|].
    split; [|lia].
    intros c' Hx. destruct (Hin c' Hx) as [H| ->]; auto.
  - destruct (cpu_state_of _ u) as [c|] eqn:Hc; [|discriminate].
    apply cpu_state_of_Some in Hc.
    destruct (is_current (cpu_states s c) u).
    + intros H. injection H as <-. view. simpl.
      split; [split; [reflexivity|]|].
      * intros x Hne. rewrite set_run_state_other by assumption. auto.
      * rewrite set_run_state_cpu, set_run_state_same.
        split; [reflexivity|]. split; [discriminate|]. auto.
    + destruct (EnqueueTask _ _ _) as [[ts1 q]|] eqn:Henq; [|discriminate].
      intros H. injection H as <-.
      apply EnqueueTask_view in Henq.
      destruct Henq as (_ & Hother & Hcpu2 & Hst & Hin).
      view. simpl.
      split; [split|].
      * intros c'. destruct (Nat.eqb_spec c' c) as [->|]; reflexivity.
      * intros x Hne. rewrite Hother by assumption.
        repeat split; auto.
        intros c'. destruct (Nat.eqb_spec c' c) as [->|]; [|auto].
        simpl. intros Hx. destruct (Hin x Hx); [contradiction|assumption].
      * split; [reflexivity|]. split; [congruence|]. split; [|left; assumption].
        intros c'. destruct (Nat.eqb_spec c' c) as [->|]; [|auto].
        intros _. right. congruence.
Qed.

Lemma ping_if_frame (b : bool) (c : nat) (s : Sched) :
  allocator (ping_if b c s) = allocator s /\
  cpu_states (ping_if b c s) = cpu_states s.
Proof. destruct b; auto. Qed.

(** TaskYield, TaskBlocked: the state of the current task is set. *)
Lemma set_state_view (u : TaskPtr) (st : State) (b : bool) (c : nat) (s : Sched) :
  st <> kDone ->
  let s' := ping_if b c (set_task_state u st s) in
  others_kept u s s' /\ self_alive u s s'.
Proof.
  intros Hst s'. subst s'.
  destruct (ping_if_frame b c (set_task_state u st s)) as [Ha Hc].
  view. rewrite Ha, Hc. simpl.
  split; [split; [reflexivity|]|].
  - intros x Hne. rewrite set_run_state_other by assumption. auto.
  - rewrite set_run_state_cpu, set_run_state_same.
    split; [reflexivity|]. split; [congruence|]. auto.
Qed.

Lemma TaskYield_view u c sw s s' :
  TaskYield u c sw s = Some s' -> others_kept u s s' /\ self_alive u s s'.
Proof.
  unfold TaskYield. destruct (is_current _ _); [|discriminate].
  intros H. injection H as <-. apply set_state_view. discriminate.
Qed.

Lemma TaskBlocked_view u c sw s s' :
  TaskBlocked u c sw s = Some s' -> others_kept u s s' /\ self_alive u s s'.
Proof.
  unfold TaskBlocked. destruct (is_current _ _); [|discriminate].
  intros H. injection H as <-. apply set_state_view. discriminate.
Qed.

Lemma TaskPreempted_view u c sw s s' :
  TaskPreempted u c sw s = Some s' -> others_kept u s s' /\ self_alive u s s'.
Proof.
  unfold TaskPreempted. destruct (is_current _ _); [|discriminate].
  intros H. injection H as <-.
  destruct (ping_if_frame sw c s) as [Ha Hc].
  view. rewrite Ha, Hc. auto 10.
Qed.

Lemma TaskSwitchto_view u s s' :
  TaskSwitchto u s = Some s' -> others_kept u s s' /\ self_alive u s s'.
Proof.
  unfold TaskSwitchto. destruct (cpu_state_of _ _); [|discriminate].
  intros H. injection H as <-.
  apply (set_state_view u kBlocked false 0%nat s). discriminate.
Qed.

Lemma CpuTick_view (c : nat) (s : Sched) :
  let s' := CpuTick c s in
  allocator s' = allocator s /\
  (forall c', current_of s' c' = current_of s c') /\
  (forall c', rq_of s' c' = rq_of s c').
Proof.
  unfold CpuTick, CheckPreemptTick. view.
  destruct (current (cpu_states s c)) eqn:Hcur; [|auto].
  destruct (_ <? _); [|auto]. simpl.
  split; [reflexivity|].
  split; intros c'; destruct (Nat.eqb_spec c' c) as [->|]; simpl; auto.
Qed.

Lemma count_occ_snoc (l : list TaskPtr) (u x : TaskPtr) :
  count_occ Z.eq_dec (l ++ [u]) x =
  (count_occ Z.eq_dec l x + if Z.eq_dec u x then 1 else 0)%nat.
Proof.
  rewrite count_occ_app. simpl. destruct (Z.eq_dec u x); reflexivity.
Qed.

Lemma HandleTaskDone_view (u : TaskPtr) (fs : bool) (s s' : Sched) :
  HandleTaskDone u fs s = Some s' ->
  others_kept u s s' /\
  state_of s' u = kDone /\
  cpu_of s' u = cpu_of s u /\
  (forall c, In u (rq_of s' c) -> In u (rq_of s c)) /\
  exists c,
    cpu_of s u = Z.of_nat c /\
    (state_of s u <> kDone ->
     freed (allocator s') =
       freed (allocator s) ++ (if is_current (cpu_states s c) u then [] else [u])).
Proof.
  unfold HandleTaskDone.
  destruct (cpu_state_of _ u) as [c|] eqn:Hc; [|discriminate].
  apply cpu_state_of_Some in Hc.
  set (cond := (State_eqb (run_state (tasks (allocator s) u)) kRunning || fs)
               || State_eqb (run_state (tasks (allocator s) u)) kRunnable
               || State_eqb (run_state (tasks (allocator s) u)) kBlocked).
  assert (Hcond : run_state (tasks (allocator s) u) <> kDone -> cond = true).
  { unfold cond. destruct (run_state (tasks (allocator s) u)); destruct fs;
      simpl; intros; try reflexivity; congruence. }
  assert (Hplain :
    let s1 := set_task_state u kDone s in
    others_kept u s s1 /\ state_of s1 u = kDone /\ cpu_of s1 u = cpu_of s u /\
    (forall c, In u (rq_of s1 c) -> In u (rq_of s c)) /\
    freed (allocator s1) = freed (allocator s)).
  { view. simpl. rewrite set_run_state_same, set_run_state_cpu.
    repeat split; auto; rewrite set_run_state_other by assumption; reflexivity. }
  destruct Hplain as (Hk & Hst & Hcpu & Hrq & Hfr).
  destruct cond eqn:Hcv.
  - destruct (is_current (cpu_states s c) u) eqn:Hcur.
    + intros H. injection H as <-.
      split; [exact Hk|]. split; [exact Hst|]. split; [exact Hcpu|].
      split; [exact Hrq|].
      exists c. split; [assumption|]. intros _.
      rewrite Hcur, app_nil_r. exact Hfr.
    + intros H. injection H as <-. view. simpl.
      rewrite set_run_state_same, set_run_state_cpu.
      assert (Hin : forall c' x,
                 In x (rq_ (run_queue
                   (if Nat.eqb c' c
                    then UpdateMinVruntime
                           (set_run_state (tasks (allocator s)) u kDone)
                           (with_run_queue (cpu_states s c)
                              (Erase u (set_run_state (tasks (allocator s)) u kDone)
                                 (run_queue (cpu_states s c))))
                    else cpu_states s c'))) ->
                 In x (rq_ (run_queue (cpu_states s c')))).
      { intros c' x. destruct (Nat.eqb_spec c' c) as [->|]; [|auto].
        simpl. apply In_set_erase. }
      split; [split|].
      * intros c'. destruct (Nat.eqb_spec c' c) as [->|]; reflexivity.
      * intros x Hne. rewrite set_run_state_other by assumption.
        rewrite count_occ_snoc. destruct (Z.eq_dec u x); [congruence|].
        split; [reflexivity|]. split; [reflexivity|]. split; [lia|].
        intros c'. apply Hin.
      * split; [reflexivity|]. split; [reflexivity|]. split; [auto|].
        exists c. split; [assumption|]. rewrite Hcur. reflexivity.
  - intros H. injection H as <-.
    split; [exact Hk|]. split; [exact Hst|]. split; [exact Hcpu|].
    split; [exact Hrq|].
    exists c. split; [assumption|]. intros Hnd.
    pose proof (Hcond Hnd) as Habs. congruence.
Qed.

Lemma State_eqb_kDone (st : State) : State_eqb st kDone = true <-> st = kDone.
Proof. destruct st; simpl; split; congruence. Qed.

(** What reconciling [p] changes, whatever the order of the queue. *)
Lemma reconcile_prev_view (p : TaskPtr) (a a1 : Allocator) (q q1 : CfsRq) :
  reconcile_prev p a q = Some (a1, q1) ->
  freed a1 = freed a ++
             (if State_eqb (run_state (tasks a p)) kDone then [p] else []) /\
  (forall x, cpu (tasks a1 x) = cpu (tasks a x)) /\
  (forall x, run_state (tasks a1 x) = kDone -> run_state (tasks a x) = kDone) /\
  (forall x, x <> p -> run_state (tasks a1 x) = run_state (tasks a x)) /\
  (forall x, In x (rq_ q1) -> x = p \/ In x (rq_ q)).
Proof.
  unfold reconcile_prev, PutPrevTask.
  destruct (run_state (tasks a p)) eqn:Hst; simpl.
  - intros H. injection H as <- <-. rewrite app_nil_r. auto 10.
  - destruct (cpu (tasks a p) <? 0); [discriminate|].
    intros H. injection H as <- <-. rewrite app_nil_r.
    repeat split; auto. intros x. apply InsertTaskIntoRq_In.
  - destruct (cpu (tasks a p) <? 0); [discriminate|].
    intros H. injection H as <- <-. simpl. rewrite app_nil_r.
    split; [reflexivity|]. split; [intros x; apply set_run_state_cpu|].
    split; [|split; [|intros x; apply InsertTaskIntoRq_In]].
    + intros x. rewrite set_run_state_read.
      destruct (Z.eqb_spec x p); [discriminate|auto].
    + intros x Hne. rewrite set_run_state_other by assumption. reflexivity.
  - intros H. injection H as <- <-. simpl.
    repeat split; auto. intros x Hx. right. exact (In_set_erase _ _ _ _ Hx).
Qed.

Lemma pick_leftmost_view (a a' : Allocator) (cs cs' : CpuState)
    (next : option TaskPtr) :
  pick_leftmost a cs = (a', cs', next) ->
  freed a' = freed a /\
  (forall x, cpu (tasks a' x) = cpu (tasks a x)) /\
  (forall x, run_state (tasks a' x) = kDone ->
             run_state (tasks a x) = kDone /\ next <> Some x) /\
  (forall x, next <> Some x -> run_state (tasks a' x) = run_state (tasks a x)) /\
  (forall x, next = Some x -> In x (rq_ (run_queue cs))) /\
  (forall x, In x (rq_ (run_queue cs')) -> In x (rq_ (run_queue cs))).
Proof.
  unfold pick_leftmost.
  destruct (rq_ (run_queue cs)) as [|m rest] eqn:Hrq.
  - intros H. injection H as <- <- <-. simpl. rewrite Hrq.
    repeat split; auto; discriminate.
  - intros H. injection H as <- <- <-. simpl.
    split; [reflexivity|].
    split; [intros x; rewrite set_first_pick_cpu, set_run_state_cpu; reflexivity|].
    split; [|split; [|split]].
    + intros x. rewrite set_first_pick_run_state, set_run_state_read.
      destruct (Z.eqb_spec x m); [discriminate|].
      intros Hd. split; [assumption|congruence].
    + intros x Hx. rewrite set_first_pick_run_state, set_run_state_read.
      destruct (Z.eqb_spec x m); [congruence|reflexivity].
    + intros x Hx. injection Hx as ->. left. reflexivity.
    + intros x Hx. right. assumption.
Qed.

Lemma PickNextTask_view (prev : option TaskPtr) (a a' : Allocator)
    (cs cs' : CpuState) (next : option TaskPtr) :
  PickNextTask prev a cs = Some (a', cs', next) ->
  freed a' = freed a ++
             match prev with
             | Some p => if State_eqb (run_state (tasks a p)) kDone then [p] else []
             | None => []
             end /\
  (forall x, cpu (tasks a' x) = cpu (tasks a x)) /\
  (forall x, run_state (tasks a' x) = kDone ->
             run_state (tasks a x) = kDone /\ next <> Some x) /\
  (forall x, prev <> Some x -> next <> Some x ->
             run_state (tasks a' x) = run_state (tasks a x)) /\
  (forall x, next = Some x -> prev = Some x \/ In x (rq_ (run_queue cs))) /\
  (forall x, In x (rq_ (run_queue cs')) ->
             prev = Some x \/ In x (rq_ (run_queue cs))).
Proof.
  unfold PickNextTask.
  destruct (keeps_running prev (tasks a) cs) eqn:Hkeep.
  - intros H. injection H as <- <- <-.
    unfold keeps_running in Hkeep. destruct prev as [p|]; [|discriminate].
    apply andb_true_iff in Hkeep. destruct Hkeep as [Hrun _].
    destruct (run_state (tasks a p)) eqn:Hst; try discriminate. simpl.
    rewrite app_nil_r. repeat split; auto. congruence.
  - destruct prev as [p|].
    + destruct (reconcile_prev p a _) as [[a1 q1]|] eqn:Hrec; [|discriminate].
      intros H. injection H as H.
      apply reconcile_prev_view in Hrec.
      destruct Hrec as (Hf1 & Hc1 & Hd1 & Hs1 & Hi1).
      apply pick_leftmost_view in H.
      destruct H as (Hf2 & Hc2 & Hd2 & Hs2 & Hn2 & Hi2).
      simpl in *.
      split; [congruence|]. split; [intros x; rewrite Hc2; apply Hc1|].
      split; [|split; [|split]].
      * intros x Hd. destruct (Hd2 x Hd). auto.
      * intros x Hp Hn. rewrite (Hs2 x Hn). apply Hs1. congruence.
      * intros x Hx. destruct (Hi1 x (Hn2 x Hx)) as [->|]; auto.
      * intros x Hx. destruct (Hi1 x (Hi2 x Hx)) as [->|]; auto.
    + intros H. injection H as H.
      apply pick_leftmost_view in H.
      destruct H as (Hf2 & Hc2 & Hd2 & Hs2 & Hn2 & Hi2).
      simpl in *. rewrite app_nil_r. auto 10.
Qed.

Lemma set_status_word_run_state ts t r x :
  run_state (set_status_word_runtime ts t r x) = run_state (ts x).
Proof. store_cases x t. Qed.

Lemma set_status_word_cpu ts t r x :
  cpu (set_status_word_runtime ts t r x) = cpu (ts x).
Proof. store_cases x t. Qed.

(** What [CfsSchedule] on the CPU [c] changes: the task that was current is
    freed when it is done, and only then; no task becomes done; the new
    current task and the tasks of the run queue were there, in the queue or
    on the CPU. *)
Lemma CfsSchedule_view (c : nat) (b : Z) (boost ok : bool) (r : Z)
    (s s' : Sched) :
  CfsSchedule c b boost ok r s = Some s' ->
  (forall c', c' <> c -> cpu_states s' c' = cpu_states s c') /\
  freed (allocator s') =
    freed (allocator s) ++
    match current_of s c with
    | Some p => if State_eqb (state_of s p) kDone then [p] else []
    | None => []
    end /\
  (forall x, cpu_of s' x = cpu_of s x) /\
  (forall x, state_of s' x = kDone ->
             state_of s x = kDone /\ current_of s' c <> Some x) /\
  (forall x, current_of s c <> Some x -> current_of s' c <> Some x ->
             state_of s' x = state_of s x) /\
  (forall x, current_of s' c = Some x ->
             current_of s c = Some x \/ In x (rq_of s c)) /\
  (forall x, In x (rq_of s' c) ->
             current_of s c = Some x \/ In x (rq_of s c)).
Proof.
  unfold CfsSchedule. view. destruct boost.
  - destruct (current (cpu_states s c)) as [p|] eqn:Hcur.
    + destruct (reconcile_prev p _ _) as [[a1 q1]|] eqn:Hrec; [|discriminate].
      intros H. injection H as <-.
      apply reconcile_prev_view in Hrec.
      destruct Hrec as (Hf & Hc & Hd & Hs & Hi).
      simpl. rewrite Nat.eqb_refl. simpl.
      split; [intros c' Hne; apply Nat.eqb_neq in Hne; rewrite Hne; reflexivity|].
      split; [exact Hf|]. split; [exact Hc|].
      split; [intros x Hx; split; [auto|discriminate]|].
      split; [intros x Hx _; apply Hs; congruence|].
      split; [discriminate|].
      intros x Hx. destruct (Hi x Hx) as [->|]; auto.
    + intros H. injection H as <-. simpl. rewrite Hcur, app_nil_r.
      repeat split; auto; congruence.
  - destruct (PickNextTask _ _ _) as [[[a1 cs1] next]|] eqn:Hpick; [|discriminate].
    apply PickNextTask_view in Hpick.
    destruct Hpick as (Hf & Hc & Hd & Hs & Hn & Hi).
    assert (Hgoal : forall ts',
      (forall x, cpu (ts' x) = cpu (tasks a1 x)) ->
      (forall x, run_state (ts' x) = run_state (tasks a1 x)) ->
      forall s0,
        allocator s0 = with_tasks a1 ts' ->
        cpu_states s0 = (fun x => if Nat.eqb x c then with_current cs1 next
                                  else cpu_states s x) ->
        (forall c', c' <> c -> cpu_states s0 c' = cpu_states s c') /\
        freed (allocator s0) =
          freed (allocator s) ++
          match current (cpu_states s c) with
          | Some p =>
              if State_eqb (run_state (tasks (allocator s) p)) kDone
              then [p] else []
          | None => []
          end /\
        (forall x, cpu (tasks (allocator s0) x) = cpu (tasks (allocator s) x)) /\
        (forall x, run_state (tasks (allocator s0) x) = kDone ->
                   run_state (tasks (allocator s) x) = kDone /\
                   current (cpu_states s0 c) <> Some x) /\
        (forall x, current (cpu_states s c) <> Some x ->
                   current (cpu_states s0 c) <> Some x ->
                   run_state (tasks (allocator s0) x) =
                   run_state (tasks (allocator s) x)) /\
        (forall x, current (cpu_states s0 c) = Some x ->
                   current (cpu_states s c) = Some x \/
                   In x (rq_ (run_queue (cpu_states s c)))) /\
        (forall x, In x (rq_ (run_queue (cpu_states s0 c))) ->
                   current (cpu_states s c) = Some x \/
                   In x (rq_ (run_queue (cpu_states s c))))).
    { intros ts' Hcpu Hst s0 Ha Hcs. rewrite Ha, Hcs. simpl.
      rewrite Nat.eqb_refl. simpl.
      split; [intros c' Hne; apply Nat.eqb_neq in Hne; rewrite Hne; reflexivity|].
      split; [exact Hf|].
      split; [intros x; rewrite Hcpu; apply Hc|].
      split; [intros x; rewrite Hst; apply Hd|].
      split; [intros x; rewrite Hst; apply Hs|].
      split; [exact Hn|exact Hi]. }
    destruct next as [n|].
    + destruct ok; intros H; injection H as <-.
      * eapply Hgoal; [ | | reflexivity | reflexivity ].
        -- intros x. rewrite set_vruntime_cpu, set_status_word_cpu. reflexivity.
        -- intros x. rewrite set_vruntime_run_state, set_status_word_run_state.
           reflexivity.
      * apply (Hgoal (tasks a1) ltac:(reflexivity) ltac:(reflexivity));
          destruct a1; reflexivity.
    + intros H; injection H as <-.
      apply (Hgoal (tasks a1) ltac:(reflexivity) ltac:(reflexivity));
        destruct a1; reflexivity.
Qed.

(** ** The invariant of the life of a task *)

(** A step that changes nothing of what is looked at of [t], except that
    [t] may leave run queues, keeps the invariant. *)
Lemma lifecycle_inv_kept (t : TaskPtr) (ph : Phase) (s s' : Sched) :
  freed_count s' t = freed_count s t ->
  state_of s' t = state_of s t ->
  cpu_of s' t = cpu_of s t ->
  (forall c, current_of s' c = current_of s c) ->
  (forall c, In t (rq_of s' c) -> In t (rq_of s c)) ->
  lifecycle_inv t ph s -> lifecycle_inv t ph s'.
Proof.
  intros Hf Hst Hcpu Hcur Hrq.
  assert (Hplaced : placed_ok t s -> placed_ok t s').
  { intros Hp c [Hc|Hc]; rewrite Hcpu; apply Hp.
    - left. rewrite <- Hcur. assumption.
    - right. auto. }
  destruct ph; simpl.
  - intros [H0 Hno]. split; [congruence|].
    intros c. destruct (Hno c) as [H1 H2]. rewrite Hcur. auto.
  - intros (H0 & Hnd & Hp). split; [congruence|]. split; [congruence|auto].
  - intros [[H1 Hnd]|(H0 & Hd & Hp & c & Hc & Hcu)].
    + left. split; [congruence|]. intros c Hc. rewrite Hst. apply (Hnd c).
      rewrite <- Hcur. assumption.
    + right. split; [congruence|]. split; [congruence|]. split; [auto|].
      exists c. rewrite Hcpu, Hcur. auto.
Qed.

Lemma lifecycle_inv_other (t u : TaskPtr) (ph : Phase) (s s' : Sched) :
  u <> t -> others_kept u s s' ->
  lifecycle_inv t ph s -> lifecycle_inv t ph s'.
Proof.
  intros Hne [Hcur Hoth].
  destruct (Hoth t (not_eq_sym Hne)) as (Hst & Hcpu & Hf & Hrq).
  apply lifecycle_inv_kept; assumption.
Qed.

Lemma lifecycle_inv_alive (t : TaskPtr) (s s' : Sched) :
  others_kept t s s' -> self_alive t s s' ->
  lifecycle_inv t Alive s -> lifecycle_inv t Alive s'.
Proof.
  intros [Hcur _] (Hf & Hst & Hrq & Hcpu) (H0 & Hnd & Hp). simpl.
  split; [congruence|]. split; [auto|].
  intros c [Hc|Hc].
  - rewrite Hcur in Hc. pose proof (Hp c (or_introl Hc)) as Hpc.
    destruct Hcpu; lia.
  - destruct (Hrq c Hc) as [Hold|Hnew]; [|assumption].
    pose proof (Hp c (or_intror Hold)) as Hpc. destruct Hcpu; lia.
Qed.

Lemma lifecycle_inv_new (t : TaskPtr) (s s' : Sched) :
  others_kept t s s' -> self_alive t s s' -> state_of s' t <> kDone ->
  lifecycle_inv t Unborn s -> lifecycle_inv t Alive s'.
Proof.
  intros [Hcur _] (Hf & _ & Hrq & _) Hnd [H0 Hno]. simpl.
  split; [congruence|]. split; [assumption|].
  intros c [Hc|Hc].
  - rewrite Hcur in Hc. destruct (Hno c). contradiction.
  - destruct (Hrq c Hc) as [Hold|Hnew]; [|assumption].
    destruct (Hno c). contradiction.
Qed.

(** TaskDead for a task that lives: it is freed at once when it is not the
    current task of its CPU; else the free is pending. *)
Lemma lifecycle_inv_dead (t : TaskPtr) (fs : bool) (s s' : Sched) :
  HandleTaskDone t fs s = Some s' ->
  lifecycle_inv t Alive s ->
  lifecycle_inv t Dead s' /\
  state_of s' t = kDone /\
  exists c, cpu_of s t = Z.of_nat c /\
            freed_count s' t =
              if is_current (cpu_states s c) t then 0%nat else 1%nat.
Proof.
  intros Hdone (H0 & Hnd & Hp).
  apply HandleTaskDone_view in Hdone.
  destruct Hdone as ([Hcur _] & Hst & Hcpu & Hrq & c & Hc & Hfreed).
  specialize (Hfreed Hnd).
  assert (Hplaced : placed_ok t s').
  { intros c' [Hx|Hx]; rewrite Hcpu; apply Hp.
    - left. rewrite <- Hcur. assumption.
    - right. auto. }
  assert (Hcount : freed_count s' t =
                   if is_current (cpu_states s c) t then 0%nat else 1%nat).
  { unfold freed_count in *. rewrite Hfreed.
    destruct (is_current (cpu_states s c) t).
    - rewrite app_nil_r. assumption.
    - rewrite count_occ_snoc, H0. destruct (Z.eq_dec t t); [reflexivity|congruence]. }
  split; [|split; [assumption|exists c; auto]].
  simpl. destruct (is_current (cpu_states s c) t) eqn:Hic.
  - right. apply is_current_true in Hic.
    split; [assumption|]. split; [assumption|]. split; [assumption|].
    exists c. rewrite Hcpu, Hcur. auto.
  - left. split; [assumption|]. intros c' Hc'. exfalso.
    rewrite Hcur in Hc'. pose proof (Hp c' (or_introl Hc')) as Hpc.
    assert (c' = c) as -> by lia.
    apply is_current_true in Hc'. unfold current_of in *. congruence.
Qed.

Lemma CfsSchedule_freed_count (t : TaskPtr) (c : nat) (b : Z) (boost ok : bool)
    (r : Z) (s s' : Sched) :
  CfsSchedule c b boost ok r s = Some s' ->
  (current_of s c = Some t -> state_of s t = kDone ->
   freed_count s' t = S (freed_count s t)) /\
  (~ (current_of s c = Some t /\ state_of s t = kDone) ->
   freed_count s' t = freed_count s t).
Proof.
  intros Hrun. apply CfsSchedule_view in Hrun.
  destruct Hrun as (_ & Hf & _). unfold freed_count. rewrite Hf. split.
  - intros -> ->. simpl. rewrite count_occ_snoc.
    destruct (Z.eq_dec t t); [lia|congruence].
  - intros Hnot. destruct (current_of s c) as [p|]; [|rewrite app_nil_r; reflexivity].
    destruct (State_eqb (state_of s p) kDone) eqn:Hd;
      [|rewrite app_nil_r; reflexivity].
    apply State_eqb_kDone in Hd. rewrite count_occ_snoc.
    destruct (Z.eq_dec p t) as [->|]; [|lia].
    exfalso. apply Hnot. auto.
Qed.

Lemma CfsSchedule_placed_ok (t : TaskPtr) (c : nat) (b : Z) (boost ok : bool)
    (r : Z) (s s' : Sched) :
  CfsSchedule c b boost ok r s = Some s' ->
  placed_ok t s -> placed_ok t s'.
Proof.
  intros Hrun Hp. apply CfsSchedule_view in Hrun.
  destruct Hrun as (Hoth & _ & Hcpu & _ & _ & Hcur & Hrq).
  intros c' Hc'. rewrite Hcpu. apply Hp.
  destruct (Nat.eq_dec c' c) as [->|Hne].
  - destruct Hc' as [Hx|Hx]; [apply Hcur|apply Hrq]; assumption.
  - unfold current_of, rq_of in *. rewrite (Hoth c' Hne) in Hc'. assumption.
Qed.

(** [CfsSchedule] on any CPU keeps the invariant. *)
Lemma lifecycle_inv_decide (t : TaskPtr) (ph : Phase) (c : nat) (b : Z)
    (boost ok : bool) (r : Z) (s s' : Sched) :
  CfsSchedule c b boost ok r s = Some s' ->
  lifecycle_inv t ph s -> lifecycle_inv t ph s'.
Proof.
  intros Hrun.
  pose proof (CfsSchedule_freed_count t _ _ _ _ _ _ _ Hrun) as [Hinc Hsame].
  pose proof (CfsSchedule_placed_ok t _ _ _ _ _ _ _ Hrun) as Hplaced.
  apply CfsSchedule_view in Hrun.
  destruct Hrun as (Hoth & _ & Hcpu & Hdone & Hstay & Hcur & Hrq).
  assert (Hcur' : forall c', current_of s' c' = Some t ->
                  (c' <> c /\ current_of s c' = Some t) \/
                  (c' = c /\ (current_of s c = Some t \/ In t (rq_of s c)))).
  { intros c' Hc'. destruct (Nat.eq_dec c' c) as [->|Hne]; [right; auto|].
    left. unfold current_of in *. rewrite (Hoth c' Hne) in Hc'. auto. }
  destruct ph; simpl.
  - intros [H0 Hno]. split.
    + rewrite Hsame; [assumption|]. intros [Hx _]. destruct (Hno c). contradiction.
    + intros c'. split.
      * intros Hc'. destruct (Hcur' c' Hc') as [[_ Hx]|[_ [Hx|Hx]]];
          [destruct (Hno c')|destruct (Hno c)|destruct (Hno c)]; contradiction.
      * intros Hc'. destruct (Nat.eq_dec c' c) as [->|Hne].
        -- destruct (Hrq t Hc'); destruct (Hno c); contradiction.
        -- unfold rq_of in *. rewrite (Hoth c' Hne) in Hc'.
           destruct (Hno c'); contradiction.
  - intros (H0 & Hnd & Hp). split.
    + rewrite Hsame; [assumption|]. intros [_ Hx]. contradiction.
    + split; [|auto]. intros Hd. destruct (Hdone t Hd). contradiction.
  - intros [[H1 Hnd]|(H0 & Hd & Hp & c0 & Hc0 & Hcu)].
    + left. split.
      * rewrite Hsame; [assumption|]. intros [Hx Hy]. exact (Hnd c Hx Hy).
      * intros c' Hc' Hd. destruct (Hdone t Hd) as [Hd0 Hnc].
        destruct (Hcur' c' Hc') as [[_ Hx]|[-> _]].
        -- exact (Hnd c' Hx Hd0).
        -- contradiction.
    + destruct (Nat.eq_dec c0 c) as [->|Hne].
      * left. split.
        -- rewrite (Hinc Hcu Hd), H0. reflexivity.
        -- intros c' Hc' Hd'. destruct (Hdone t Hd') as [_ Hnc].
           destruct (Hcur' c' Hc') as [[Hne Hx]|[-> _]]; [|contradiction].
           pose proof (Hp c' (or_introl Hx)). lia.
      * right. split.
        -- rewrite Hsame; [assumption|]. intros [Hx _].
           pose proof (Hp c (or_introl Hx)). lia.
        -- assert (Hkeep : current_of s' c0 = Some t).
           { unfold current_of in *. rewrite (Hoth c0 Hne). assumption. }
           split.
           ++ rewrite Hstay; [assumption| |].
              ** intros Hx. pose proof (Hp c (or_introl Hx)). lia.
              ** intros Hx. destruct (Hcur t Hx) as [Hy|Hy];
                   [pose proof (Hp c (or_introl Hy))
                   |pose proof (Hp c (or_intror Hy))]; lia.
           ++ split; [auto|]. exists c0. rewrite Hcpu. auto.
Qed.

(** The step of the invariant, for every event. *)
Lemma lifecycle_inv_step (t : TaskPtr) (ph ph' : Phase) (e : Event)
    (s s' : Sched) :
  lifecycle_inv t ph s ->
  lifecycle_step t ph e = Some ph' ->
  step e s = Some s' ->
  lifecycle_inv t ph' s'.
Proof.
  intros Hinv Hph Hstep. destruct e as [m a|x r|c b boost ok r].
  - destruct m as [u seq rn|u seq|u seq c sw|u seq c sw|u seq c sw|u seq
                  |u seq c sw|u seq|c];
      cbn [lifecycle_step] in Hph; cbn [step DispatchMessage] in Hstep;
      try (destruct (Z.eqb_spec u t) as [->|Hne]).
    + apply TaskNew_view in Hstep. destruct Hstep as (Hk & Ha & Hnd).
      apply others_kept_seqnum in Hk. apply self_alive_seqnum in Ha.
      assert (Hst : state_of s' t <> kDone) by exact Hnd.
      destruct ph; try discriminate. injection Hph as <-.
      apply (lifecycle_inv_new t s s'); assumption.
    + injection Hph as <-. apply TaskNew_view in Hstep.
      destruct Hstep as (Hk & _). apply others_kept_seqnum in Hk.
      apply (lifecycle_inv_other t u ph s s'); assumption.
    + apply TaskRunnable_view in Hstep. destruct Hstep as (Hk & Ha).
      apply others_kept_seqnum in Hk. apply self_alive_seqnum in Ha.
      destruct ph; try discriminate. injection Hph as <-.
      apply (lifecycle_inv_alive t s s'); assumption.
    + injection Hph as <-. apply TaskRunnable_view in Hstep.
      destruct Hstep as (Hk & _). apply others_kept_seqnum in Hk.
      apply (lifecycle_inv_other t u ph s s'); assumption.
    + apply TaskBlocked_view in Hstep. destruct Hstep as (Hk & Ha).
      apply others_kept_seqnum in Hk. apply self_alive_seqnum in Ha.
      destruct ph; try discriminate. injection Hph as <-.
      apply (lifecycle_inv_alive t s s'); assumption.
    + injection Hph as <-. apply TaskBlocked_view in Hstep.
      destruct Hstep as (Hk & _). apply others_kept_seqnum in Hk.
      apply (lifecycle_inv_other t u ph s s'); assumption.
    + apply TaskYield_view in Hstep. destruct Hstep as (Hk & Ha).
      apply others_kept_seqnum in Hk. apply self_alive_seqnum in Ha.
      destruct ph; try discriminate. injection Hph as <-.
      apply (lifecycle_inv_alive t s s'); assumption.
    + injection Hph as <-. apply TaskYield_view in Hstep.
      destruct Hstep as (Hk & _). apply others_kept_seqnum in Hk.
      apply (lifecycle_inv_other t u ph s s'); assumption.
    + apply TaskPreempted_view in Hstep. destruct Hstep as (Hk & Ha).
      apply others_kept_seqnum in Hk. apply self_alive_seqnum in Ha.
      destruct ph; try discriminate. injection Hph as <-.
      apply (lifecycle_inv_alive t s s'); assumption.
    + injection Hph as <-. apply TaskPreempted_view in Hstep.
      destruct Hstep as (Hk & _). apply others_kept_seqnum in Hk.
      apply (lifecycle_inv_other t u ph s s'); assumption.
    + apply TaskSwitchto_view in Hstep. destruct Hstep as (Hk & Ha).
      apply others_kept_seqnum in Hk. apply self_alive_seqnum in Ha.
      destruct ph; try discriminate. injection Hph as <-.
      apply (lifecycle_inv_alive t s s'); assumption.
    + injection Hph as <-. apply TaskSwitchto_view in Hstep.
      destruct Hstep as (Hk & _). apply others_kept_seqnum in Hk.
      apply (lifecycle_inv_other t u ph s s'); assumption.
    + discriminate.
    + injection Hph as <-. unfold TaskDeparted in Hstep.
      destruct (HandleTaskDone _ _ _) as [s1|] eqn:Hdone; [|discriminate].
      injection Hstep as <-. apply HandleTaskDone_view in Hdone.
      destruct Hdone as (Hk & _). apply others_kept_seqnum in Hk.
      apply (lifecycle_inv_other t u ph s s1) in Hinv; [|assumption..].
      destruct (ping_if_frame sw c s1) as [Hpa Hpc].
      revert Hinv. apply lifecycle_inv_kept; view; rewrite ?Hpa, ?Hpc; auto.
    + destruct ph; try discriminate. injection Hph as <-.
      apply (lifecycle_inv_dead t false (set_task_seqnum t seq s) s').
      * exact Hstep.
      * revert Hinv. apply lifecycle_inv_kept; view; simpl;
          rewrite ?set_seqnum_run_state, ?set_seqnum_cpu; auto.
    + injection Hph as <-. apply HandleTaskDone_view in Hstep.
      destruct Hstep as (Hk & _). apply others_kept_seqnum in Hk.
      apply (lifecycle_inv_other t u ph s s'); assumption.
    + injection Hph as <-. injection Hstep as <-.
      destruct (CpuTick_view c s) as (Ha & Hc & Hr).
      revert Hinv. apply lifecycle_inv_kept; view; rewrite ?Ha; auto.
      intros c'. rewrite Hr. auto.
  - injection Hph as <-. injection Hstep as <-.
    revert Hinv. apply lifecycle_inv_kept; view; simpl;
      rewrite ?set_status_word_run_state, ?set_status_word_cpu; auto.
  - injection Hph as <-. simpl in Hstep.
    apply (lifecycle_inv_decide t ph c b boost ok r s s'); assumption.
Qed.

Lemma lifecycle_inv_run (t : TaskPtr) (es : list Event) :
  forall (ph ph' : Phase) (s s' : Sched),
    lifecycle_inv t ph s ->
    lifecycle t ph es = Some ph' ->
    run es s = Some s' ->
    lifecycle_inv t ph' s'.
Proof.
  induction es as [|e es IH]; intros ph ph' s s' Hinv Hph Hrun; simpl in *.
  - injection Hph as <-. injection Hrun as <-. assumption.
  - destruct (lifecycle_step t ph e) as [ph1|] eqn:Hstep; [|discriminate].
    destruct (step e s) as [s1|] eqn:Hs; [|discriminate].
    apply (IH ph1 ph' s1 s'); [|assumption..].
    exact (lifecycle_inv_step t ph ph1 e s s1 Hinv Hstep Hs).
Qed.

Lemma lifecycle_app (t : TaskPtr) (es1 es2 : list Event) :
  forall ph ph',
    lifecycle t ph (es1 ++ es2) = Some ph' ->
    exists mid, lifecycle t ph es1 = Some mid /\ lifecycle t mid es2 = Some ph'.
Proof.
  induction es1 as [|e es1 IH]; intros ph ph' H; simpl in *.
  - exists ph. auto.
  - destruct (lifecycle_step t ph e) as [ph1|]; [|discriminate]. auto.
Qed.

Lemma run_app (es1 es2 : list Event) :
  forall s s',
    run (es1 ++ es2) s = Some s' ->
    exists mid, run es1 s = Some mid /\ run es2 mid = Some s'.
Proof.
  induction es1 as [|e es1 IH]; intros s s' H; simpl in *.
  - exists s. auto.
  - destruct (step e s) as [s1|]; [|discriminate]. auto.
Qed.

(** The scheduler, as it is built, knows no task. *)
Lemma lifecycle_inv_init (cpulist : list nat) (mg lat : Duration) (t : TaskPtr) :
  lifecycle_inv t Unborn (CfsScheduler cpulist mg lat).
Proof. simpl. split; [reflexivity|]. intros c. split; [discriminate|auto]. Qed.




(** ** The invariant of the run queues, in every state that is reached *)

Lemma rq_ok_same (ts ts' : Tasks) (q q' : CfsRq) :
  rq_ q' = rq_ q ->
  min_vruntime_ q' = min_vruntime_ q ->
  (forall x, In x (rq_ q) -> vruntime (ts' x) = vruntime (ts x)) ->
  rq_ok ts q = true -> rq_ok ts' q' = true.
Proof.
  intros Hrq Hmin Hvr Hok. apply rq_ok_intro.
  - rewrite Hrq. rewrite (set_sorted_ext (Less ts') (Less ts)).
    + apply rq_ok_sorted; assumption.
    + intros a b Ha Hb. apply Less_ext; auto.
  - rewrite Hrq, Hmin. intros x Hx. rewrite Hvr by assumption.
    apply rq_ok_min; assumption.
Qed.

Lemma rq_ok_insert (ts : Tasks) (t : TaskPtr) (q : CfsRq) :
  rq_ok ts q = true -> rq_ok ts (InsertTaskIntoRq ts t q) = true.
Proof.
  intros Hok.
  destruct (InsertTaskIntoRq_spec ts t q (rq_ok_sorted _ _ Hok))
    as (_ & _ & Hs & _ & Hmin & _).
  apply rq_ok_intro; assumption.
Qed.

Lemma rq_ok_enqueue (t : TaskPtr) (ts ts' : Tasks) (q q' : CfsRq) :
  EnqueueTask t ts q = Some (ts', q') ->
  rq_ok ts q = true ->
  rq_ok ts' q' = true /\
  (forall x, x <> t -> vruntime (ts' x) = vruntime (ts x)).
Proof.
  unfold EnqueueTask. destruct (cpu (ts t) <? 0); [discriminate|].
  intros Heq Hok. injection Heq as <- <-. split.
  - apply rq_ok_insert.
    apply (rq_ok_same ts _ q q); auto.
    intros x Hx. rewrite set_run_state_vruntime.
    destruct (Z.eq_dec x t) as [->|Hne].
    + rewrite set_vruntime_same. pose proof (rq_ok_min _ _ _ Hok Hx). lia.
    + rewrite set_vruntime_other by assumption. reflexivity.
  - intros x Hne. rewrite set_run_state_vruntime, set_vruntime_other by assumption.
    reflexivity.
Qed.

Lemma rq_ok_erase (ts : Tasks) (t : TaskPtr) (q : CfsRq) :
  rq_ok ts q = true -> rq_ok ts (Erase t ts q) = true.
Proof.
  intros Hok. apply rq_ok_intro; simpl.
  - apply rq_erase_sorted. apply rq_ok_sorted. assumption.
  - intros x Hx. apply (rq_ok_min ts q x Hok). exact (In_set_erase _ _ _ _ Hx).
Qed.

Lemma rq_ok_update (ts : Tasks) (cs : CpuState) :
  rq_ok ts (run_queue cs) = true ->
  rq_ok ts (run_queue (UpdateMinVruntime ts cs)) = true.
Proof.
  intros Hok. apply rq_ok_intro.
  - unfold UpdateMinVruntime. simpl. apply rq_ok_sorted. assumption.
  - unfold UpdateMinVruntime. simpl. intros x Hx.
    pose proof (rq_ok_min _ _ _ Hok Hx) as Hmin.
    destruct (rq_ (run_queue cs)) as [|m rest] eqn:Hrq; [destruct Hx|].
    assert (Hm : vruntime (ts m) <= vruntime (ts x)).
    { apply (leftmost_least ts m rest); [|assumption].
      rewrite <- Hrq. apply rq_ok_sorted. assumption. }
    simpl. destruct (current cs) as [p|]; [|lia].
    destruct (State_eqb (run_state (ts p)) kRunnable
              || State_eqb (run_state (ts p)) kRunning); lia.
Qed.

Lemma rq_ok_reconcile (p : TaskPtr) (a a1 : Allocator) (q q1 : CfsRq) :
  reconcile_prev p a q = Some (a1, q1) ->
  rq_ok (tasks a) q = true ->
  rq_ok (tasks a1) q1 = true /\
  (forall x, vruntime (tasks a1 x) = vruntime (tasks a x)).
Proof.
  unfold reconcile_prev, PutPrevTask. intros Heq Hok.
  destruct (run_state (tasks a p)).
  - injection Heq as <- <-. auto.
  - destruct (cpu (tasks a p) <? 0); [discriminate|].
    injection Heq as <- <-. split; [apply rq_ok_insert; assumption|auto].
  - destruct (cpu (tasks a p) <? 0); [discriminate|].
    injection Heq as <- <-. simpl. split.
    + apply (rq_ok_same (tasks a) _ (InsertTaskIntoRq (tasks a) p q)); auto.
      * intros x _. apply set_run_state_vruntime.
      * apply rq_ok_insert. assumption.
    + intros x. apply set_run_state_vruntime.
  - injection Heq as <- <-. simpl. split; [apply rq_ok_erase; assumption|auto].
Qed.

Lemma rq_ok_pick (a a' : Allocator) (cs cs' : CpuState) (next : option TaskPtr) :
  pick_leftmost a cs = (a', cs', next) ->
  rq_ok (tasks a) (run_queue cs) = true ->
  rq_ok (tasks a') (run_queue cs') = true /\
  (forall x, vruntime (tasks a' x) = vruntime (tasks a x)) /\
  (forall x, next = Some x -> ~ In x (rq_ (run_queue cs'))).
Proof.
  unfold pick_leftmost. intros Heq Hok.
  destruct (rq_ (run_queue cs)) as [|m rest] eqn:Hrq.
  - injection Heq as <- <- <-.
    split; [apply rq_ok_update; assumption|]. split; [auto|discriminate].
  - injection Heq as <- <- <-. cbn [tasks with_tasks].
    assert (Hvr : forall x,
               vruntime (set_first_pick (set_run_state (tasks a) m kRunning) m
                           (status_word_runtime
                              (set_run_state (tasks a) m kRunning m)) x)
               = vruntime (tasks a x)).
    { intros x. rewrite set_first_pick_vruntime. apply set_run_state_vruntime. }
    pose proof (rq_ok_sorted _ _ Hok) as Hs. rewrite Hrq in Hs.
    split; [|split; [exact Hvr|]].
    + apply rq_ok_update. cbn [run_queue with_run_queue].
      apply (rq_ok_same (tasks a) _ (set_rq (run_queue cs) rest)); auto.
      apply rq_ok_intro; simpl.
      * exact (set_sorted_tail _ _ _ Hs).
      * intros x Hx. apply (rq_ok_min _ _ x Hok). rewrite Hrq. right. assumption.
    + intros x Hx. injection Hx as <-.
      destruct (UpdateMinVruntime_frame
                  (set_first_pick (set_run_state (tasks a) m kRunning) m
                     (status_word_runtime (set_run_state (tasks a) m kRunning m)))
                  (with_run_queue cs (set_rq (run_queue cs) rest)))
        as (_ & _ & Hr & _).
      rewrite Hr. simpl. exact (rq_head_not_in _ _ _ Hs).
Qed.

Lemma rq_ok_PickNextTask (prev : option TaskPtr) (a a' : Allocator)
    (cs cs' : CpuState) (next : option TaskPtr) :
  PickNextTask prev a cs = Some (a', cs', next) ->
  rq_ok (tasks a) (run_queue cs) = true ->
  (forall p, prev = Some p -> ~ In p (rq_ (run_queue cs))) ->
  rq_ok (tasks a') (run_queue cs') = true /\
  (forall x, vruntime (tasks a' x) = vruntime (tasks a x)) /\
  (forall x, next = Some x -> ~ In x (rq_ (run_queue cs'))).
Proof.
  unfold PickNextTask. intros Heq Hok Hprev.
  destruct (keeps_running prev (tasks a) cs).
  - injection Heq as <- <- <-. auto.
  - destruct prev as [p|].
    + destruct (reconcile_prev p a _) as [[a1 q1]|] eqn:Hrec; [|discriminate].
      injection Heq as Heq.
      destruct (rq_ok_reconcile _ _ _ _ _ Hrec Hok) as [Hok1 Hvr1].
      destruct (rq_ok_pick _ _ _ _ _ Heq Hok1) as (Hok2 & Hvr2 & Hout).
      split; [assumption|]. split; [intros x; rewrite Hvr2; apply Hvr1|].
      assumption.
    + injection Heq as Heq.
      destruct (rq_ok_pick _ _ _ _ _ Heq Hok) as (Hok2 & Hvr2 & Hout).
      split; [assumption|]. split; assumption.
Qed.

Lemma placed_ok_kept (u : TaskPtr) (s s' : Sched) :
  cpu_of s' u = cpu_of s u ->
  (forall c, current_of s' c = current_of s c) ->
  (forall c, In u (rq_of s' c) -> In u (rq_of s c)) ->
  placed_ok u s -> placed_ok u s'.
Proof.
  intros Hcpu Hcur Hrq Hp c [Hc|Hc]; rewrite Hcpu; apply Hp.
  - left. rewrite <- Hcur. assumption.
  - right. auto.
Qed.

Lemma placed_ok_others (u x : TaskPtr) (s s' : Sched) :
  x <> u -> others_kept u s s' -> placed_ok x s -> placed_ok x s'.
Proof.
  intros Hne [Hcur Hoth]. destruct (Hoth x Hne) as (_ & Hcpu & _ & Hrq).
  apply placed_ok_kept; assumption.
Qed.

Lemma placed_ok_alive (u : TaskPtr) (s s' : Sched) :
  others_kept u s s' -> self_alive u s s' -> placed_ok u s -> placed_ok u s'.
Proof.
  intros [Hcur _] (_ & _ & Hrq & Hcpu) Hp c [Hc|Hc].
  - rewrite Hcur in Hc. pose proof (Hp c (or_introl Hc)). destruct Hcpu; lia.
  - destruct (Hrq c Hc) as [Hold|Hnew]; [|assumption].
    pose proof (Hp c (or_intror Hold)). destruct Hcpu; lia.
Qed.

(** A step that works on the run queue of one CPU [c], and changes the
    vruntime of no task that is in the run queue of another CPU. *)
Lemma sched_ok_update (s s' : Sched) (c : nat) (changed : TaskPtr -> Prop) :
  sched_ok s ->
  (forall c', c' <> c -> cpu_states s' c' = cpu_states s c') ->
  (forall x, ~ changed x ->
             vruntime (tasks (allocator s') x) = vruntime (tasks (allocator s) x)) ->
  (forall x c', changed x -> c' <> c -> ~ In x (rq_of s c')) ->
  rq_ok (tasks (allocator s')) (run_queue (cpu_states s' c)) = true ->
  (forall u, placed_ok u s') ->
  (forall p, current_of s' c = Some p -> ~ In p (rq_of s' c)) ->
  sched_ok s'.
Proof.
  intros (Hp & Hi & Hok) Hoth Hvr Hch Hlocal Hp' Hi'.
  split; [assumption|]. split.
  - intros c' p. destruct (Nat.eq_dec c' c) as [->|Hne]; [apply Hi'|].
    unfold current_of, rq_of. rewrite (Hoth c' Hne). apply Hi.
  - intros c'. destruct (Nat.eq_dec c' c) as [->|Hne]; [assumption|].
    rewrite (Hoth c' Hne).
    apply (rq_ok_same (tasks (allocator s)) _ (run_queue (cpu_states s c'))); auto.
    intros x Hx. apply Hvr. intros Hcx. exact (Hch x c' Hcx Hne Hx).
Qed.

(** A step that leaves the run queues and the current tasks as they were,
    and the vruntime and the CPU of every task. *)
Lemma sched_ok_kept (s s' : Sched) :
  (forall c, current (cpu_states s' c) = current (cpu_states s c) /\
             run_queue (cpu_states s' c) = run_queue (cpu_states s c)) ->
  (forall x, vruntime (tasks (allocator s') x) = vruntime (tasks (allocator s) x)) ->
  (forall x, cpu (tasks (allocator s') x) = cpu (tasks (allocator s) x)) ->
  sched_ok s -> sched_ok s'.
Proof.
  intros Hcs Hvr Hcpu (Hp & Hi & Hok).
  split; [|split].
  - intros u. apply (placed_ok_kept u s s'); view; auto.
    + intros c. apply Hcs.
    + intros c. destruct (Hcs c) as [_ ->]. auto.
  - intros c p. view. destruct (Hcs c) as [-> ->]. apply Hi.
  - intros c. destruct (Hcs c) as [_ ->].
    apply (rq_ok_same (tasks (allocator s)) _ (run_queue (cpu_states s c))); auto.
Qed.

Lemma sched_ok_set_state (u : TaskPtr) (st : State) (s : Sched) :
  sched_ok s -> sched_ok (set_task_state u st s).
Proof.
  apply sched_ok_kept; simpl; auto; intros x;
    [apply set_run_state_vruntime|apply set_run_state_cpu].
Qed.

Lemma sched_ok_set_seqnum (u : TaskPtr) (seq : Z) (s : Sched) :
  sched_ok s -> sched_ok (set_task_seqnum u seq s).
Proof.
  apply sched_ok_kept; simpl; auto; intros x;
    [apply set_seqnum_vruntime|apply set_seqnum_cpu].
Qed.

Lemma sched_ok_ping_if (b : bool) (c : nat) (s : Sched) :
  sched_ok s -> sched_ok (ping_if b c s).
Proof.
  destruct (ping_if_frame b c s) as [Ha Hc].
  apply sched_ok_kept; rewrite ?Ha, ?Hc; auto.
Qed.

Lemma Migrate_sched_ok (u : TaskPtr) (c : nat) (seq : Z) (a : AssociateResult)
    (s s' : Sched) :
  Migrate u c seq a s = Some s' -> sched_ok s -> sched_ok s'.
Proof.
  intros Hm Hok. pose proof Hok as (Hp & Hi & Hrq).
  pose proof (Migrate_view _ _ _ _ _ _ Hm) as (Hk & _ & Hcpu & Hcpu' & _ & Hin).
  assert (Hnowhere : forall c', current_of s c' <> Some u /\ ~ In u (rq_of s c')).
  { intros c'. split; intros Hx;
      [pose proof (Hp u c' (or_introl Hx))|pose proof (Hp u c' (or_intror Hx))];
      lia. }
  assert (Hplaced : forall x, placed_ok x s').
  { intros x. destruct (Z.eq_dec x u) as [->|Hne].
    - intros c' [Hx|Hx].
      + destruct Hk as [Hcur _]. rewrite Hcur in Hx.
        destruct (Hnowhere c'). contradiction.
      + destruct (Hin c' Hx) as [Hold| ->]; [|assumption].
        destruct (Hnowhere c'). contradiction.
    - apply (placed_ok_others u x s s'); auto. }
  revert Hm. unfold Migrate.
  destruct (negb _); [discriminate|]. destruct a; try discriminate.
  destruct (EnqueueTask _ _ _) as [[ts2 q]|] eqn:Henq; [|discriminate].
  intros Heq. injection Heq as <-.
  assert (Hok1 : rq_ok (set_cpu (tasks (allocator s)) u (Z.of_nat c))
                   (run_queue (cpu_states s c)) = true).
  { apply (rq_ok_same (tasks (allocator s)) _ (run_queue (cpu_states s c))); auto.
    intros x _. store_cases x u. }
  destruct (rq_ok_enqueue _ _ _ _ _ Henq Hok1) as [Hok2 Hvr2].
  pose proof (EnqueueTask_view _ _ _ _ _ Henq) as (_ & _ & _ & _ & Hmem).
  apply (sched_ok_update s _ c (fun x => x = u));
    [assumption| | | | |assumption|].
  - intros c' Hne. simpl. apply Nat.eqb_neq in Hne. rewrite Hne. reflexivity.
  - intros x Hx. simpl. rewrite Hvr2 by assumption. store_cases x u.
  - intros x c' -> _. apply Hnowhere.
  - simpl. rewrite Nat.eqb_refl. exact Hok2.
  - view. simpl. rewrite Nat.eqb_refl. simpl. intros p Hcur Hx.
    destruct (Hmem p Hx) as [->|Hold].
    + destruct (Hnowhere c) as [Hn _]. view. contradiction.
    + exact (Hi c p Hcur Hold).
Qed.

Lemma views_placed (u : TaskPtr) (s s' : Sched) :
  others_kept u s s' -> self_alive u s s' ->
  (forall x, placed_ok x s) -> forall x, placed_ok x s'.
Proof.
  intros Hk Ha Hp x. destruct (Z.eq_dec x u) as [->|Hne].
  - apply (placed_ok_alive u s s'); auto.
  - apply (placed_ok_others u x s s'); auto.
Qed.

Lemma SelectTaskRq_sched_ok (s s' : Sched) (c : nat) :
  SelectTaskRq s = Some (c, s') -> sched_ok s -> sched_ok s'.
Proof.
  intros Hsel. apply SelectTaskRq_frame in Hsel. destruct Hsel as [Ha Hc].
  apply sched_ok_kept; rewrite ?Ha, ?Hc; auto.
Qed.

Lemma TaskNew_sched_ok (u : TaskPtr) (seq : Z) (runnable : bool)
    (a : AssociateResult) (s s' : Sched) :
  TaskNew u seq runnable a s = Some s' -> sched_ok s -> sched_ok s'.
Proof.
  unfold TaskNew. intros Heq Hok.
  assert (Hok2 : sched_ok (set_task_state u kBlocked (set_task_seqnum u seq s))).
  { apply sched_ok_set_state, sched_ok_set_seqnum. assumption. }
  destruct runnable.
  - destruct (SelectTaskRq _) as [[c s3]|] eqn:Hsel; [|discriminate].
    apply (Migrate_sched_ok _ _ _ _ _ _ Heq).
    exact (SelectTaskRq_sched_ok _ _ _ Hsel Hok2).
  - injection Heq as <-. assumption.
Qed.

Lemma TaskRunnable_sched_ok (u : TaskPtr) (seq : Z) (a : AssociateResult)
    (s s' : Sched) :
  TaskRunnable u seq a s = Some s' -> sched_ok s -> sched_ok s'.
Proof.
  intros Hrun Hok. pose proof Hok as (Hp & Hi & Hrq).
  pose proof (TaskRunnable_view _ _ _ _ _ Hrun) as [Hk Ha].
  pose proof (views_placed u s s' Hk Ha Hp) as Hplaced.
  revert Hrun. unfold TaskRunnable.
  destruct (cpu (tasks (allocator s) u) <? 0).
  - destruct (SelectTaskRq _) as [[c s3]|] eqn:Hsel; [|discriminate].
    intros Hm. apply (Migrate_sched_ok _ _ _ _ _ _ Hm).
    exact (SelectTaskRq_sched_ok _ _ _ Hsel Hok).
  - destruct (cpu_state_of _ u) as [c|] eqn:Hc; [|discriminate].
    apply cpu_state_of_Some in Hc.
    destruct (is_current (cpu_states s c) u) eqn:Hcur.
    + intros Heq. injection Heq as <-. apply sched_ok_set_state. assumption.
    + destruct (EnqueueTask _ _ _) as [[ts1 q]|] eqn:Henq; [|discriminate].
      intros Heq. injection Heq as <-.
      destruct (rq_ok_enqueue _ _ _ _ _ Henq (Hrq c)) as [Hok1 Hvr1].
      pose proof (EnqueueTask_view _ _ _ _ _ Henq) as (_ & _ & _ & _ & Hmem).
      apply (sched_ok_update s _ c (fun x => x = u));
        [assumption| | | | |assumption|].
      * intros c' Hne. simpl. apply Nat.eqb_neq in Hne. rewrite Hne. reflexivity.
      * intros x Hx. simpl. apply Hvr1. assumption.
      * intros x c' -> Hne Hx. pose proof (Hp u c' (or_intror Hx)).
        unfold cpu_of in *. apply Hne. lia.
      * simpl. rewrite Nat.eqb_refl. exact Hok1.
      * view. simpl. rewrite Nat.eqb_refl. simpl. intros p Hcp Hx.
        destruct (Hmem p Hx) as [->|Hold].
        -- assert (is_current (cpu_states s c) u = true)
             by (apply is_current_true; assumption).
           congruence.
        -- exact (Hi c p Hcp Hold).
Qed.

Lemma HandleTaskDone_sched_ok (u : TaskPtr) (fs : bool) (s s' : Sched) :
  HandleTaskDone u fs s = Some s' -> sched_ok s -> sched_ok s'.
Proof.
  intros Hrun Hok.
  pose proof (HandleTaskDone_view _ _ _ _ Hrun) as (Hk & _ & Hcpu & Hin & _).
  assert (Hplaced : forall x, placed_ok x s').
  { destruct Hok as (Hp & _). intros x. destruct (Z.eq_dec x u) as [->|Hne].
    - apply (placed_ok_kept u s s'); auto. apply Hk.
    - apply (placed_ok_others u x s s'); auto. }
  revert Hrun. unfold HandleTaskDone.
  destruct (cpu_state_of _ u) as [c|]; [|discriminate].
  pose proof (sched_ok_set_state u kDone s Hok) as Hok1.
  destruct (_ || _ || _); [|intros Heq; injection Heq as <-; assumption].
  destruct (is_current (cpu_states s c) u);
    [intros Heq; injection Heq as <-; assumption|].
  intros Heq. injection Heq as <-.
  pose proof Hok1 as (_ & Hi1 & Hrq1).
  apply (sched_ok_update (set_task_state u kDone s) _ c (fun _ => False));
    [assumption| | | | |assumption|].
  - intros c' Hne. simpl. apply Nat.eqb_neq in Hne. rewrite Hne. reflexivity.
  - intros x _. reflexivity.
  - intros x c' [].
  - simpl. rewrite Nat.eqb_refl.
    apply rq_ok_update. simpl. apply rq_ok_erase. apply (Hrq1 c).
  - view. simpl. rewrite Nat.eqb_refl. simpl. intros p Hcp Hx.
    apply (Hi1 c p Hcp). exact (In_set_erase _ _ _ _ Hx).
Qed.

Lemma CfsSchedule_sched_ok (c : nat) (b : Z) (boost ok : bool) (r : Z)
    (s s' : Sched) :
  CfsSchedule c b boost ok r s = Some s' -> sched_ok s -> sched_ok s'.
Proof.
  intros Hrun Hok. pose proof Hok as (Hp & Hi & Hrq).
  assert (Hplaced : forall x, placed_ok x s').
  { intros x. exact (CfsSchedule_placed_ok x _ _ _ _ _ _ _ Hrun (Hp x)). }
  pose proof (CfsSchedule_view _ _ _ _ _ _ _ Hrun) as (_ & _ & Hcpu & _).
  revert Hrun. unfold CfsSchedule. destruct boost.
  - destruct (current (cpu_states s c)) as [p|] eqn:Hcur.
    + destruct (reconcile_prev p _ _) as [[a1 q1]|] eqn:Hrec; [|discriminate].
      intros Heq. injection Heq as <-.
      destruct (rq_ok_reconcile _ _ _ _ _ Hrec (Hrq c)) as [Hok1 Hvr1].
      apply (sched_ok_update s _ c (fun _ => False));
        [assumption| | | | |assumption|].
      * intros c' Hne. simpl. apply Nat.eqb_neq in Hne. rewrite Hne. reflexivity.
      * intros x _. simpl. apply Hvr1.
      * intros x c' [].
      * simpl. rewrite Nat.eqb_refl. apply rq_ok_update. exact Hok1.
      * view. simpl. rewrite Nat.eqb_refl. discriminate.
    + intros Heq. injection Heq as <-.
      revert Hok. apply sched_ok_kept; auto.
  - destruct (PickNextTask _ _ _) as [[[a1 cs1] next]|] eqn:Hpick; [|discriminate].
    destruct (rq_ok_PickNextTask _ _ _ _ _ _ Hpick (Hrq c)) as (Hok1 & Hvr1 & Hout).
    { intros p Hcp. exact (Hi c p Hcp). }
    assert (Hplain : forall s0,
               allocator s0 = a1 ->
               cpu_states s0 = (fun x => if Nat.eqb x c then with_current cs1 next
                                         else cpu_states s x) ->
               (forall x, placed_ok x s0) -> sched_ok s0).
    { intros s0 Ha Hcs Hpl.
      apply (sched_ok_update s s0 c (fun _ => False));
        [assumption| | | | |assumption|].
      - intros c' Hne. rewrite Hcs. apply Nat.eqb_neq in Hne. rewrite Hne.
        reflexivity.
      - intros x _. rewrite Ha. apply Hvr1.
      - intros x c' [].
      - rewrite Ha, Hcs, Nat.eqb_refl. exact Hok1.
      - view. rewrite Hcs, Nat.eqb_refl. exact Hout. }
    destruct next as [n|].
    + destruct ok; intros Heq; injection Heq as <-.
      * assert (Hcn : cpu_of s n = Z.of_nat c).
        { rewrite <- Hcpu. apply Hplaced. left. view. simpl.
          rewrite Nat.eqb_refl. reflexivity. }
        apply (sched_ok_update s _ c (fun x => x = n));
          [assumption| | | | |assumption|].
        -- intros c' Hne. simpl. apply Nat.eqb_neq in Hne. rewrite Hne.
           reflexivity.
        -- intros x Hx. simpl. rewrite set_vruntime_other by assumption.
           unfold set_status_word_runtime, update.
           destruct (Z.eqb_spec x n); [contradiction|]. apply Hvr1.
        -- intros x c' -> Hne Hx. pose proof (Hp n c' (or_intror Hx)).
           apply Hne. lia.
        -- simpl. rewrite Nat.eqb_refl. simpl.
           apply (rq_ok_same (tasks a1) _ (run_queue cs1)); auto.
           intros x Hx. destruct (Z.eq_dec x n) as [->|Hne].
           ++ exfalso. exact (Hout n eq_refl Hx).
           ++ rewrite set_vruntime_other by assumption.
              unfold set_status_word_runtime, update.
              destruct (Z.eqb_spec x n); [contradiction|reflexivity].
        -- view. simpl. rewrite Nat.eqb_refl. exact Hout.
      * apply Hplain; auto.
    + intros Heq. injection Heq as <-. apply Hplain; auto.
Qed.

Lemma sched_ok_step (e : Event) (s s' : Sched) :
  step e s = Some s' -> sched_ok s -> sched_ok s'.
Proof.
  destruct e as [m a|x r|c b boost ok r]; cbn [step].
  - destruct m as [u seq rn|u seq|u seq c sw|u seq c sw|u seq c sw|u seq
                  |u seq c sw|u seq|c];
      cbn [DispatchMessage]; intros Hstep Hok;
      try (pose proof (sched_ok_set_seqnum u seq s Hok) as Hok0).
    + exact (TaskNew_sched_ok _ _ _ _ _ _ Hstep Hok0).
    + exact (TaskRunnable_sched_ok _ _ _ _ _ Hstep Hok0).
    + unfold TaskBlocked in Hstep. destruct (is_current _ _); [|discriminate].
      injection Hstep as <-. apply sched_ok_ping_if, sched_ok_set_state. assumption.
    + unfold TaskYield in Hstep. destruct (is_current _ _); [|discriminate].
      injection Hstep as <-. apply sched_ok_ping_if, sched_ok_set_state. assumption.
    + unfold TaskPreempted in Hstep. destruct (is_current _ _); [|discriminate].
      injection Hstep as <-. apply sched_ok_ping_if. assumption.
    + unfold TaskSwitchto in Hstep. destruct (cpu_state_of _ _); [|discriminate].
      injection Hstep as <-. apply sched_ok_set_state. assumption.
    + unfold TaskDeparted in Hstep.
      destruct (HandleTaskDone _ _ _) as [s1|] eqn:Hdone; [|discriminate].
      injection Hstep as <-. apply sched_ok_ping_if.
      exact (HandleTaskDone_sched_ok _ _ _ _ Hdone Hok0).
    + exact (HandleTaskDone_sched_ok _ _ _ _ Hstep Hok0).
    + injection Hstep as <-. revert Hok.
      destruct (CpuTick_view c s) as (Ha & Hc & Hr).
      unfold CpuTick, CheckPreemptTick in *.
      destruct (current (cpu_states s c)); [|auto].
      destruct (_ <? _); [|auto].
      apply sched_ok_kept; simpl; auto.
      intros c'. destruct (Nat.eqb_spec c' c) as [->|]; auto.
  - intros Hstep. injection Hstep as <-.
    apply sched_ok_kept; simpl; auto; intros y; store_cases y x.
  - apply CfsSchedule_sched_ok.
Qed.

Lemma sched_ok_init (cpulist : list nat) (mg lat : Duration) :
  sched_ok (CfsScheduler cpulist mg lat).
Proof.
  split; [|split].
  - intros u c [H|H]; [discriminate|destruct H].
  - intros c p H. discriminate.
  - intros c. reflexivity.
Qed.

(** Every state that a run reaches satisfies the invariant. *)
Lemma sched_ok_run (es : list Event) :
  forall s s', run es s = Some s' -> sched_ok s -> sched_ok s'.
Proof.
  induction es as [|e es IH]; intros s s' Hrun Hok; simpl in Hrun.
  - injection Hrun as <-. assumption.
  - destruct (step e s) as [s1|] eqn:Hstep; [|discriminate].
    apply (IH s1 s' Hrun). exact (sched_ok_step e s s1 Hstep Hok).
Qed.


(** What the theorems on [PickNextTask] and [EnqueueTask] assume holds in
    every state that a run of the scheduler reaches. *)
Lemma reached_state_ok (cpulist : list nat) (mg lat : Duration)
    (es : list Event) (s : Sched) (c : nat) :
  run es (CfsScheduler cpulist mg lat) = Some s ->
  rq_ok (tasks (allocator s)) (run_queue (cpu_states s c)) = true /\
  set_sorted (Less (tasks (allocator s))) (rq_of s c) = true /\
  (forall p, current_of s c = Some p -> 0 <= cpu_of s p).
Proof.
  intros Hrun.
  destruct (sched_ok_run es _ s Hrun (sched_ok_init cpulist mg lat))
    as (Hp & _ & Hrq).
  split; [apply Hrq|]. split; [apply rq_ok_sorted, Hrq|].
  intros p Hcur. rewrite (Hp p c (or_introl Hcur)). lia.
Qed.

End CfsProps.

(** * Properties of the dispatch orchestrator *)

Module OrchestratorProps.
Import Orchestrator.

Local Open Scope nat_scope.

(** ** A worker without requests *)

Lemma worker_first_run_spec (i : nat) (s : Orch) :
  let s' := worker_first_run i s in
  options s' = options s /\
  worker_work s' = worker_work s /\
  prio_table s' = prio_table s /\
  thread_wait s' = thread_wait s /\
  idle_sids_ s' = idle_sids_ s /\
  ingress s' = ingress s /\
  recorded s' = recorded s /\
  clock s' = clock s /\
  first_run s' i = true /\
  (forall j, j <> i -> first_run s' j = first_run s j) /\
  effects s' = effects s ++ first_run_effects s i.
Proof.
  unfold worker_first_run, first_run_effects, UsesFutex.
  destruct (first_run s i) eqn:Hf.
  - rewrite app_nil_r. repeat split; auto.
  - simpl. destruct (ghost_wait_type (options s)); simpl;
      unfold fupd; rewrite Nat.eqb_refl;
      repeat split; auto;
      try (intros j Hj; apply Nat.eqb_neq in Hj; rewrite Hj; reflexivity);
      rewrite <- ?app_assoc; reflexivity.
Qed.

(** C10.  A worker that finds [num_requests] at 0 returns at once: after
    what it does when it runs for the first time, the acquire load of
    [num_requests] is its only effect.  No request is handled, no latency
    recorded, nothing marked idle and no second wait; but for the first-run
    trigger, the state is as it was. *)
Theorem Worker_without_requests (HandleRequest : Request -> Request)
    (i : nat) (s : Orch) :
  num_requests (worker_work s i) = 0 ->
  exists s',
    Worker HandleRequest i s = Some s' /\
    effects s' = effects s ++ first_run_effects s i
                   ++ [NumRequestsLoad i memory_order_acquire] /\
    options s' = options s /\
    worker_work s' = worker_work s /\
    prio_table s' = prio_table s /\
    thread_wait s' = thread_wait s /\
    idle_sids_ s' = idle_sids_ s /\
    ingress s' = ingress s /\
    recorded s' = recorded s /\
    clock s' = clock s /\
    first_run s' i = true /\
    (forall j, j <> i -> first_run s' j = first_run s j).
Proof.
  intros Hzero. unfold Worker.
  destruct (worker_first_run_spec i s)
    as (Ho & Hw & Hp & Ht & Hi & Hin & Hr & Hc & Hf & Hfo & He).
  cbn [emit worker_work num_requests]. rewrite Hw, Hzero. simpl.
  eexists. split; [reflexivity|]. simpl.
  rewrite He, <- app_assoc. repeat split; auto.
Qed.

Lemma Worker_without_requests_witness :
  let s := mkOrch (mkOptions 2 4 kFutex)
             (fun _ => mkWorkerWork 0 []) (fun i => mkSchedItem i 0 0 0 0)
             (fun _ => false) [] (fun _ => false) [] (fun _ => []) 0 [] in
  exists s',
    Worker (fun r => r) 1 s = Some s' /\
    effects s' = [Printf 1; FutexWaitUntilRunnable 1;
                  NumRequestsLoad 1 memory_order_acquire].
Proof.
  intros s.
  destruct (Worker_without_requests (fun r => r) 1 s) as (s' & Hw & He & _);
    [reflexivity|].
  exists s'. split; [exact Hw|exact He].
Defined.

(** ** A worker with a batch *)

Lemma nth_error_middle {A : Type} (pre : list A) (x : A) (rest : list A) :
  nth_error (pre ++ x :: rest) (length pre) = Some x.
Proof. induction pre as [|y pre IH]; simpl; auto. Qed.

Lemma replace_nth_middle {A : Type} (pre : list A) (x y : A) (rest : list A) :
  replace_nth (length pre) y (pre ++ x :: rest) = pre ++ y :: rest.
Proof. induction pre as [|z pre IH]; simpl; [reflexivity|]. rewrite IH. reflexivity. Qed.

Lemma fupd_same {A : Type} (f : nat -> A) (i : nat) (v : A) : fupd f i v i = v.
Proof. unfold fupd. rewrite Nat.eqb_refl. reflexivity. Qed.

(** The loop over the batch: every request left is handled, then recorded, in
    the order of the batch; nothing else is touched. *)
Lemma handle_batch_spec (HandleRequest : Request -> Request) (i : nat) :
  forall (todo pre : list Request) (s : Orch),
    requests (worker_work s i) = pre ++ todo ->
    exists recs,
      let s' := handle_batch HandleRequest i (length todo) (length pre) s in
      length recs = length todo /\
      effects s' = effects s ++ processing i todo recs /\
      recorded s' i = recorded s i ++ recs /\
      num_requests (worker_work s' i) = num_requests (worker_work s i) /\
      requests (worker_work s' i) = pre ++ recs /\
      options s' = options s /\
      prio_table s' = prio_table s /\
      thread_wait s' = thread_wait s.
Proof.
  induction todo as [|r rest IH]; intros pre s Hreq.
  - exists []. simpl. rewrite !app_nil_r. rewrite app_nil_r in Hreq. auto 10.
  - cbn [handle_batch length]. rewrite Hreq, nth_error_middle.
    cbn [Now]. rewrite replace_nth_middle.
    match goal with |- context [handle_batch _ _ _ _ ?st] => set (s5 := st) end.
    match type of s5 with _ =>
      match eval unfold s5 in s5 with
      | context [LatencyRecorded i ?r'] => set (rec := r') in *
      end end.
    destruct (IH (pre ++ [rec]) s5) as (recs & Hlen & Heff & Hrec & Hnum & Hrq & Ho & Hp & Ht).
    { unfold s5. simpl. rewrite fupd_same. simpl.
      rewrite <- app_assoc. reflexivity. }
    exists (rec :: recs).
    replace (length (pre ++ [rec])) with (S (length pre)) in *
      by (rewrite length_app; simpl; lia).
    cbv zeta in *.
    split; [simpl; lia|].
    split; [rewrite Heff; unfold s5, processing; simpl;
            rewrite <- !app_assoc; reflexivity|].
    split; [rewrite Hrec; unfold s5; simpl; rewrite fupd_same, <- app_assoc;
            reflexivity|].
    split; [rewrite Hnum; unfold s5; simpl; rewrite fupd_same; reflexivity|].
    split; [rewrite Hrq, <- app_assoc; reflexivity|].
    split; [rewrite Ho; reflexivity|].
    split; [rewrite Hp; reflexivity|rewrite Ht; reflexivity].
Qed.

Lemma runnable_bit_set (f : Z) :
  (Z.land (Z.lor f SCHED_ITEM_RUNNABLE) SCHED_ITEM_RUNNABLE =? 0)%Z = false.
Proof.
  apply Z.eqb_neq. rewrite Z.land_lor_distr_l. intros H.
  apply Z.lor_eq_0_iff in H. destruct H as [_ H]. discriminate.
Qed.

Lemma runnable_bit_cleared (f : Z) :
  (Z.land (Z.land f (Z.lnot SCHED_ITEM_RUNNABLE)) SCHED_ITEM_RUNNABLE =? 0)%Z = true.
Proof.
  rewrite <- Z.land_assoc.
  change (Z.land (Z.lnot SCHED_ITEM_RUNNABLE) SCHED_ITEM_RUNNABLE) with 0%Z.
  rewrite Z.land_0_r. reflexivity.
Qed.

(** C8.  A worker with a batch of [n > 0] requests (at most [batch], and as
    many as its vector holds) processes them all, in order, and then: on the
    priority table, stores 0 in [num_requests] (release), marks itself idle,
    waits until runnable; on the futex, marks itself idle, stores 0 in
    [num_requests] (release), waits until runnable. *)
Theorem Worker_finish_order (HandleRequest : Request -> Request)
    (i : nat) (s : Orch) :
  0 < num_requests (worker_work s i) ->
  num_requests (worker_work s i) <= batch (options s) ->
  num_requests (worker_work s i) = length (requests (worker_work s i)) ->
  exists s' recs,
    Worker HandleRequest i s = Some s' /\
    length recs = length (requests (worker_work s i)) /\
    effects s' =
      effects s ++ first_run_effects s i
        ++ [NumRequestsLoad i memory_order_acquire]
        ++ processing i (requests (worker_work s i)) recs
        ++ finish_order (ghost_wait_type (options s)) i /\
    recorded s' i = recorded s i ++ recs /\
    num_requests (worker_work s' i) = 0 /\
    match ghost_wait_type (options s) with
    | kPrioTable => IsIdle s' i = true
    | kFutex => thread_wait s' i = false
    end.
Proof.
  intros Hpos Hbatch Hlen. unfold Worker.
  destruct (worker_first_run_spec i s)
    as (Ho & Hw & Hp & Ht & Hi & Hin & Hr & Hc & Hf & Hfo & He).
  set (s2 := emit (NumRequestsLoad i memory_order_acquire) (worker_first_run i s)).
  assert (Hw2 : worker_work s2 = worker_work s) by exact Hw.
  assert (Ho2 : options s2 = options s) by exact Ho.
  rewrite Hw2, Ho2.
  destruct (Nat.eqb_spec (num_requests (worker_work s i)) 0) as [Hz|_]; [lia|].
  destruct (Nat.ltb_spec (batch (options s)) (num_requests (worker_work s i)));
    [lia|].
  destruct (Nat.eqb_spec (num_requests (worker_work s i))
              (length (requests (worker_work s i)))) as [_|Hne];
    [|contradiction].
  cbn [negb].
  destruct (handle_batch_spec HandleRequest i (requests (worker_work s i)) [] s2)
    as (recs & Hrl & Heff & Hrec & Hnum & Hrq & Ho3 & Hp3 & Ht3).
  { rewrite Hw2. reflexivity. }
  cbv zeta in *. simpl length in *. rewrite <- Hlen in *.
  set (s3 := handle_batch HandleRequest i (num_requests (worker_work s i)) 0 s2) in *.
  assert (He3 : effects s3 =
                effects s ++ first_run_effects s i
                  ++ [NumRequestsLoad i memory_order_acquire]
                  ++ processing i (requests (worker_work s i)) recs).
  { rewrite Heff. unfold s2. simpl. rewrite He, <- !app_assoc. reflexivity. }
  unfold UsesPrioTable. rewrite Ho3, Ho2.
  destruct (ghost_wait_type (options s)) eqn:Hwait.
  - eexists. exists recs. split; [reflexivity|].
    split; [exact Hrl|]. simpl.
    split; [rewrite He3, <- !app_assoc; reflexivity|].
    split; [rewrite Hrec; unfold s2; simpl; rewrite Hr; reflexivity|].
    unfold IsIdle. simpl. rewrite !fupd_same. simpl.
    split; [reflexivity|apply runnable_bit_cleared].
  - eexists. exists recs. split; [reflexivity|].
    split; [exact Hrl|]. simpl.
    split; [rewrite He3, <- !app_assoc; reflexivity|].
    split; [rewrite Hrec; unfold s2; simpl; rewrite Hr; reflexivity|].
    rewrite !fupd_same. split; reflexivity.
Qed.

Lemma Worker_finish_order_witness :
  let s := mkOrch (mkOptions 1 4 kPrioTable)
             (fun _ => mkWorkerWork 2 [mkRequest 10 0 0 0; mkRequest 11 1 0 0])
             (fun i => mkSchedItem i 0 0 1 0)
             (fun _ => false) [] (fun _ => true) [] (fun _ => []) 2 [] in
  exists s',
    Worker (fun r => r) 1 s = Some s' /\
    skipn 5 (effects s') =
      [NumRequestsStore 1 0 memory_order_release;
       PrioTableMarkIdle 1;
       PrioTableWaitUntilRunnable 1].
Proof.
  intros s.
  destruct (Worker_finish_order (fun r => r) 1 s) as (s' & recs & Hw & _);
    [vm_compute; lia | vm_compute; lia | reflexivity |].
  exists s'. split; [exact Hw|].
  vm_compute in Hw. injection Hw as <-. reflexivity.
Defined.

(** ** The load generator *)

(** Whether some effect of the list marks [w] runnable. *)
Abbreviation marked w l := (existsb (marks_runnable w) l).

Lemma collect_idle_spec (s : Orch) (i : nat) :
  let r := collect_idle s i in
  options r = options s /\
  worker_work r = worker_work s /\
  prio_table r = prio_table s /\
  idle_sids_ r =
    idle_sids_ s ++
    (if Nat.eqb (num_requests (worker_work s (S i))) 0
        && negb (SkipIdleWorker s (S i))
     then [S i] else []) /\
  effects r = effects s ++ [NumRequestsLoad (S i) memory_order_acquire].
Proof.
  unfold collect_idle. cbn [emit worker_work].
  change (SkipIdleWorker (emit _ s) (S i)) with (SkipIdleWorker s (S i)).
  destruct (Nat.eqb _ 0 && negb _); simpl; rewrite ?app_nil_r; auto.
Qed.

Lemma SkipIdleWorker_ext (s r : Orch) (w : nat) :
  options r = options s -> prio_table r = prio_table s ->
  SkipIdleWorker r w = SkipIdleWorker s w.
Proof.
  intros Ho Hp. unfold SkipIdleWorker, UsesPrioTable, IsIdle.
  rewrite Ho, Hp. reflexivity.
Qed.

Lemma fold_collect_idle_spec (l : list nat) :
  forall s : Orch,
    let r := fold_left collect_idle l s in
    options r = options s /\
    worker_work r = worker_work s /\
    prio_table r = prio_table s /\
    (forall w, In w (idle_sids_ r) <->
               In w (idle_sids_ s) \/
               (exists i, In i l /\ w = S i /\
                          num_requests (worker_work s w) = 0 /\
                          SkipIdleWorker s w = false)) /\
    (forall w, marked w (effects r) = marked w (effects s)).
Proof.
  induction l as [|i l IH]; intros s; cbn [fold_left].
  - repeat split; auto. intros [H|(i & [] & _)]; assumption.
  - destruct (collect_idle_spec s i) as (Ho & Hw & Hp & Hi & He).
    destruct (IH (collect_idle s i)) as (Ho' & Hw' & Hp' & Hi' & He').
    cbv zeta in *.
    split; [congruence|]. split; [congruence|]. split; [congruence|].
    split.
    + intros w. rewrite Hi', Hi, Hw. rewrite in_app_iff.
      rewrite (SkipIdleWorker_ext s (collect_idle s i)) by assumption.
      split.
      * intros [[H|H]|(j & Hj & -> & Hn & Hk)]; auto.
        -- right. exists i.
           destruct (Nat.eqb_spec (num_requests (worker_work s (S i))) 0) as [Hz|Hz];
             destruct (SkipIdleWorker s (S i)) eqn:Hsk; simpl in H;
             try contradiction.
           destruct H as [<-|[]]. simpl. auto.
        -- right. exists j. simpl. auto.
      * intros [H|(j & [<-|Hj] & -> & Hn & Hk)]; auto.
        -- left. right. rewrite Hn, Hk. simpl. auto.
        -- right. exists j. auto.
    + intros w. rewrite He', He, existsb_app. simpl.
      rewrite !orb_false_r. reflexivity.
Qed.

(** [GetIdleWorkerSIDs] collects the workers whose [num_requests] is 0 and
    that [SkipIdleWorker] does not skip, and no other. *)
Lemma GetIdleWorkerSIDs_spec (s : Orch) :
  let r := GetIdleWorkerSIDs s in
  options r = options s /\
  worker_work r = worker_work s /\
  prio_table r = prio_table s /\
  (forall w, In w (idle_sids_ r) <->
             1 <= w <= num_workers (options s) /\
             num_requests (worker_work s w) = 0 /\
             SkipIdleWorker s w = false) /\
  (forall w, marked w (effects r) = marked w (effects s)).
Proof.
  unfold GetIdleWorkerSIDs.
  destruct (fold_collect_idle_spec (seq 0 (num_workers (options s)))
              (set_idle_sids [] s)) as (Ho & Hw & Hp & Hi & He).
  cbv zeta in *. simpl in Ho, Hw, Hp, He.
  repeat split; auto; try (apply Hi in H; simpl in H;
    destruct H as [[]|(i & Hin & -> & Hn & Hk)]; apply in_seq in Hin;
    auto; lia).
  intros (Hr & Hn & Hk). apply Hi. right.
  destruct w as [|j]; [lia|]. exists j.
  split; [apply in_seq; lia|]. auto.
Qed.

Lemma poll_batch_frame (n w : nat) :
  forall s : Orch,
    let r := poll_batch n w s in
    options r = options s /\
    prio_table r = prio_table s /\
    idle_sids_ r = idle_sids_ s /\
    effects r = effects s.
Proof.
  induction n as [|n IH]; intros s; cbn [poll_batch]; [auto|].
  destruct (ingress s) as [|request rest]; [auto|].
  cbn [Now].
  match goal with |- context [poll_batch n w ?st] =>
    destruct (IH st) as (Ho & Hp & Hi & He) end.
  cbv zeta in *. rewrite Ho, Hp, Hi, He. simpl. auto.
Qed.

(** What the loop of [LoadGenerator] adds to the effects: the workers that
    its own effects mark runnable are those that it took from the front of
    [idle_sids_]. *)
Lemma assign_batches_trace (ToRawDeadline : Z -> Z) (n : nat) :
  forall s s' : Orch,
    assign_batches ToRawDeadline n s = Some s' ->
    exists new j,
      effects s' = effects s ++ new /\
      j <= length (idle_sids_ s) /\
      idle_sids_ s' = skipn j (idle_sids_ s) /\
      forall w, marked w new = true <-> In w (firstn j (idle_sids_ s)).
Proof.
  induction n as [|n IH]; intros s s' Hrun; cbn [assign_batches] in Hrun.
  - injection Hrun as <-. exists [], 0. rewrite app_nil_r. simpl.
    split; [reflexivity|]. split; [lia|]. split; [reflexivity|].
    intros w. split; [discriminate|intros []].
  - destruct (idle_sids_ s) as [|ws rest] eqn:Hidle; [discriminate|].
    cbn [emit worker_work] in Hrun.
    destruct (negb (Nat.eqb (num_requests (worker_work s ws)) 0));
      [discriminate|].
    match type of Hrun with context [poll_batch ?b ws ?st] =>
      destruct (poll_batch_frame b ws st) as (Ho & Hp & Hi & He);
      set (s3 := poll_batch b ws st) in * end.
    cbv zeta in *. simpl in Ho, Hp, Hi, He.
    destruct (requests (worker_work s3 ws)) as [|r0 rs] eqn:Hreqs.
    + injection Hrun as <-.
      exists [NumRequestsLoad ws memory_order_relaxed], 0.
      split; [exact He|]. split; [simpl; lia|].
      split; [rewrite Hi; exact Hidle|].
      intros w. simpl. split; [discriminate|intros []].
    + destruct (Nat.ltb _ _); [discriminate|].
      match type of Hrun with context [make_runnable _ ws ?st] =>
        set (s5 := st) in *;
        destruct (make_runnable ToRawDeadline ws s5) as [s6|] eqn:Hmk;
        [|discriminate] end.
      assert (H6 : idle_sids_ s6 = rest /\
                   exists e, effects s6 =
                     effects s ++ [NumRequestsLoad ws memory_order_relaxed;
                                   NumRequestsStore ws (length (r0 :: rs))
                                     memory_order_release; e] /\
                     forall w, marks_runnable w e = Nat.eqb ws w).
      { unfold make_runnable in Hmk.
        destruct (UsesPrioTable s5).
        - destruct (IsIdle s5 ws); [|discriminate].
          cbn [Now] in Hmk. injection Hmk as <-. simpl.
          split; [reflexivity|]. eexists.
          split; [rewrite He, <- !app_assoc; reflexivity|].
          intros w. simpl. rewrite runnable_bit_set. apply andb_true_r.
        - injection Hmk as <-. simpl.
          split; [reflexivity|]. eexists.
          split; [rewrite He, <- !app_assoc; reflexivity|].
          intros w. reflexivity. }
      destruct H6 as (Hi6 & e & He6 & Hmark).
      destruct (IH s6 s' Hrun) as (new & j & Hnew & Hj & Hidle' & Hmarks).
      rewrite Hi6 in Hj, Hidle', Hmarks.
      exists ([NumRequestsLoad ws memory_order_relaxed;
               NumRequestsStore ws (length (r0 :: rs)) memory_order_release; e]
              ++ new), (S j).
      split; [rewrite Hnew, He6, <- app_assoc; reflexivity|].
      split; [simpl; lia|]. split; [exact Hidle'|].
      intros w. cbn [firstn In app existsb marks_runnable orb].
      rewrite Hmark, orb_true_iff, Hmarks, Nat.eqb_eq. reflexivity.
Qed.

End OrchestratorProps.


(** * Further properties of the CFS scheduler *)

(** * Ordered sets: erasing what is not there, and what was just inserted *)

Section OrderedSetRoundTrip.
Context {T : Type}.
Variable less : T -> T -> bool.
Hypothesis less_irrefl : forall a, less a a = false.
Hypothesis less_trans :
  forall a b c, less a b = true -> less b c = true -> less a c = true.
Hypothesis less_total :
  forall a b, less a b = false -> less b a = false -> a = b.

Lemma set_erase_absent (x : T) (l : list T) :
  ~ In x l -> set_erase less x l = l.
Proof.
  induction l as [|y l IH]; intros Hnot; simpl; [reflexivity|].
  destruct (less y x) eqn:Hyx.
  - rewrite IH; [reflexivity|]. intros H. apply Hnot. right. exact H.
  - destruct (less x y) eqn:Hxy; [reflexivity|].
    exfalso. apply Hnot. left. symmetry. apply less_total; assumption.
Qed.

Lemma set_erase_insert (x : T) (l : list T) :
  set_sorted less l = true -> ~ In x l ->
  set_erase less x (set_insert less x l) = l.
Proof.
  induction l as [|y l IH]; intros Hs Hnot; simpl.
  - rewrite less_irrefl. reflexivity.
  - destruct (less x y) eqn:Hxy.
    + simpl. rewrite less_irrefl. reflexivity.
    + destruct (less y x) eqn:Hyx.
      * simpl. rewrite Hyx. rewrite IH; [reflexivity| |].
        -- exact (set_sorted_tail less y l Hs).
        -- intros H. apply Hnot. right. exact H.
      * exfalso. apply Hnot. left. symmetry. apply less_total; assumption.
Qed.
End OrderedSetRoundTrip.

Module CfsScenarios.
Import Cfs CfsProps.

(** ** Choosing a CPU *)

Lemma SelectTaskRq_next (s : Sched) :
  cpus s <> [] ->
  (select_next s <= length (cpus s))%nat ->
  exists c,
    nth_error (cpus s) (select_next s mod length (cpus s)) = Some c /\
    SelectTaskRq s =
      Some (c, with_select_next s (S (select_next s mod length (cpus s)))).
Proof.
  intros Hne Hle. unfold SelectTaskRq.
  assert (Hlen : (0 < length (cpus s))%nat).
  { destruct (cpus s); [congruence|simpl; lia]. }
  assert (Hi : (if Nat.eqb (select_next s) (length (cpus s)) then 0%nat
                else select_next s) = (select_next s mod length (cpus s))%nat).
  { destruct (Nat.eqb_spec (select_next s) (length (cpus s))) as [->|Hn].
    - rewrite Nat.Div0.mod_same. reflexivity.
    - rewrite Nat.mod_small by lia. reflexivity. }
  rewrite Hi.
  destruct (nth_error (cpus s) (select_next s mod length (cpus s))) as [c|] eqn:Hnth.
  - exists c. auto.
  - apply nth_error_None in Hnth.
    pose proof (Nat.mod_upper_bound (select_next s) (length (cpus s))). lia.
Qed.

(** X1.  [SelectTaskRq] goes round the CpuList: called [k] times in a row
    on a list that is not empty, it returns the CPUs of the list in order,
    starting where the iterator stands and wrapping at the end; it changes
    nothing else of the scheduler. *)
Theorem SelectTaskRq_round_robin (k : nat) :
  forall s : Sched,
    cpus s <> [] ->
    (select_next s <= length (cpus s))%nat ->
    exists l s',
      select_many k s = Some (l, s') /\
      length l = k /\
      (forall j, (j < k)%nat ->
         nth_error l j =
         nth_error (cpus s) ((select_next s + j) mod length (cpus s))) /\
      allocator s' = allocator s /\
      cpu_states s' = cpu_states s /\
      cpus s' = cpus s /\
      calls s' = calls s.
Proof.
  induction k as [|k IH]; intros s Hne Hle.
  - exists [], s. simpl. repeat split; auto. intros j Hj. lia.
  - destruct (SelectTaskRq_next s Hne Hle) as (c & Hc & Hsel).
    set (n := length (cpus s)) in *.
    assert (Hn : (0 < n)%nat).
    { unfold n. destruct (cpus s); [congruence|simpl; lia]. }
    pose proof (Nat.mod_upper_bound (select_next s) n ltac:(lia)) as Hlt.
    destruct (IH (with_select_next s (S (select_next s mod n))))
      as (l & s' & Hmany & Hlen & Hnth & Ha & Hcs & Hcp & Hcl);
      [exact Hne | simpl; fold n; lia |].
    exists (c :: l), s'. cbn [select_many]. rewrite Hsel, Hmany.
    split; [reflexivity|]. split; [simpl; lia|].
    split; [|auto].
    intros [|j] Hj.
    + rewrite Nat.add_0_r. simpl. symmetry. exact Hc.
    + cbn [nth_error]. rewrite (Hnth j) by lia.
      cbn [cpus with_select_next select_next]. fold n. f_equal.
      replace (S (select_next s mod n) + j)%nat
        with (select_next s mod n + S j)%nat by lia.
      apply Nat.Div0.add_mod_idemp_l.
Qed.

Lemma SelectTaskRq_round_robin_witness :
  exists l s',
    select_many 5 (CfsScheduler [2%nat; 5%nat; 7%nat] 1000000 6000000)
      = Some (l, s') /\
    length l = 5%nat /\
    (forall j, (j < 5)%nat ->
       nth_error l j = nth_error [2%nat; 5%nat; 7%nat] ((3 + j) mod 3)).
Proof.
  destruct (SelectTaskRq_round_robin 5
              (CfsScheduler [2%nat; 5%nat; 7%nat] 1000000 6000000))
    as (l & s' & H1 & H2 & H3 & _);
    [discriminate | simpl; lia |].
  exists l, s'. auto.
Defined.


(** ** Associating the agents *)

Lemma called_nil (s : Sched) : called [] s = s.
Proof. destruct s. unfold called. simpl. rewrite app_nil_r. reflexivity. Qed.

Lemma called_app (l1 l2 : list KernelCall) (s : Sched) :
  called l2 (called l1 s) = called (l1 ++ l2) s.
Proof. unfold called. simpl. rewrite app_assoc. reflexivity. Qed.

(** The loop for one agent: it goes round once for every stale barrier, and
    the first answer that is not a stale barrier settles it. *)
Lemma EnclaveReady_agent_stale (c : nat) (g : Z) (stale : list Z) (last : Z)
    (final : AssociateResult) (rest : list (Z * AssociateResult)) :
  forall s : Sched,
    EnclaveReady_agent c g (stale_then stale last final rest) s =
    match final with
    | AssociateOk =>
        Finished (called (map (CallAssociateTask c g) (stale ++ [last])) s)
    | AssociateStale =>
        EnclaveReady_agent c g rest
          (called (map (CallAssociateTask c g) (stale ++ [last])) s)
    | AssociateError _ => Aborted
    end.
Proof.
  unfold stale_then.
  induction stale as [|b stale IH]; intros s; cbn [map app EnclaveReady_agent].
  - destruct final; reflexivity.
  - rewrite IH. change (call (CallAssociateTask c g b) s)
      with (called [CallAssociateTask c g b] s).
    rewrite called_app. destruct final; reflexivity.
Qed.

Lemma EnclaveReady_cpus_ok (gtid : nat -> Z)
    (attempts : nat -> list (Z * AssociateResult))
    (stale : nat -> list Z) (last : nat -> Z)
    (rest : nat -> list (Z * AssociateResult)) (l : list nat) :
  forall s : Sched,
    (forall c, In c l ->
       attempts c = stale_then (stale c) (last c) AssociateOk (rest c)) ->
    EnclaveReady_cpus l gtid attempts s =
    Finished
      (called (flat_map (fun c => associate_calls gtid c (stale c ++ [last c])) l) s).
Proof.
  induction l as [|c l IH]; intros s Hall; cbn [EnclaveReady_cpus flat_map].
  - rewrite called_nil. reflexivity.
  - rewrite (Hall c (or_introl eq_refl)), EnclaveReady_agent_stale.
    rewrite IH by (intros c' Hc'; apply Hall; right; exact Hc').
    rewrite called_app. reflexivity.
Qed.

(** X2.  [EnclaveReady] associates the agent of every CPU of the list, in
    the order of the list.  An agent whose barrier is stale [k] times before
    the kernel accepts it is associated by the call number [k + 1]: the calls
    made are those, each with the barrier read at that turn, and nothing else
    of the scheduler changes. *)
Theorem EnclaveReady_retries_stale (gtid : nat -> Z)
    (attempts : nat -> list (Z * AssociateResult))
    (stale : nat -> list Z) (last : nat -> Z)
    (rest : nat -> list (Z * AssociateResult)) (s : Sched) :
  (forall c, In c (cpus s) ->
     attempts c = stale_then (stale c) (last c) AssociateOk (rest c)) ->
  EnclaveReady gtid attempts s =
  Finished
    (called
       (flat_map (fun c => associate_calls gtid c (stale c ++ [last c])) (cpus s))
       s).
Proof. apply EnclaveReady_cpus_ok. Qed.

Lemma EnclaveReady_retries_stale_witness :
  let s := CfsScheduler [0%nat; 1%nat] 1000000 6000000 in
  let attempts := fun c : nat =>
    stale_then (if Nat.eqb c 0 then [10; 11] else []) 12 AssociateOk [] in
  option_map (@calls)
    (match EnclaveReady (fun c => Z.of_nat c + 100) attempts s with
     | Finished s' => Some s'
     | _ => None
     end) =
  Some [CallAssociateTask 0 100 10; CallAssociateTask 0 100 11;
        CallAssociateTask 0 100 12; CallAssociateTask 1 101 12].
Proof.
  intros s attempts.
  rewrite (EnclaveReady_retries_stale (fun c => Z.of_nat c + 100) attempts
             (fun c => if Nat.eqb c 0 then [10; 11] else []) (fun _ => 12)
             (fun _ => []) s);
    [reflexivity | intros c _; reflexivity].
Defined.

(** X3.  An answer of the kernel that is a failure and not a stale barrier
    is fatal: when the agents of the CPUs before [c0] in the list are
    associated and the agent of [c0] gets such an answer, after any number
    of stale barriers, [EnclaveReady] aborts. *)
Theorem EnclaveReady_other_errno_aborts (gtid : nat -> Z)
    (attempts : nat -> list (Z * AssociateResult))
    (stale : nat -> list Z) (last : nat -> Z)
    (rest : nat -> list (Z * AssociateResult))
    (pre post : list nat) (c0 : nat) (errno : Z) (s : Sched) :
  cpus s = pre ++ c0 :: post ->
  (forall c, In c pre ->
     attempts c = stale_then (stale c) (last c) AssociateOk (rest c)) ->
  attempts c0 = stale_then (stale c0) (last c0) (AssociateError errno) (rest c0) ->
  EnclaveReady gtid attempts s = Aborted.
Proof.
  intros Hcpus Hpre Hc0. unfold EnclaveReady. rewrite Hcpus. clear Hcpus.
  revert s. induction pre as [|c pre IH]; intros s; cbn [app EnclaveReady_cpus].
  - rewrite Hc0, EnclaveReady_agent_stale. reflexivity.
  - rewrite (Hpre c (or_introl eq_refl)), EnclaveReady_agent_stale.
    apply IH. intros c' Hc'. apply Hpre. right. exact Hc'.
Qed.

Lemma EnclaveReady_other_errno_aborts_witness :
  let s := CfsScheduler [0%nat; 1%nat] 1000000 6000000 in
  let attempts := fun c : nat =>
    if Nat.eqb c 0 then stale_then [10] 11 AssociateOk []
    else stale_then [20; 21] 22 (AssociateError 22) [] in
  EnclaveReady (fun c => Z.of_nat c + 100) attempts s = Aborted.
Proof.
  intros s attempts.
  apply (EnclaveReady_other_errno_aborts (fun c => Z.of_nat c + 100) attempts
           (fun c => if Nat.eqb c 0 then [10] else [20; 21])
           (fun c => if Nat.eqb c 0 then 11 else 22) (fun _ => [])
           [0%nat] [] 1%nat 22 s).
  - reflexivity.
  - intros c [<-|[]]. reflexivity.
  - reflexivity.
Defined.

(** ** What holds in every state that a run reaches *)

(** X4.  In every state that a run of the scheduler reaches, every run
    queue is strictly increasing in the order of (vruntime, identity), read
    with the vruntimes the tasks have then; so it holds no task twice, its
    leftmost task has the least vruntime, and no task in it is below
    [min_vruntime_]. *)
Theorem run_queues_stay_ordered (cpulist : list nat) (mg lat : Duration)
    (es : list Event) (s : Sched) (c : nat) :
  run es (CfsScheduler cpulist mg lat) = Some s ->
  set_sorted (Less (tasks (allocator s))) (rq_of s c) = true /\
  NoDup (rq_of s c) /\
  (forall m rest x, rq_of s c = m :: rest -> In x rest ->
     vruntime (tasks (allocator s) m) <= vruntime (tasks (allocator s) x)) /\
  (forall x, In x (rq_of s c) ->
     min_vruntime_of c s <= vruntime (tasks (allocator s) x)).
Proof.
  intros Hrun.
  destruct (sched_ok_run es _ s Hrun (sched_ok_init cpulist mg lat))
    as (_ & _ & Hrq).
  pose proof (rq_ok_sorted _ _ (Hrq c)) as Hs. fold (rq_of s c) in Hs.
  split; [exact Hs|]. split; [|split].
  - exact (set_sorted_NoDup _ (Less_irrefl _) (Less_trans _) _ Hs).
  - intros m rest x Heq Hx. rewrite Heq in Hs.
    apply (leftmost_least _ m rest Hs). right. exact Hx.
  - intros x Hx. exact (rq_ok_min _ _ x (Hrq c) Hx).
Qed.

Lemma run_queues_stay_ordered_witness :
  match run [Deliver (MSG_TASK_NEW 1 1 true) AssociateOk;
             Deliver (MSG_TASK_NEW 2 1 true) AssociateOk;
             Deliver (MSG_TASK_NEW 3 1 true) AssociateOk]
          (CfsScheduler [0%nat] 1000000 6000000) with
  | Some s => NoDup (rq_of s 0)
  | None => False
  end.
Proof.
  destruct (run _ _) as [s|] eqn:Hrun.
  - exact (proj1 (proj2 (run_queues_stay_ordered _ _ _ _ s 0%nat Hrun))).
  - vm_compute in Hrun. discriminate.
Defined.

(** X5.  In every state that a run reaches a task is in one place at most:
    when it is the current task of a CPU or in its run queue, and the
    current task of a CPU or in its run queue, the two CPUs are the same,
    this CPU is the one that the [cpu] field of the task names, and the task
    is not both current and in the queue there. *)
Theorem task_in_one_place (cpulist : list nat) (mg lat : Duration)
    (es : list Event) (s : Sched) (t : TaskPtr) (c c' : nat) :
  run es (CfsScheduler cpulist mg lat) = Some s ->
  current_of s c = Some t \/ In t (rq_of s c) ->
  current_of s c' = Some t \/ In t (rq_of s c') ->
  c = c' /\ cpu_of s t = Z.of_nat c /\
  ~ (current_of s c = Some t /\ In t (rq_of s c)).
Proof.
  intros Hrun H1 H2.
  destruct (sched_ok_run es _ s Hrun (sched_ok_init cpulist mg lat))
    as (Hp & Hi & _).
  pose proof (Hp t c H1) as Hc. pose proof (Hp t c' H2) as Hc'.
  split; [lia|]. split; [exact Hc|].
  intros [Hcur Hin]. exact (Hi c t Hcur Hin).
Qed.

Lemma task_in_one_place_witness :
  match run [Deliver (MSG_TASK_NEW 1 1 true) AssociateOk;
             Deliver (MSG_TASK_NEW 2 1 true) AssociateOk;
             Decide 0 10 false true 5]
          (CfsScheduler [0%nat; 1%nat] 1000000 6000000) with
  | Some s => current_of s 0 = Some 1 /\ cpu_of s 1 = 0 /\ ~ In 1 (rq_of s 0)
  | None => False
  end.
Proof.
  destruct (run _ _) as [s|] eqn:Hrun.
  - assert (Hcur : option_map (fun s => current_of s 0) (Some s) = Some (Some 1)).
    { rewrite <- Hrun. vm_compute. reflexivity. }
    injection Hcur as Hcur.
    destruct (task_in_one_place _ _ _ _ s 1 0%nat 0%nat Hrun
                (or_introl Hcur) (or_introl Hcur)) as (_ & Hcpu & Hnot).
    split; [exact Hcur|]. split; [exact Hcpu|].
    intros Hin. apply Hnot. split; assumption.
  - vm_compute in Hrun. discriminate.
Defined.

(** ** One pass of [CfsSchedule] *)

Lemma set_run_state_seqnum ts t st x :
  seqnum (set_run_state ts t st x) = seqnum (ts x).
Proof. store_cases x t. Qed.

Lemma set_first_pick_seqnum ts t r x :
  seqnum (set_first_pick ts t r x) = seqnum (ts x).
Proof. store_cases x t. Qed.

Lemma set_first_pick_status_word ts t r x :
  status_word_runtime (set_first_pick ts t r x) = status_word_runtime (ts x).
Proof. store_cases x t. Qed.

Lemma set_status_word_vruntime ts t r x :
  vruntime (set_status_word_runtime ts t r x) = vruntime (ts x).
Proof. store_cases x t. Qed.

Lemma set_status_word_same ts t r :
  status_word_runtime (set_status_word_runtime ts t r t) = r.
Proof. store_cases t t. Qed.

(** Reconciling the queue of a CPU with its current task [p], which is not
    in the queue. *)
Lemma reconcile_prev_full (p : TaskPtr) (a : Allocator) (q : CfsRq) :
  set_sorted (Less (tasks a)) (rq_ q) = true ->
  0 <= cpu (tasks a p) ->
  ~ In p (rq_ q) ->
  exists a1 q1,
    reconcile_prev p a q = Some (a1, q1) /\
    tasks a1 =
      match run_state (tasks a p) with
      | kRunning => set_run_state (tasks a) p kRunnable
      | _ => tasks a
      end /\
    freed a1 =
      freed a ++ (if State_eqb (run_state (tasks a p)) kDone then [p] else []) /\
    set_sorted (Less (tasks a1)) (rq_ q1) = true /\
    (forall x, In x (rq_ q1) <->
       In x (rq_ q) \/
       (x = p /\ (run_state (tasks a p) = kRunnable \/
                  run_state (tasks a p) = kRunning))).
Proof.
  intros Hs Hcpu Hnot.
  destruct (reconcile_prev_spec p a q Hs Hcpu)
    as (a1 & q1 & Heq & _ & _ & Hs1 & Hcase).
  exists a1, q1. split; [exact Heq|].
  destruct (run_state (tasks a p)) eqn:Hst; simpl.
  - destruct Hcase as [-> ->]. rewrite app_nil_r.
    repeat split; auto. intros [H|[_ [H|H]]]; [assumption|discriminate..].
  - destruct Hcase as [-> Hmem]. rewrite app_nil_r.
    repeat split; auto; intros H; apply Hmem in H || apply Hmem; tauto.
  - destruct Hcase as (Hts & Hfr & Hmem). rewrite app_nil_r.
    repeat split; auto; intros H; apply Hmem in H || apply Hmem; tauto.
  - destruct Hcase as (Hts & Hfr & Hmem).
    repeat split; auto.
    + intros H. apply Hmem in H. tauto.
    + intros [H|[_ [H|H]]]; [|discriminate..].
      apply Hmem. split; [assumption|]. intros ->. contradiction.
Qed.

(** Picking changes the state of the task picked and its first-pick
    snapshot, and nothing else of any task. *)
Lemma pick_leftmost_fields (a a' : Allocator) (cs cs' : CpuState)
    (next : option TaskPtr) :
  pick_leftmost a cs = (a', cs', next) ->
  forall x,
    vruntime (tasks a' x) = vruntime (tasks a x) /\
    seqnum (tasks a' x) = seqnum (tasks a x) /\
    status_word_runtime (tasks a' x) = status_word_runtime (tasks a x).
Proof.
  unfold pick_leftmost. destruct (rq_ (run_queue cs)) as [|m rest].
  - intros H. injection H as <- <- <-. auto.
  - intros H. injection H as <- <- <-. intros x. cbn [tasks with_tasks].
    rewrite set_first_pick_vruntime, set_run_state_vruntime,
      set_first_pick_seqnum, set_run_state_seqnum,
      set_first_pick_status_word, set_run_state_status_word.
    auto.
Qed.

Lemma contender_current (s : Sched) (c : nat) (p : TaskPtr) :
  current_of s c = Some p ->
  forall x,
    (In x (rq_of s c) \/
     (x = p /\ (state_of s p = kRunnable \/ state_of s p = kRunning)))
    <-> contender s c x.
Proof.
  intros Hcur x. unfold contender. rewrite Hcur. split.
  - intros [H|[-> H]]; auto.
  - intros [H|[Heq H]]; [auto|]. injection Heq as <-. auto.
Qed.

Lemma contender_idle (s : Sched) (c : nat) :
  current_of s c = None ->
  forall x, In x (rq_of s c) <-> contender s c x.
Proof.
  intros Hcur x. unfold contender. rewrite Hcur. split; [auto|].
  intros [H|[H _]]; [assumption|discriminate].
Qed.

(** What [CfsSchedule] leaves once [PickNextTask] has answered. *)
Lemma CfsSchedule_commit (c : nat) (b : Z) (ok : bool) (r : Z) (s : Sched)
    (a1 : Allocator) (cs1 : CpuState) (next : option TaskPtr) :
  PickNextTask (current (cpu_states s c)) (allocator s) (cpu_states s c)
    = Some (a1, cs1, next) ->
  exists s',
    CfsSchedule c b false ok r s = Some s' /\
    (forall c', c' <> c -> cpu_states s' c' = cpu_states s c') /\
    cpu_states s' c = with_current cs1 next /\
    freed (allocator s') = freed a1 /\
    (forall x, run_state (tasks (allocator s') x) = run_state (tasks a1 x)) /\
    (forall x, next <> Some x ->
       vruntime (tasks (allocator s') x) = vruntime (tasks a1 x)) /\
    match next with
    | None => calls s' = calls s ++ [CallLocalYield c b false]
    | Some n =>
        calls s' =
          calls s ++ [CallOpen c n (seqnum (tasks a1 n)) b; CallCommit c ok] /\
        vruntime (tasks (allocator s') n) =
          vruntime (tasks a1 n) +
          (if ok
           then Nanoseconds (uint64_sub r (status_word_runtime (tasks a1 n)))
           else 0)
    end.
Proof.
  intros Hpick. unfold CfsSchedule. rewrite Hpick.
  assert (Hoth : forall s0 : Sched,
            forall c', c' <> c ->
              cpu_states (with_cpu_state s0 c (with_current cs1 next)) c'
              = cpu_states s0 c').
  { intros s0 c' Hne. cbn [cpu_states with_cpu_state].
    apply Nat.eqb_neq in Hne. rewrite Hne. reflexivity. }
  assert (Hsame : forall s0 : Sched,
            cpu_states (with_cpu_state s0 c (with_current cs1 next)) c
            = with_current cs1 next).
  { intros s0. cbn [cpu_states with_cpu_state]. rewrite Nat.eqb_refl.
    reflexivity. }
  destruct next as [n|]; [destruct ok|]; eexists; (split; [reflexivity|]);
    (split; [intros c' Hne; apply (Hoth (with_allocator s a1) c' Hne)|]);
    (split; [apply (Hsame (with_allocator s a1))|]);
    cbn [call with_allocator with_cpu_state allocator calls with_tasks tasks freed].
  - split; [reflexivity|].
    split; [intros x; rewrite set_vruntime_run_state, set_status_word_run_state;
            reflexivity|].
    split.
    + intros x Hx. assert (x <> n) by congruence.
      rewrite set_vruntime_other by assumption.
      apply set_status_word_vruntime.
    + split; [rewrite <- app_assoc; reflexivity|].
      rewrite set_vruntime_same, set_status_word_vruntime, set_status_word_same.
      reflexivity.
  - split; [reflexivity|]. split; [reflexivity|]. split; [reflexivity|].
    split; [rewrite <- app_assoc; reflexivity|lia].
  - auto.
Qed.

(** A pass that does not take the shortcut of [PickNextTask]: the CPU goes
    to the contender that is least in the order of the run queue, and the
    other contenders are the run queue. *)
Lemma CfsSchedule_pick_spec (c : nat) (b : Z) (ok : bool) (r : Z) (s : Sched) :
  sched_ok s ->
  keeps_running (current (cpu_states s c)) (tasks (allocator s)) (cpu_states s c)
    = false ->
  exists s',
    CfsSchedule c b false ok r s = Some s' /\
    (forall c', c' <> c -> cpu_states s' c' = cpu_states s c') /\
    preempt_curr (cpu_states s' c) = false /\
    (forall x, current_of s' c <> Some x ->
       state_of s' x =
         if is_current (cpu_states s c) x
         then match state_of s x with kRunning => kRunnable | st => st end
         else state_of s x) /\
    (forall x, current_of s' c <> Some x ->
       vruntime (tasks (allocator s') x) = vruntime (tasks (allocator s) x)) /\
    match current_of s' c with
    | None =>
        (forall x, ~ contender s c x) /\
        rq_of s' c = [] /\
        calls s' = calls s ++ [CallLocalYield c b false]
    | Some n =>
        contender s c n /\
        (forall y, contender s c y -> y <> n ->
           Less (tasks (allocator s)) n y = true) /\
        (forall x, In x (rq_of s' c) <-> contender s c x /\ x <> n) /\
        state_of s' n = kRunning /\
        calls s' =
          calls s ++ [CallOpen c n (seqnum (tasks (allocator s) n)) b;
                      CallCommit c ok] /\
        vruntime (tasks (allocator s') n) =
          vruntime (tasks (allocator s) n) +
          (if ok
           then Nanoseconds
                  (uint64_sub r (status_word_runtime (tasks (allocator s) n)))
           else 0)
    end.
Proof.
  intros (Hp & Hi & Hrq) Hkeep.
  set (cs := cpu_states s c) in *. set (a := allocator s) in *.
  pose proof (rq_ok_sorted _ _ (Hrq c)) as Hs. fold cs a in Hs.
  (* the queue after reconciling, and the tasks then *)
  assert (Hmid : exists a1 q1,
    PickNextTask (current cs) a cs
      = Some (pick_leftmost a1 (with_run_queue (with_preempt_curr cs false) q1)) /\
    set_sorted (Less (tasks a1)) (rq_ q1) = true /\
    (forall x, In x (rq_ q1) <-> contender s c x) /\
    (forall x, vruntime (tasks a1 x) = vruntime (tasks a x)) /\
    (forall x, seqnum (tasks a1 x) = seqnum (tasks a x)) /\
    (forall x, status_word_runtime (tasks a1 x) = status_word_runtime (tasks a x)) /\
    (forall x, run_state (tasks a1 x) =
       if is_current cs x
       then match run_state (tasks a x) with kRunning => kRunnable | st => st end
       else run_state (tasks a x))).
  { unfold PickNextTask. rewrite Hkeep.
    destruct (current cs) as [p|] eqn:Hcur.
    - assert (Hcpu : 0 <= cpu (tasks a p)).
      { pose proof (Hp p c (or_introl Hcur)) as Hc. unfold cpu_of in Hc.
        fold a in Hc. lia. }
      destruct (reconcile_prev_full p a (run_queue (with_preempt_curr cs false))
                  Hs Hcpu (Hi c p Hcur))
        as (a1 & q1 & Hrec & Hts & _ & Hs1 & Hmem).
      rewrite Hrec. exists a1, q1. split; [reflexivity|].
      split; [exact Hs1|].
      split; [intros x; rewrite Hmem; apply (contender_current s c p Hcur)|].
      assert (Hic : forall x, is_current cs x = Z.eqb p x).
      { intros x. unfold is_current. rewrite Hcur. reflexivity. }
      rewrite Hts.
      split; [|split; [|split]]; intros x; rewrite ?Hic;
        destruct (run_state (tasks a p)) eqn:Hst;
        rewrite ?set_run_state_vruntime, ?set_run_state_seqnum,
          ?set_run_state_status_word, ?set_run_state_read; try reflexivity;
        rewrite ?(Z.eqb_sym x p);
        destruct (Z.eqb_spec p x) as [<-|]; try rewrite Hst; reflexivity.
    - exists a, (run_queue cs). split; [destruct cs; reflexivity|].
      split; [exact Hs|].
      split; [intros x; apply (contender_idle s c Hcur)|].
      unfold is_current. rewrite Hcur. auto. }
  destruct Hmid as (a1 & q1 & Hpnt & Hs1 & Hmem & Hvr1 & Hsq1 & Hsw1 & Hst1).
  destruct (pick_leftmost_spec a1 (with_run_queue (with_preempt_curr cs false) q1)
              Hs1)
    as (a' & cs' & next & Hpick & Hpre & _ & _ & Hframe & Hcase).
  pose proof (pick_leftmost_fields _ _ _ _ _ Hpick) as Hfields.
  rewrite Hpick in Hpnt.
  destruct (CfsSchedule_commit c b ok r s a' cs' next Hpnt)
    as (s' & Hrun & Hoth & Hcs & _ & Hst & Hvr & Hcalls).
  exists s'. split; [exact Hrun|]. split; [exact Hoth|].
  unfold current_of, rq_of, state_of. rewrite Hcs.
  cbn [with_current current preempt_curr run_queue].
  split; [exact Hpre|].
  split.
  { intros x Hx. rewrite Hst, (Hframe x Hx). apply Hst1. }
  split.
  { intros x Hx. rewrite (Hvr x Hx). destruct (Hfields x) as (-> & _). apply Hvr1. }
  cbn [with_run_queue run_queue] in Hcase.
  destruct (rq_ q1) as [|m0 rest0] eqn:Hq1.
  - destruct Hcase as [-> Hempty].
    split; [|split; [exact Hempty|exact Hcalls]].
    intros x Hx. apply Hmem in Hx. exact Hx.
  - destruct Hcase as (m & -> & Hin & Hleast & Hrun_m & _ & _ & Hrest).
    destruct Hcalls as [Hcalls Hvm].
    split; [apply Hmem; exact Hin|].
    split.
    { intros y Hy Hne. rewrite <- (Hleast y (proj2 (Hmem y) Hy) Hne).
      symmetry. apply Less_ext; apply Hvr1. }
    split.
    { intros x. rewrite Hrest, Hmem. reflexivity. }
    split; [rewrite Hst; exact Hrun_m|].
    destruct (Hfields m) as (Hv & Hq & Hw).
    rewrite Hq, Hsq1 in Hcalls. rewrite Hv, Hw, Hvr1, Hsw1 in Hvm.
    split; assumption.
Qed.

(** A pass that takes the shortcut: the current task is running and was not
    flagged, and it keeps the CPU. *)
Lemma CfsSchedule_keep_spec (c : nat) (b : Z) (ok : bool) (r : Z) (s : Sched)
    (p : TaskPtr) :
  current_of s c = Some p ->
  state_of s p = kRunning ->
  preempt_curr (cpu_states s c) = false ->
  exists s',
    CfsSchedule c b false ok r s = Some s' /\
    (forall c', cpu_states s' c' = cpu_states s c') /\
    freed (allocator s') = freed (allocator s) /\
    (forall x, state_of s' x = state_of s x) /\
    (forall x, x <> p ->
       vruntime (tasks (allocator s') x) = vruntime (tasks (allocator s) x)) /\
    calls s' =
      calls s ++ [CallOpen c p (seqnum (tasks (allocator s) p)) b;
                  CallCommit c ok] /\
    vruntime (tasks (allocator s') p) =
      vruntime (tasks (allocator s) p) +
      (if ok
       then Nanoseconds
              (uint64_sub r (status_word_runtime (tasks (allocator s) p)))
       else 0).
Proof.
  unfold current_of, state_of. intros Hcur Hst Hpre.
  assert (Hpnt : PickNextTask (current (cpu_states s c)) (allocator s)
                   (cpu_states s c)
                 = Some (allocator s, cpu_states s c, Some p)).
  { unfold PickNextTask, keeps_running. rewrite Hcur, Hst, Hpre. reflexivity. }
  destruct (CfsSchedule_commit c b ok r s _ _ _ Hpnt)
    as (s' & Hrun & Hoth & Hcs & Hfr & Hst' & Hvr & Hcalls & Hvp).
  exists s'. split; [exact Hrun|].
  split.
  { intros c'. destruct (Nat.eq_dec c' c) as [->|Hne]; [|auto].
    rewrite Hcs, <- Hcur. destruct (cpu_states s c); reflexivity. }
  split; [exact Hfr|]. split; [exact Hst'|].
  split; [intros x Hx; apply Hvr; congruence|].
  split; assumption.
Qed.

Lemma reached_sched_ok (cpulist : list nat) (mg lat : Duration)
    (es : list Event) (s : Sched) :
  run es (CfsScheduler cpulist mg lat) = Some s -> sched_ok s.
Proof. intros Hrun. exact (sched_ok_run es _ s Hrun (sched_ok_init _ _ _)). Qed.

(** X6.  In a state that a run reaches, a pass of [CfsSchedule] without
    boost ends in one of two ways.  With no current task chosen, the run
    queue is empty and the agent yields, once.  Else one transaction is
    opened for the task chosen, with its seqnum as the barrier, and
    committed; the task is running and not in the run queue; and its
    vruntime grows by what its status word shows it ran, if the commit went
    through, and stays as it was if not.  No other vruntime changes. *)
Theorem CfsSchedule_runs_or_yields (cpulist : list nat) (mg lat : Duration)
    (es : list Event) (s : Sched) (c : nat) (b : Z) (ok : bool) (r : Z) :
  run es (CfsScheduler cpulist mg lat) = Some s ->
  exists s',
    CfsSchedule c b false ok r s = Some s' /\
    match current_of s' c with
    | None =>
        rq_of s' c = [] /\
        calls s' = calls s ++ [CallLocalYield c b false] /\
        (forall x, vruntime (tasks (allocator s') x)
                   = vruntime (tasks (allocator s) x))
    | Some n =>
        calls s' =
          calls s ++ [CallOpen c n (seqnum (tasks (allocator s) n)) b;
                      CallCommit c ok] /\
        state_of s' n = kRunning /\
        ~ In n (rq_of s' c) /\
        vruntime (tasks (allocator s') n) =
          vruntime (tasks (allocator s) n) +
          (if ok
           then Nanoseconds
                  (uint64_sub r (status_word_runtime (tasks (allocator s) n)))
           else 0) /\
        (forall x, x <> n ->
           vruntime (tasks (allocator s') x) = vruntime (tasks (allocator s) x))
    end.
Proof.
  intros Hrun. pose proof (reached_sched_ok _ _ _ _ _ Hrun) as Hok.
  destruct (keeps_running (current (cpu_states s c)) (tasks (allocator s))
              (cpu_states s c)) eqn:Hkeep.
  - unfold keeps_running in Hkeep.
    destruct (current (cpu_states s c)) as [p|] eqn:Hcur; [|discriminate].
    apply andb_true_iff in Hkeep. destruct Hkeep as [Hst Hpre].
    assert (Hrunning : state_of s p = kRunning).
    { unfold state_of. destruct (run_state (tasks (allocator s) p));
        try discriminate. reflexivity. }
    apply negb_true_iff in Hpre.
    destruct (CfsSchedule_keep_spec c b ok r s p Hcur Hrunning Hpre)
      as (s' & Heq & Hcs & _ & Hst' & Hvr & Hcalls & Hvp).
    exists s'. split; [exact Heq|].
    unfold current_of, rq_of. rewrite (Hcs c), Hcur.
    split; [exact Hcalls|]. split; [rewrite Hst'; exact Hrunning|].
    split; [|split; assumption].
    destruct Hok as (_ & Hi & _). exact (Hi c p Hcur).
  - destruct (CfsSchedule_pick_spec c b ok r s Hok Hkeep)
      as (s' & Heq & _ & _ & _ & Hvr & Hcase).
    exists s'. split; [exact Heq|].
    destruct (current_of s' c) as [n|].
    + destruct Hcase as (_ & _ & Hrq & Hst & Hcalls & Hvn).
      split; [exact Hcalls|]. split; [exact Hst|].
      split; [intros Hin; apply Hrq in Hin; destruct Hin as [_ Hne]; congruence|].
      split; [exact Hvn|].
      intros x Hx. apply Hvr. congruence.
    + destruct Hcase as (_ & Hrq & Hcalls).
      split; [exact Hrq|]. split; [exact Hcalls|].
      intros x. apply Hvr. discriminate.
Qed.

Lemma CfsSchedule_runs_or_yields_witness :
  match run [Deliver (MSG_TASK_NEW 1 1 true) AssociateOk]
          (CfsScheduler [0%nat] 1000000 6000000) with
  | Some s =>
      exists s',
        CfsSchedule 0 10 false true 5 s = Some s' /\
        match current_of s' 0 with
        | None => False
        | Some n =>
            calls s' = calls s ++ [CallOpen 0 n (seqnum (tasks (allocator s) n)) 10;
                                   CallCommit 0 true]
        end
  | None => False
  end.
Proof.
  destruct (run _ _) as [s|] eqn:Hrun; [|vm_compute in Hrun; discriminate].
  destruct (CfsSchedule_runs_or_yields _ _ _ _ s 0%nat 10 true 5 Hrun)
    as (s' & Heq & Hcase).
  exists s'. split; [exact Heq|].
  assert (Hcur : option_map (fun s' => match current_of s' 0 with
                                       | Some _ => true | None => false end)
                   (match run [Deliver (MSG_TASK_NEW 1 1 true) AssociateOk]
                            (CfsScheduler [0%nat] 1000000 6000000) with
                    | Some s => CfsSchedule 0 10 false true 5 s
                    | None => None
                    end) = Some true) by (vm_compute; reflexivity).
  rewrite Hrun, Heq in Hcur. simpl in Hcur.
  destruct (current_of s' 0) as [n|]; [|discriminate].
  exact (proj1 Hcase).
Defined.

(** X7.  Preemption by the tick.  In a state that a run reaches, let [p] be
    the current task of a CPU, running, and let its status word show that
    it ran for more than [MinPreemptionGranularity] since it was picked.
    Then after [CpuTick] the next [CfsSchedule] does not just keep [p]: [p]
    contends with the tasks of the run queue, the CPU goes to the least of
    them in the order of (vruntime, identity), the others are the run queue,
    and the flag of the tick is cleared. *)
Theorem tick_preempts_after_slice (cpulist : list nat) (mg lat : Duration)
    (es : list Event) (s : Sched) (c : nat) (b : Z) (ok : bool) (r : Z)
    (p : TaskPtr) :
  run es (CfsScheduler cpulist mg lat) = Some s ->
  current_of s c = Some p ->
  state_of s p = kRunning ->
  MinPreemptionGranularity (run_queue (cpu_states s c))
    < Nanoseconds
        (uint64_sub (status_word_runtime (tasks (allocator s) p))
                    (runtime_at_first_pick_ns (tasks (allocator s) p))) ->
  exists s' n,
    CfsSchedule c b false ok r (CpuTick c s) = Some s' /\
    current_of s' c = Some n /\
    (n = p \/ In n (rq_of s c)) /\
    (forall y, y = p \/ In y (rq_of s c) -> y <> n ->
       Less (tasks (allocator s)) n y = true) /\
    (forall x, In x (rq_of s' c) <-> (x = p \/ In x (rq_of s c)) /\ x <> n) /\
    state_of s' n = kRunning /\
    (n <> p -> state_of s' p = kRunnable) /\
    preempt_curr (cpu_states s' c) = false.
Proof.
  intros Hrun Hcur Hst Hslice.
  pose proof (reached_sched_ok _ _ _ _ _ Hrun) as Hok.
  assert (Hok1 : sched_ok (CpuTick c s)).
  { exact (sched_ok_step (Deliver (MSG_CPU_TICK c) AssociateOk) s _ eq_refl Hok). }
  destruct (CpuTick_view c s) as (Ha & Hc & Hr). cbv zeta in Ha, Hc, Hr.
  assert (Hflag : preempt_curr (cpu_states (CpuTick c s) c) = true).
  { unfold CpuTick, CheckPreemptTick. unfold current_of in Hcur. rewrite Hcur.
    apply Z.ltb_lt in Hslice. rewrite Hslice.
    cbn [cpu_states with_cpu_state]. rewrite Nat.eqb_refl. reflexivity. }
  assert (Hcur1 : current (cpu_states (CpuTick c s) c) = Some p).
  { rewrite <- Hcur. apply (Hc c). }
  assert (Hkeep : keeps_running (current (cpu_states (CpuTick c s) c))
                    (tasks (allocator (CpuTick c s)))
                    (cpu_states (CpuTick c s) c) = false).
  { unfold keeps_running. rewrite Hcur1, Hflag. apply andb_false_r. }
  assert (Hcont : forall x, contender (CpuTick c s) c x <->
                            x = p \/ In x (rq_of s c)).
  { intros x. rewrite <- (contender_current (CpuTick c s) c p Hcur1 x).
    rewrite (Hr c). unfold state_of. rewrite Ha. fold (state_of s p).
    rewrite Hst. split; [intros [H|[H _]]; auto|intros [H|H]; auto]. }
  destruct (CfsSchedule_pick_spec c b ok r (CpuTick c s) Hok1 Hkeep)
    as (s' & Heq & _ & Hpre & Hstates & _ & Hcase).
  destruct (current_of s' c) as [n|] eqn:Hn.
  - destruct Hcase as (Hin & Hleast & Hrq & Hstn & _).
    exists s', n. split; [exact Heq|]. split; [exact Hn|].
    split; [apply Hcont; exact Hin|].
    split.
    { intros y Hy Hne. rewrite <- Ha. apply Hleast; [apply Hcont; exact Hy|exact Hne]. }
    split; [intros x; rewrite Hrq, Hcont; reflexivity|].
    split; [exact Hstn|]. split; [|exact Hpre].
    intros Hne. rewrite Hstates by congruence.
    unfold is_current. rewrite Hcur1, Z.eqb_refl.
    unfold state_of. rewrite Ha. fold (state_of s p). rewrite Hst. reflexivity.
  - destruct Hcase as (Hnone & _). exfalso.
    apply (Hnone p). apply Hcont. left. reflexivity.
Qed.

Lemma tick_preempts_after_slice_witness :
  match run [Deliver (MSG_TASK_NEW 1 1 true) AssociateOk;
             Deliver (MSG_TASK_NEW 2 1 true) AssociateOk;
             Decide 0 10 false true 5;
             StatusWord 1 7000005]
          (CfsScheduler [0%nat] 1000000 6000000) with
  | Some s =>
      exists s' n,
        CfsSchedule 0 11 false true 7000005 (CpuTick 0 s) = Some s' /\
        current_of s' 0 = Some n /\ (n = 1 \/ In n (rq_of s 0))
  | None => False
  end.
Proof.
  destruct (run _ _) as [s|] eqn:Hrun; [|vm_compute in Hrun; discriminate].
  assert (Hfacts :
    option_map (fun s =>
        (current_of s 0, state_of s 1,
         MinPreemptionGranularity (run_queue (cpu_states s 0)),
         Nanoseconds
           (uint64_sub (status_word_runtime (tasks (allocator s) 1))
                       (runtime_at_first_pick_ns (tasks (allocator s) 1)))))
      (run [Deliver (MSG_TASK_NEW 1 1 true) AssociateOk;
            Deliver (MSG_TASK_NEW 2 1 true) AssociateOk;
            Decide 0 10 false true 5;
            StatusWord 1 7000005]
         (CfsScheduler [0%nat] 1000000 6000000))
    = Some (Some 1, kRunning, 3000002, 28000020)) by (vm_compute; reflexivity).
  rewrite Hrun in Hfacts. cbn [option_map] in Hfacts.
  injection Hfacts as Hcur Hst Hg Hran.
  destruct (tick_preempts_after_slice _ _ _ _ s 0%nat 11 true 7000005 1
              Hrun Hcur Hst)
    as (s' & n & Heq & Hn & Hin & _).
  { rewrite Hg, Hran. reflexivity. }
  exists s', n. auto.
Defined.

(** X8.  A task that yields.  In a state that a run reaches, after
    [TaskYield] of [t] on the CPU [c] the next [CfsSchedule] there puts [t]
    back among the tasks of the run queue and gives the CPU to the least of
    them all in the order of (vruntime, identity), [t] included; when that
    is another task, [t] waits in the run queue, runnable. *)
Theorem yield_then_schedule (cpulist : list nat) (mg lat : Duration)
    (es : list Event) (s s1 : Sched) (t : TaskPtr) (c : nat) (fs : bool)
    (b : Z) (ok : bool) (r : Z) :
  run es (CfsScheduler cpulist mg lat) = Some s ->
  TaskYield t c fs s = Some s1 ->
  exists s2 n,
    CfsSchedule c b false ok r s1 = Some s2 /\
    current_of s2 c = Some n /\
    (n = t \/ In n (rq_of s c)) /\
    (forall y, y = t \/ In y (rq_of s c) -> y <> n ->
       Less (tasks (allocator s)) n y = true) /\
    (forall x, In x (rq_of s2 c) <-> (x = t \/ In x (rq_of s c)) /\ x <> n) /\
    state_of s2 n = kRunning /\
    (n <> t -> state_of s2 t = kRunnable /\ In t (rq_of s2 c)).
Proof.
  intros Hrun Hyield.
  pose proof (reached_sched_ok _ _ _ _ _ Hrun) as Hok.
  unfold TaskYield in Hyield.
  destruct (is_current (cpu_states s c) t) eqn:Hic; [|discriminate].
  injection Hyield as <-.
  apply is_current_true in Hic.
  set (s1 := ping_if fs c (set_task_state t kRunnable s)).
  assert (Hok1 : sched_ok s1).
  { apply sched_ok_ping_if, sched_ok_set_state. exact Hok. }
  destruct (ping_if_frame fs c (set_task_state t kRunnable s)) as [Ha Hc].
  fold s1 in Ha, Hc.
  assert (Hcs : cpu_states s1 = cpu_states s) by exact Hc.
  assert (Hts : tasks (allocator s1) = set_run_state (tasks (allocator s)) t kRunnable)
    by (rewrite Ha; reflexivity).
  assert (Hcur1 : current (cpu_states s1 c) = Some t) by (rewrite Hcs; exact Hic).
  assert (Hst1 : state_of s1 t = kRunnable).
  { unfold state_of. rewrite Hts. apply set_run_state_same. }
  assert (Hkeep : keeps_running (current (cpu_states s1 c))
                    (tasks (allocator s1)) (cpu_states s1 c) = false).
  { unfold keeps_running. rewrite Hcur1. unfold state_of in Hst1.
    rewrite Hst1. reflexivity. }
  assert (Hcont : forall x, contender s1 c x <-> x = t \/ In x (rq_of s c)).
  { intros x. rewrite <- (contender_current s1 c t Hcur1 x).
    unfold rq_of. rewrite Hcs, Hst1.
    split; [intros [H|[H _]]; auto|intros [H|H]; auto]. }
  destruct (CfsSchedule_pick_spec c b ok r s1 Hok1 Hkeep)
    as (s2 & Heq & _ & _ & Hstates & _ & Hcase).
  destruct (current_of s2 c) as [n|] eqn:Hn.
  - destruct Hcase as (Hin & Hleast & Hrq & Hstn & _).
    exists s2, n. split; [exact Heq|]. split; [exact Hn|].
    split; [apply Hcont; exact Hin|].
    split.
    { intros y Hy Hne.
      rewrite <- (Hleast y (proj2 (Hcont y) Hy) Hne). symmetry.
      apply Less_ext; rewrite Hts; apply set_run_state_vruntime. }
    split; [intros x; rewrite Hrq, Hcont; reflexivity|].
    split; [exact Hstn|].
    intros Hne. split.
    + rewrite Hstates by congruence.
      unfold is_current. rewrite Hcur1, Z.eqb_refl, Hst1. reflexivity.
    + apply Hrq. split; [apply Hcont; left; reflexivity|congruence].
  - destruct Hcase as (Hnone & _). exfalso.
    apply (Hnone t). apply Hcont. left. reflexivity.
Qed.

Lemma yield_then_schedule_witness :
  match run [Deliver (MSG_TASK_NEW 1 1 true) AssociateOk;
             Deliver (MSG_TASK_NEW 2 1 true) AssociateOk;
             Decide 0 10 false true 5]
          (CfsScheduler [0%nat] 1000000 6000000) with
  | Some s =>
      exists s1 s2 n,
        TaskYield 1 0 false s = Some s1 /\
        CfsSchedule 0 11 false true 9 s1 = Some s2 /\
        current_of s2 0 = Some n /\ (n = 1 \/ In n (rq_of s 0))
  | None => False
  end.
Proof.
  destruct (run _ _) as [s|] eqn:Hrun; [|vm_compute in Hrun; discriminate].
  destruct (TaskYield 1 0 false s) as [s1|] eqn:Hy.
  - destruct (yield_then_schedule _ _ _ _ s s1 1 0%nat false 11 true 9 Hrun Hy)
      as (s2 & n & Heq & Hn & Hin & _).
    exists s1, s2, n. auto.
  - exfalso.
    assert (H : option_map (fun s => match TaskYield 1 0 false s with
                                     | Some _ => true | None => false end)
                  (run [Deliver (MSG_TASK_NEW 1 1 true) AssociateOk;
                        Deliver (MSG_TASK_NEW 2 1 true) AssociateOk;
                        Decide 0 10 false true 5]
                     (CfsScheduler [0%nat] 1000000 6000000)) = Some true)
      by (vm_compute; reflexivity).
    rewrite Hrun in H. cbn [option_map] in H. rewrite Hy in H. discriminate.
Defined.

(** X9.  A task that blocks.  In a state that a run reaches, after
    [TaskBlocked] of [t] on the CPU [c] the next [CfsSchedule] there takes
    [t] off the CPU: [t] stays blocked, it is the current task of [c] no
    more and it is in no run queue.  The CPU goes to the least task of the
    run queue, or to none when the queue is empty. *)
Theorem block_then_schedule (cpulist : list nat) (mg lat : Duration)
    (es : list Event) (s s1 : Sched) (t : TaskPtr) (c : nat) (fs : bool)
    (b : Z) (ok : bool) (r : Z) :
  run es (CfsScheduler cpulist mg lat) = Some s ->
  TaskBlocked t c fs s = Some s1 ->
  exists s2,
    CfsSchedule c b false ok r s1 = Some s2 /\
    state_of s2 t = kBlocked /\
    current_of s2 c <> Some t /\
    (forall c', ~ In t (rq_of s2 c')) /\
    match current_of s2 c with
    | None => rq_of s c = [] /\ rq_of s2 c = []
    | Some n =>
        In n (rq_of s c) /\
        (forall y, In y (rq_of s c) -> y <> n ->
           Less (tasks (allocator s)) n y = true) /\
        (forall x, In x (rq_of s2 c) <-> In x (rq_of s c) /\ x <> n)
    end.
Proof.
  intros Hrun Hblock.
  pose proof (reached_sched_ok _ _ _ _ _ Hrun) as Hok.
  unfold TaskBlocked in Hblock.
  destruct (is_current (cpu_states s c) t) eqn:Hic; [|discriminate].
  injection Hblock as <-.
  apply is_current_true in Hic.
  set (s1 := ping_if fs c (set_task_state t kBlocked s)).
  assert (Hok1 : sched_ok s1).
  { apply sched_ok_ping_if, sched_ok_set_state. exact Hok. }
  destruct (ping_if_frame fs c (set_task_state t kBlocked s)) as [Ha Hc].
  fold s1 in Ha, Hc.
  assert (Hcs : cpu_states s1 = cpu_states s) by exact Hc.
  assert (Hts : tasks (allocator s1) = set_run_state (tasks (allocator s)) t kBlocked)
    by (rewrite Ha; reflexivity).
  assert (Hcur1 : current (cpu_states s1 c) = Some t) by (rewrite Hcs; exact Hic).
  assert (Hst1 : state_of s1 t = kBlocked).
  { unfold state_of. rewrite Hts. apply set_run_state_same. }
  assert (Hkeep : keeps_running (current (cpu_states s1 c))
                    (tasks (allocator s1)) (cpu_states s1 c) = false).
  { unfold keeps_running. rewrite Hcur1. unfold state_of in Hst1.
    rewrite Hst1. reflexivity. }
  assert (Hcont : forall x, contender s1 c x <-> In x (rq_of s c)).
  { intros x. rewrite <- (contender_current s1 c t Hcur1 x).
    unfold rq_of. rewrite Hcs, Hst1.
    split; [intros [H|[_ [H|H]]]; [assumption|discriminate..]|auto]. }
  destruct Hok as (Hp & Hi & _).
  assert (Hnotin : ~ In t (rq_of s c)) by exact (Hi c t Hic).
  destruct (CfsSchedule_pick_spec c b ok r s1 Hok1 Hkeep)
    as (s2 & Heq & Hoth & _ & Hstates & _ & Hcase).
  assert (Hnot_cur : current_of s2 c <> Some t).
  { intros Hn. rewrite Hn in Hcase. destruct Hcase as (Hin & _).
    apply Hnotin. apply Hcont. exact Hin. }
  exists s2. split; [exact Heq|].
  split.
  { rewrite (Hstates t Hnot_cur). unfold is_current.
    rewrite Hcur1, Z.eqb_refl, Hst1. reflexivity. }
  split; [exact Hnot_cur|].
  split.
  { intros c' Hin. destruct (Nat.eq_dec c' c) as [->|Hne].
    - destruct (current_of s2 c) as [n|].
      + destruct Hcase as (_ & _ & Hrq & _). apply Hrq in Hin.
        apply Hnotin. apply Hcont. tauto.
      + destruct Hcase as (_ & Hrq & _). rewrite Hrq in Hin. destruct Hin.
    - unfold rq_of in Hin. rewrite (Hoth c' Hne), Hcs in Hin.
      pose proof (Hp t c' (or_intror Hin)) as H1.
      pose proof (Hp t c (or_introl Hic)) as H2. lia. }
  destruct (current_of s2 c) as [n|].
  - destruct Hcase as (Hin & Hleast & Hrq & _).
    split; [apply Hcont; exact Hin|].
    split.
    { intros y Hy Hne.
      rewrite <- (Hleast y (proj2 (Hcont y) Hy) Hne). symmetry.
      apply Less_ext; rewrite Hts; apply set_run_state_vruntime. }
    intros x. rewrite Hrq, Hcont. reflexivity.
  - destruct Hcase as (Hnone & Hrq & _). split; [|exact Hrq].
    destruct (rq_of s c) as [|x l] eqn:Hq; [reflexivity|].
    exfalso. apply (Hnone x). apply Hcont. left. reflexivity.
Qed.

Lemma block_then_schedule_witness :
  match run [Deliver (MSG_TASK_NEW 1 1 true) AssociateOk;
             Decide 0 10 false true 5]
          (CfsScheduler [0%nat] 1000000 6000000) with
  | Some s =>
      exists s1 s2,
        TaskBlocked 1 0 false s = Some s1 /\
        CfsSchedule 0 11 false true 9 s1 = Some s2 /\
        state_of s2 1 = kBlocked /\ ~ In 1 (rq_of s2 0)
  | None => False
  end.
Proof.
  destruct (run _ _) as [s|] eqn:Hrun; [|vm_compute in Hrun; discriminate].
  destruct (TaskBlocked 1 0 false s) as [s1|] eqn:Hb.
  - destruct (block_then_schedule _ _ _ _ s s1 1 0%nat false 11 true 9 Hrun Hb)
      as (s2 & Heq & Hst & _ & Hrq & _).
    exists s1, s2. auto.
  - exfalso.
    assert (H : option_map (fun s => match TaskBlocked 1 0 false s with
                                     | Some _ => true | None => false end)
                  (run [Deliver (MSG_TASK_NEW 1 1 true) AssociateOk;
                        Decide 0 10 false true 5]
                     (CfsScheduler [0%nat] 1000000 6000000)) = Some true)
      by (vm_compute; reflexivity).
    rewrite Hrun in H. cbn [option_map] in H. rewrite Hb in H. discriminate.
Defined.

(** ** A boosted pass *)

(** A pass of [CfsSchedule] with [prio_boost]. *)
Lemma CfsSchedule_boost_spec (c : nat) (b : Z) (ok : bool) (r : Z) (s : Sched) :
  sched_ok s ->
  exists s',
    CfsSchedule c b true ok r s = Some s' /\
    calls s' = calls s ++ [CallLocalYield c b true] /\
    (forall c', c' <> c -> cpu_states s' c' = cpu_states s c') /\
    (forall x, vruntime (tasks (allocator s') x)
               = vruntime (tasks (allocator s) x)) /\
    match current_of s c with
    | None => cpu_states s' c = cpu_states s c /\ allocator s' = allocator s
    | Some p =>
        current_of s' c = None /\
        preempt_curr (cpu_states s' c) = false /\
        (forall x, In x (rq_of s' c) <-> contender s c x) /\
        (forall x, state_of s' x =
           if Z.eqb p x
           then match state_of s x with kRunning => kRunnable | st => st end
           else state_of s x) /\
        freed (allocator s') =
          freed (allocator s)
          ++ (if State_eqb (state_of s p) kDone then [p] else [])
    end.
Proof.
  intros (Hp & Hi & Hrq).
  unfold CfsSchedule, current_of.
  destruct (current (cpu_states s c)) as [p|] eqn:Hcur.
  - assert (Hcpu : 0 <= cpu (tasks (allocator s) p)).
    { pose proof (Hp p c (or_introl Hcur)) as Hc. unfold cpu_of in Hc. lia. }
    destruct (reconcile_prev_full p (allocator s) (run_queue (cpu_states s c))
                (rq_ok_sorted _ _ (Hrq c)) Hcpu (Hi c p Hcur))
      as (a1 & q1 & Hrec & Hts & Hfr & _ & Hmem).
    rewrite Hrec. eexists. split; [reflexivity|].
    cbn [call calls allocator cpu_states with_cpu_state with_allocator].
    split; [reflexivity|].
    split; [intros c' Hne; apply Nat.eqb_neq in Hne; rewrite Hne; reflexivity|].
    split.
    { intros x. rewrite Hts. destruct (run_state (tasks (allocator s) p));
        rewrite ?set_run_state_vruntime; reflexivity. }
    unfold rq_of, state_of.
    cbn [call calls allocator cpu_states with_cpu_state with_allocator].
    rewrite Nat.eqb_refl.
    match goal with |- context [UpdateMinVruntime ?ts ?cs0] =>
      destruct (UpdateMinVruntime_frame ts cs0) as (Hc1 & Hp1 & Hr1 & _) end.
    rewrite Hc1, Hp1, Hr1. cbn [with_current with_preempt_curr with_run_queue
                                  current preempt_curr run_queue].
    split; [reflexivity|]. split; [reflexivity|].
    split.
    { intros x. rewrite Hmem. apply (contender_current s c p Hcur). }
    split; [|exact Hfr].
    intros x. rewrite Hts.
    destruct (run_state (tasks (allocator s) p)) eqn:Hst;
      rewrite ?set_run_state_read, ?(Z.eqb_sym x p);
      destruct (Z.eqb_spec p x) as [<-|]; try rewrite Hst; reflexivity.
  - eexists. split; [reflexivity|]. simpl. auto.
Qed.

(** X10.  In a state that a run reaches, a pass of [CfsSchedule] with
    [prio_boost] runs nothing: its one call into the kernel is the yield
    with RTLA_ON_IDLE, and no transaction is opened.  With no current task
    it changes nothing else.  With a current task [p], the CPU is left
    without a current task and with the tick's flag cleared; [p] goes back
    to the run queue when it is runnable or running, and is runnable then;
    it is freed when it is done; no vruntime changes. *)
Theorem boosted_pass_runs_nothing (cpulist : list nat) (mg lat : Duration)
    (es : list Event) (s : Sched) (c : nat) (b : Z) (ok : bool) (r : Z) :
  run es (CfsScheduler cpulist mg lat) = Some s ->
  exists s',
    CfsSchedule c b true ok r s = Some s' /\
    calls s' = calls s ++ [CallLocalYield c b true] /\
    (forall c', c' <> c -> cpu_states s' c' = cpu_states s c') /\
    (forall x, vruntime (tasks (allocator s') x)
               = vruntime (tasks (allocator s) x)) /\
    match current_of s c with
    | None => cpu_states s' c = cpu_states s c /\ allocator s' = allocator s
    | Some p =>
        current_of s' c = None /\
        preempt_curr (cpu_states s' c) = false /\
        (forall x, In x (rq_of s' c) <-> contender s c x) /\
        (forall x, state_of s' x =
           if Z.eqb p x
           then match state_of s x with kRunning => kRunnable | st => st end
           else state_of s x) /\
        freed (allocator s') =
          freed (allocator s)
          ++ (if State_eqb (state_of s p) kDone then [p] else [])
    end.
Proof.
  intros Hrun. apply CfsSchedule_boost_spec.
  exact (reached_sched_ok _ _ _ _ _ Hrun).
Qed.

Lemma boosted_pass_runs_nothing_witness :
  match run [Deliver (MSG_TASK_NEW 1 1 true) AssociateOk;
             Decide 0 10 false true 5]
          (CfsScheduler [0%nat] 1000000 6000000) with
  | Some s =>
      exists s',
        CfsSchedule 0 11 true true 9 s = Some s' /\
        calls s' = calls s ++ [CallLocalYield 0 11 true]
  | None => False
  end.
Proof.
  destruct (run _ _) as [s|] eqn:Hrun; [|vm_compute in Hrun; discriminate].
  destruct (boosted_pass_runs_nothing _ _ _ _ s 0%nat 11 true 9 Hrun)
    as (s' & Heq & Hcalls & _).
  exists s'. auto.
Defined.

(** ** Entering the run queue *)

(** [EnqueueTask] on a queue that satisfies its invariant. *)
Lemma EnqueueTask_full (t : TaskPtr) (ts : Tasks) (q : CfsRq) :
  0 <= cpu (ts t) ->
  rq_ok ts q = true ->
  let ts' := set_run_state
               (set_vruntime ts t (Z.max (min_vruntime_ q) (vruntime (ts t))))
               t kRunnable in
  exists q',
    EnqueueTask t ts q = Some (ts', q') /\
    (forall x, In x (rq_ q') <-> x = t \/ In x (rq_ q)) /\
    rq_ok ts' q' = true /\
    min_vruntime_ q <= min_vruntime_ q'.
Proof.
  intros Hcpu Hok ts'.
  assert (Heq : EnqueueTask t ts q = Some (ts', InsertTaskIntoRq ts' t q)).
  { unfold EnqueueTask. destruct (Z.ltb_spec (cpu (ts t)) 0); [lia|reflexivity]. }
  exists (InsertTaskIntoRq ts' t q). split; [exact Heq|].
  destruct (rq_ok_enqueue t ts ts' q _ Heq Hok) as [Hok' Hvr].
  assert (Hs : set_sorted (Less ts') (rq_ q) = true).
  { rewrite (set_sorted_ext (Less ts') (Less ts)).
    - apply rq_ok_sorted; assumption.
    - intros x y Hx Hy.
      assert (Hsame : forall z, In z (rq_ q) -> vruntime (ts' z) = vruntime (ts z)).
      { intros z Hz. destruct (Z.eq_dec z t) as [->|Hne]; [|auto].
        unfold ts'. rewrite set_run_state_vruntime, set_vruntime_same.
        pose proof (rq_ok_min _ _ _ Hok Hz). lia. }
      apply Less_ext; auto. }
  destruct (InsertTaskIntoRq_spec ts' t q Hs)
    as (_ & Hmem & _ & (m & rest & Hq' & Hmin) & _).
  split; [exact Hmem|]. split; [exact Hok'|].
  rewrite Hmin.
  assert (Hm : In m (rq_ (InsertTaskIntoRq ts' t q))) by (rewrite Hq'; left; reflexivity).
  apply Hmem in Hm. destruct Hm as [->|Hm].
  - unfold ts'. rewrite set_run_state_vruntime, set_vruntime_same. lia.
  - destruct (Z.eq_dec m t) as [->|Hne].
    + unfold ts'. rewrite set_run_state_vruntime, set_vruntime_same. lia.
    + rewrite (Hvr m Hne). exact (rq_ok_min _ _ _ Hok Hm).
Qed.

(** X11.  A wakeup of a task that has a CPU.  In a state that a run
    reaches, [TaskRunnable] of a task [t] whose [cpu] is not negative goes
    through, whatever the kernel would answer, and makes no call into the
    kernel.  [t] is runnable after it, on the same CPU.  When [t] is the
    current task there, no run queue changes; when it is not, [t] enters the
    run queue of its CPU, and nothing else does, with the larger of its
    vruntime and the [min_vruntime_] of the queue. *)
Theorem wakeup_of_placed_task (cpulist : list nat) (mg lat : Duration)
    (es : list Event) (s : Sched) (t : TaskPtr) (seq : Z) (a : AssociateResult) :
  run es (CfsScheduler cpulist mg lat) = Some s ->
  0 <= cpu_of s t ->
  exists s' c,
    cpu_of s t = Z.of_nat c /\
    TaskRunnable t seq a s = Some s' /\
    calls s' = calls s /\
    freed (allocator s') = freed (allocator s) /\
    state_of s' t = kRunnable /\
    cpu_of s' t = cpu_of s t /\
    (forall c', current_of s' c' = current_of s c') /\
    (forall c', c' <> c -> rq_of s' c' = rq_of s c') /\
    if is_current (cpu_states s c) t
    then rq_of s' c = rq_of s c /\
         vruntime (tasks (allocator s') t) = vruntime (tasks (allocator s) t)
    else (forall x, In x (rq_of s' c) <-> x = t \/ In x (rq_of s c)) /\
         vruntime (tasks (allocator s') t) =
           Z.max (min_vruntime_of c s) (vruntime (tasks (allocator s) t)).
Proof.
  intros Hrun Hcpu. destruct (reached_sched_ok _ _ _ _ _ Hrun) as (_ & _ & Hrq).
  unfold cpu_of in *. unfold TaskRunnable, cpu_state_of.
  destruct (Z.ltb_spec (cpu (tasks (allocator s) t)) 0) as [Hneg|_]; [lia|].
  set (c := Z.to_nat (cpu (tasks (allocator s) t))).
  exists (if is_current (cpu_states s c) t
          then set_task_state t kRunnable s
          else with_cpu_state
                 (with_allocator s
                    (with_tasks (allocator s)
                       (set_run_state
                          (set_vruntime (tasks (allocator s)) t
                             (Z.max (min_vruntime_ (run_queue (cpu_states s c)))
                                (vruntime (tasks (allocator s) t))))
                          t kRunnable)))
                 c (with_run_queue (cpu_states s c)
                      (InsertTaskIntoRq
                         (set_run_state
                            (set_vruntime (tasks (allocator s)) t
                               (Z.max (min_vruntime_ (run_queue (cpu_states s c)))
                                  (vruntime (tasks (allocator s) t))))
                            t kRunnable) t (run_queue (cpu_states s c))))), c.
  split; [unfold c; rewrite Z2Nat.id; lia|].
  destruct (is_current (cpu_states s c) t) eqn:Hic.
  - split; [reflexivity|]. unfold state_of, current_of, rq_of. simpl.
    rewrite set_run_state_same, set_run_state_cpu, set_run_state_vruntime.
    auto 10.
  - destruct (EnqueueTask_full t (tasks (allocator s)) (run_queue (cpu_states s c))
                Hcpu (Hrq c)) as (q' & Heq & Hmem & _).
    cbv zeta in Heq. rewrite Heq.
    unfold EnqueueTask in Heq.
    destruct (cpu (tasks (allocator s) t) <? 0); [discriminate|].
    injection Heq as <-.
    split; [reflexivity|]. unfold state_of, current_of, rq_of, min_vruntime_of.
    cbn [calls allocator with_cpu_state with_allocator with_tasks tasks freed
         cpu_states].
    rewrite set_run_state_same, set_run_state_cpu, set_vruntime_cpu,
      set_run_state_vruntime, set_vruntime_same.
    split; [reflexivity|]. split; [reflexivity|]. split; [reflexivity|].
    split; [reflexivity|].
    split.
    { intros c'. destruct (Nat.eqb_spec c' c) as [->|]; reflexivity. }
    split.
    { intros c' Hne. apply Nat.eqb_neq in Hne. rewrite Hne. reflexivity. }
    rewrite Nat.eqb_refl. cbn [with_run_queue run_queue].
    split; [exact Hmem|reflexivity].
Qed.

Lemma wakeup_of_placed_task_witness :
  match run [Deliver (MSG_TASK_NEW 1 1 true) AssociateOk;
             Decide 0 10 false true 5;
             Deliver (MSG_TASK_BLOCKED 1 2 0%nat false) AssociateOk;
             Decide 0 11 false true 5]
          (CfsScheduler [0%nat] 1000000 6000000) with
  | Some s =>
      exists s',
        TaskRunnable 1 3 AssociateStale s = Some s' /\
        calls s' = calls s /\ state_of s' 1 = kRunnable
  | None => False
  end.
Proof.
  destruct (run _ _) as [s|] eqn:Hrun; [|vm_compute in Hrun; discriminate].
  assert (Hcpu : option_map (fun s => cpu_of s 1)
                   (run [Deliver (MSG_TASK_NEW 1 1 true) AssociateOk;
                         Decide 0 10 false true 5;
                         Deliver (MSG_TASK_BLOCKED 1 2 0%nat false) AssociateOk;
                         Decide 0 11 false true 5]
                      (CfsScheduler [0%nat] 1000000 6000000)) = Some 0)
    by (vm_compute; reflexivity).
  rewrite Hrun in Hcpu. cbn [option_map] in Hcpu. injection Hcpu as Hcpu.
  destruct (wakeup_of_placed_task _ _ _ _ s 1 3 AssociateStale Hrun)
    as (s' & c & _ & Heq & Hcalls & _ & Hst & _).
  { rewrite Hcpu. lia. }
  exists s'. auto.
Defined.

(** ** min_vruntime and the messages *)

Lemma Migrate_min_vruntime (t : TaskPtr) (c : nat) (seq : Z)
    (a : AssociateResult) (s s' : Sched) :
  Migrate t c seq a s = Some s' ->
  (forall c', rq_ok (tasks (allocator s)) (run_queue (cpu_states s c')) = true) ->
  forall c', min_vruntime_of c' s <= min_vruntime_of c' s'.
Proof.
  unfold Migrate. destruct (negb _); [discriminate|].
  destruct a; try discriminate.
  cbn [call allocator cpu_states].
  set (ts1 := set_cpu (tasks (allocator s)) t (Z.of_nat c)).
  intros Hm Hrq c'.
  assert (Hok1 : rq_ok ts1 (run_queue (cpu_states s c)) = true).
  { apply (rq_ok_same (tasks (allocator s)) ts1 _ _ eq_refl eq_refl); [|apply Hrq].
    intros x _. unfold ts1. store_cases x t. }
  assert (Hcpu1 : 0 <= cpu (ts1 t)).
  { unfold ts1. store_cases t t. lia. }
  destruct (EnqueueTask_full t ts1 (run_queue (cpu_states s c)) Hcpu1 Hok1)
    as (q' & Heq & _ & _ & Hmono).
  cbv zeta in Heq. rewrite Heq in Hm. injection Hm as <-.
  unfold min_vruntime_of. cbn [PingCpu call cpu_states with_cpu_state
                                 with_allocator].
  destruct (Nat.eqb_spec c' c) as [->|]; [exact Hmono|lia].
Qed.

Lemma rq_ok_seqnum_state (s : Sched) (t : TaskPtr) (seq : Z) (st : State) :
  (forall c', rq_ok (tasks (allocator s)) (run_queue (cpu_states s c')) = true) ->
  forall c',
    rq_ok (set_run_state (set_seqnum (tasks (allocator s)) t seq) t st)
      (run_queue (cpu_states s c')) = true.
Proof.
  intros Hrq c'.
  apply (rq_ok_same (tasks (allocator s)) _ _ _ eq_refl eq_refl); [|apply Hrq].
  intros x _. rewrite set_run_state_vruntime. apply set_seqnum_vruntime.
Qed.

Lemma rq_ok_seqnum (s : Sched) (t : TaskPtr) (seq : Z) :
  (forall c', rq_ok (tasks (allocator s)) (run_queue (cpu_states s c')) = true) ->
  forall c',
    rq_ok (set_seqnum (tasks (allocator s)) t seq)
      (run_queue (cpu_states s c')) = true.
Proof.
  intros Hrq c'.
  apply (rq_ok_same (tasks (allocator s)) _ _ _ eq_refl eq_refl); [|apply Hrq].
  intros x _. apply set_seqnum_vruntime.
Qed.

Lemma HandleTaskDone_min_vruntime (t : TaskPtr) (fs : bool) (s s' : Sched) :
  HandleTaskDone t fs s = Some s' ->
  forall c', min_vruntime_of c' s <= min_vruntime_of c' s'.
Proof.
  unfold HandleTaskDone. destruct (cpu_state_of _ t) as [c|]; [|discriminate].
  intros H c'. unfold min_vruntime_of.
  destruct (_ || _); [destruct (is_current _ _)|];
    injection H as <-; simpl; try lia.
  destruct (Nat.eqb_spec c' c) as [->|]; [|lia].
  match goal with |- context [UpdateMinVruntime ?ts ?cs0] =>
    pose proof (UpdateMinVruntime_monotone ts cs0) as Hm end.
  exact Hm.
Qed.

(** X12.  No message lowers a [min_vruntime_].  In a state that a run
    reaches, handling a message of the kernel, whichever it is, and the
    kernel advancing a status word, leave the [min_vruntime_] of every CPU
    where it was or above: it can go down in [CfsSchedule] only, where
    [PutPrevTask] puts the current task back. *)
Theorem messages_keep_min_vruntime (cpulist : list nat) (mg lat : Duration)
    (es : list Event) (s s' : Sched) (e : Event) (c : nat) :
  run es (CfsScheduler cpulist mg lat) = Some s ->
  (forall c0 b boost ok r, e <> Decide c0 b boost ok r) ->
  step e s = Some s' ->
  min_vruntime_of c s <= min_vruntime_of c s'.
Proof.
  intros Hrun Hnd Hstep.
  destruct (reached_sched_ok _ _ _ _ _ Hrun) as (_ & _ & Hrq).
  destruct e as [m a|x r|c0 b boost ok r]; cbn [step] in Hstep.
  - destruct m as [u seq rn|u seq|u seq c1 sw|u seq c1 sw|u seq c1 sw|u seq
                  |u seq c1 sw|u seq|c1]; cbn [DispatchMessage] in Hstep.
    + unfold TaskNew in Hstep. destruct rn.
      * destruct (SelectTaskRq _) as [[c2 s3]|] eqn:Hsel; [|discriminate].
        apply SelectTaskRq_frame in Hsel. destruct Hsel as [Ha Hc].
        pose proof (Migrate_min_vruntime _ _ _ _ _ _ Hstep) as Hm.
        unfold min_vruntime_of in *. rewrite Ha, Hc in Hm.
        apply (Hm (fun c' => rq_ok_seqnum_state
                     (set_task_seqnum u seq s) u seq kBlocked
                     (rq_ok_seqnum s u seq Hrq) c') c).
      * injection Hstep as <-. unfold min_vruntime_of. simpl. lia.
    + unfold TaskRunnable in Hstep.
      cbn [set_task_seqnum allocator with_allocator with_tasks tasks cpu_states]
        in Hstep.
      destruct (_ <? 0).
      * destruct (SelectTaskRq _) as [[c2 s3]|] eqn:Hsel; [|discriminate].
        apply SelectTaskRq_frame in Hsel. destruct Hsel as [Ha Hc].
        pose proof (Migrate_min_vruntime _ _ _ _ _ _ Hstep) as Hm.
        unfold min_vruntime_of in *. rewrite Ha, Hc in Hm.
        apply (Hm (rq_ok_seqnum s u seq Hrq) c).
      * destruct (cpu_state_of _ u) as [c2|] eqn:Hc2; [|discriminate].
        apply cpu_state_of_Some in Hc2.
        destruct (is_current _ u);
          [injection Hstep as <-; unfold min_vruntime_of; simpl; lia|].
        destruct (EnqueueTask_full u (set_seqnum (tasks (allocator s)) u seq)
                    (run_queue (cpu_states s c2)))
          as (q' & Heq & _ & _ & Hmono);
          [lia | apply (rq_ok_seqnum s u seq Hrq) |].
        cbv zeta in Heq. rewrite Heq in Hstep. injection Hstep as <-.
        unfold min_vruntime_of. cbn [cpu_states with_cpu_state with_allocator].
        destruct (Nat.eqb_spec c c2) as [->|]; [exact Hmono|apply Z.le_refl].
    + unfold TaskBlocked in Hstep. destruct (is_current _ _); [|discriminate].
      injection Hstep as <-. unfold min_vruntime_of.
      rewrite (proj2 (ping_if_frame _ _ _)). simpl. lia.
    + unfold TaskYield in Hstep. destruct (is_current _ _); [|discriminate].
      injection Hstep as <-. unfold min_vruntime_of.
      rewrite (proj2 (ping_if_frame _ _ _)). simpl. lia.
    + unfold TaskPreempted in Hstep. destruct (is_current _ _); [|discriminate].
      injection Hstep as <-. unfold min_vruntime_of.
      rewrite (proj2 (ping_if_frame _ _ _)). simpl. lia.
    + unfold TaskSwitchto in Hstep. destruct (cpu_state_of _ _); [|discriminate].
      injection Hstep as <-. unfold min_vruntime_of. simpl. lia.
    + unfold TaskDeparted in Hstep.
      destruct (HandleTaskDone _ _ _) as [s1|] eqn:Hdone; [|discriminate].
      injection Hstep as <-.
      pose proof (HandleTaskDone_min_vruntime _ _ _ _ Hdone c) as Hm.
      unfold min_vruntime_of in *. rewrite (proj2 (ping_if_frame _ _ _)).
      exact Hm.
    + exact (HandleTaskDone_min_vruntime _ _ _ _ Hstep c).
    + injection Hstep as <-. unfold min_vruntime_of, CpuTick, CheckPreemptTick.
      destruct (current (cpu_states s c1)); [|lia].
      destruct (_ <? _); [|lia]. simpl.
      destruct (Nat.eqb_spec c c1) as [->|]; simpl; lia.
  - injection Hstep as <-. unfold min_vruntime_of. simpl. lia.
  - exfalso. exact (Hnd c0 b boost ok r eq_refl).
Qed.

Lemma messages_keep_min_vruntime_witness :
  match run [Deliver (MSG_TASK_NEW 1 1 true) AssociateOk;
             Decide 0 10 false true 5;
             Deliver (MSG_TASK_YIELD 1 2 0%nat false) AssociateOk;
             Decide 0 11 false true 9]
          (CfsScheduler [0%nat] 1000000 6000000) with
  | Some s =>
      match step (Deliver (MSG_TASK_NEW 2 1 true) AssociateOk) s with
      | Some s' => min_vruntime_of 0 s <= min_vruntime_of 0 s'
      | None => False
      end
  | None => False
  end.
Proof.
  destruct (run _ _) as [s|] eqn:Hrun; [|vm_compute in Hrun; discriminate].
  destruct (step _ s) as [s'|] eqn:Hstep.
  - apply (messages_keep_min_vruntime _ _ _ _ s s'
             (Deliver (MSG_TASK_NEW 2 1 true) AssociateOk) 0%nat Hrun);
      [discriminate | exact Hstep].
  - assert (H : option_map
                  (fun s => match step (Deliver (MSG_TASK_NEW 2 1 true) AssociateOk) s
                            with Some _ => true | None => false end)
                  (run [Deliver (MSG_TASK_NEW 1 1 true) AssociateOk;
                        Decide 0 10 false true 5;
                        Deliver (MSG_TASK_YIELD 1 2 0%nat false) AssociateOk;
                        Decide 0 11 false true 9]
                     (CfsScheduler [0%nat] 1000000 6000000)) = Some true)
      by (vm_compute; reflexivity).
    rewrite Hrun in H. cbn [option_map] in H. rewrite Hstep in H. discriminate.
Defined.

(** ** The states of the tasks that wait *)

Lemma waiting_seqnum (u : TaskPtr) (seq : Z) (s : Sched) :
  queues_hold_waiting s -> queues_hold_waiting (set_task_seqnum u seq s).
Proof.
  unfold queues_hold_waiting, rq_of, state_of. simpl. intros H c x Hx.
  rewrite set_seqnum_run_state. exact (H c x Hx).
Qed.

(** A message of the task [u]: the other tasks wait as they did. *)
Lemma waiting_message (u : TaskPtr) (s s' : Sched) :
  others_kept u s s' ->
  (forall c, In u (rq_of s' c) ->
             state_of s' u = kRunnable \/ state_of s' u = kBlocked) ->
  queues_hold_waiting s -> queues_hold_waiting s'.
Proof.
  intros [_ Hk] Hu Hq c x Hx. destruct (Z.eq_dec x u) as [->|Hne]; [eauto|].
  destruct (Hk x Hne) as (Hst & _ & _ & Hrq). rewrite Hst. eauto.
Qed.

Lemma waiting_same (s s' : Sched) :
  allocator s' = allocator s -> cpu_states s' = cpu_states s ->
  queues_hold_waiting s -> queues_hold_waiting s'.
Proof.
  unfold queues_hold_waiting, rq_of, state_of. intros -> -> H. exact H.
Qed.

Lemma set_state_ping_state (u : TaskPtr) (st : State) (b : bool) (c : nat)
    (s : Sched) :
  state_of (ping_if b c (set_task_state u st s)) u = st.
Proof.
  unfold state_of. rewrite (proj1 (ping_if_frame _ _ _)). simpl.
  apply set_run_state_same.
Qed.

Lemma TaskNew_state (u : TaskPtr) (seq : Z) (rn : bool) (a : AssociateResult)
    (s s' : Sched) :
  TaskNew u seq rn a s = Some s' ->
  state_of s' u = kRunnable \/ state_of s' u = kBlocked.
Proof.
  unfold TaskNew. destruct rn.
  - destruct (SelectTaskRq _) as [[c s3]|]; [|discriminate].
    intros Hm. apply Migrate_view in Hm. left. tauto.
  - intros H. injection H as <-. right. unfold state_of. simpl.
    apply set_run_state_same.
Qed.

Lemma TaskRunnable_state (u : TaskPtr) (seq : Z) (a : AssociateResult)
    (s s' : Sched) :
  TaskRunnable u seq a s = Some s' -> state_of s' u = kRunnable.
Proof.
  unfold TaskRunnable. destruct (_ <? 0).
  - destruct (SelectTaskRq _) as [[c s3]|]; [|discriminate].
    intros Hm. apply Migrate_view in Hm. tauto.
  - destruct (cpu_state_of _ u) as [c|]; [|discriminate].
    destruct (is_current _ u).
    + intros H. injection H as <-. unfold state_of. simpl.
      apply set_run_state_same.
    + destruct (EnqueueTask _ _ _) as [[ts1 q]|] eqn:Henq; [|discriminate].
      intros H. injection H as <-. apply EnqueueTask_view in Henq.
      unfold state_of. simpl. tauto.
Qed.

(** A task that is reported done is in no run queue after it. *)
Lemma HandleTaskDone_leaves_queues (u : TaskPtr) (fs : bool) (s s' : Sched) :
  sched_ok s -> queues_hold_waiting s ->
  HandleTaskDone u fs s = Some s' ->
  forall c, ~ In u (rq_of s' c).
Proof.
  intros (Hp & Hi & Hrq) Hq Hdone c Hin.
  pose proof (HandleTaskDone_view u fs s s' Hdone) as (_ & _ & _ & Hsub & _).
  pose proof (Hsub c Hin) as Hold.
  pose proof (Hp u c (or_intror Hold)) as Hcpu.
  unfold HandleTaskDone in Hdone.
  destruct (cpu_state_of _ u) as [c0|] eqn:Hc0; [|discriminate].
  apply cpu_state_of_Some in Hc0. unfold cpu_of in Hcpu.
  assert (c0 = c) as -> by lia.
  destruct (_ || _) eqn:Hcond; [destruct (is_current _ u) eqn:Hic|].
  - apply is_current_true in Hic. exact (Hi c u Hic Hold).
  - injection Hdone as <-. unfold rq_of in Hin.
    cbn [cpu_states with_cpu_state with_allocator] in Hin.
    rewrite Nat.eqb_refl in Hin.
    match type of Hin with context [UpdateMinVruntime ?ts ?cs0] =>
      destruct (UpdateMinVruntime_frame ts cs0) as (_ & _ & Hr & _) end.
    rewrite Hr in Hin. cbn [with_run_queue run_queue Erase set_rq rq_] in Hin.
    apply rq_erase_iff in Hin; [destruct Hin as [_ Hne]; congruence|].
    rewrite (set_sorted_ext _ (Less (tasks (allocator s)))).
    + apply rq_ok_sorted, Hrq.
    + intros x y _ _. apply Less_ext; simpl; apply set_run_state_vruntime.
  - destruct (Hq c u Hold) as [Hst|Hst]; unfold state_of in Hst;
      rewrite Hst in Hcond; destruct fs; discriminate.
Qed.

(** [CfsSchedule] keeps the tasks that wait runnable or blocked. *)
Lemma CfsSchedule_waiting (c : nat) (b : Z) (boost ok : bool) (r : Z)
    (s s' : Sched) :
  sched_ok s -> queues_hold_waiting s ->
  CfsSchedule c b boost ok r s = Some s' ->
  queues_hold_waiting s'.
Proof.
  intros Hok Hq Hrun. pose proof Hok as (Hp & Hi & _).
  assert (Hfar : forall c' x p,
            c' <> c -> In x (rq_of s c') -> current_of s c = Some p -> x <> p).
  { intros c' x p Hne Hx Hcur ->.
    pose proof (Hp p c' (or_intror Hx)). pose proof (Hp p c (or_introl Hcur)).
    lia. }
  destruct boost.
  - destruct (CfsSchedule_boost_spec c b ok r s Hok)
      as (s1 & Heq & _ & Hoth & _ & Hcase).
    rewrite Heq in Hrun. injection Hrun as <-.
    destruct (current_of s c) as [p|] eqn:Hcur.
    + destruct Hcase as (_ & _ & Hrq & Hst & _).
      intros c' x Hx. rewrite Hst.
      destruct (Nat.eq_dec c' c) as [->|Hne].
      * apply Hrq in Hx. destruct Hx as [Hx|(Hxc & Hx)].
        -- destruct (Z.eqb_spec p x) as [<-|_];
             [exfalso; exact (Hi c p Hcur Hx)|]. exact (Hq c x Hx).
        -- rewrite Hcur in Hxc. injection Hxc as <-. rewrite Z.eqb_refl.
           destruct Hx as [-> | ->]; auto.
      * unfold rq_of in Hx. rewrite (Hoth c' Hne) in Hx.
        destruct (Z.eqb_spec p x) as [<-|_];
          [exfalso; exact (Hfar c' p p Hne Hx eq_refl eq_refl)|].
        exact (Hq c' x Hx).
    + destruct Hcase as [Hcs Ha].
      intros c' x Hx. unfold rq_of, state_of in *. rewrite Ha.
      destruct (Nat.eq_dec c' c) as [->|Hne];
        [rewrite Hcs in Hx|rewrite (Hoth c' Hne) in Hx]; eauto.
  - destruct (keeps_running (current (cpu_states s c)) (tasks (allocator s))
                (cpu_states s c)) eqn:Hkeep.
    + unfold keeps_running in Hkeep.
      destruct (current (cpu_states s c)) as [p|] eqn:Hcur; [|discriminate].
      apply andb_true_iff in Hkeep. destruct Hkeep as [Hst Hpre].
      assert (Hrunning : state_of s p = kRunning).
      { unfold state_of. destruct (run_state (tasks (allocator s) p));
          try discriminate. reflexivity. }
      apply negb_true_iff in Hpre.
      destruct (CfsSchedule_keep_spec c b ok r s p Hcur Hrunning Hpre)
        as (s1 & Heq & Hcs & _ & Hst' & _).
      rewrite Heq in Hrun. injection Hrun as <-.
      intros c' x Hx. unfold rq_of in Hx. rewrite Hcs in Hx. rewrite Hst'.
      exact (Hq c' x Hx).
    + destruct (CfsSchedule_pick_spec c b ok r s Hok Hkeep)
        as (s1 & Heq & Hoth & _ & Hst & _ & Hcase).
      rewrite Heq in Hrun. injection Hrun as <-.
      assert (Hcont : forall x, contender s c x ->
                current_of s c = Some x \/ In x (rq_of s c)).
      { intros x [H|[H _]]; auto. }
      intros c' x Hx.
      assert (Hnot : current_of s1 c <> Some x).
      { intros Hn. rewrite Hn in Hcase.
        destruct Hcase as (Hin & _ & Hrq & _).
        destruct (Nat.eq_dec c' c) as [->|Hne].
        - apply Hrq in Hx. destruct Hx as [_ Hx]. congruence.
        - unfold rq_of in Hx. rewrite (Hoth c' Hne) in Hx.
          pose proof (Hp x c' (or_intror Hx)) as H1.
          destruct (Hcont x Hin) as [Hc|Hc].
          + pose proof (Hp x c (or_introl Hc)). lia.
          + pose proof (Hp x c (or_intror Hc)). lia. }
      rewrite (Hst x Hnot).
      destruct (Nat.eq_dec c' c) as [->|Hne].
      * assert (Hx' : contender s c x).
        { destruct (current_of s1 c) as [n|].
          - destruct Hcase as (_ & _ & Hrq & _). apply Hrq in Hx. tauto.
          - destruct Hcase as (_ & Hrq & _). rewrite Hrq in Hx. destruct Hx. }
        destruct Hx' as [Hin|(Hcur & Hx')].
        -- assert (Hic : is_current (cpu_states s c) x = false).
           { destruct (is_current (cpu_states s c) x) eqn:Hic; [|reflexivity].
             apply is_current_true in Hic. exfalso. exact (Hi c x Hic Hin). }
           rewrite Hic. exact (Hq c x Hin).
        -- assert (Hic : is_current (cpu_states s c) x = true)
             by (apply is_current_true; exact Hcur).
           rewrite Hic. destruct Hx' as [-> | ->]; auto.
      * unfold rq_of in Hx. rewrite (Hoth c' Hne) in Hx.
        assert (Hic : is_current (cpu_states s c) x = false).
        { destruct (is_current (cpu_states s c) x) eqn:Hic; [|reflexivity].
          apply is_current_true in Hic. exfalso.
          exact (Hfar c' x x Hne Hx Hic eq_refl). }
        rewrite Hic. exact (Hq c' x Hx).
Qed.

Lemma waiting_step (e : Event) (s s' : Sched) :
  sched_ok s -> queues_hold_waiting s ->
  step e s = Some s' -> queues_hold_waiting s'.
Proof.
  intros Hok Hq Hstep. destruct e as [m a|x r|c b boost ok r]; cbn [step] in Hstep.
  - destruct m as [u seq rn|u seq|u seq c sw|u seq c sw|u seq c sw|u seq
                  |u seq c sw|u seq|c]; cbn [DispatchMessage] in Hstep;
      try (pose proof (sched_ok_set_seqnum u seq s Hok) as Hok0;
           pose proof (waiting_seqnum u seq s Hq) as Hq0).
    + pose proof (TaskNew_state _ _ _ _ _ _ Hstep) as Hst.
      apply TaskNew_view in Hstep. destruct Hstep as (Hk & _).
      apply (waiting_message u _ s' Hk); auto.
    + pose proof (TaskRunnable_state _ _ _ _ _ Hstep) as Hst.
      apply TaskRunnable_view in Hstep. destruct Hstep as (Hk & _).
      apply (waiting_message u _ s' Hk); auto.
    + pose proof (TaskBlocked_view _ _ _ _ _ Hstep) as (Hk & _).
      unfold TaskBlocked in Hstep. destruct (is_current _ _); [|discriminate].
      injection Hstep as <-.
      apply (waiting_message u _ _ Hk); [|exact Hq0].
      intros _ _. right. apply set_state_ping_state.
    + pose proof (TaskYield_view _ _ _ _ _ Hstep) as (Hk & _).
      unfold TaskYield in Hstep. destruct (is_current _ _); [|discriminate].
      injection Hstep as <-.
      apply (waiting_message u _ _ Hk); [|exact Hq0].
      intros _ _. left. apply set_state_ping_state.
    + unfold TaskPreempted in Hstep. destruct (is_current _ _); [|discriminate].
      injection Hstep as <-.
      destruct (ping_if_frame sw c (set_task_seqnum u seq s)) as [Ha Hc].
      exact (waiting_same _ _ Ha Hc Hq0).
    + pose proof (TaskSwitchto_view _ _ _ Hstep) as (Hk & _).
      unfold TaskSwitchto in Hstep. destruct (cpu_state_of _ _); [|discriminate].
      injection Hstep as <-.
      apply (waiting_message u _ _ Hk); [|exact Hq0].
      intros _ _. right. apply (set_state_ping_state u kBlocked false 0%nat).
    + unfold TaskDeparted in Hstep.
      destruct (HandleTaskDone _ _ _) as [s1|] eqn:Hdone; [|discriminate].
      injection Hstep as <-.
      destruct (ping_if_frame sw c s1) as [Ha Hc].
      apply (waiting_same s1 _ Ha Hc).
      pose proof (HandleTaskDone_leaves_queues _ _ _ _ Hok0 Hq0 Hdone) as Hout.
      apply HandleTaskDone_view in Hdone. destruct Hdone as (Hk & _).
      apply (waiting_message u _ s1 Hk); [|exact Hq0].
      intros c' Hin. exfalso. exact (Hout c' Hin).
    + pose proof (HandleTaskDone_leaves_queues _ _ _ _ Hok0 Hq0 Hstep) as Hout.
      apply HandleTaskDone_view in Hstep. destruct Hstep as (Hk & _).
      apply (waiting_message u _ s' Hk); [|exact Hq0].
      intros c' Hin. exfalso. exact (Hout c' Hin).
    + injection Hstep as <-. destruct (CpuTick_view c s) as (Ha & _ & Hr).
      intros c' x Hx. rewrite Hr in Hx. unfold state_of. rewrite Ha.
      exact (Hq c' x Hx).
  - injection Hstep as <-. intros c y Hy. unfold state_of. simpl.
    rewrite set_status_word_run_state. exact (Hq c y Hy).
  - exact (CfsSchedule_waiting _ _ _ _ _ _ _ Hok Hq Hstep).
Qed.

Lemma waiting_run (es : list Event) :
  forall s s',
    sched_ok s -> queues_hold_waiting s ->
    run es s = Some s' -> queues_hold_waiting s'.
Proof.
  induction es as [|e es IH]; intros s s' Hok Hq Hrun; simpl in Hrun.
  - injection Hrun as <-. assumption.
  - destruct (step e s) as [s1|] eqn:Hstep; [|discriminate].
    apply (IH s1 s'); [|exact (waiting_step e s s1 Hok Hq Hstep)|exact Hrun].
    exact (sched_ok_step e s s1 Hstep Hok).
Qed.

Lemma waiting_init (cpulist : list nat) (mg lat : Duration) :
  queues_hold_waiting (CfsScheduler cpulist mg lat).
Proof. intros c x []. Qed.

(** X13.  In every state that a run reaches, a task that is in a run queue
    is runnable or blocked: a task that runs is in no run queue, and neither
    is a task that is done. *)
Theorem queued_tasks_wait (cpulist : list nat) (mg lat : Duration)
    (es : list Event) (s : Sched) (c : nat) (x : TaskPtr) :
  run es (CfsScheduler cpulist mg lat) = Some s ->
  In x (rq_of s c) ->
  state_of s x = kRunnable \/ state_of s x = kBlocked.
Proof.
  intros Hrun.
  exact (waiting_run es _ s (sched_ok_init _ _ _) (waiting_init _ _ _) Hrun c x).
Qed.

Lemma queued_tasks_wait_witness :
  match run [Deliver (MSG_TASK_NEW 1 1 true) AssociateOk;
             Deliver (MSG_TASK_NEW 2 1 true) AssociateOk;
             Decide 0 10 false true 5]
          (CfsScheduler [0%nat] 1000000 6000000) with
  | Some s => state_of s 2 = kRunnable \/ state_of s 2 = kBlocked
  | None => False
  end.
Proof.
  destruct (run _ _) as [s|] eqn:Hrun; [|vm_compute in Hrun; discriminate].
  apply (queued_tasks_wait _ _ _ _ s 0%nat 2 Hrun).
  assert (H : option_map (fun s => rq_of s 0)
                (run [Deliver (MSG_TASK_NEW 1 1 true) AssociateOk;
                      Deliver (MSG_TASK_NEW 2 1 true) AssociateOk;
                      Decide 0 10 false true 5]
                   (CfsScheduler [0%nat] 1000000 6000000)) = Some [2])
    by (vm_compute; reflexivity).
  rewrite Hrun in H. cbn [option_map] in H. injection H as ->.
  left. reflexivity.
Defined.

(** ** A task that departs *)

Lemma HandleTaskDone_misc (u : TaskPtr) (fs : bool) (s s' : Sched) :
  HandleTaskDone u fs s = Some s' ->
  calls s' = calls s /\ cpus s' = cpus s /\ select_next s' = select_next s.
Proof.
  unfold HandleTaskDone. destruct (cpu_state_of _ u); [|discriminate].
  destruct (_ || _); [destruct (is_current _ u)|];
    intros H; injection H as <-; auto.
Qed.

Lemma reached_waiting (cpulist : list nat) (mg lat : Duration)
    (es : list Event) (s : Sched) :
  run es (CfsScheduler cpulist mg lat) = Some s -> queues_hold_waiting s.
Proof.
  intros Hrun.
  exact (waiting_run es _ s (sched_ok_init _ _ _) (waiting_init _ _ _) Hrun).
Qed.

(** A done task that is the current task of its CPU is freed by the next
    [CfsSchedule] there, and leaves the CPU. *)
Lemma CfsSchedule_frees_done (c : nat) (b : Z) (boost ok : bool) (r : Z)
    (s : Sched) (t : TaskPtr) :
  sched_ok s ->
  current_of s c = Some t ->
  state_of s t = kDone ->
  exists s',
    CfsSchedule c b boost ok r s = Some s' /\
    freed_count s' t = S (freed_count s t) /\
    current_of s' c <> Some t /\
    state_of s' t = kDone /\
    ~ In t (rq_of s' c).
Proof.
  intros Hok Hcur Hst. pose proof Hok as (_ & Hi & _).
  assert (Hcont : ~ contender s c t).
  { intros [Hin|(_ & [H|H])]; [exact (Hi c t Hcur Hin)|congruence..]. }
  destruct boost.
  - destruct (CfsSchedule_boost_spec c b ok r s Hok)
      as (s' & Heq & _ & _ & _ & Hcase).
    rewrite Hcur in Hcase. destruct Hcase as (Hnone & _ & Hrq & Hst' & _).
    exists s'. split; [exact Heq|].
    split; [exact (proj1 (CfsSchedule_freed_count t _ _ _ _ _ _ _ Heq) Hcur Hst)|].
    split; [congruence|].
    split; [rewrite Hst', Z.eqb_refl, Hst; reflexivity|].
    intros Hin. apply Hcont. apply Hrq. exact Hin.
  - assert (Hkeep : keeps_running (current (cpu_states s c))
                      (tasks (allocator s)) (cpu_states s c) = false).
    { unfold keeps_running. unfold current_of in Hcur. rewrite Hcur.
      unfold state_of in Hst. rewrite Hst. reflexivity. }
    destruct (CfsSchedule_pick_spec c b ok r s Hok Hkeep)
      as (s' & Heq & _ & _ & Hst' & _ & Hcase).
    assert (Hnot : current_of s' c <> Some t).
    { intros Hn. rewrite Hn in Hcase. destruct Hcase as (Hin & _). auto. }
    exists s'. split; [exact Heq|].
    split; [exact (proj1 (CfsSchedule_freed_count t _ _ _ _ _ _ _ Heq) Hcur Hst)|].
    split; [exact Hnot|].
    split.
    + rewrite (Hst' t Hnot).
      rewrite (proj2 (is_current_true _ _) Hcur), Hst. reflexivity.
    + intros Hin. apply Hcont.
      destruct (current_of s' c) as [n|].
      * destruct Hcase as (_ & _ & Hrq & _). apply Hrq in Hin. tauto.
      * destruct Hcase as (_ & Hrq & _). rewrite Hrq in Hin. destruct Hin.
Qed.

(** X14.  A task that departs.  In a state that a run reaches,
    [TaskDeparted] of a task [t] that is not done yet sets it done and takes
    it out of every run queue; the CPU named is pinged when the departure
    came from a switchto, and then only.  When [t] is not the current task
    of its CPU, it is freed at once.  When it is, the free waits: the next
    [CfsSchedule] on that CPU, boosted or not, frees it and takes it off the
    CPU. *)
Theorem departed_task_is_freed (cpulist : list nat) (mg lat : Duration)
    (es : list Event) (s s1 : Sched) (t : TaskPtr) (c : nat) (fs : bool) :
  run es (CfsScheduler cpulist mg lat) = Some s ->
  state_of s t <> kDone ->
  TaskDeparted t c fs s = Some s1 ->
  exists c0,
    cpu_of s t = Z.of_nat c0 /\
    state_of s1 t = kDone /\
    (forall c', ~ In t (rq_of s1 c')) /\
    calls s1 = calls s ++ (if fs then [CallPing c] else []) /\
    if is_current (cpu_states s c0) t
    then freed_count s1 t = freed_count s t /\
         forall b boost ok r,
           exists s2,
             CfsSchedule c0 b boost ok r s1 = Some s2 /\
             freed_count s2 t = S (freed_count s t) /\
             current_of s2 c0 <> Some t
    else freed_count s1 t = S (freed_count s t) /\
         forall c', current_of s1 c' <> Some t.
Proof.
  intros Hrun Hnd Hdep.
  pose proof (reached_sched_ok _ _ _ _ _ Hrun) as Hok.
  pose proof (reached_waiting _ _ _ _ _ Hrun) as Hq.
  unfold TaskDeparted in Hdep.
  destruct (HandleTaskDone t fs s) as [s0|] eqn:Hdone; [|discriminate].
  injection Hdep as <-.
  destruct (ping_if_frame fs c s0) as [Ha Hc].
  pose proof (HandleTaskDone_leaves_queues _ _ _ _ Hok Hq Hdone) as Hout.
  pose proof (HandleTaskDone_sched_ok _ _ _ _ Hdone Hok) as Hok0.
  pose proof (sched_ok_ping_if fs c s0 Hok0) as Hok1.
  destruct (HandleTaskDone_misc _ _ _ _ Hdone) as (Hcalls & _).
  destruct (HandleTaskDone_view _ _ _ _ Hdone)
    as ([Hcur _] & Hst & _ & _ & c0 & Hc0 & Hfreed).
  specialize (Hfreed Hnd).
  exists c0. split; [exact Hc0|].
  split; [unfold state_of in *; rewrite Ha; exact Hst|].
  split; [intros c'; unfold rq_of in *; rewrite Hc; apply Hout|].
  split.
  { destruct fs; simpl; rewrite Hcalls; [reflexivity|].
    rewrite app_nil_r. reflexivity. }
  assert (Hcount : freed_count (ping_if fs c s0) t =
                   count_occ Z.eq_dec (freed (allocator s0)) t).
  { unfold freed_count. rewrite Ha. reflexivity. }
  destruct (is_current (cpu_states s c0) t) eqn:Hic.
  - rewrite app_nil_r in Hfreed.
    assert (Hsame : freed_count (ping_if fs c s0) t = freed_count s t).
    { rewrite Hcount, Hfreed. reflexivity. }
    split; [exact Hsame|].
    intros b boost ok r.
    apply is_current_true in Hic.
    assert (Hcur1 : current_of (ping_if fs c s0) c0 = Some t).
    { unfold current_of in *. rewrite Hc, Hcur. exact Hic. }
    assert (Hst1 : state_of (ping_if fs c s0) t = kDone).
    { unfold state_of in *. rewrite Ha. exact Hst. }
    destruct (CfsSchedule_frees_done c0 b boost ok r _ t Hok1 Hcur1 Hst1)
      as (s2 & Heq & Hf & Hn & _).
    exists s2. split; [exact Heq|]. split; [rewrite Hf, Hsame; reflexivity|exact Hn].
  - split.
    + rewrite Hcount, Hfreed, count_occ_snoc.
      destruct (Z.eq_dec t t); [unfold freed_count; lia|congruence].
    + intros c' Hc'. unfold current_of in Hc'. rewrite Hc in Hc'.
      fold (current_of s0 c') in Hc'. rewrite Hcur in Hc'.
      destruct Hok as (Hp & _).
      pose proof (Hp t c' (or_introl Hc')) as Hpc.
      assert (c' = c0) as -> by lia.
      apply is_current_true in Hc'. congruence.
Qed.

Lemma departed_task_is_freed_witness :
  match run [Deliver (MSG_TASK_NEW 1 1 true) AssociateOk;
             Deliver (MSG_TASK_NEW 2 1 true) AssociateOk;
             Decide 0 10 false true 5]
          (CfsScheduler [0%nat] 1000000 6000000) with
  | Some s =>
      match TaskDeparted 2 0 true s with
      | Some s1 =>
          state_of s1 2 = kDone /\ calls s1 = calls s ++ [CallPing 0]
      | None => False
      end
  | None => False
  end.
Proof.
  destruct (run _ _) as [s|] eqn:Hrun; [|vm_compute in Hrun; discriminate].
  assert (H : option_map
                (fun s => (state_of s 2,
                           match TaskDeparted 2 0 true s with
                           | Some _ => true | None => false end))
                (run [Deliver (MSG_TASK_NEW 1 1 true) AssociateOk;
                      Deliver (MSG_TASK_NEW 2 1 true) AssociateOk;
                      Decide 0 10 false true 5]
                   (CfsScheduler [0%nat] 1000000 6000000))
              = Some (kRunnable, true)) by (vm_compute; reflexivity).
  rewrite Hrun in H. cbn [option_map] in H. injection H as Hst Hdep.
  destruct (TaskDeparted 2 0 true s) as [s1|] eqn:Heq; [|discriminate].
  destruct (departed_task_is_freed _ _ _ _ s s1 2 0%nat true Hrun)
    as (c0 & _ & Hdone & _ & Hcalls & _); [congruence | exact Heq |].
  auto.
Defined.

(** ** The end of the tasks and the shutdown *)

(** Once the messages of [t] have told its death, [t] stays done. *)
Lemma done_after_dead_step (t : TaskPtr) (ph ph' : Phase) (e : Event)
    (s s' : Sched) :
  sched_ok s -> queues_hold_waiting s ->
  (ph = Dead -> state_of s t = kDone) ->
  lifecycle_step t ph e = Some ph' ->
  step e s = Some s' ->
  ph' = Dead -> state_of s' t = kDone.
Proof.
  intros Hok Hq Hinv Hph Hstep Hdead.
  assert (Hother : forall u s'', u <> t -> others_kept u s s'' ->
                   state_of s t = kDone -> state_of s'' t = kDone).
  { intros u s'' Hne [_ Hk] Hd.
    destruct (Hk t (not_eq_sym Hne)) as (Hst & _). congruence. }
  destruct e as [m a|x r|c b boost ok r].
  - destruct m as [u seq rn|u seq|u seq c sw|u seq c sw|u seq c sw|u seq
                  |u seq c sw|u seq|c];
      cbn [lifecycle_step] in Hph; cbn [step DispatchMessage] in Hstep;
      try (destruct (Z.eqb_spec u t) as [->|Hne];
           [destruct ph; try discriminate; injection Hph as <-;
            try discriminate
           |injection Hph as <-; subst ph; specialize (Hinv eq_refl)]).
    + apply TaskNew_view in Hstep. destruct Hstep as (Hk & _).
      apply others_kept_seqnum in Hk. eauto.
    + apply TaskRunnable_view in Hstep. destruct Hstep as (Hk & _).
      apply others_kept_seqnum in Hk. eauto.
    + apply TaskBlocked_view in Hstep. destruct Hstep as (Hk & _).
      apply others_kept_seqnum in Hk. eauto.
    + apply TaskYield_view in Hstep. destruct Hstep as (Hk & _).
      apply others_kept_seqnum in Hk. eauto.
    + apply TaskPreempted_view in Hstep. destruct Hstep as (Hk & _).
      apply others_kept_seqnum in Hk. eauto.
    + apply TaskSwitchto_view in Hstep. destruct Hstep as (Hk & _).
      apply others_kept_seqnum in Hk. eauto.
    + unfold TaskDeparted in Hstep.
      destruct (HandleTaskDone _ _ _) as [s1|] eqn:Hdone; [|discriminate].
      injection Hstep as <-. apply HandleTaskDone_view in Hdone.
      destruct Hdone as (Hk & _). apply others_kept_seqnum in Hk.
      unfold state_of. rewrite (proj1 (ping_if_frame _ _ _)).
      exact (Hother u s1 Hne Hk Hinv).
    + apply HandleTaskDone_view in Hstep. tauto.
    + apply HandleTaskDone_view in Hstep. destruct Hstep as (Hk & _).
      apply others_kept_seqnum in Hk. eauto.
    + injection Hph as <-. subst ph. specialize (Hinv eq_refl).
      injection Hstep as <-. destruct (CpuTick_view c s) as (Ha & _).
      unfold state_of in *. rewrite Ha. exact Hinv.
  - cbn [lifecycle_step] in Hph. injection Hph as <-. subst ph.
    specialize (Hinv eq_refl). injection Hstep as <-.
    unfold state_of in *. simpl. rewrite set_status_word_run_state. exact Hinv.
  - cbn [lifecycle_step] in Hph. injection Hph as <-. subst ph.
    specialize (Hinv eq_refl). cbn [step] in Hstep.
    destruct (current_of s c) as [p|] eqn:Hcur.
    + destruct (Z.eq_dec p t) as [->|Hne].
      * destruct (CfsSchedule_frees_done c b boost ok r s t Hok Hcur Hinv)
          as (s2 & Heq & _ & _ & Hd & _).
        congruence.
      * pose proof (CfsSchedule_view _ _ _ _ _ _ _ Hstep)
          as (_ & _ & _ & _ & Hstay & Hnew & _).
        rewrite <- Hinv. apply Hstay; [congruence|].
        intros Hn. destruct (Hnew t Hn) as [H|H]; [congruence|].
        destruct (Hq c t H); congruence.
    + pose proof (CfsSchedule_view _ _ _ _ _ _ _ Hstep)
        as (_ & _ & _ & _ & Hstay & Hnew & _).
      rewrite <- Hinv. apply Hstay; [congruence|].
      intros Hn. destruct (Hnew t Hn) as [H|H]; [congruence|].
      destruct (Hq c t H); congruence.
Qed.

Lemma done_after_dead_run (t : TaskPtr) (es : list Event) :
  forall (ph ph' : Phase) (s s' : Sched),
    sched_ok s -> queues_hold_waiting s ->
    (ph = Dead -> state_of s t = kDone) ->
    lifecycle t ph es = Some ph' ->
    run es s = Some s' ->
    ph' = Dead -> state_of s' t = kDone.
Proof.
  induction es as [|e es IH]; intros ph ph' s s' Hok Hq Hinv Hph Hrun;
    simpl in *.
  - injection Hph as <-. injection Hrun as <-. assumption.
  - destruct (lifecycle_step t ph e) as [ph1|] eqn:Hstep; [|discriminate].
    destruct (step e s) as [s1|] eqn:Hs; [|discriminate].
    apply (IH ph1 ph' s1 s'); try assumption.
    + exact (sched_ok_step e s s1 Hs Hok).
    + exact (waiting_step e s s1 Hok Hq Hs).
    + exact (done_after_dead_step t ph ph1 e s s1 Hok Hq Hinv Hstep Hs).
Qed.

(** X15.  A clean shutdown.  Take a run of the scheduler in which the
    messages of every task are those of a life, TaskNew, then messages of a
    task that lives, then TaskDead, and in which every task that was born is
    dead at the end.  Then every run queue is empty at the end, and
    [ValidatePreExitState] passes.  It does not wait for the frees: a dead
    task may still be the current task of its CPU. *)
Theorem clean_shutdown (cpulist : list nat) (mg lat : Duration)
    (es : list Event) (s : Sched) :
  run es (CfsScheduler cpulist mg lat) = Some s ->
  (forall t, lifecycle t Unborn es = Some Unborn \/
             lifecycle t Unborn es = Some Dead) ->
  (forall c, rq_of s c = []) /\ ValidatePreExitState s = Some tt.
Proof.
  intros Hrun Hall.
  pose proof (reached_waiting _ _ _ _ _ Hrun) as Hq.
  assert (Hempty : forall c, rq_of s c = []).
  { intros c. destruct (rq_of s c) as [|x l] eqn:Hrq; [reflexivity|].
    exfalso.
    assert (Hin : In x (rq_of s c)) by (rewrite Hrq; left; reflexivity).
    destruct (Hall x) as [Hph|Hph].
    - pose proof (lifecycle_inv_run x es Unborn Unborn _ s
                    (lifecycle_inv_init cpulist mg lat x) Hph Hrun) as [_ Hno].
      destruct (Hno c) as [_ Hno']. exact (Hno' Hin).
    - pose proof (done_after_dead_run x es Unborn Dead _ s
                    (sched_ok_init _ _ _) (waiting_init _ _ _)
                    ltac:(discriminate) Hph Hrun eq_refl) as Hd.
      destruct (Hq c x Hin); congruence. }
  split; [exact Hempty|].
  unfold ValidatePreExitState.
  replace (forallb _ (cpus s)) with true; [reflexivity|].
  symmetry. apply forallb_forall. intros c _.
  fold (rq_of s c). rewrite Hempty. reflexivity.
Qed.

Lemma clean_shutdown_witness :
  match run [Deliver (MSG_TASK_NEW 1 1 true) AssociateOk;
             Decide 0 10 false true 5;
             Deliver (MSG_TASK_DEAD 1 2) AssociateOk]
          (CfsScheduler [0%nat] 1000000 6000000) with
  | Some s => ValidatePreExitState s = Some tt
  | None => False
  end.
Proof.
  destruct (run _ _) as [s|] eqn:Hrun; [|vm_compute in Hrun; discriminate].
  apply (clean_shutdown _ _ _ _ s Hrun).
  intros t. destruct (Z.eq_dec t 1) as [->|Hne].
  - right. reflexivity.
  - left. cbn [lifecycle lifecycle_step].
    assert (H : (1 =? t) = false) by (apply Z.eqb_neq; congruence).
    rewrite H. reflexivity.
Defined.

(** ** Erasing from the run queue *)

(** X16.  [Erase] on an ordered run queue takes the task out, and nothing
    else; it leaves [min_vruntime_] and the two knobs as they are.  A task
    that is not in the queue is no error: the queue is as it was.  And a
    task that was just inserted is found again: erasing it gives back the
    queue from before the insertion. *)
Theorem Erase_removes_only_the_task (ts : Tasks) (t : TaskPtr) (q : CfsRq) :
  set_sorted (Less ts) (rq_ q) = true ->
  (forall x, In x (rq_ (Erase t ts q)) <-> In x (rq_ q) /\ x <> t) /\
  min_vruntime_ (Erase t ts q) = min_vruntime_ q /\
  min_preemption_granularity_ (Erase t ts q) = min_preemption_granularity_ q /\
  latency_ (Erase t ts q) = latency_ q /\
  (~ In t (rq_ q) ->
   Erase t ts q = q /\
   rq_ (Erase t ts (InsertTaskIntoRq ts t q)) = rq_ q).
Proof.
  intros Hs.
  split; [intros x; apply rq_erase_iff; exact Hs|].
  split; [reflexivity|]. split; [reflexivity|]. split; [reflexivity|].
  intros Hnot. split.
  - unfold Erase, set_rq.
    rewrite (set_erase_absent _ (Less_total ts) t (rq_ q) Hnot).
    destruct q; reflexivity.
  - destruct (InsertTaskIntoRq_spec ts t q Hs) as (Hins & _).
    unfold Erase. cbn [set_rq rq_]. rewrite Hins.
    exact (set_erase_insert _ (Less_irrefl ts) (Less_total ts) t (rq_ q) Hs Hnot).
Qed.

Lemma Erase_removes_only_the_task_witness :
  let ts : Tasks := fun x => mkCfsTask 0 0 (x * 10) 0 kRunnable 0 in
  let q := mkCfsRq 10 1000000 6000000 [1; 3; 5] in
  Erase 4 ts q = q /\ rq_ (Erase 4 ts (InsertTaskIntoRq ts 4 q)) = rq_ q.
Proof.
  intros ts q.
  refine (proj2 (proj2 (proj2 (proj2
            (Erase_removes_only_the_task ts 4 q eq_refl)))) _).
  vm_compute. intuition discriminate.
Defined.

(** ** The slice and the number of tasks *)

(** X17.  For a min_granularity that is not negative and a latency of a
    nanosecond at least, the slice that [MinPreemptionGranularity] gives
    does not grow when the run queue does; and the slices of the tasks
    counted, the queue and the current one, add up to the latency at
    least. *)
Theorem slice_shrinks_as_queue_grows (q q' : CfsRq) :
  0 <= min_preemption_granularity_ q ->
  Nanoseconds 1 <= latency_ q ->
  min_preemption_granularity_ q' = min_preemption_granularity_ q ->
  latency_ q' = latency_ q ->
  (length (rq_ q) <= length (rq_ q'))%nat ->
  MinPreemptionGranularity q' <= MinPreemptionGranularity q /\
  latency_ q <= (Z.of_nat (length (rq_ q)) + 1) * MinPreemptionGranularity q.
Proof.
  intros Hmin Hlat Hmg Hl Hlen.
  change (Nanoseconds 1) with 4 in Hlat.
  unfold MinPreemptionGranularity, kTicksPerNanosecond.
  cbv zeta. rewrite Hmg, Hl.
  set (t := Z.of_nat (length (rq_ q)) + 1).
  set (t' := Z.of_nat (length (rq_ q')) + 1).
  assert (Ht : 0 < t) by (unfold t; lia).
  assert (Ht' : t <= t') by (unfold t, t'; lia).
  assert (Hquot : forall n, 0 < n ->
            Z.quot (latency_ q + 4 * (n - 1)) n = (latency_ q - 4) / n + 4).
  { intros n Hn. rewrite Z.quot_div_nonneg by lia.
    replace (latency_ q + 4 * (n - 1)) with (latency_ q - 4 + 4 * n) by lia.
    apply Z.div_add. lia. }
  assert (Hlow : forall n, 0 < n ->
            latency_ q <= n * ((latency_ q - 4) / n + 4)).
  { intros n Hn.
    pose proof (Z.div_mod (latency_ q - 4) n ltac:(lia)) as Hdm.
    pose proof (Z.mod_pos_bound (latency_ q - 4) n Hn) as Hm.
    nia. }
  destruct (Z.ltb_spec (latency_ q) (t * min_preemption_granularity_ q)) as [H1|H1];
    destruct (Z.ltb_spec (latency_ q) (t' * min_preemption_granularity_ q))
      as [H2|H2];
    rewrite ?Hquot by lia.
  - split; [lia|nia].
  - exfalso. nia.
  - pose proof (Hlow t Ht). split; [nia|assumption].
  - split; [|apply Hlow; exact Ht].
    apply Z.add_le_mono_r. apply Z.div_le_compat_l; lia.
Qed.

Lemma slice_shrinks_as_queue_grows_witness :
  MinPreemptionGranularity (mkCfsRq 0 1000000 6000000 [1; 2; 3])
  <= MinPreemptionGranularity (mkCfsRq 0 1000000 6000000 [1]).
Proof.
  refine (proj1 (slice_shrinks_as_queue_grows
                   (mkCfsRq 0 1000000 6000000 [1])
                   (mkCfsRq 0 1000000 6000000 [1; 2; 3]) _ _ eq_refl eq_refl _));
    [simpl; lia | vm_compute; discriminate | simpl; lia].
Defined.

(** Below a nanosecond of latency the slice can grow with the run queue:
    with a latency and a min_granularity of 0 it is 0 for one task and half
    a nanosecond for two. *)
Lemma slice_grows_without_latency :
  MinPreemptionGranularity (mkCfsRq 0 0 0 []) = 0 /\
  MinPreemptionGranularity (mkCfsRq 0 0 0 [1]) = 2.
Proof. split; reflexivity. Qed.

(** ** The messages that stop the agent *)

Lemma SelectTaskRq_misc (s s' : Sched) (c : nat) :
  SelectTaskRq s = Some (c, s') ->
  cpus s' = cpus s /\ (select_next s' <= length (cpus s))%nat.
Proof.
  unfold SelectTaskRq.
  destruct (nth_error (cpus s) _) as [c0|] eqn:Hnth; [|discriminate].
  intros H. injection H as <- <-. split; [reflexivity|]. simpl.
  assert (Hlt : nth_error (cpus s)
                  (if Nat.eqb (select_next s) (length (cpus s)) then 0%nat
                   else select_next s) <> None) by congruence.
  apply nth_error_Some in Hlt. lia.
Qed.

Lemma Migrate_misc (t : TaskPtr) (c : nat) (seq : Z) (a : AssociateResult)
    (s s' : Sched) :
  Migrate t c seq a s = Some s' ->
  cpus s' = cpus s /\ select_next s' = select_next s.
Proof.
  unfold Migrate. destruct (negb _); [discriminate|].
  destruct a; try discriminate.
  destruct (EnqueueTask _ _ _) as [[ts2 q]|]; [|discriminate].
  intros H. injection H as <-. auto.
Qed.

Lemma CfsSchedule_misc (c : nat) (b : Z) (boost ok : bool) (r : Z)
    (s s' : Sched) :
  CfsSchedule c b boost ok r s = Some s' ->
  cpus s' = cpus s /\ select_next s' = select_next s.
Proof.
  unfold CfsSchedule. destruct boost.
  - destruct (current (cpu_states s c)) as [p|].
    + destruct (reconcile_prev _ _ _) as [[a1 q1]|]; [|discriminate].
      intros H. injection H as <-. auto.
    + intros H. injection H as <-. auto.
  - destruct (PickNextTask _ _ _) as [[[a1 cs1] next]|]; [|discriminate].
    destruct next as [n|]; [destruct ok|]; intros H; injection H as <-; auto.
Qed.

Lemma Migrate_None_iff (t : TaskPtr) (c : nat) (seq : Z) (a : AssociateResult)
    (s : Sched) :
  Migrate t c seq a s = None <->
  cpu (tasks (allocator s) t) <> -1 \/ a <> AssociateOk.
Proof.
  unfold Migrate.
  destruct (Z.eqb_spec (cpu (tasks (allocator s) t)) (-1)) as [Hc|Hc];
    cbn [negb]; [|split; [auto|reflexivity]].
  destruct a.
  - unfold EnqueueTask. cbv zeta.
    match goal with |- context [cpu ?x <? 0] =>
      assert (Hz : (cpu x <? 0) = false)
        by (apply Z.ltb_ge; store_cases t t; lia);
      rewrite Hz end.
    split; [discriminate|]. intros [H|H]; congruence.
  - split; [intros _; right; discriminate|reflexivity].
  - split; [intros _; right; discriminate|reflexivity].
Qed.

(** What a step leaves of the placement of the tasks. *)
Lemma placement_step (e : Event) (s s' : Sched) :
  placement_ok s -> step e s = Some s' ->
  placement_ok s' /\ cpus s' = cpus s.
Proof.
  intros [Hsel Hcpu] Hstep.
  assert (Hgoal : cpus s' = cpus s /\
                  (select_next s' <= length (cpus s))%nat /\
                  forall t, cpu_of s' t = cpu_of s t \/ 0 <= cpu_of s' t).
  { destruct e as [m a|x r|c b boost ok r]; cbn [step] in Hstep.
    - destruct m as [u seq rn|u seq|u seq c sw|u seq c sw|u seq c sw|u seq
                    |u seq c sw|u seq|c]; cbn [DispatchMessage] in Hstep.
      + pose proof (TaskNew_view _ _ _ _ _ _ Hstep) as (Hk & _).
        apply others_kept_seqnum in Hk. destruct Hk as [_ Hk].
        unfold TaskNew in Hstep. destruct rn.
        * destruct (SelectTaskRq _) as [[c2 s3]|] eqn:Hs3; [|discriminate].
          destruct (SelectTaskRq_misc _ _ _ Hs3) as [Hc3 Hn3].
          destruct (Migrate_misc _ _ _ _ _ _ Hstep) as [Hc4 Hn4].
          apply Migrate_view in Hstep.
          destruct Hstep as (_ & _ & _ & Hnew & _).
          split; [rewrite Hc4, Hc3; reflexivity|].
          split; [rewrite Hn4; exact Hn3|].
          intros t. destruct (Z.eq_dec t u) as [->|Hne].
          -- right. rewrite Hnew. lia.
          -- left. apply (Hk t Hne).
        * injection Hstep as <-. split; [reflexivity|]. split; [exact Hsel|].
          intros t. left. unfold cpu_of. simpl.
          rewrite ?set_run_state_cpu, ?set_seqnum_cpu. reflexivity.
      + pose proof (TaskRunnable_view _ _ _ _ _ Hstep) as (Hk & _).
        apply others_kept_seqnum in Hk. destruct Hk as [_ Hk].
        unfold TaskRunnable in Hstep. destruct (_ <? 0).
        * destruct (SelectTaskRq _) as [[c2 s3]|] eqn:Hs3; [|discriminate].
          destruct (SelectTaskRq_misc _ _ _ Hs3) as [Hc3 Hn3].
          destruct (Migrate_misc _ _ _ _ _ _ Hstep) as [Hc4 Hn4].
          apply Migrate_view in Hstep.
          destruct Hstep as (_ & _ & _ & Hnew & _).
          split; [rewrite Hc4, Hc3; reflexivity|].
          split; [rewrite Hn4; exact Hn3|].
          intros t. destruct (Z.eq_dec t u) as [->|Hne].
          -- right. rewrite Hnew. lia.
          -- left. apply (Hk t Hne).
        * destruct (cpu_state_of _ u) as [c2|]; [|discriminate].
          destruct (is_current _ u).
          -- injection Hstep as <-. split; [reflexivity|]. split; [exact Hsel|].
             intros t. left. unfold cpu_of. simpl.
             rewrite ?set_run_state_cpu, ?set_seqnum_cpu. reflexivity.
          -- destruct (EnqueueTask _ _ _) as [[ts1 q]|] eqn:Henq; [|discriminate].
             injection Hstep as <-. split; [reflexivity|]. split; [exact Hsel|].
             apply EnqueueTask_view in Henq.
             destruct Henq as (_ & Hoth & Hsame & _).
             intros t. left. unfold cpu_of. simpl.
             destruct (Z.eq_dec t u) as [->|Hne].
             ++ rewrite Hsame. simpl. apply set_seqnum_cpu.
             ++ rewrite (Hoth t Hne). simpl. apply set_seqnum_cpu.
      + unfold TaskBlocked in Hstep. destruct (is_current _ _); [|discriminate].
        injection Hstep as <-. destruct sw; simpl;
          (split; [reflexivity|]; split; [exact Hsel|]; intros t; left;
           unfold cpu_of; simpl; rewrite ?set_run_state_cpu, ?set_seqnum_cpu;
           reflexivity).
      + unfold TaskYield in Hstep. destruct (is_current _ _); [|discriminate].
        injection Hstep as <-. destruct sw; simpl;
          (split; [reflexivity|]; split; [exact Hsel|]; intros t; left;
           unfold cpu_of; simpl; rewrite ?set_run_state_cpu, ?set_seqnum_cpu;
           reflexivity).
      + unfold TaskPreempted in Hstep. destruct (is_current _ _); [|discriminate].
        injection Hstep as <-. destruct sw; simpl;
          (split; [reflexivity|]; split; [exact Hsel|]; intros t; left;
           unfold cpu_of; simpl; rewrite set_seqnum_cpu; reflexivity).
      + unfold TaskSwitchto in Hstep. destruct (cpu_state_of _ _); [|discriminate].
        injection Hstep as <-.
        split; [reflexivity|]. split; [exact Hsel|]. intros t. left.
        unfold cpu_of. simpl. rewrite ?set_run_state_cpu, ?set_seqnum_cpu.
        reflexivity.
      + unfold TaskDeparted in Hstep.
        destruct (HandleTaskDone _ _ _) as [s1|] eqn:Hdone; [|discriminate].
        injection Hstep as <-.
        destruct (HandleTaskDone_misc _ _ _ _ Hdone) as (_ & Hc1 & Hn1).
        apply HandleTaskDone_view in Hdone.
        destruct Hdone as (Hk & _ & Hsame & _).
        apply others_kept_seqnum in Hk. destruct Hk as [_ Hk].
        assert (Hp : cpus (ping_if sw c s1) = cpus s1 /\
                     select_next (ping_if sw c s1) = select_next s1)
          by (destruct sw; auto).
        destruct Hp as [Hp1 Hp2].
        destruct (ping_if_frame sw c s1) as [Ha _].
        split; [rewrite Hp1, Hc1; reflexivity|].
        split; [rewrite Hp2, Hn1; exact Hsel|].
        intros t. left. unfold cpu_of in *. rewrite Ha.
        destruct (Z.eq_dec t u) as [->|Hne].
        -- rewrite Hsame. simpl. apply set_seqnum_cpu.
        -- apply (Hk t Hne).
      + destruct (HandleTaskDone_misc _ _ _ _ Hstep) as (_ & Hc1 & Hn1).
        apply HandleTaskDone_view in Hstep.
        destruct Hstep as (Hk & _ & Hsame & _).
        apply others_kept_seqnum in Hk. destruct Hk as [_ Hk].
        split; [rewrite Hc1; reflexivity|].
        split; [rewrite Hn1; exact Hsel|].
        intros t. left. unfold cpu_of in *.
        destruct (Z.eq_dec t u) as [->|Hne].
        -- rewrite Hsame. simpl. apply set_seqnum_cpu.
        -- apply (Hk t Hne).
      + injection Hstep as <-. unfold CpuTick, CheckPreemptTick.
        destruct (current (cpu_states s c)) as [cur|]; [destruct (_ <? _)|];
          (split; [reflexivity|]; split; [exact Hsel|]; intros t; left;
           reflexivity).
    - injection Hstep as <-. split; [reflexivity|]. split; [exact Hsel|].
      intros t. left. unfold cpu_of. simpl. apply set_status_word_cpu.
    - destruct (CfsSchedule_misc _ _ _ _ _ _ _ Hstep) as [Hc1 Hn1].
      apply CfsSchedule_view in Hstep. destruct Hstep as (_ & _ & Hsame & _).
      split; [exact Hc1|]. split; [rewrite Hn1; exact Hsel|].
      intros t. left. apply Hsame. }
  destruct Hgoal as (Hc & Hn & Ht).
  split; [|exact Hc]. split; [rewrite Hc; exact Hn|].
  intros t. destruct (Ht t) as [H|H]; [rewrite H; apply Hcpu|right; exact H].
Qed.

Lemma placement_run (es : list Event) :
  forall s s',
    placement_ok s -> run es s = Some s' ->
    placement_ok s' /\ cpus s' = cpus s.
Proof.
  induction es as [|e es IH]; intros s s' Hok Hrun; simpl in Hrun.
  - injection Hrun as <-. auto.
  - destruct (step e s) as [s1|] eqn:Hstep; [|discriminate].
    destruct (placement_step e s s1 Hok Hstep) as [Hok1 Hc1].
    destruct (IH s1 s' Hok1 Hrun) as [Hok' Hc']. split; [exact Hok'|congruence].
Qed.

Lemma placement_init (cpulist : list nat) (mg lat : Duration) :
  placement_ok (CfsScheduler cpulist mg lat).
Proof. split; [simpl; lia|]. intros t. left. reflexivity. Qed.

(** X18.  The messages that stop the agent.  In a state that a run reaches,
    on a CpuList that is not empty, the dispatch of a message aborts in
    these cases and in no other: TaskNew of a runnable task that has a CPU
    already, or that the kernel does not associate; a wakeup of a task
    without a CPU that the kernel does not associate; TaskBlocked,
    TaskYield or TaskPreempted of a task that is not the current task of the
    CPU named; TaskSwitchto, TaskDeparted or TaskDead of a task without a
    CPU.  A tick never does. *)
Theorem agent_stops_exactly_when (cpulist : list nat) (mg lat : Duration)
    (es : list Event) (s : Sched) (m : Message) (a : AssociateResult) :
  cpulist <> [] ->
  run es (CfsScheduler cpulist mg lat) = Some s ->
  (DispatchMessage m a s = None <-> refused m a s).
Proof.
  intros Hne Hrun.
  destruct (placement_run es _ s (placement_init cpulist mg lat) Hrun)
    as [[Hsel Hcpu] Hcpus].
  simpl in Hcpus.
  assert (Hselect : forall s0 : Sched,
            cpus s0 = cpus s -> select_next s0 = select_next s ->
            exists c, SelectTaskRq s0 = Some (c, with_select_next s0
                        (S (select_next s0 mod length (cpus s0))))).
  { intros s0 Hc Hn.
    destruct (SelectTaskRq_next s0) as (c & _ & Hs0).
    - rewrite Hc, Hcpus. exact Hne.
    - rewrite Hc, Hn. exact Hsel.
    - exists c. exact Hs0. }
  assert (Hcur : forall (s0 : Sched) c t,
            cpu_states s0 = cpu_states s ->
            (is_current (cpu_states s0 c) t = false <-> current_of s c <> Some t)).
  { intros s0 c t ->. unfold current_of.
    destruct (is_current (cpu_states s c) t) eqn:Hic.
    - apply is_current_true in Hic. split; [discriminate|congruence].
    - split; [|reflexivity]. intros _ H. apply is_current_true in H. congruence. }
  assert (Hstate : forall ts t,
            cpu (ts t) = cpu_of s t ->
            (cpu_state_of ts t = None <-> cpu_of s t < 0)).
  { intros ts t Hc. unfold cpu_state_of. rewrite Hc.
    destruct (Z.ltb_spec (cpu_of s t) 0); split; try discriminate; lia || auto. }
  destruct m as [u seq rn|u seq|u seq c sw|u seq c sw|u seq c sw|u seq
                |u seq c sw|u seq|c]; cbn [DispatchMessage refused].
  - unfold TaskNew. destruct rn.
    + match goal with |- context [SelectTaskRq ?s0] =>
        destruct (Hselect s0 eq_refl eq_refl) as (c & ->) end.
      rewrite Migrate_None_iff. cbn [allocator with_select_next].
      unfold cpu_of. simpl. rewrite ?set_run_state_cpu, ?set_seqnum_cpu.
      split; [auto|tauto].
    + split; [discriminate|]. intros [H _]. discriminate.
  - unfold TaskRunnable. cbn [set_task_seqnum allocator with_allocator
                                with_tasks tasks].
    rewrite set_seqnum_cpu. fold (cpu_of s u).
    destruct (Z.ltb_spec (cpu_of s u) 0) as [Hneg|Hpos].
    + match goal with |- context [SelectTaskRq ?s0] =>
        destruct (Hselect s0 eq_refl eq_refl) as (c & ->) end.
      rewrite Migrate_None_iff. cbn [allocator with_select_next].
      simpl. rewrite set_seqnum_cpu. fold (cpu_of s u).
      destruct (Hcpu u) as [Hm|Hm]; [|lia].
      split; [intros [H|H]; [congruence|auto]|tauto].
    + split; [|lia]. intros Habs. exfalso.
      unfold cpu_state_of in Habs. rewrite set_seqnum_cpu in Habs.
      fold (cpu_of s u) in Habs.
      destruct (Z.ltb_spec (cpu_of s u) 0); [lia|].
      destruct (is_current _ u); [discriminate|].
      unfold EnqueueTask in Habs. rewrite set_seqnum_cpu in Habs.
      fold (cpu_of s u) in Habs.
      destruct (Z.ltb_spec (cpu_of s u) 0); [lia|discriminate].
  - unfold TaskBlocked. rewrite <- (Hcur (set_task_seqnum u seq s) c u eq_refl).
    destruct (is_current _ u); split; congruence.
  - unfold TaskYield. rewrite <- (Hcur (set_task_seqnum u seq s) c u eq_refl).
    destruct (is_current _ u); split; congruence.
  - unfold TaskPreempted. rewrite <- (Hcur (set_task_seqnum u seq s) c u eq_refl).
    destruct (is_current _ u); split; congruence.
  - unfold TaskSwitchto.
    rewrite <- (Hstate (tasks (allocator (set_task_seqnum u seq s))) u)
      by (simpl; apply set_seqnum_cpu).
    destruct (cpu_state_of _ u); split; congruence.
  - unfold TaskDeparted, HandleTaskDone.
    rewrite <- (Hstate (tasks (allocator (set_task_seqnum u seq s))) u)
      by (simpl; apply set_seqnum_cpu).
    destruct (cpu_state_of _ u); [|tauto].
    destruct (_ || _); [destruct (is_current _ u)|]; split; congruence.
  - unfold TaskDead, HandleTaskDone.
    rewrite <- (Hstate (tasks (allocator (set_task_seqnum u seq s))) u)
      by (simpl; apply set_seqnum_cpu).
    destruct (cpu_state_of _ u); [|tauto].
    destruct (_ || _); [destruct (is_current _ u)|]; split; congruence.
  - split; [discriminate|tauto].
Qed.

Lemma agent_stops_exactly_when_witness :
  match run [Deliver (MSG_TASK_NEW 1 1 true) AssociateOk;
             Deliver (MSG_TASK_NEW 2 1 true) AssociateOk;
             Decide 0 10 false true 5]
          (CfsScheduler [0%nat] 1000000 6000000) with
  | Some s =>
      DispatchMessage (MSG_TASK_YIELD 2 2 0%nat false) AssociateOk s = None
  | None => False
  end.
Proof.
  destruct (run _ _) as [s|] eqn:Hrun; [|vm_compute in Hrun; discriminate].
  pose proof (agent_stops_exactly_when [0%nat] 1000000 6000000 _ s
                (MSG_TASK_YIELD 2 2 0%nat false) AssociateOk
                ltac:(discriminate) Hrun) as [_ Hstop].
  apply Hstop. cbn [refused].
  assert (H : option_map (fun s => current_of s 0)
                (run [Deliver (MSG_TASK_NEW 1 1 true) AssociateOk;
                      Deliver (MSG_TASK_NEW 2 1 true) AssociateOk;
                      Decide 0 10 false true 5]
                   (CfsScheduler [0%nat] 1000000 6000000)) = Some (Some 1))
    by (vm_compute; reflexivity).
  rewrite Hrun in H. cbn [option_map] in H. injection H as ->. discriminate.
Defined.

(** ** Placing a task that has no CPU *)

(** [SelectTaskRq], then [Migrate] with the kernel accepting the
    association. *)
Lemma place_spec (t : TaskPtr) (seq : Z) (s : Sched) :
  cpus s <> [] ->
  (select_next s <= length (cpus s))%nat ->
  (forall c', rq_ok (tasks (allocator s)) (run_queue (cpu_states s c')) = true) ->
  cpu (tasks (allocator s) t) = -1 ->
  exists c s1 s',
    nth_error (cpus s) (select_next s mod length (cpus s)) = Some c /\
    SelectTaskRq s = Some (c, s1) /\
    Migrate t c seq AssociateOk s1 = Some s' /\
    select_next s' = S (select_next s mod length (cpus s)) /\
    cpus s' = cpus s /\
    calls s' = calls s ++ [CallAssociateTask c t seq; CallPing c] /\
    freed (allocator s') = freed (allocator s) /\
    cpu_of s' t = Z.of_nat c /\
    state_of s' t = kRunnable /\
    seqnum (tasks (allocator s') t) = seqnum (tasks (allocator s) t) /\
    vruntime (tasks (allocator s') t) =
      Z.max (min_vruntime_of c s) (vruntime (tasks (allocator s) t)) /\
    (forall x, x <> t -> tasks (allocator s') x = tasks (allocator s) x) /\
    (forall x, In x (rq_of s' c) <-> x = t \/ In x (rq_of s c)) /\
    (forall c', c' <> c -> rq_of s' c' = rq_of s c') /\
    (forall c', current_of s' c' = current_of s c').
Proof.
  intros Hne Hnext Hrq Hcpu.
  destruct (SelectTaskRq_next s Hne Hnext) as (c & Hnth & Hsel).
  exists c, (with_select_next s (S (select_next s mod length (cpus s)))).
  set (ts1 := set_cpu (tasks (allocator s)) t (Z.of_nat c)).
  assert (Hok1 : rq_ok ts1 (run_queue (cpu_states s c)) = true).
  { apply (rq_ok_same (tasks (allocator s)) ts1 _ _ eq_refl eq_refl); [|apply Hrq].
    intros x _. unfold ts1. store_cases x t. }
  assert (Hcpu1 : 0 <= cpu (ts1 t)).
  { unfold ts1. store_cases t t. lia. }
  destruct (EnqueueTask_full t ts1 (run_queue (cpu_states s c)) Hcpu1 Hok1)
    as (q' & Heq & Hmem & _ & _).
  cbv zeta in Heq.
  destruct (Migrate t c seq AssociateOk
              (with_select_next s (S (select_next s mod length (cpus s)))))
    as [s'|] eqn:Hmig.
  2: { apply Migrate_None_iff in Hmig. destruct Hmig as [H|H];
       [exfalso; apply H; exact Hcpu|congruence]. }
  unfold Migrate in Hmig. cbn [with_select_next allocator tasks] in Hmig.
  rewrite Hcpu in Hmig.
  cbn [Z.eqb negb Pos.eqb call allocator cpu_states] in Hmig.
  cbn [with_select_next call allocator cpu_states tasks] in Hmig.
  fold ts1 in Hmig. rewrite Heq in Hmig. injection Hmig as <-.
  eexists. split; [exact Hnth|]. split; [exact Hsel|].
  split; [reflexivity|].
  unfold cpu_of, state_of, rq_of, current_of, min_vruntime_of.
  cbn [PingCpu call cpu_states with_cpu_state with_allocator with_tasks
       allocator tasks freed calls cpus select_next with_run_queue run_queue
       current].
  rewrite <- !app_assoc. cbn [app].
  rewrite set_run_state_same, set_run_state_cpu, set_vruntime_cpu,
    set_run_state_vruntime, set_vruntime_same, set_run_state_seqnum.
  split; [reflexivity|]. split; [reflexivity|]. split; [reflexivity|].
  split; [reflexivity|].
  split; [unfold ts1; store_cases t t|].
  split; [reflexivity|].
  split; [unfold ts1; store_cases t t|].
  split; [unfold ts1; store_cases t t|].
  split.
  { intros x Hx. unfold ts1. store_cases x t. }
  split.
  { rewrite Nat.eqb_refl. cbn [run_queue with_run_queue]. exact Hmem. }
  split.
  { intros c' Hc'. apply Nat.eqb_neq in Hc'. rewrite Hc'. reflexivity. }
  intros c'. destruct (Nat.eqb_spec c' c) as [->|]; reflexivity.
Qed.

(** X19.  A task without a CPU is placed when it becomes runnable, by
    [TaskNew] of a runnable task or by the wakeup of a task that was new and
    not runnable.  In a state that a run reaches, on a CpuList that is not
    empty, when the kernel accepts the association: the task gets the CPU
    at which the iterator of [SelectTaskRq] stands, and the iterator moves
    on, so that the next task placed gets the next CPU of the list; the
    calls into the kernel are the association, with the seqnum of the
    message as barrier, and a ping of that CPU; the task is runnable and is
    the one task that enters the run queue of that CPU, with the larger of
    its vruntime and the [min_vruntime_] of the queue; no other queue, no
    current task and no other task changes. *)
Theorem unplaced_task_is_placed (cpulist : list nat) (mg lat : Duration)
    (es : list Event) (s : Sched) (m : Message) (t : TaskPtr) (seq : Z) :
  cpulist <> [] ->
  run es (CfsScheduler cpulist mg lat) = Some s ->
  cpu_of s t = -1 ->
  m = MSG_TASK_NEW t seq true \/ m = MSG_TASK_WAKEUP t seq ->
  exists s' c,
    DispatchMessage m AssociateOk s = Some s' /\
    nth_error cpulist (select_next s mod length cpulist) = Some c /\
    select_next s' = S (select_next s mod length cpulist) /\
    calls s' = calls s ++ [CallAssociateTask c t seq; CallPing c] /\
    cpu_of s' t = Z.of_nat c /\
    state_of s' t = kRunnable /\
    seqnum (tasks (allocator s') t) = seq /\
    vruntime (tasks (allocator s') t) =
      Z.max (min_vruntime_of c s) (vruntime (tasks (allocator s) t)) /\
    (forall x, x <> t -> tasks (allocator s') x = tasks (allocator s) x) /\
    (forall x, In x (rq_of s' c) <-> x = t \/ In x (rq_of s c)) /\
    (forall c', c' <> c -> rq_of s' c' = rq_of s c') /\
    (forall c', current_of s' c' = current_of s c').
Proof.
  intros Hne Hrun Hcpu Hm.
  destruct (reached_sched_ok _ _ _ _ _ Hrun) as (_ & _ & Hrq).
  destruct (placement_run es _ _ (placement_init cpulist mg lat) Hrun)
    as ((Hnext & _) & Hcpus).
  cbn [CfsScheduler cpus] in Hcpus.
  unfold cpu_of in Hcpu.
  destruct Hm as [->| ->]; cbn [DispatchMessage].
  - unfold TaskNew.
    set (s0 := set_task_state t kBlocked
                 (set_task_seqnum t seq (set_task_seqnum t seq s))).
    destruct (place_spec t seq s0)
      as (c & s1 & s' & Hnth & Hsel & Hmig & Hn' & _ & Hcalls & _ & Hc' & Hst
          & Hseq & Hvr & Hoth & Hin & Hout & Hcur).
    { unfold s0. simpl. rewrite Hcpus. exact Hne. }
    { unfold s0. simpl. exact Hnext. }
    { intros c'. unfold s0. simpl.
      apply (rq_ok_same (tasks (allocator s)) _ _ _ eq_refl eq_refl);
        [|apply Hrq].
      intros x _. rewrite set_run_state_vruntime, !set_seqnum_vruntime.
      reflexivity. }
    { unfold s0. simpl. rewrite set_run_state_cpu, !set_seqnum_cpu. exact Hcpu. }
    fold s0. rewrite Hsel, Hmig. exists s', c.
    unfold s0 in Hnth, Hn', Hcalls, Hseq, Hvr, Hoth, Hin, Hout, Hcur.
    unfold min_vruntime_of, rq_of, current_of in *.
    cbn [set_task_state set_task_seqnum with_allocator with_tasks allocator
         tasks cpus select_next calls cpu_states] in *.
    rewrite Hcpus in *.
    rewrite set_run_state_vruntime, !set_seqnum_vruntime in Hvr.
    rewrite set_run_state_seqnum in Hseq.
    split; [reflexivity|]. split; [exact Hnth|]. split; [exact Hn'|].
    split; [exact Hcalls|]. split; [exact Hc'|]. split; [exact Hst|].
    split; [rewrite Hseq; store_cases t t|].
    split; [exact Hvr|].
    split.
    { intros x Hx. rewrite (Hoth x Hx). store_cases x t. }
    auto.
  - unfold TaskRunnable.
    set (s0 := set_task_seqnum t seq s).
    assert (Hcpu0 : cpu (tasks (allocator s0) t) = -1)
      by (unfold s0; simpl; rewrite set_seqnum_cpu; exact Hcpu).
    rewrite Hcpu0. cbn [Z.ltb Z.compare].
    destruct (place_spec t seq s0)
      as (c & s1 & s' & Hnth & Hsel & Hmig & Hn' & _ & Hcalls & _ & Hc' & Hst
          & Hseq & Hvr & Hoth & Hin & Hout & Hcur).
    { unfold s0. simpl. rewrite Hcpus. exact Hne. }
    { unfold s0. simpl. exact Hnext. }
    { intros c'. unfold s0. simpl. apply rq_ok_seqnum. exact Hrq. }
    { exact Hcpu0. }
    rewrite Hsel, Hmig. exists s', c.
    unfold s0 in Hnth, Hn', Hcalls, Hseq, Hvr, Hoth, Hin, Hout, Hcur.
    unfold min_vruntime_of, rq_of, current_of in *.
    cbn [set_task_state set_task_seqnum with_allocator with_tasks allocator
         tasks cpus select_next calls cpu_states] in *.
    rewrite Hcpus in *.
    rewrite set_seqnum_vruntime in Hvr.
    split; [reflexivity|]. split; [exact Hnth|]. split; [exact Hn'|].
    split; [exact Hcalls|]. split; [exact Hc'|]. split; [exact Hst|].
    split; [rewrite Hseq; store_cases t t|].
    split; [exact Hvr|].
    split.
    { intros x Hx. rewrite (Hoth x Hx). store_cases x t. }
    auto.
Qed.

Lemma unplaced_task_is_placed_witness :
  match run [Deliver (MSG_TASK_NEW 1 10 true) AssociateOk;
             Deliver (MSG_TASK_NEW 2 20 false) AssociateOk]
          (CfsScheduler [0%nat; 1%nat] 1000 6000) with
  | Some s =>
      exists s',
        DispatchMessage (MSG_TASK_WAKEUP 2 21) AssociateOk s = Some s' /\
        calls s' = calls s ++ [CallAssociateTask 1 2 21; CallPing 1] /\
        rq_of s 0 = [1] /\
        (forall x, In x (rq_of s' 1) <-> x = 2 \/ In x (rq_of s 1))
  | None => False
  end.
Proof.
  destruct (run _ _) as [s|] eqn:Hrun; [|vm_compute in Hrun; discriminate].
  assert (Hf : option_map (fun s => (cpu_of s 2, select_next s, rq_of s 0%nat))
                 (run [Deliver (MSG_TASK_NEW 1 10 true) AssociateOk;
                       Deliver (MSG_TASK_NEW 2 20 false) AssociateOk]
                    (CfsScheduler [0%nat; 1%nat] 1000 6000))
               = Some (-1, 1%nat, [1]))
    by (vm_compute; reflexivity).
  rewrite Hrun in Hf. cbn [option_map] in Hf. injection Hf as Hcpu Hnext Hq.
  destruct (unplaced_task_is_placed [0%nat; 1%nat] 1000 6000 _ s
              (MSG_TASK_WAKEUP 2 21) 2 21 ltac:(discriminate) Hrun Hcpu
              (or_intror eq_refl))
    as (s' & c & Hd & Hnth & _ & Hcalls & _ & _ & _ & _ & _ & Hin & _).
  rewrite Hnext in Hnth. vm_compute in Hnth. injection Hnth as <-.
  exists s'. auto.
Defined.

(** ** A running task within its slice *)

(** X20.  A running task keeps its CPU until the tick takes it away.  Let
    [p] be the current task of a CPU, running, with the flag of the tick
    not set, and let its status word show that it ran for no more than
    [MinPreemptionGranularity] since it was picked.  Then [CpuTick] changes
    nothing; [TaskPreempted] of [p] changes nothing but for the ping that a
    switchto asks for; and the next [CfsSchedule] runs [p] again: one
    transaction is opened for [p] and committed, [p] stays the current task
    and running, and every run queue is as it was, whatever the vruntimes
    of the tasks that wait. *)
Theorem running_task_keeps_cpu (s : Sched) (c : nat) (b : Z) (ok : bool)
    (r : Z) (p : TaskPtr) (fs : bool) :
  current_of s c = Some p ->
  state_of s p = kRunning ->
  preempt_curr (cpu_states s c) = false ->
  Nanoseconds
    (uint64_sub (status_word_runtime (tasks (allocator s) p))
                (runtime_at_first_pick_ns (tasks (allocator s) p)))
    <= MinPreemptionGranularity (run_queue (cpu_states s c)) ->
  CpuTick c s = s /\
  exists s1 s',
    TaskPreempted p c fs s = Some s1 /\
    CfsSchedule c b false ok r s1 = Some s' /\
    current_of s' c = Some p /\
    (forall c', rq_of s' c' = rq_of s c') /\
    (forall x, state_of s' x = state_of s x) /\
    calls s' =
      calls s ++ (if fs then [CallPing c] else [])
        ++ [CallOpen c p (seqnum (tasks (allocator s) p)) b; CallCommit c ok] /\
    vruntime (tasks (allocator s') p) =
      vruntime (tasks (allocator s) p) +
      (if ok
       then Nanoseconds
              (uint64_sub r (status_word_runtime (tasks (allocator s) p)))
       else 0) /\
    (forall x, x <> p ->
       vruntime (tasks (allocator s') x) = vruntime (tasks (allocator s) x)).
Proof.
  intros Hcur Hst Hflag Hslice.
  split.
  { unfold CpuTick, CheckPreemptTick. unfold current_of in Hcur. rewrite Hcur.
    cbv zeta. apply Z.ltb_ge in Hslice. rewrite Hslice. reflexivity. }
  unfold TaskPreempted.
  assert (Hic : is_current (cpu_states s c) p = true).
  { unfold is_current. unfold current_of in Hcur. rewrite Hcur.
    apply Z.eqb_refl. }
  rewrite Hic.
  destruct (CfsSchedule_keep_spec c b ok r (ping_if fs c s) p)
    as (s' & Heq & Hcs & _ & Hstates & Hvr & Hcalls & Hvp);
    try (destruct fs; assumption).
  exists (ping_if fs c s), s'. split; [reflexivity|]. split; [exact Heq|].
  unfold current_of, rq_of, state_of in *.
  assert (Hsame : cpu_states (ping_if fs c s) = cpu_states s /\
                  allocator (ping_if fs c s) = allocator s /\
                  calls (ping_if fs c s)
                  = calls s ++ (if fs then [CallPing c] else []))
    by (destruct fs; simpl; rewrite ?app_nil_r; auto).
  destruct Hsame as (Hc1 & Ha1 & Hk1).
  rewrite Hc1 in Hcs. rewrite Ha1 in Hstates, Hvr, Hcalls, Hvp.
  rewrite Hk1, <- app_assoc in Hcalls.
  split; [rewrite Hcs; exact Hcur|].
  split; [intros c'; rewrite Hcs; reflexivity|].
  auto.
Qed.

Lemma running_task_keeps_cpu_witness :
  match run [Deliver (MSG_TASK_NEW 1 1 true) AssociateOk;
             Decide 0 10 false true 5;
             StatusWord 1 2000000;
             Deliver (MSG_TASK_NEW 2 1 true) AssociateOk]
          (CfsScheduler [0%nat] (Nanoseconds 1000000) (Nanoseconds 6000000)) with
  | Some s =>
      rq_of s 0 = [2] /\
      vruntime (tasks (allocator s) 2) < vruntime (tasks (allocator s) 1) /\
      CpuTick 0 s = s /\
      exists s1 s',
        TaskPreempted 1 0 false s = Some s1 /\
        CfsSchedule 0 11 false true 2000000 s1 = Some s' /\
        current_of s' 0 = Some 1 /\
        rq_of s' 0 = [2]
  | None => False
  end.
Proof.
  destruct (run _ _) as [s|] eqn:Hrun; [|vm_compute in Hrun; discriminate].
  assert (Hfacts :
    option_map (fun s =>
        (current_of s 0, state_of s 1, preempt_curr (cpu_states s 0),
         rq_of s 0,
         (MinPreemptionGranularity (run_queue (cpu_states s 0)),
          Nanoseconds
            (uint64_sub (status_word_runtime (tasks (allocator s) 1))
                        (runtime_at_first_pick_ns (tasks (allocator s) 1))),
          vruntime (tasks (allocator s) 2), vruntime (tasks (allocator s) 1))))
      (run [Deliver (MSG_TASK_NEW 1 1 true) AssociateOk;
            Decide 0 10 false true 5;
            StatusWord 1 2000000;
            Deliver (MSG_TASK_NEW 2 1 true) AssociateOk]
         (CfsScheduler [0%nat] (Nanoseconds 1000000) (Nanoseconds 6000000)))
    = Some (Some 1, kRunning, false, [2], (12000002, 8000000, 0, 20)))
    by (vm_compute; reflexivity).
  rewrite Hrun in Hfacts. cbn [option_map] in Hfacts.
  injection Hfacts as Hcur Hst Hflag Hq Hg Hran Hv2 Hv1.
  destruct (running_task_keeps_cpu s 0%nat 11 true 2000000 1 false Hcur Hst Hflag)
    as (Htick & s1 & s' & Hp & Heq & Hc' & Hrq & _).
  { rewrite Hg, Hran. lia. }
  split; [exact Hq|]. split; [rewrite Hv2, Hv1; lia|]. split; [exact Htick|].
  exists s1, s'. rewrite (Hrq 0%nat), Hq. auto.
Defined.

(** ** The life of a task, to its one free *)




End CfsScenarios.


(** * Further properties of the orchestrator *)

Module OrchestratorPasses.
Import Orchestrator OrchestratorProps.

Local Open Scope nat_scope.

(** ** The idle workers *)

Lemma fold_collect_idle_exact (l : list nat) :
  forall s : Orch,
    let r := fold_left collect_idle l s in
    idle_sids_ r =
      idle_sids_ s ++
      filter (fun w => Nat.eqb (num_requests (worker_work s w)) 0
                       && negb (SkipIdleWorker s w)) (map S l) /\
    effects r =
      effects s ++ map (fun w => NumRequestsLoad w memory_order_acquire) (map S l) /\
    ingress r = ingress s /\ thread_wait r = thread_wait s /\
    recorded r = recorded s /\ clock r = clock s /\ first_run r = first_run s.
Proof.
  induction l as [|i l IH]; intros s; cbn [fold_left map filter].
  - rewrite !app_nil_r. auto 10.
  - destruct (IH (collect_idle s i)) as (Hi & He & Hin & Ht & Hr & Hc & Hf).
    destruct (collect_idle_spec s i) as (Ho & Hw & Hp & Hi0 & He0).
    cbv zeta in *.
    rewrite Hi, He, Hin, Ht, Hr, Hc, Hf, Hi0, He0, Hw.
    assert (Hskip : forall w, SkipIdleWorker (collect_idle s i) w = SkipIdleWorker s w)
      by (intros w; apply SkipIdleWorker_ext; assumption).
    rewrite (filter_ext _ (fun w => Nat.eqb (num_requests (worker_work s w)) 0
                                    && negb (SkipIdleWorker s w)))
      by (intros w; rewrite Hskip; reflexivity).
    rewrite <- !app_assoc.
    split; [destruct (Nat.eqb _ 0 && negb _); reflexivity|].
    split; [reflexivity|].
    unfold collect_idle. cbn [emit worker_work].
    destruct (Nat.eqb _ 0 && negb _); simpl; auto.
Qed.

(** What [GetIdleWorkerSIDs] leaves. *)
Lemma GetIdleWorkerSIDs_exact (s : Orch) :
  let r := GetIdleWorkerSIDs s in
  idle_sids_ r = idle_workers s /\
  effects r =
    effects s ++ map (fun w => NumRequestsLoad w memory_order_acquire)
                   (seq 1 (num_workers (options s))) /\
  options r = options s /\ worker_work r = worker_work s /\
  prio_table r = prio_table s /\ thread_wait r = thread_wait s /\
  ingress r = ingress s /\ recorded r = recorded s /\ clock r = clock s /\
  first_run r = first_run s.
Proof.
  intros r. subst r. unfold GetIdleWorkerSIDs, idle_workers.
  destruct (fold_collect_idle_exact (seq 0 (num_workers (options s)))
              (set_idle_sids [] s)) as (Hi & He & Hin & Ht & Hr & Hc & Hf).
  destruct (fold_collect_idle_spec (seq 0 (num_workers (options s)))
              (set_idle_sids [] s)) as (Ho & Hw & Hp & _).
  cbv zeta in *. rewrite seq_shift in Hi, He.
  split; [exact Hi|]. split; [exact He|]. auto 10.
Qed.

Lemma idle_workers_In (s : Orch) (w : nat) :
  In w (idle_workers s) <->
  1 <= w <= num_workers (options s) /\
  num_requests (worker_work s w) = 0 /\ SkipIdleWorker s w = false.
Proof.
  unfold idle_workers. rewrite filter_In, in_seq, andb_true_iff, Nat.eqb_eq,
    negb_true_iff. intuition lia.
Qed.

Lemma idle_workers_ext (s r : Orch) :
  options r = options s -> worker_work r = worker_work s ->
  prio_table r = prio_table s -> idle_workers r = idle_workers s.
Proof.
  intros Ho Hw Hp. unfold idle_workers. rewrite Ho, Hw.
  apply filter_ext. intros w.
  rewrite (SkipIdleWorker_ext s r w Ho Hp). reflexivity.
Qed.

(** X21.  [GetIdleWorkerSIDs] leaves in [idle_sids_], whatever it held,
    the workers 1 to [num_workers] whose [num_requests] is 0 and that
    [SkipIdleWorker] does not skip, in the order of their SIDs, each once;
    the load generator, SID 0, is never among them.  It loads
    [num_requests] of every worker once, with acquire, and changes nothing
    else; called again at once, it finds the same workers. *)
Theorem GetIdleWorkerSIDs_lists_idle_workers (s : Orch) :
  let r := GetIdleWorkerSIDs s in
  idle_sids_ r = idle_workers s /\
  NoDup (idle_sids_ r) /\
  ~ In 0 (idle_sids_ r) /\
  effects r =
    effects s ++ map (fun w => NumRequestsLoad w memory_order_acquire)
                   (seq 1 (num_workers (options s))) /\
  options r = options s /\ worker_work r = worker_work s /\
  prio_table r = prio_table s /\ thread_wait r = thread_wait s /\
  ingress r = ingress s /\ recorded r = recorded s /\ clock r = clock s /\
  idle_sids_ (GetIdleWorkerSIDs r) = idle_sids_ r.
Proof.
  intros r.
  destruct (GetIdleWorkerSIDs_exact s)
    as (Hi & He & Ho & Hw & Hp & Ht & Hin & Hr & Hc & Hf).
  destruct (GetIdleWorkerSIDs_exact r) as (Hi' & _).
  cbv zeta in *. fold r in Hi, He, Ho, Hw, Hp, Ht, Hin, Hr, Hc, Hf.
  rewrite Hi', Hi, (idle_workers_ext s r Ho Hw Hp).
  split; [reflexivity|].
  split; [unfold idle_workers; apply NoDup_filter, seq_NoDup|].
  split; [rewrite idle_workers_In; lia|].
  auto 10.
Qed.

(** ** Polling a batch *)

Lemma poll_batch_spec (n w : nat) :
  forall s : Orch,
    let r := poll_batch n w s in
    exists taken,
      requests (worker_work r w) = requests (worker_work s w) ++ taken /\
      map body taken = map body (firstn n (ingress s)) /\
      ingress r = skipn n (ingress s) /\
      num_requests (worker_work r w) = num_requests (worker_work s w) /\
      (forall w', w' <> w -> worker_work r w' = worker_work s w') /\
      options r = options s /\ prio_table r = prio_table s /\
      thread_wait r = thread_wait s /\ idle_sids_ r = idle_sids_ s /\
      effects r = effects s /\ recorded r = recorded s /\
      first_run r = first_run s.
Proof.
  induction n as [|n IH]; intros s; cbn [poll_batch].
  - exists []. rewrite app_nil_r. simpl. auto 15.
  - destruct (ingress s) as [|request rest] eqn:Hing.
    + exists []. rewrite app_nil_r. simpl. auto 15.
    + cbn [Now].
      match goal with |- context [poll_batch n w ?st] =>
        destruct (IH st)
          as (taken & Hreq & Hbody & Hrest & Hnum & Hoth & Ho & Hp & Ht & Hi
              & He & Hr & Hf);
        set (s3 := st) in * end.
      cbv zeta in *.
      assert (Hw3 : worker_work s3 w
                    = mkWorkerWork (num_requests (worker_work s w))
                        (requests (worker_work s w)
                         ++ [mkRequest (body request) (clock s)
                               (request_start request)
                               (request_finished request)])).
      { unfold s3. simpl. apply fupd_same. }
      exists (mkRequest (body request) (clock s) (request_start request)
                (request_finished request) :: taken).
      rewrite Hreq, Hw3. cbn [requests]. rewrite <- app_assoc.
      split; [reflexivity|].
      split; [simpl; rewrite Hbody; reflexivity|].
      split; [rewrite Hrest; reflexivity|].
      split; [rewrite Hnum, Hw3; reflexivity|].
      split.
      { intros w' Hne. rewrite (Hoth w' Hne). unfold s3. simpl. unfold fupd.
        apply Nat.eqb_neq in Hne. rewrite Hne. reflexivity. }
      rewrite Ho, Hp, Ht, Hi, He, Hr, Hf. simpl. auto 10.
Qed.

(** ** Handing out the batches *)

Lemma awake_ext (s r : Orch) (w : nat) :
  options r = options s -> prio_table r w = prio_table s w ->
  thread_wait r w = thread_wait s w -> awake r w = awake s w.
Proof.
  intros Ho Hp Ht. unfold awake, UsesPrioTable, IsIdle. rewrite Ho, Hp, Ht.
  reflexivity.
Qed.

Lemma SkipIdleWorker_at (s r : Orch) (w : nat) :
  options r = options s -> prio_table r w = prio_table s w ->
  SkipIdleWorker r w = SkipIdleWorker s w.
Proof.
  intros Ho Hp. unfold SkipIdleWorker, UsesPrioTable, IsIdle. rewrite Ho, Hp.
  reflexivity.
Qed.

(** Marking a worker that is not skipped runnable. *)
Lemma make_runnable_spec (ToRawDeadline : Z -> Z) (w : nat) (s : Orch) :
  SkipIdleWorker s w = false ->
  exists s',
    make_runnable ToRawDeadline w s = Some s' /\
    awake s' w = true /\
    options s' = options s /\ worker_work s' = worker_work s /\
    idle_sids_ s' = idle_sids_ s /\ ingress s' = ingress s /\
    recorded s' = recorded s /\ first_run s' = first_run s /\
    (forall w', w' <> w ->
       prio_table s' w' = prio_table s w' /\
       thread_wait s' w' = thread_wait s w') /\
    (forall v, marked v (effects s') = marked v (effects s) || Nat.eqb w v).
Proof.
  intros Hskip. unfold make_runnable, SkipIdleWorker, awake in *.
  destruct (UsesPrioTable s) eqn:Hprio.
  - apply negb_false_iff in Hskip. rewrite Hskip. cbn [Now].
    eexists. split; [reflexivity|].
    unfold UsesPrioTable, IsIdle in *. cbn [emit options set_prio_table prio_table].
    rewrite Hprio, fupd_same. cbn [flags].
    rewrite runnable_bit_set.
    split; [reflexivity|]. simpl.
    split; [reflexivity|]. split; [reflexivity|]. split; [reflexivity|].
    split; [reflexivity|]. split; [reflexivity|]. split; [reflexivity|].
    split.
    + intros w' Hne. unfold fupd. apply Nat.eqb_neq in Hne. rewrite Hne. auto.
    + intros v. rewrite existsb_app. simpl.
      rewrite runnable_bit_set, orb_false_r, andb_true_r. reflexivity.
  - eexists. split; [reflexivity|].
    unfold ThreadWait_MarkRunnable, UsesPrioTable in *.
    cbn [emit options set_thread_wait thread_wait]. rewrite Hprio, fupd_same.
    split; [reflexivity|]. simpl.
    split; [reflexivity|]. split; [reflexivity|]. split; [reflexivity|].
    split; [reflexivity|]. split; [reflexivity|]. split; [reflexivity|].
    split.
    + intros w' Hne. unfold fupd. apply Nat.eqb_neq in Hne. rewrite Hne. auto.
    + intros v. rewrite existsb_app. simpl.
      rewrite orb_false_r. reflexivity.
Qed.

Lemma firstn_nil_cases {A : Type} (n : nat) (l : list A) :
  firstn n l = [] -> n = 0 \/ l = [].
Proof. destruct n, l; simpl; auto. discriminate. Qed.

Lemma In_firstn {A : Type} (k : nat) (l : list A) (x : A) :
  In x (firstn k l) -> In x l.
Proof.
  revert l. induction k as [|k IH]; intros [|y l]; simpl; try tauto.
  intros [H|H]; auto.
Qed.

(** The loop of [LoadGenerator] over idle workers that are what
    [GetIdleWorkerSIDs] collects: it gives batches to the first [k] of
    them. *)
Lemma assign_batches_spec (ToRawDeadline : Z -> Z) (n : nat) :
  forall s : Orch,
    n <= length (idle_sids_ s) ->
    NoDup (idle_sids_ s) ->
    (forall w, In w (idle_sids_ s) ->
       num_requests (worker_work s w) = 0 /\ SkipIdleWorker s w = false) ->
    exists s' k,
      assign_batches ToRawDeadline n s = Some s' /\
      k <= n /\
      idle_sids_ s' = skipn k (idle_sids_ s) /\
      options s' = options s /\ recorded s' = recorded s /\
      first_run s' = first_run s /\
      map body (ingress s) =
        flat_map (fun w => map body (requests (worker_work s' w)))
          (firstn k (idle_sids_ s))
        ++ map body (ingress s') /\
      (forall w, In w (firstn k (idle_sids_ s)) ->
         num_requests (worker_work s' w) = length (requests (worker_work s' w)) /\
         1 <= num_requests (worker_work s' w) <= batch (options s) /\
         awake s' w = true /\ marked w (effects s') = true) /\
      (forall w, ~ In w (firstn k (idle_sids_ s)) ->
         num_requests (worker_work s' w) = num_requests (worker_work s w) /\
         prio_table s' w = prio_table s w /\
         thread_wait s' w = thread_wait s w /\
         marked w (effects s') = marked w (effects s)) /\
      (forall w, ~ In w (idle_sids_ s) -> worker_work s' w = worker_work s w) /\
      (k < n -> ingress s' = [] \/ batch (options s) = 0) /\
      (ingress s' <> [] ->
       forall w, In w (firstn k (idle_sids_ s)) ->
                 num_requests (worker_work s' w) = batch (options s)).
Proof.
  induction n as [|n IH]; intros s Hlen Hnd Hidle.
  - exists s, 0. cbn [assign_batches firstn skipn flat_map app].
    split; [reflexivity|]. split; [lia|]. do 5 (split; [reflexivity|]).
    split; [intros w []|]. split; [auto|]. split; [auto|].
    split; [lia|]. intros _ w [].
  - cbn [assign_batches].
    destruct (idle_sids_ s) as [|ws rest] eqn:Hi; [simpl in Hlen; lia|].
    destruct (Hidle ws (or_introl eq_refl)) as [Hzero Hskip].
    cbn [emit worker_work]. rewrite Hzero. cbn [Nat.eqb negb].
    set (s2 := set_worker_work ws (mkWorkerWork 0 [])
                 (emit (NumRequestsLoad ws memory_order_relaxed) s)).
    destruct (poll_batch_spec (batch (options s2)) ws s2)
      as (taken & Hreq & Hbody & Hrest & Hnum & Hoth & Ho3 & Hp3 & Ht3 & Hi3
          & He3 & Hr3 & Hf3).
    cbv zeta in *.
    set (s3 := poll_batch (batch (options s2)) ws s2) in *.
    assert (Hw2 : worker_work s2 ws = mkWorkerWork 0 [])
      by (unfold s2; simpl; apply fupd_same).
    assert (Hw2' : forall w, w <> ws -> worker_work s2 w = worker_work s w).
    { intros w Hne. unfold s2. simpl. unfold fupd.
      apply Nat.eqb_neq in Hne. rewrite Hne. reflexivity. }
    rewrite Hw2 in Hreq, Hnum. cbn [requests num_requests app] in Hreq, Hnum.
    assert (Ho2 : options s2 = options s) by reflexivity.
    assert (Hsplit : map body (ingress s) =
                     map body taken ++ map body (ingress s3)).
    { rewrite Hbody, Hrest, <- map_app, firstn_skipn. reflexivity. }
    assert (Htaken : length taken <= batch (options s)).
    { rewrite <- (length_map body), Hbody, length_map, <- Ho2.
      apply firstn_le_length. }
    rewrite Hreq.
    destruct taken as [|r0 rs] eqn:Htk.
    + (* nothing in the ingress queue *)
      exists s3, 0. cbn [firstn skipn flat_map app].
      assert (Hfirst : firstn (batch (options s2)) (ingress s2) = []).
      { symmetry in Hbody. apply map_eq_nil in Hbody. exact Hbody. }
      split; [reflexivity|]. split; [lia|].
      split; [rewrite Hi3; exact Hi|].
      split; [rewrite Ho3; reflexivity|].
      split; [rewrite Hr3; reflexivity|].
      split; [rewrite Hf3; reflexivity|].
      split; [exact Hsplit|].
      split; [intros w []|].
      split.
      { intros w _. rewrite Hp3, Ht3, He3.
        split; [|split; [reflexivity|split; [reflexivity|]]].
        - destruct (Nat.eq_dec w ws) as [->|Hne].
          + rewrite Hnum, Hzero. reflexivity.
          + rewrite (Hoth w Hne), (Hw2' w Hne). reflexivity.
        - unfold s2. simpl. rewrite existsb_app. simpl.
          rewrite orb_false_r. reflexivity. }
      split.
      { intros w Hw. assert (w <> ws) by (intros ->; apply Hw; left; reflexivity).
        rewrite (Hoth w H), (Hw2' w H). reflexivity. }
      split.
      { intros _. destruct (firstn_nil_cases _ _ Hfirst) as [H0|H0].
        - right. rewrite <- Ho2. exact H0.
        - left. rewrite Hrest. change (ingress s2) with (ingress s) in H0.
          change (ingress s2) with (ingress s). rewrite H0.
          destruct (batch (options s2)); reflexivity. }
      intros _ w [].
    + (* a batch for [ws] *)
      rewrite <- Htk in *.
      assert (Hpos : 1 <= length taken) by (rewrite Htk; simpl; lia).
      destruct (Nat.ltb_spec (batch (options (set_idle_sids rest s3)))
                  (length taken)) as [Hbad|_].
      { exfalso. simpl in Hbad. rewrite Ho3, Ho2 in Hbad. lia. }
      set (s5 := store_num_requests ws (length taken) memory_order_release
                   (set_idle_sids rest s3)).
      assert (Ho5 : options s5 = options s) by (unfold s5; simpl; congruence).
      assert (Hp5 : prio_table s5 = prio_table s)
        by (unfold s5; simpl; rewrite Hp3; reflexivity).
      assert (Ht5 : thread_wait s5 = thread_wait s)
        by (unfold s5; simpl; rewrite Ht3; reflexivity).
      assert (Hw5 : worker_work s5 ws = mkWorkerWork (length taken) taken).
      { unfold s5, store_num_requests. simpl. rewrite fupd_same, Hreq.
        reflexivity. }
      assert (Hw5' : forall w, w <> ws -> worker_work s5 w = worker_work s w).
      { intros w Hne. unfold s5, store_num_requests. simpl. unfold fupd.
        pose proof Hne as Hne'. apply Nat.eqb_neq in Hne'. rewrite Hne'.
        rewrite (Hoth w Hne). apply Hw2'. exact Hne. }
      assert (He5 : forall v, marked v (effects s5) = marked v (effects s)).
      { intros v. unfold s5, store_num_requests. simpl. rewrite He3.
        unfold s2. simpl. rewrite !existsb_app. simpl.
        rewrite !orb_false_r. reflexivity. }
      assert (Hskip5 : SkipIdleWorker s5 ws = false).
      { rewrite (SkipIdleWorker_at s s5 ws Ho5); [exact Hskip|].
        rewrite Hp5. reflexivity. }
      destruct (make_runnable_spec ToRawDeadline ws s5 Hskip5)
        as (s6 & Hmk & Hawake & Ho6 & Hw6 & Hi6 & Hin6 & Hr6 & Hf6 & Hoth6 & He6).
      rewrite Hmk.
      assert (Hrest6 : idle_sids_ s6 = rest) by (rewrite Hi6; reflexivity).
      apply NoDup_cons_iff in Hnd. destruct Hnd as [Hnotin Hnd].
      destruct (IH s6) as (s' & k & Hrun & Hk & Hidle' & Ho' & Hr' & Hf' & Hcons
                           & Hgiven & Hkept & Hout & Hstop & Hfull).
      { rewrite Hrest6. simpl in Hlen. lia. }
      { rewrite Hrest6. exact Hnd. }
      { rewrite Hrest6. intros w Hw.
        assert (Hne : w <> ws) by (intros ->; contradiction).
        destruct (Hidle w (or_intror Hw)) as [Hz Hs].
        rewrite Hw6, (Hw5' w Hne). split; [exact Hz|].
        rewrite (SkipIdleWorker_at s s6 w); [exact Hs|congruence|].
        rewrite (proj1 (Hoth6 w Hne)), Hp5. reflexivity. }
      rewrite Hrest6 in *.
      assert (Hws' : worker_work s' ws = mkWorkerWork (length taken) taken).
      { rewrite (Hout ws Hnotin), Hw6. exact Hw5. }
      assert (Hnot_first : ~ In ws (firstn k rest)).
      { intros H. apply Hnotin. exact (In_firstn _ _ _ H). }
      exists s', (S k). split; [exact Hrun|]. split; [lia|].
      cbn [firstn skipn flat_map].
      split; [exact Hidle'|].
      split; [congruence|].
      split; [rewrite Hr', Hr6; unfold s5; simpl; rewrite Hr3; reflexivity|].
      split; [rewrite Hf', Hf6; unfold s5; simpl; rewrite Hf3; reflexivity|].
      split.
      { rewrite Hsplit, Hws'. cbn [requests]. rewrite <- app_assoc. f_equal.
        rewrite <- Hcons, Hin6. reflexivity. }
      split.
      { intros w [<-|Hw].
        - rewrite Hws'. cbn [num_requests requests].
          split; [reflexivity|]. split; [lia|].
          destruct (Hkept ws Hnot_first) as (_ & Hp' & Ht' & Hm').
          rewrite (awake_ext s6 s' ws Ho' Hp' Ht'). split; [exact Hawake|].
          rewrite Hm', He6, Nat.eqb_refl. apply orb_true_r.
        - destruct (Hgiven w Hw) as (H1 & H2 & H3 & H4).
          rewrite Ho6, Ho5 in H2. auto. }
      split.
      { intros w Hw.
        assert (Hne : w <> ws) by (intros ->; apply Hw; left; reflexivity).
        assert (Hw' : ~ In w (firstn k rest)) by (intros H; apply Hw; right; exact H).
        destruct (Hkept w Hw') as (H1 & H2 & H3 & H4).
        rewrite H1, H2, H3, H4, Hw6, (Hw5' w Hne).
        rewrite (proj1 (Hoth6 w Hne)), (proj2 (Hoth6 w Hne)), Hp5, Ht5, He6, He5.
        apply not_eq_sym in Hne. apply Nat.eqb_neq in Hne. rewrite Hne, orb_false_r.
        auto. }
      split.
      { intros w Hw.
        assert (Hne : w <> ws) by (intros ->; apply Hw; left; reflexivity).
        rewrite (Hout w); [|intros H; apply Hw; right; exact H].
        rewrite Hw6. apply Hw5'. exact Hne. }
      split.
      { intros Hlt. rewrite Ho6, Ho5 in Hstop. apply Hstop. lia. }
      intros Hleft w [<-|Hw].
      * rewrite Hws'. cbn [num_requests].
        assert (Hmore : ingress s6 <> []).
        { intros Hnil. rewrite Hnil in Hcons. simpl in Hcons.
          symmetry in Hcons. apply app_eq_nil in Hcons.
          destruct Hcons as [_ Hc]. apply map_eq_nil in Hc. contradiction. }
        rewrite Hin6 in Hmore.
        assert (Hing5 : ingress s5 = skipn (batch (options s)) (ingress s)).
        { unfold s5. simpl. rewrite Hrest, Ho2. reflexivity. }
        rewrite Hing5 in Hmore.
        assert (Hlong : batch (options s) < length (ingress s)).
        { destruct (Nat.lt_ge_cases (batch (options s)) (length (ingress s)))
            as [H|H]; [exact H|].
          exfalso. apply Hmore. apply skipn_all2. exact H. }
        rewrite <- (length_map body), Hbody, length_map, Ho2.
        change (ingress s2) with (ingress s).
        apply firstn_length_le. lia.
      * rewrite (Hfull Hleft w Hw), Ho6, Ho5. reflexivity.
Qed.

(** ** A pass of the load generator *)

(** The effects of the first lines of [LoadGenerator]: what the load
    generator does the first time only. *)
Lemma LoadGenerator_first_run (sid : nat) (s : Orch) :
  let s1 :=
    if first_run s sid then s
    else
      let s' := emit ThreadsReadyWait
                  (emit (Printf sid)
                     (emit (SchedSetAffinity sid) (set_first_run sid s))) in
      let (_, s'') := Now s' in
      emit NetworkStart s'' in
  options s1 = options s /\ worker_work s1 = worker_work s /\
  prio_table s1 = prio_table s /\ thread_wait s1 = thread_wait s /\
  ingress s1 = ingress s /\ recorded s1 = recorded s /\
  exists pre, effects s1 = effects s ++ pre /\ forall w, marked w pre = false.
Proof.
  destruct (first_run s sid).
  - repeat split; auto. exists []. rewrite app_nil_r. auto.
  - cbn [Now]. simpl. repeat split; auto.
    exists [SchedSetAffinity sid; Printf sid; ThreadsReadyWait; NetworkStart].
    rewrite <- !app_assoc. split; reflexivity.
Qed.

Lemma loads_mark_nobody (order : memory_order) (w : nat) (l : list nat) :
  marked w (map (fun v => NumRequestsLoad v order) l) = false.
Proof. induction l; simpl; auto. Qed.

Lemma skipn_same_length {A : Type} (j k : nat) (l : list A) :
  j <= length l -> k <= length l -> skipn j l = skipn k l -> j = k.
Proof.
  intros Hj Hk H. apply (f_equal (@length A)) in H.
  rewrite !length_skipn in H. lia.
Qed.

(** A pass of [LoadGenerator], from any state: it gives batches to the first
    [k] of the idle workers; [new] are the effects of the pass. *)
Lemma LoadGenerator_spec (ToRawDeadline : Z -> Z) (sid : nat) (s : Orch) :
  exists s' k new,
    LoadGenerator ToRawDeadline sid s = Some s' /\
    k <= length (idle_workers s) /\
    idle_sids_ s' = skipn k (idle_workers s) /\
    options s' = options s /\ recorded s' = recorded s /\
    map body (ingress s) =
      flat_map (fun w => map body (requests (worker_work s' w)))
        (firstn k (idle_workers s))
      ++ map body (ingress s') /\
    effects s' = effects s ++ new /\
    (forall w, In w (firstn k (idle_workers s)) ->
       num_requests (worker_work s' w) = length (requests (worker_work s' w)) /\
       1 <= num_requests (worker_work s' w) <= batch (options s) /\
       awake s' w = true /\ marked w new = true) /\
    (forall w, ~ In w (firstn k (idle_workers s)) ->
       num_requests (worker_work s' w) = num_requests (worker_work s w) /\
       prio_table s' w = prio_table s w /\
       thread_wait s' w = thread_wait s w /\
       marked w new = false) /\
    (forall w, ~ In w (idle_workers s) -> worker_work s' w = worker_work s w) /\
    (k < length (idle_workers s) -> ingress s' = [] \/ batch (options s) = 0) /\
    (ingress s' <> [] ->
     forall w, In w (firstn k (idle_workers s)) ->
               num_requests (worker_work s' w) = batch (options s)).
Proof.
  unfold LoadGenerator.
  destruct (LoadGenerator_first_run sid s)
    as (Ho1 & Hw1 & Hp1 & Ht1 & Hin1 & Hr1 & pre & Hpre & Hnone).
  cbv zeta in Ho1, Hw1, Hp1, Ht1, Hin1, Hr1, Hpre.
  match goal with |- context [GetIdleWorkerSIDs ?st] => set (s1 := st) in * end.
  destruct (GetIdleWorkerSIDs_exact s1)
    as (Hi & He & Ho & Hw & Hp & Ht & Hin & Hr & Hc & Hf).
  cbv zeta in *.
  set (s2 := GetIdleWorkerSIDs s1) in *.
  assert (Hidle : idle_sids_ s2 = idle_workers s)
    by (rewrite Hi; apply idle_workers_ext; assumption).
  destruct (assign_batches_spec ToRawDeadline (length (idle_sids_ s2)) s2)
    as (s' & k & Hrun & Hk & Hidle' & Ho' & Hr' & Hf' & Hcons & Hgiven & Hkept
        & Hout & Hstop & Hfull).
  { apply Nat.le_refl. }
  { rewrite Hidle. unfold idle_workers. apply NoDup_filter, seq_NoDup. }
  { intros w Hw'. rewrite Hidle in Hw'. apply idle_workers_In in Hw'.
    destruct Hw' as (_ & Hz & Hs). rewrite Hw, Hw1. split; [exact Hz|].
    rewrite (SkipIdleWorker_ext s s2 w); [exact Hs|congruence|congruence]. }
  destruct (assign_batches_trace ToRawDeadline _ s2 s' Hrun)
    as (new & j & Hnew & Hj & Hidle'' & Hmarks).
  assert (j = k) as ->.
  { apply (skipn_same_length j k (idle_sids_ s2)); [exact Hj|exact Hk|].
    rewrite <- Hidle'. symmetry. exact Hidle''. }
  rewrite Hidle in *.
  assert (Ho2 : options s2 = options s) by congruence.
  rewrite Ho2 in *.
  set (loads := map (fun w => NumRequestsLoad w memory_order_acquire)
                  (seq 1 (num_workers (options s1)))) in *.
  assert (Hall : forall w, marked w (pre ++ loads ++ new) = marked w new).
  { intros w. rewrite !existsb_app, Hnone. unfold loads.
    rewrite loads_mark_nobody. reflexivity. }
  exists s', k, (pre ++ loads ++ new).
  split; [exact Hrun|]. split; [exact Hk|].
  split; [exact Hidle'|]. split; [exact Ho'|].
  split; [congruence|].
  split; [rewrite <- Hin1, <- Hin; exact Hcons|].
  split; [rewrite Hnew, He, Hpre, <- !app_assoc; reflexivity|].
  split.
  { intros w Hw'. destruct (Hgiven w Hw') as (H1 & H2 & H3 & _).
    rewrite Hall. split; [exact H1|]. split; [exact H2|]. split; [exact H3|].
    apply Hmarks. exact Hw'. }
  split.
  { intros w Hn. destruct (Hkept w Hn) as (H1 & H2 & H3 & _).
    rewrite H1, H2, H3, Hw, Hw1, Hp, Hp1, Ht, Ht1, Hall.
    split; [reflexivity|]. split; [reflexivity|]. split; [reflexivity|].
    destruct (marked w new) eqn:Hm; [|reflexivity].
    exfalso. apply Hn. apply Hmarks. exact Hm. }
  split; [intros w Hn; rewrite (Hout w Hn), Hw, Hw1; reflexivity|].
  split; [exact Hstop|exact Hfull].
Qed.

(** X22.  A pass of [LoadGenerator] passes every [CHECK] of its loop,
    whatever the state it starts from, and hands the ingress queue out in
    order: the requests that were waiting are the batches of the workers it
    served, in the order of their SIDs, followed by the requests still
    waiting.  The workers served are the first of the idle workers; each has
    at least one request and at most [batch], and [num_requests] is the size
    of its vector. *)
Theorem LoadGenerator_hands_out_in_order (ToRawDeadline : Z -> Z)
    (sid : nat) (s : Orch) :
  exists s' served,
    LoadGenerator ToRawDeadline sid s = Some s' /\
    idle_workers s = served ++ idle_sids_ s' /\
    map body (ingress s) =
      flat_map (fun w => map body (requests (worker_work s' w))) served
      ++ map body (ingress s') /\
    forall w, In w served ->
      num_requests (worker_work s' w) = length (requests (worker_work s' w)) /\
      1 <= num_requests (worker_work s' w) <= batch (options s').
Proof.
  destruct (LoadGenerator_spec ToRawDeadline sid s)
    as (s' & k & new & Hrun & Hk & Hidle & Ho & _ & Hcons & _ & Hgiven & _).
  exists s', (firstn k (idle_workers s)).
  split; [exact Hrun|].
  split; [rewrite Hidle; symmetry; apply firstn_skipn|].
  split; [exact Hcons|].
  intros w Hw. destruct (Hgiven w Hw) as (H1 & H2 & _). rewrite Ho. auto.
Qed.

(** X23.  A pass of [LoadGenerator] wakes exactly the workers it serves.
    Let [new] be the effects of the pass, those it adds to the effects that
    were there.  A worker whose [num_requests] the pass changed was idle, is
    marked runnable by an effect of the pass and is awake after it (the
    RUNNABLE bit of its sched item, or its futex flag, is set), with
    [num_requests] the size of its batch.  Every other worker keeps its
    [num_requests], its sched item and its futex flag, and no effect of the
    pass marks it runnable. *)
Theorem LoadGenerator_wakes_whom_it_serves (ToRawDeadline : Z -> Z)
    (sid : nat) (s : Orch) :
  exists s' new,
    LoadGenerator ToRawDeadline sid s = Some s' /\
    effects s' = effects s ++ new /\
    forall w,
      if Nat.eqb (num_requests (worker_work s' w)) (num_requests (worker_work s w))
      then prio_table s' w = prio_table s w /\
           thread_wait s' w = thread_wait s w /\
           marked w new = false
      else In w (idle_workers s) /\
           num_requests (worker_work s' w) = length (requests (worker_work s' w)) /\
           awake s' w = true /\
           marked w new = true.
Proof.
  destruct (LoadGenerator_spec ToRawDeadline sid s)
    as (s' & k & new & Hrun & Hk & Hidle & Ho & _ & Hcons & Hnew & Hgiven & Hkept
        & _).
  exists s', new. split; [exact Hrun|]. split; [exact Hnew|]. intros w.
  destruct (in_dec Nat.eq_dec w (firstn k (idle_workers s))) as [Hin|Hn].
  - destruct (Hgiven w Hin) as (H1 & H2 & H3 & H4).
    pose proof (In_firstn _ _ _ Hin) as Hidlew.
    pose proof (proj1 (idle_workers_In s w) Hidlew) as (_ & Hz & _).
    rewrite Hz.
    destruct (Nat.eqb_spec (num_requests (worker_work s' w)) 0) as [Hz'|_]; [lia|].
    auto.
  - destruct (Hkept w Hn) as (H1 & H2 & H3 & H4).
    rewrite H1, Nat.eqb_refl. auto.
Qed.

(** X24.  [LoadGenerator] leaves requests in the ingress queue only when it
    has no idle worker left: if requests are still waiting after a pass
    (and [batch] is not 0), every worker that was idle has been given a full
    batch of [batch] requests, and [idle_sids_] is empty. *)
Theorem LoadGenerator_leaves_no_worker_idle (ToRawDeadline : Z -> Z)
    (sid : nat) (s s' : Orch) :
  LoadGenerator ToRawDeadline sid s = Some s' ->
  ingress s' <> [] ->
  batch (options s) <> 0 ->
  idle_sids_ s' = [] /\
  forall w, In w (idle_workers s) ->
    num_requests (worker_work s' w) = batch (options s) /\
    length (requests (worker_work s' w)) = batch (options s) /\
    awake s' w = true.
Proof.
  intros Hrun Hleft Hbatch.
  destruct (LoadGenerator_spec ToRawDeadline sid s)
    as (r & k & new & Hrun' & Hk & Hidle & Ho & _ & Hcons & _ & Hgiven & Hkept & _
        & Hstop & Hfull).
  rewrite Hrun in Hrun'. injection Hrun' as <-.
  assert (Hall : k = length (idle_workers s)).
  { destruct (Nat.eq_dec k (length (idle_workers s))) as [|Hne]; [assumption|].
    destruct Hstop as [H|H]; [lia|contradiction|contradiction]. }
  rewrite Hall, firstn_all in *.
  split; [rewrite Hidle; apply skipn_all|].
  intros w Hw. destruct (Hgiven w Hw) as (H1 & _ & H3 & _).
  rewrite <- H1, (Hfull Hleft w Hw). auto.
Qed.

Lemma LoadGenerator_leaves_no_worker_idle_witness :
  let s := mkOrch (mkOptions 2 1 kFutex)
             (fun _ => mkWorkerWork 0 []) (fun i => mkSchedItem i 0 0 0 0)
             (fun _ => false) [] (fun _ => false)
             [mkRequest 10 0 0 0; mkRequest 11 0 0 0; mkRequest 12 0 0 0]
             (fun _ => []) 0 [] in
  match LoadGenerator (fun d => d) 0 s with
  | Some s' =>
      map body (ingress s') = [12%Z] /\
      idle_sids_ s' = [] /\
      num_requests (worker_work s' 1) = 1 /\ num_requests (worker_work s' 2) = 1 /\
      awake s' 1 = true /\ awake s' 2 = true
  | None => False
  end.
Proof.
  intros s.
  destruct (LoadGenerator (fun d => d) 0 s) as [s'|] eqn:Hrun;
    [|vm_compute in Hrun; discriminate].
  assert (Hing : option_map (fun r => map body (ingress r))
                   (LoadGenerator (fun d => d) 0 s) = Some [12%Z])
    by (vm_compute; reflexivity).
  rewrite Hrun in Hing. cbn [option_map] in Hing. injection Hing as Hing.
  assert (Hleft : ingress s' <> [])
    by (intros Hnil; rewrite Hnil in Hing; discriminate).
  destruct (LoadGenerator_leaves_no_worker_idle (fun d => d) 0 s s' Hrun Hleft)
    as (Hidle & Hall); [vm_compute; discriminate|].
  split; [exact Hing|]. split; [exact Hidle|].
  destruct (Hall 1) as (H1 & _ & A1); [vm_compute; auto|].
  destruct (Hall 2) as (H2 & _ & A2); [vm_compute; auto|].
  auto.
Defined.

(** X25.  With nothing in the ingress queue a pass of [LoadGenerator] serves
    and wakes no worker: every worker keeps its [num_requests], its sched
    item and its futex flag, no effect of the pass marks a worker runnable,
    and the idle workers all stay in [idle_sids_]. *)
Theorem LoadGenerator_on_empty_queue (ToRawDeadline : Z -> Z)
    (sid : nat) (s : Orch) :
  ingress s = [] ->
  exists s' new,
    LoadGenerator ToRawDeadline sid s = Some s' /\
    effects s' = effects s ++ new /\
    ingress s' = [] /\
    idle_sids_ s' = idle_workers s /\
    forall w,
      num_requests (worker_work s' w) = num_requests (worker_work s w) /\
      prio_table s' w = prio_table s w /\
      thread_wait s' w = thread_wait s w /\
      marked w new = false.
Proof.
  intros Hempty.
  destruct (LoadGenerator_spec ToRawDeadline sid s)
    as (s' & k & new & Hrun & Hk & Hidle & Ho & _ & Hcons & Hnew & Hgiven & Hkept
        & _).
  rewrite Hempty in Hcons. simpl in Hcons. symmetry in Hcons.
  apply app_eq_nil in Hcons. destruct Hcons as [Hnone Hing].
  assert (Hk0 : k = 0).
  { destruct k as [|k]; [reflexivity|]. exfalso.
    destruct (idle_workers s) as [|w l] eqn:Hl; [simpl in Hk; lia|].
    cbn [firstn flat_map] in Hnone. apply app_eq_nil in Hnone.
    destruct Hnone as [Hw _]. apply map_eq_nil in Hw.
    destruct (Hgiven w) as (H1 & H2 & _); [left; reflexivity|].
    rewrite Hw in H1. simpl in H1. lia. }
  subst k. cbn [firstn skipn] in *.
  exists s', new. split; [exact Hrun|]. split; [exact Hnew|].
  split; [apply map_eq_nil in Hing; exact Hing|].
  split; [exact Hidle|].
  intros w. apply Hkept. intros [].
Qed.

Lemma LoadGenerator_on_empty_queue_witness :
  let s := mkOrch (mkOptions 2 4 kPrioTable)
             (fun _ => mkWorkerWork 0 [mkRequest 7 1 2 3])
             (fun i => mkSchedItem i 0 0 0 0)
             (fun _ => false) [] (fun _ => true) [] (fun _ => []) 0 [] in
  exists s',
    LoadGenerator (fun d => d) 0 s = Some s' /\
    idle_sids_ s' = [1; 2] /\
    (forall w, num_requests (worker_work s' w) = 0) /\
    (forall w, marked w (effects s') = false).
Proof.
  intros s.
  destruct (LoadGenerator_on_empty_queue (fun d => d) 0 s eq_refl)
    as (s' & new & Hrun & Hnew & _ & Hidle & Hall).
  exists s'. split; [exact Hrun|]. split; [exact Hidle|].
  split.
  - intros w. destruct (Hall w) as (H & _). exact H.
  - intros w. rewrite Hnew. destruct (Hall w) as (_ & _ & _ & H). exact H.
Defined.

(** ** The workers that a pass marks runnable *)

(** C7.  On the priority table, [GetIdleWorkerSIDs] collects a worker exactly
    when its [num_requests] is 0 and its idle bit is set; a worker whose idle
    bit is not set is skipped; and a pass of the load generator, from any
    state, returns, and its own effects, those it adds to the effects that
    were there, mark runnable no worker but workers that the pass found with
    [num_requests] at 0 and the idle bit set. *)
Theorem LoadGenerator_assigns_idle_only (ToRawDeadline : Z -> Z)
    (sid : nat) (s : Orch) :
  ghost_wait_type (options s) = kPrioTable ->
  (forall w, In w (idle_sids_ (GetIdleWorkerSIDs s)) <->
             1 <= w <= num_workers (options s) /\
             num_requests (worker_work s w) = 0 /\
             IsIdle s w = true)
  /\
  (forall w, IsIdle s w = false -> SkipIdleWorker s w = true)
  /\
  (exists s' new,
      LoadGenerator ToRawDeadline sid s = Some s' /\
      effects s' = effects s ++ new /\
      forall w, marked w new = true ->
                1 <= w <= num_workers (options s) /\
                num_requests (worker_work s w) = 0 /\
                IsIdle s w = true).
Proof.
  intros Hprio.
  assert (Hskip : forall w, SkipIdleWorker s w = false <-> IsIdle s w = true).
  { intros w. unfold SkipIdleWorker, UsesPrioTable, IsIdle.
    rewrite Hprio. destruct (Z.eqb _ 0); simpl; split; congruence. }
  split; [|split].
  - intros w. destruct (GetIdleWorkerSIDs_spec s) as (_ & _ & _ & Hi & _).
    rewrite (Hi w), (Hskip w). reflexivity.
  - intros w Hidle. destruct (SkipIdleWorker s w) eqn:Hk; [reflexivity|].
    apply Hskip in Hk. congruence.
  - destruct (LoadGenerator_spec ToRawDeadline sid s)
      as (s' & k & new & Hrun & _ & _ & _ & _ & _ & Hnew & _ & Hkept & _).
    exists s', new. split; [exact Hrun|]. split; [exact Hnew|].
    intros w Hmark.
    destruct (in_dec Nat.eq_dec w (firstn k (idle_workers s))) as [Hin|Hn].
    + apply In_firstn, idle_workers_In in Hin.
      destruct Hin as (Hrange & Hz & Hs). apply Hskip in Hs. auto.
    + destruct (Hkept w Hn) as (_ & _ & _ & Hm). congruence.
Qed.

Lemma LoadGenerator_assigns_idle_only_witness :
  let s := mkOrch (mkOptions 2 4 kPrioTable)
             (fun w => mkWorkerWork (if Nat.eqb w 1 then 2 else 0) [])
             (fun i => mkSchedItem i 0 0 (if Nat.eqb i 1 then 1%Z else 0%Z) 0)
             (fun _ => false) [] (fun _ => true)
             [mkRequest 10 0 0 0; mkRequest 11 0 0 0] (fun _ => []) 0
             [SchedItemSet 1 (mkSchedItem 1 0 0 1 0)] in
  ghost_wait_type (options s) = kPrioTable /\
  idle_sids_ (GetIdleWorkerSIDs s) = [2] /\
  (forall w, IsIdle s w = false -> SkipIdleWorker s w = true) /\
  exists s' new,
    LoadGenerator (fun d => d) 0 s = Some s' /\
    effects s' = effects s ++ new /\
    marked 1 new = false /\
    num_requests (worker_work s' 2) = 2.
Proof.
  intros s.
  destruct (LoadGenerator_assigns_idle_only (fun d => d) 0 s eq_refl)
    as (_ & Hskip & s' & new & Hrun & Hnew & Hmarks).
  split; [reflexivity|]. split; [reflexivity|]. split; [exact Hskip|].
  exists s', new. split; [exact Hrun|]. split; [exact Hnew|].
  split.
  - destruct (marked 1 new) eqn:Hm; [|reflexivity].
    destruct (Hmarks 1 Hm) as (_ & Hz & _). vm_compute in Hz. discriminate.
  - assert (H : option_map (fun r => num_requests (worker_work r 2))
                  (LoadGenerator (fun d => d) 0 s) = Some 2)
      by (vm_compute; reflexivity).
    rewrite Hrun in H. cbn [option_map] in H. injection H as H. exact H.
Defined.


(** ** From the load generator to a worker and back *)

(** A worker with a batch: none of its [CHECK]s fails, and it is idle
    again at the end. *)
Lemma Worker_batch (HandleRequest : Request -> Request) (i : nat) (s : Orch) :
  0 < num_requests (worker_work s i) ->
  num_requests (worker_work s i) <= batch (options s) ->
  num_requests (worker_work s i) = length (requests (worker_work s i)) ->
  exists s' recs,
    Worker HandleRequest i s = Some s' /\
    length recs = length (requests (worker_work s i)) /\
    effects s' =
      effects s ++ first_run_effects s i
        ++ [NumRequestsLoad i memory_order_acquire]
        ++ processing i (requests (worker_work s i)) recs
        ++ finish_order (ghost_wait_type (options s)) i /\
    recorded s' i = recorded s i ++ recs /\
    num_requests (worker_work s' i) = 0 /\
    options s' = options s /\
    SkipIdleWorker s' i = false /\
    awake s' i = false.
Proof.
  intros Hpos Hbatch Hlen. unfold Worker.
  destruct (worker_first_run_spec i s)
    as (Ho & Hw & Hp & Ht & Hi & Hin & Hr & Hc & Hf & Hfo & He).
  set (s2 := emit (NumRequestsLoad i memory_order_acquire) (worker_first_run i s)).
  assert (Hw2 : worker_work s2 = worker_work s) by exact Hw.
  assert (Ho2 : options s2 = options s) by exact Ho.
  rewrite Hw2, Ho2.
  destruct (Nat.eqb_spec (num_requests (worker_work s i)) 0) as [Hz|_]; [lia|].
  destruct (Nat.ltb_spec (batch (options s)) (num_requests (worker_work s i)));
    [lia|].
  destruct (Nat.eqb_spec (num_requests (worker_work s i))
              (length (requests (worker_work s i)))) as [_|Hne];
    [|contradiction].
  cbn [negb].
  destruct (handle_batch_spec HandleRequest i (requests (worker_work s i)) [] s2)
    as (recs & Hrl & Heff & Hrec & Hnum & Hrq & Ho3 & Hp3 & Ht3).
  { rewrite Hw2. reflexivity. }
  cbv zeta in *. simpl length in *. rewrite <- Hlen in *.
  set (s3 := handle_batch HandleRequest i (num_requests (worker_work s i)) 0 s2) in *.
  assert (He3 : effects s3 =
                effects s ++ first_run_effects s i
                  ++ [NumRequestsLoad i memory_order_acquire]
                  ++ processing i (requests (worker_work s i)) recs).
  { rewrite Heff. unfold s2. simpl. rewrite He, <- !app_assoc. reflexivity. }
  unfold UsesPrioTable. rewrite Ho3, Ho2.
  destruct (ghost_wait_type (options s)) eqn:Hwait.
  - eexists. exists recs. split; [reflexivity|].
    split; [exact Hrl|]. simpl.
    split; [rewrite He3, <- !app_assoc; reflexivity|].
    split; [rewrite Hrec; unfold s2; simpl; rewrite Hr; reflexivity|].
    unfold SkipIdleWorker, awake, UsesPrioTable, IsIdle. simpl.
    rewrite !fupd_same, Ho3, Ho2, Hwait. simpl.
    rewrite runnable_bit_cleared. auto.
  - eexists. exists recs. split; [reflexivity|].
    split; [exact Hrl|]. simpl.
    split; [rewrite He3, <- !app_assoc; reflexivity|].
    split; [rewrite Hrec; unfold s2; simpl; rewrite Hr; reflexivity|].
    unfold SkipIdleWorker, awake, UsesPrioTable. simpl.
    rewrite !fupd_same, Ho3, Ho2, Hwait. auto.
Qed.

(** X26.  The batch that [LoadGenerator] gives a worker is one that
    [Worker] accepts: run on the state that the pass leaves, the worker
    passes both its [CHECK]s, handles the requests of its batch in order,
    records one latency for each, and ends with [num_requests] at 0 and
    marked idle, so that it is among the idle workers of the next pass. *)
Theorem batch_round_trip (HandleRequest : Request -> Request)
    (ToRawDeadline : Z -> Z) (sid w : nat) (s s1 : Orch) :
  LoadGenerator ToRawDeadline sid s = Some s1 ->
  num_requests (worker_work s1 w) <> num_requests (worker_work s w) ->
  exists s2 recs,
    Worker HandleRequest w s1 = Some s2 /\
    length recs = num_requests (worker_work s1 w) /\
    effects s2 =
      effects s1 ++ first_run_effects s1 w
        ++ [NumRequestsLoad w memory_order_acquire]
        ++ processing w (requests (worker_work s1 w)) recs
        ++ finish_order (ghost_wait_type (options s1)) w /\
    recorded s2 w = recorded s w ++ recs /\
    awake s2 w = false /\
    In w (idle_workers s2).
Proof.
  intros Hrun Hserved.
  destruct (LoadGenerator_spec ToRawDeadline sid s)
    as (r & k & new & Hrun' & Hk & Hidle & Ho & Hr & Hcons & _ & Hgiven & Hkept & _).
  rewrite Hrun in Hrun'. injection Hrun' as <-.
  destruct (in_dec Nat.eq_dec w (firstn k (idle_workers s))) as [Hin|Hn];
    [|destruct (Hkept w Hn) as (H & _); contradiction].
  destruct (Hgiven w Hin) as (H1 & H2 & _).
  pose proof (proj1 (idle_workers_In s w) (In_firstn _ _ _ Hin)) as (Hrange & _).
  destruct (Worker_batch HandleRequest w s1)
    as (s2 & recs & Hw & Hlen & Heff & Hrec & Hz & Ho2 & Hskip & Hasleep);
    [lia|rewrite Ho; lia|exact H1|].
  exists s2, recs. split; [exact Hw|].
  split; [rewrite Hlen; symmetry; exact H1|].
  split; [exact Heff|].
  split; [rewrite Hrec, Hr; reflexivity|].
  split; [exact Hasleep|].
  apply idle_workers_In. rewrite Ho2, Ho. auto.
Qed.

Lemma batch_round_trip_witness :
  let s := mkOrch (mkOptions 2 2 kPrioTable)
             (fun _ => mkWorkerWork 0 []) (fun i => mkSchedItem i 0 0 0 0)
             (fun _ => false) [] (fun _ => true)
             [mkRequest 10 0 0 0; mkRequest 11 0 0 0; mkRequest 12 0 0 0]
             (fun _ => []) 0 [] in
  match LoadGenerator (fun d => d) 0 s with
  | Some s1 =>
      exists s2 recs,
        Worker (fun r => r) 2 s1 = Some s2 /\
        length recs = 1 /\
        recorded s2 2 = recs /\
        In 2 (idle_workers s2)
  | None => False
  end.
Proof.
  intros s.
  destruct (LoadGenerator (fun d => d) 0 s) as [s1|] eqn:Hrun;
    [|vm_compute in Hrun; discriminate].
  assert (Hn : option_map (fun r => num_requests (worker_work r 2))
                 (LoadGenerator (fun d => d) 0 s) = Some 1)
    by (vm_compute; reflexivity).
  rewrite Hrun in Hn. cbn [option_map] in Hn. injection Hn as Hn.
  destruct (batch_round_trip (fun r => r) (fun d => d) 0 2 s s1 Hrun)
    as (s2 & recs & Hw & Hlen & _ & Hrec & _ & Hidle).
  { rewrite Hn. vm_compute. discriminate. }
  exists s2, recs. rewrite Hn in Hlen. auto.
Defined.

(** ** Setting up the priority table *)

Lemma fold_init_sched_item (wcid : Z) (gtids : list Z) (l : list nat) :
  forall s : Orch,
    let r := fold_left (init_sched_item wcid gtids) l s in
    (forall i, In i l ->
       prio_table r i = mkSchedItem i wcid (nth i gtids 0%Z) 0 0) /\
    (forall i, ~ In i l -> prio_table r i = prio_table s i) /\
    (forall w, marked w (effects r) = marked w (effects s)) /\
    length (effects r) = length (effects s) + length l /\
    options r = options s /\ worker_work r = worker_work s /\
    thread_wait r = thread_wait s /\ ingress r = ingress s /\
    recorded r = recorded s /\ first_run r = first_run s.
Proof.
  induction l as [|j l IH]; intros s; cbn [fold_left].
  - simpl. rewrite Nat.add_0_r. repeat split; auto. intros i [].
  - destruct (IH (init_sched_item wcid gtids s j))
      as (Hin & Hout & Hm & Hlen & Ho & Hw & Ht & Hi & Hr & Hf).
    cbv zeta in *.
    split.
    { intros i [<-|Hi']; [|apply Hin; exact Hi'].
      destruct (in_dec Nat.eq_dec j l) as [Hj|Hj]; [apply Hin; exact Hj|].
      rewrite (Hout j Hj). unfold init_sched_item. simpl. apply fupd_same. }
    split.
    { intros i Hn. rewrite Hout by (intros H; apply Hn; right; exact H).
      unfold init_sched_item. simpl. unfold fupd.
      destruct (Nat.eqb_spec i j) as [->|_]; [|reflexivity].
      exfalso. apply Hn. left. reflexivity. }
    split.
    { intros w. rewrite Hm. unfold init_sched_item. simpl.
      rewrite existsb_app. simpl. rewrite andb_false_r, !orb_false_r.
      reflexivity. }
    split.
    { rewrite Hlen. unfold init_sched_item. simpl. rewrite length_app. simpl.
      lia. }
    rewrite Ho, Hw, Ht, Hi, Hr, Hf. unfold init_sched_item. simpl. auto 10.
Qed.

(** X27.  [InitPrioTable] passes its [CHECK]s exactly on the priority table
    and with one GTID for each thread.  It then writes the one-shot work
    class and one sched item for each worker, with the SID of the worker,
    the work class, the GTID of the thread and no flag: every worker is idle
    in the table and none is marked runnable.  The sched item of the load
    generator, SID 0, is not written.  If no worker has requests, the first
    pass of the load generator finds all the workers idle. *)
Theorem InitPrioTable_leaves_workers_idle
    (kWorkClassIdentifier WORK_CLASS_ONESHOT ghost_qos : Z)
    (gtids : list Z) (wc : work_class) (s : Orch) :
  ghost_wait_type (options s) = kPrioTable ->
  length gtids = num_workers (options s) + 1 ->
  exists s',
    InitPrioTable kWorkClassIdentifier WORK_CLASS_ONESHOT ghost_qos gtids wc s
    = Some (mkWorkClass kWorkClassIdentifier WORK_CLASS_ONESHOT ghost_qos 100 0,
            s') /\
    (forall i, 1 <= i <= num_workers (options s) ->
       prio_table s' i =
         mkSchedItem i kWorkClassIdentifier (nth i gtids 0%Z) 0 0 /\
       IsIdle s' i = true /\ awake s' i = false) /\
    (forall i, i = 0 \/ num_workers (options s) < i ->
       prio_table s' i = prio_table s i) /\
    (forall w, marked w (effects s') = marked w (effects s)) /\
    length (effects s') = length (effects s) + num_workers (options s) /\
    options s' = options s /\ worker_work s' = worker_work s /\
    ((forall w, num_requests (worker_work s w) = 0) ->
     idle_workers s' = seq 1 (num_workers (options s))).
Proof.
  intros Hprio Hlen. unfold InitPrioTable, total_threads, UsesPrioTable.
  rewrite Hprio, Hlen, Nat.eqb_refl. cbn [negb].
  replace (num_workers (options s) + 1 - 1) with (num_workers (options s)) by lia.
  destruct (fold_init_sched_item kWorkClassIdentifier gtids
              (seq 1 (num_workers (options s))) s)
    as (Hin & Hout & Hm & Hl & Ho & Hw & _).
  cbv zeta in *.
  set (s' := fold_left (init_sched_item kWorkClassIdentifier gtids)
               (seq 1 (num_workers (options s))) s) in *.
  assert (Hitem : forall i, 1 <= i <= num_workers (options s) ->
            prio_table s' i =
              mkSchedItem i kWorkClassIdentifier (nth i gtids 0%Z) 0 0 /\
            IsIdle s' i = true /\ awake s' i = false).
  { intros i Hi. assert (Hi' : In i (seq 1 (num_workers (options s))))
      by (apply in_seq; lia).
    rewrite (Hin i Hi'). split; [reflexivity|].
    unfold awake, IsIdle, UsesPrioTable.
    rewrite (Hin i Hi'), Ho, Hprio. simpl. auto. }
  exists s'. split; [reflexivity|].
  split; [exact Hitem|].
  split; [intros i Hi; apply Hout; rewrite in_seq; lia|].
  split; [exact Hm|].
  split; [rewrite Hl, length_seq; reflexivity|].
  split; [exact Ho|]. split; [exact Hw|].
  intros Hzero. unfold idle_workers. rewrite Ho.
  apply forallb_filter_id. apply forallb_forall. intros w Hw'.
  apply in_seq in Hw'. rewrite Hw, Hzero. simpl.
  unfold SkipIdleWorker, UsesPrioTable. rewrite Ho, Hprio.
  destruct (Hitem w) as (_ & Hidle & _); [lia|]. rewrite Hidle. reflexivity.
Qed.

Lemma InitPrioTable_leaves_workers_idle_witness :
  let s := mkOrch (mkOptions 2 4 kPrioTable)
             (fun _ => mkWorkerWork 0 []) (fun i => mkSchedItem 9 9 9 1 9)
             (fun _ => false) [] (fun _ => false) [] (fun _ => []) 0 [] in
  exists s',
    InitPrioTable 5 1 2 [100; 101; 102]%Z (mkWorkClass 0 0 0 0 0) s
    = Some (mkWorkClass 5 1 2 100 0, s') /\
    idle_workers s' = [1; 2] /\
    prio_table s' 0 = mkSchedItem 9 9 9 1 9.
Proof.
  intros s.
  destruct (InitPrioTable_leaves_workers_idle 5 1 2 [100; 101; 102]%Z
              (mkWorkClass 0 0 0 0 0) s eq_refl eq_refl)
    as (s' & Hrun & _ & Hload & _ & _ & _ & _ & Hidle).
  exists s'. split; [exact Hrun|].
  split; [apply Hidle; reflexivity|].
  apply Hload. left. reflexivity.
Defined.

End OrchestratorPasses.
